(* ===== verification/_CoqProject ===== *)
-Q . S2P
Prelude.v
GoLib.v
GoTime.v
GoDuration.v
Domain.v
Database.v
Effects.v
Migrations.v
Concrete.v
Pagination.v
OutboxRepo.v
OutboxInv.v
OutboxService.v
OutboxSpec.v
OutboxOrder.v
OutboxReach.v
OutboxRace.v
OutboxLocks.v
OutboxDeadlock.v
OutboxLife.v
AuthRepo.v
AuthService.v
AuthSpec.v
ClientRepo.v
FriendRepo.v
RoomRepo.v
ClientService.v
RoomService.v
EventBus.v
Push.v
Config.v
Rpc.v
Handler.v
Stream.v
Runtime.v
Dsn.v
Process.v
Json.v
Logging.v
Http.v
Lint.v
ClockSpec.v
UsageSpec.v
KeyPackageSpec.v
FriendSpec.v
FriendRace.v
RoomSpec.v
RoomInv.v
RoomDirect.v
RoomMembers.v
PushSpec.v
ConfigSpec.v
HandlerSpec.v
PanicSpec.v
HandlerPull.v
Delivery.v
DeliverySpec.v
DeliveryBacklog.v
StreamSpec.v
StreamBus.v
RuntimeSpec.v
ProcessSpec.v
ProcessExit.v
JsonSpec.v
LoggingSpec.v
Witnesses.v
ClientWitnesses.v
HandlerWitnesses.v
DeliveryWitness.v
StartWitnesses.v
StreamWitnesses.v
