(* ===== verification/Prelude.v ===== *)
(** * server_v2: verification library

    This library models the Go server of the repository ([src/]) and proves
    what makes it correct.  The server speaks a CBOR based RPC over HTTP,
    WebSocket and TCP; clients prove a key by signing a challenge, and then
    use profiles, devices, MLS key packages, friends, rooms and messages.
    Whatever happens to a user becomes an event, which is stored, put into
    the outbox of each of the user's devices, delivered with the responses
    of an open connection or by its push goroutine, pushed through Firebase
    for sleeping devices, and acknowledged.

    ** How the program is modelled

    A Go function [f(ctx, ...) (A, error)] is a computation [Ctx → ... → M A]
    ([Effects]): a function of the [World] (tables, clock, generated UUIDs,
    random draws, notifications sent) to a value, an error or a panic, and
    the next world.  The same name is used for the same function; a prefix
    [Repo] or [Svc] (or a suffix) tells a repository method from a service
    method of the same name.  Changes made before an error stay, except that
    [WithinTransaction] rolls the tables back.  The class [Env] supplies what
    is outside: the n-th reading of the clock, the n-th UUID and random draw,
    which of the statements sent to the database fail, and the third-party
    functions (ed25519, uuid, cbor, [net.ParseIP], two SQL functions).  The
    class [Codec] of [Rpc] supplies the CBOR decoding of packets.  No law is
    assumed of them except where a theorem names it: a clock that does not
    run backwards, UUIDs that are new and hashes of them that do not collide
    ([distinct_ids]), notifiers that return ([NotifierLaws]), writers that
    keep the contract of [io.Writer] ([WriterLaws]) and answers that reach
    the client as net/http documents it ([ResponseWriterLaws]).  [Concrete], and the codec of [HandlerWitnesses], give
    functions for all of them, in which every witness runs.

    A statement of a repository is a function on the tables of [Database]
    with the keys, checks and foreign keys of [db/migrations]; a statement
    is atomic, a method is a sequence of statements of which any may fail.
    Integers are [Z] with the wrap-around of their width where the code can
    reach it ([Prelude], [GoLib], [GoDuration]); byte slices are [list byte];
    a [map[string]any] is an association list of [any] ([Domain]).  Instants
    are microseconds, the resolution of the tables; the configuration counts
    nanoseconds and [Config.micros] is the passage, which rounds away from
    zero so that no sign is lost.

    ** Parts, files and sources

    - the language and its library: [Prelude], [GoLib] (strings, strconv,
      hex, base64, binary), [GoTime] (RFC 3339), [GoDuration]
      ([time.ParseDuration]).
    - data and effects: [Domain] (internal/domain, clientapi/types.go),
      [Database] (db/migrations and the SQL used), [Effects] (the monad,
      transactions of postgres/store.go, triples and frame lemmas),
      [Concrete]; [Migrations] (the order of the migrations and the
      clean-ups of internal/testutil, [Open] of postgres/store.go).
    - the device outbox: [OutboxRepo] (postgres/auth_repository_outbox.go),
      [OutboxService] (application/outbox); [OutboxInv], [OutboxSpec],
      [OutboxOrder], [OutboxReach], [OutboxLife] prove it; [OutboxRace],
      [OutboxLocks] and [OutboxDeadlock] let its transactions overlap.
    - authentication: [AuthRepo] (postgres/auth_repository.go, and
      eventbus/notifying_events.go), [AuthService] (application/auth),
      [AuthSpec].
    - the client API: [ClientRepo], [FriendRepo], [RoomRepo]
      (postgres/client_repository*.go), [Pagination], [ClientService],
      [RoomService] (application/clientapi); [UsageSpec],
      [KeyPackageSpec], [FriendSpec], [FriendRace], [RoomSpec], [RoomInv],
      [RoomDirect], [RoomMembers] prove them.
    - wake-ups and pushes: [EventBus] (platform/eventbus/bus.go), [Push]
      (application/push, integrations/push/fcm), [PushSpec].
    - delivery: [Rpc] and [Handler] (domain/rpc, delivery/clientrpc: packets,
      batches, HTTP), [Stream] (the loops of handleWebSocket and
      HandleStream), [Http] (server/http.go: routes, access log),
      [HandlerSpec], [PanicSpec], [HandlerPull], [ClockSpec], [StreamSpec],
      [StreamBus].
    - from end to end: [Delivery] and [DeliverySpec] compose the client
      service, the outbox and the pull of a connection, [DeliveryBacklog]
      the pulls and acknowledgements of a device.
    - the process: [Config] (internal/config, the services of cmd/server),
      [Dsn] (config/postgres_config.go), [Runtime] (internal/server),
      [Process] (cmd/server and the goroutines of internal/server/runtime.go),
      [ConfigSpec], [RuntimeSpec], [ProcessSpec], [ProcessExit].
    - logging: [Json] (encoding/json, with a reader), [Logging]
      (platform/logging), [JsonSpec], [LoggingSpec].
    - the lint tool: [Lint] (cmd/lintlimits).
    - [Witnesses], [ClientWitnesses], [HandlerWitnesses], [DeliveryWitness],
      [StartWitnesses], [StreamWitnesses] apply the theorems to concrete runs.

    Components meet at interfaces: [EventAppender] with its laws is what the
    services know of the event tables, implemented by the repository and by
    its notifying decorator; [Notifier] with its laws is what the outbox
    service knows of the bus and the push notifier, and the multi-notifier
    inherits it; [SessionLookup] and [Sender] are single methods; [Env] and
    [Codec] are the outside.

    ** What the theorems show

    - Outbox.  In every reachable state, whatever statements fail, a segment
      has at most one event in flight, with a lease; in runs whose appends
      come in order and complete, nothing is stranded and the oldest event is
      served first; a dispatch announces exactly the events it has leased,
      one per segment and after the lease is durable, and passes over an event
      that is due only with a full batch of older ones; and every operation moves every row along an abstract
      life, from queued to retired, within its attempts and its retention.
      Acknowledgements that overlap never deadlock.
    - From end to end.  A message that is accepted is among the packets of
      the next successful pull of every idle device of every member, when
      everything that is due fits into one dispatch: type, content and the
      identifier that its sender was told ([message_arrives]).  A device
      that pulls and acknowledges gets the events of a segment one by one,
      oldest first, until none is left ([backlog_drains]).
    - Authentication.  Only somebody with a signature of the challenge under
      a key of the right size authenticates a session; a failure changes
      nothing; pulled events are not pending again before the cooldown.
    - Packets and connections.  Unsigned packets change nothing; success
      refines an abstract transition system of connections; calls are gated,
      but for asking and solving a challenge and ending a subscription; events
      ride along once per lease, also between batches and pushes of
      an open connection; HTTP sessions live as long as their connection;
      the push goroutine starts with the first batch that leaves its connection
      authenticated, pulls for the device of that session and for no other,
      holds one subscription for it, and ends with its connection; the access
      log tells what a client received, the answers to HEAD and the sizes of
      upgraded connections apart.
    - Rooms and friends.  Friendship is mutual; who may send, join, invite
      and change roles; no privilege escalation; one direct room per pair,
      in whichever order the two are named; requests and invitations move once.
    - Usage and key packages.  The usage counters refine a ledger; an upload
      replaces the key packages of one device, and a fetch offers the best
      one of every device.
    - Wake-ups and pushes.  A notification is not lost, and the one way the
      bus can crash the process; a push carries no content
      and goes to the one device it is for.
    - Tests.  Migrations are applied in the order of their versions; the
      clean-up of the tables leaves the empty database.
    - Start.  [Load] accepts exactly the well-formed configurations, which
      start every service with positive settings, once push is off or its
      credentials can be read and a project is named; an override from the
      environment sets its own setting or none; the name of the database
      and the greeting of a TCP connection can be read back.
    - The process.  Whatever fails or signals, every run of the goroutines
      of [main] and of the runtime settles: it serves, or it ends in an exit
      that has closed the listeners and tells of the shutdown alone.  A log
      record that can be encoded is one line in one write, from which its
      fields can be read back; one that cannot is refused and writes nothing.
    - Termination.  The page loop of [UpdateProfile], following cursors, the
      push goroutine after its connection, writing the greeting, the
      supervision of the process.
    - Where promises end.  Several theorems are about what the code gets
      wrong: a deleted direct room blocks its pair for good, exactly one
      kind of malformed challenge request panics the handler, and nothing else
      does unless the event appender or the notifier does, a challenge
      request rebinds an authenticated connection, joining again gives up a
      role, a cancellation can crash the bus, a failed upload loses the key
      packages of a device, an append during an acknowledgement is stranded
      until the next append to its segment,
      an acknowledgement can deadlock with the dispatcher and end the process,
      a friend request that is accepted while it is canceled is both,
      a failed process exits with status 0, an opened WebSocket is logged as
      an answer with status 200.

    ** Bounds and fuel

    - [digits_fuel] has fuel 20: an [int64] has at most 19 digits
      ([undigits_digits]).
    - [TrimSpace] and [duration_items] have as much fuel as bytes, of which
      every step uses one ([duration_items_fuel]).
    - [notify_friends] has one unit per friend row and one more
      ([UpdateProfile_terminates]); without it the model panics, so the
      theorem says that it does not run out.
    - [follow_cursors] needs one unit per page ([cursors_enumerate]).
    - [writeAll] has one unit per byte ([writeAll_delivers]).
    - [RunDispatcher] and [RunJanitor] take the number of ticks to run.
    - [read_text] has one unit per byte ([marshal_reads_text]).
    - A run of [Process] has at most 33 events ([supervision_settles]).
    - [EventBus] and [StreamBus] ask for fewer than 2^64 subscriptions, the
      width of the counter of identifiers.

    ** Concurrency

    A repository or service call is one uninterrupted run in the step
    relations of the outbox, of friends and of rooms; the isolation of
    overlapping transactions is PostgreSQL's and is not modelled, but for
    the one schedule each of [OutboxRace] and [FriendRace], and for the two
    transactions of the outbox, which [OutboxLocks] interleaves statement by
    statement with the locks of their rows: run alone they are the methods
    of [OutboxRepo] ([tx_run_ClaimPending], [tx_run_AcknowledgeOutbox]). The
    goroutines of the process are interleaved by events ([Process.step]);
    what they do between these, such as the ticks of a loop or an accepted
    connection, does not touch the state of the supervision. The bus and the
    connections are interleaved at the grain of their locks and channel
    operations ([bus_step], [stream_step]); what the rest of the program
    does between two steps of a connection is the step [LEnvironment], with
    what the connection relies on in [rely]. A write to a socket is one step
    that succeeds or fails; a batch that is written in part does not count
    as written.

    ** Not modelled

    - sockets, TLS, timeouts and the WebSocket framing (internal/server,
      gorilla/websocket, net/http): I/O around the modelled code.  What the
      ServeMux answers by itself is a parameter of [Http].
    - which records the other components log, and when: output only.
    - the YAML decoder, the CBOR codec, the OAuth library and the HTTP
      exchange with Firebase: parameters of [Config], [Rpc] and [Push]; the
      texts of floats and of other values of a log record: parameters of
      [Json].
    - the connection pool, indexes, and the cascades no statement of the
      program triggers.
    - the container in which internal/testutil runs the database; the Go
      parser that cmd/lintlimits calls is a parameter of [Lint].

    ** Limits of the development

    The locks of rows that the transactions of the client API take are not
    modelled; their methods run alone, but for the schedule of [FriendRace].
    [message_arrives] and [backlog_drains] ask for room in one dispatch for
    the heads of all segments; with more segments than that an event waits
    for a later dispatch, and how long is left open.  In [backlog_drains]
    nothing else writes the tables of the outbox between the pulls. *)

From Stdlib Require Import ZArith Lia.
From Stdlib Require Export Strings.Byte.
From stdpp Require Export base tactics numbers list option strings sets sorting relations.

#[global] Set Default Goal Selector "!".

Declare Scope go_scope.
Delimit Scope go_scope with go.

(** Hint databases of the development: [go] closes the routine side
    conditions, [sql] knows the table operations, [preserves] composes
    invariant preservation along a program. *)
Create HintDb go.
Create HintDb sql.
Create HintDb preserves.
Create Rewrite HintDb go_rw.

(** ** Machine integers *)

(** Go's [int] and [int64] are 64 bits wide, [int16] 16 bits, unsigned
    integers are reduced modulo their width. *)
Definition wrap_signed (w z : Z) : Z := ((z + 2 ^ (w - 1)) `mod` 2 ^ w - 2 ^ (w - 1))%Z.
Definition wrap_unsigned (w z : Z) : Z := (z `mod` 2 ^ w)%Z.

Definition int64 : Z → Z := wrap_signed 64.
Definition int16 : Z → Z := wrap_signed 16.
Definition uint32 : Z → Z := wrap_unsigned 32.
Definition uint64 : Z → Z := wrap_unsigned 64.

Definition in_int64 (z : Z) : Prop := (- 2 ^ 63 ≤ z < 2 ^ 63)%Z.

Lemma wrap_signed_id w z :
  (0 < w)%Z → (- 2 ^ (w - 1) ≤ z < 2 ^ (w - 1))%Z → wrap_signed w z = z.
Proof.
  intros Hw Hz. unfold wrap_signed.
  assert (2 ^ w = 2 * 2 ^ (w - 1))%Z as E.
  { rewrite <- Z.pow_succ_r by lia. f_equal. lia. }
  rewrite Z.mod_small by lia. lia.
Qed.

Lemma int64_id z : in_int64 z → int64 z = z.
Proof. intros H. apply wrap_signed_id; [lia|exact H]. Qed.

Lemma wrap_unsigned_id w z : (0 ≤ z < 2 ^ w)%Z → wrap_unsigned w z = z.
Proof. apply Z.mod_small. Qed.

Lemma wrap_unsigned_range w z : (0 ≤ w)%Z → (0 ≤ wrap_unsigned w z < 2 ^ w)%Z.
Proof. intros Hw. apply Z.mod_pos_bound. apply Z.pow_pos_nonneg; lia. Qed.

(** ** Lists *)

Section lists.
Context {A B : Type}.
Implicit Types l k : list A.

Lemma filter_nil_iff (P : A → Prop) `{!∀ x, Decision (P x)} l :
  filter P l = [] ↔ ∀ x, x ∈ l → ¬ P x.
Proof.
  split.
  - intros E x Hx HP.
    assert (x ∈ filter P l) as Hin by (apply list_elem_of_filter; auto).
    rewrite E in Hin. by apply not_elem_of_nil in Hin.
  - intros Hl. induction l as [|x l IH]; [done|].
    rewrite filter_cons_False; [|apply Hl; set_solver].
    apply IH. intros y Hy. apply Hl. set_solver.
Qed.

Lemma head_filter_Some (P : A → Prop) `{!∀ x, Decision (P x)} l x :
  head (filter P l) = Some x → x ∈ l ∧ P x.
Proof.
  intros Hhd.
  assert (x ∈ filter P l) as [??]%list_elem_of_filter; [|auto].
  destruct (filter P l); simplify_eq/=. set_solver.
Qed.

Lemma head_filter_None (P : A → Prop) `{!∀ x, Decision (P x)} l :
  head (filter P l) = None ↔ ∀ x, x ∈ l → ¬ P x.
Proof.
  rewrite <- (filter_nil_iff P). destruct (filter P l); naive_solver.
Qed.

Lemma filter_ext_in (P Q : A → Prop) `{!∀ x, Decision (P x), !∀ x, Decision (Q x)} l :
  (∀ x, x ∈ l → P x ↔ Q x) → filter P l = filter Q l.
Proof.
  intros Hl. induction l as [|x l IH]; [done|].
  assert (filter P l = filter Q l) as E.
  { apply IH. intros y Hy. apply Hl. by right. }
  destruct (decide (P x)) as [HP|HP].
  - rewrite !filter_cons_True, E; [done| |done]. apply Hl; [left|done].
  - rewrite !filter_cons_False, E; [done| |done]. rewrite <- Hl; [done|left].
Qed.

(** In a list without duplicate keys, a key has at most one element. *)
Lemma NoDup_fmap_inj_in (f : A → B) l x y :
  NoDup (f <$> l) → x ∈ l → y ∈ l → f x = f y → x = y.
Proof.
  induction l as [|z l IH]; simpl; [set_solver|].
  rewrite NoDup_cons. intros [Hz Hl] Hx Hy E.
  rewrite list_elem_of_fmap in Hz.
  apply elem_of_cons in Hx as [->|Hx]; apply elem_of_cons in Hy as [->|Hy]; auto.
  - destruct Hz. exists y. auto.
  - destruct Hz. exists x. auto.
Qed.

Lemma NoDup_fmap_filter (f : A → B) (P : A → Prop) `{!∀ x, Decision (P x)} l :
  NoDup (f <$> l) → NoDup (f <$> filter P l).
Proof.
  intros Hnd. apply (sublist_NoDup _ (f <$> l)); [done|].
  apply fmap_sublist, sublist_filter.
Qed.

Lemma filter_unique (f : A → B) `{!EqDecision B} l x :
  NoDup (f <$> l) → x ∈ l → filter (λ y, f y = f x) l = [x].
Proof.
  induction l as [|z l IH]; simpl; [set_solver|].
  rewrite NoDup_cons, list_elem_of_fmap. intros [Hz Hl] Hx.
  destruct (decide (f z = f x)) as [E|E].
  - rewrite filter_cons_True by done. f_equal.
    + apply elem_of_cons in Hx as [->|Hx]; [done|]. destruct Hz. eauto.
    + apply filter_nil_iff. intros y Hy Hf. destruct Hz. exists y. by rewrite Hf, E.
  - rewrite filter_cons_False by done. apply IH; [done|].
    apply elem_of_cons in Hx as [->|Hx]; done.
Qed.
End lists.

(** ** Tactics *)

(** Split the goal and the hypotheses of a record-like conjunction, then
    close what [done] and congruence close. *)
Ltac split_done := repeat split; try done; try congruence.

(** Case analysis on the discriminee of the first [match]/[if]/[decide]
    found in hypothesis [H]. *)
Ltac case_in H :=
  match type of H with
  | context [decide ?P] => destruct (decide P)
  | context [match ?x with _ => _ end] => let E := fresh "E" in destruct x eqn:E
  end; simplify_eq/=.

#[export] Hint Extern 1 (_ ≤ _)%Z => lia : go.
#[export] Hint Extern 1 (_ < _)%Z => lia : go.
