(* ===== verification/GoLib.v ===== *)
(** * GoLib: the parts of Go's standard library the server relies on

    Byte strings and [bytes.Compare], [strings.TrimSpace] and
    [strings.Contains], [strconv.Itoa]/[Atoi], [encoding/hex],
    [base64.RawURLEncoding], [binary.BigEndian] and the RFC 3339 rendering
    of instants, as executable definitions, with the round trips of the
    codecs. *)

From Stdlib Require Import ZArith Lia.
From Stdlib Require Strings.String.
From S2P Require Import Prelude.

Local Open Scope Z_scope.

(** ** Bytes *)

Abbreviation Bytes := (list byte).

#[export] Instance byte_eq_dec : EqDecision byte.
Proof. intros a b. unfold Decision. destruct (Byte.eqb a b) eqn:E.
  - left. by apply Byte.byte_dec_bl.
  - right. intros ->. by rewrite (Byte.byte_dec_lb (x:=b) (y:=b) eq_refl) in E.
Defined.

Definition byte_val (b : byte) : Z := Z.of_N (Byte.to_N b).
Definition byte_of (z : Z) : byte :=
  match Byte.of_N (Z.to_N (z `mod` 256)) with Some b => b | None => x00 end.

Lemma byte_val_range b : 0 ≤ byte_val b < 256.
Proof. unfold byte_val. pose proof (Byte.to_N_bounded b). lia. Qed.

Lemma byte_of_val b : byte_of (byte_val b) = b.
Proof.
  unfold byte_of. rewrite Z.mod_small by apply byte_val_range.
  unfold byte_val. by rewrite N2Z.id, Byte.of_to_N.
Qed.

Lemma byte_val_of z : byte_val (byte_of z) = z `mod` 256.
Proof.
  unfold byte_of, byte_val.
  assert (0 ≤ z `mod` 256 < 256) as Hz by (apply Z.mod_pos_bound; lia).
  destruct (Byte.of_N (Z.to_N (z `mod` 256))) as [b|] eqn:E.
  - apply Byte.to_of_N in E. rewrite E. lia.
  - apply Byte.of_N_None_iff in E. lia.
Qed.

Lemma byte_of_eq z b : z `mod` 256 = byte_val b → byte_of z = b.
Proof. intros E. rewrite <- (byte_of_val b). unfold byte_of at 2. rewrite <- E.
  rewrite Z.mod_mod by lia. done. Qed.

(** [bytes.Compare a b <= 0]: the lexicographic order on bytes. *)
Fixpoint bytes_leb (a b : Bytes) : bool :=
  match a, b with
  | [], _ => true
  | _ :: _, [] => false
  | x :: a, y :: b =>
      if byte_val x <? byte_val y then true
      else if byte_val x =? byte_val y then bytes_leb a b else false
  end.

Lemma byte_val_inj x y : byte_val x = byte_val y → x = y.
Proof. intros E. by rewrite <- (byte_of_val x), E, byte_of_val. Qed.

Lemma bytes_leb_total a b : bytes_leb a b = true ∨ bytes_leb b a = true.
Proof.
  revert b. induction a as [|x a IH]; intros [|y b]; simpl; auto.
  destruct (Z.ltb_spec (byte_val x) (byte_val y)), (Z.ltb_spec (byte_val y) (byte_val x)),
    (Z.eqb_spec (byte_val x) (byte_val y)), (Z.eqb_spec (byte_val y) (byte_val x)); auto; lia.
Qed.

Lemma bytes_leb_antisym a b : bytes_leb a b = true → bytes_leb b a = true → a = b.
Proof.
  revert b. induction a as [|x a IH]; intros [|y b]; simpl; try done.
  destruct (Z.ltb_spec (byte_val x) (byte_val y)), (Z.ltb_spec (byte_val y) (byte_val x)),
    (Z.eqb_spec (byte_val x) (byte_val y)) as [E|], (Z.eqb_spec (byte_val y) (byte_val x));
    try done; try lia.
  intros H1 H2. f_equal; [by apply byte_val_inj|by apply IH].
Qed.

Lemma bytes_leb_refl a : bytes_leb a a = true.
Proof. by destruct (bytes_leb_total a a). Qed.

Lemma bytes_leb_trans a b c : bytes_leb a b = true → bytes_leb b c = true → bytes_leb a c = true.
Proof.
  revert b c. induction a as [|x a IH]; intros [|y b] [|z c]; simpl; try done.
  destruct (Z.ltb_spec (byte_val x) (byte_val y)), (Z.ltb_spec (byte_val y) (byte_val z)),
    (Z.ltb_spec (byte_val x) (byte_val z)), (Z.eqb_spec (byte_val x) (byte_val y)),
    (Z.eqb_spec (byte_val y) (byte_val z)), (Z.eqb_spec (byte_val x) (byte_val z)); try done; try lia.
  apply IH.
Qed.

(** Go strings are byte strings. *)
Definition to_bytes (s : string) : Bytes := String.list_byte_of_string s.
Definition of_bytes (b : Bytes) : string := String.string_of_list_byte b.

Lemma to_of_bytes b : to_bytes (of_bytes b) = b.
Proof. apply String.list_byte_of_string_of_list_byte. Qed.
Lemma of_to_bytes s : of_bytes (to_bytes s) = s.
Proof. apply String.string_of_list_byte_of_string. Qed.
#[export] Hint Rewrite to_of_bytes of_to_bytes : go_rw.

(** ** [strings.TrimSpace] *)

(** The UTF-8 encodings of the code points of Unicode's White_Space
    property ([unicode.IsSpace]). *)
Definition space_encodings : list Bytes :=
  [[x09]; [x0a]; [x0b]; [x0c]; [x0d]; [x20]; [xc2; x85]; [xc2; xa0]; [xe1; x9a; x80];
   [xe2; x80; x80]; [xe2; x80; x81]; [xe2; x80; x82]; [xe2; x80; x83]; [xe2; x80; x84];
   [xe2; x80; x85]; [xe2; x80; x86]; [xe2; x80; x87]; [xe2; x80; x88]; [xe2; x80; x89];
   [xe2; x80; x8a]; [xe2; x80; xa8]; [xe2; x80; xa9]; [xe2; x80; xaf]; [xe2; x81; x9f];
   [xe3; x80; x80]].

Fixpoint strip_prefix (p b : Bytes) : option Bytes :=
  match p, b with
  | [], _ => Some b
  | _ :: _, [] => None
  | x :: p, y :: b => if decide (x = y) then strip_prefix p b else None
  end.

(** Remove one leading white-space code point, if there is one. *)
Fixpoint strip_any (ps : list Bytes) (b : Bytes) : option Bytes :=
  match ps with
  | [] => None
  | p :: ps => match strip_prefix p b with Some r => Some r | None => strip_any ps b end
  end.

Fixpoint trim_left_fuel (n : nat) (ps : list Bytes) (b : Bytes) : Bytes :=
  match n with
  | O => b
  | S n => match strip_any ps b with Some r => trim_left_fuel n ps r | None => b end
  end.

Definition trim_bytes (b : Bytes) : Bytes :=
  let l := trim_left_fuel (length b) space_encodings b in
  reverse (trim_left_fuel (length l) (reverse <$> space_encodings) (reverse l)).

Definition TrimSpace (s : string) : string := of_bytes (trim_bytes (to_bytes s)).

Lemma strip_prefix_Some p b r : strip_prefix p b = Some r → b = p ++ r.
Proof.
  revert b. induction p as [|x p IH]; intros [|y b]; simpl; try by intros [= <-].
  case_decide as Hx; [|done]. subst. intros Hs. by rewrite (IH b Hs).
Qed.

Lemma strip_any_Some ps b r : strip_any ps b = Some r → ∃ p, p ∈ ps ∧ b = p ++ r.
Proof.
  induction ps as [|p ps IH]; simpl; [done|].
  destruct (strip_prefix p b) as [r'|] eqn:Ep.
  - intros [= <-]. exists p. split; [left|by apply strip_prefix_Some].
  - intros Hs. destruct (IH Hs) as (q & Hq & ->). exists q. split; [by right|done].
Qed.

(** A byte that starts no white-space code point survives trimming on the
    right. *)
Lemma trim_left_keeps_last n ps l c :
  Forall (λ p, p ≠ [] ∧ last p ≠ Some c) ps → trim_left_fuel n ps (l ++ [c]) ≠ [].
Proof.
  intros Hps. revert l. induction n as [|n IH]; intros l; simpl; [by destruct l|].
  destruct (strip_any ps (l ++ [c])) as [r|] eqn:Es; [|by destruct l].
  apply strip_any_Some in Es as (p & Hp & E).
  rewrite Forall_forall in Hps. destruct (Hps p Hp) as [Hne Hlast].
  destruct (decide (r = [])) as [->|Hr].
  - rewrite app_nil_r in E. rewrite <- E, last_snoc in Hlast. done.
  - destruct (exists_last Hr) as (r' & c' & ->). rewrite app_assoc in E.
    apply app_inj_tail in E as [_ <-]. apply IH.
Qed.

Lemma trim_left_id n ps c l : strip_any ps (c :: l) = None → trim_left_fuel n ps (c :: l) = c :: l.
Proof. intros Hs. destruct n; simpl; [done|]. by rewrite Hs. Qed.

(** [c] starts no white-space code point. *)
Definition not_space_start (c : byte) : bool :=
  forallb (λ p, match p with x :: _ => bool_decide (x ≠ c) | [] => false end) space_encodings.

Lemma strip_any_not_space c l :
  not_space_start c = true → strip_any space_encodings (c :: l) = None.
Proof.
  unfold not_space_start. generalize space_encodings as ps.
  induction ps as [|[|x p] ps IH]; simpl; [done|done|]. rewrite andb_true_iff.
  intros [Hx%bool_decide_eq_true Hps]. rewrite decide_False by done. by apply IH.
Qed.

Lemma TrimSpace_nonempty c l :
  not_space_start c = true → TrimSpace (of_bytes (c :: l)) ≠ ""%string.
Proof.
  intros Hc Ht. unfold TrimSpace in Ht. rewrite to_of_bytes in Ht.
  apply (f_equal to_bytes) in Ht. rewrite to_of_bytes in Ht. change (to_bytes "") with (@nil byte) in Ht.
  unfold trim_bytes in Ht. rewrite trim_left_id in Ht by by apply strip_any_not_space.
  rewrite reverse_cons in Ht. apply (f_equal reverse) in Ht. rewrite reverse_involutive in Ht.
  revert Ht. apply trim_left_keeps_last.
  rewrite Forall_forall. intros p (q & -> & Hq)%list_elem_of_fmap.
  unfold not_space_start in Hc. rewrite forallb_forall in Hc.
  specialize (Hc q ltac:(by apply list_elem_of_In)). destruct q as [|x q]; [done|].
  apply bool_decide_eq_true in Hc. rewrite reverse_cons. split; [by destruct (reverse q)|].
  rewrite last_snoc. congruence.
Qed.

(** [c] ends no white-space code point. *)
Definition not_space_end (c : byte) : bool :=
  forallb (λ p, bool_decide (last p ≠ Some c)) space_encodings.

Lemma strip_any_reversed c l :
  not_space_end c = true → strip_any (reverse <$> space_encodings) (c :: l) = None.
Proof.
  unfold not_space_end. assert (Forall (λ p, p ≠ []) space_encodings) as Hne by by repeat constructor.
  revert Hne. generalize space_encodings as ps. induction ps as [|p ps IH]; [done|].
  rewrite Forall_cons. simpl. rewrite andb_true_iff, bool_decide_eq_true. intros [Hp Hps] [Hl Hr].
  destruct (exists_last Hp) as (p' & x & ->). rewrite last_snoc in Hl. rewrite reverse_snoc. simpl.
  rewrite decide_False by congruence. by apply IH.
Qed.

(** A string without white space at either end is left as it is. *)
Lemma TrimSpace_id c l z :
  not_space_start c = true → last (c :: l) = Some z → not_space_end z = true →
  TrimSpace (of_bytes (c :: l)) = of_bytes (c :: l).
Proof.
  intros Hc Hz He. unfold TrimSpace. rewrite to_of_bytes. unfold trim_bytes.
  rewrite trim_left_id by by apply strip_any_not_space.
  destruct (exists_last (l := c :: l)) as (l' & x & E); [done|]. rewrite E in *. rewrite last_snoc in Hz. injection Hz as ->.
  rewrite reverse_snoc, trim_left_id by by apply strip_any_reversed.
  by rewrite reverse_cons, reverse_involutive.
Qed.

Definition is_prefix (p s : Bytes) : bool := bool_decide (is_Some (strip_prefix p s)).

(** [strings.Contains s sub] on the bytes of the strings. *)
Fixpoint contains_bytes (sub s : Bytes) : bool :=
  is_prefix sub s || match s with [] => false | _ :: s => contains_bytes sub s end.

Definition Contains (s sub : string) : bool := contains_bytes (to_bytes sub) (to_bytes s).

Example TrimSpace_ex : TrimSpace "  a b 
" = "a b"%string.
Proof. vm_compute. reflexivity. Qed.

Example Contains_ex : Contains "rpc x is not implemented yet" "not implemented" = true.
Proof. vm_compute. reflexivity. Qed.

(** ** [strconv.Itoa] and [strconv.Atoi] *)

Definition digit_of (d : Z) : byte := byte_of (48 + d).
Definition digit_val (b : byte) : option Z :=
  let d := byte_val b - 48 in if decide (0 ≤ d < 10) then Some d else None.

(** Decimal digits of [z >= 0], most significant first; [n] bounds their
    number ([20] is enough for 64 bits). *)
Fixpoint digits_fuel (n : nat) (z : Z) (acc : Bytes) : Bytes :=
  match n with
  | O => acc
  | S n => let acc := digit_of (z `mod` 10) :: acc in
           if z / 10 =? 0 then acc else digits_fuel n (z / 10) acc
  end.

Definition itoa_bytes (z : Z) : Bytes :=
  if z <? 0 then x2d :: digits_fuel 20 (- z) [] else digits_fuel 20 z [].

Definition Itoa (z : Z) : string := of_bytes (itoa_bytes z).

Fixpoint undigits (b : Bytes) (acc : Z) : option Z :=
  match b with
  | [] => Some acc
  | c :: b => match digit_val c with Some d => undigits b (acc * 10 + d) | None => None end
  end.

(** [strconv.Atoi] on a 64-bit platform: an optional sign, at least one
    digit, and a value that fits; [None] is [ErrSyntax] or [ErrRange]. *)
Definition atoi_bytes (b : Bytes) : option Z :=
  let go (neg : bool) (ds : Bytes) :=
    match ds with
    | [] => None
    | _ => match undigits ds 0 with
           | Some v => let v := if neg then - v else v in
                       if decide (- 2 ^ 63 ≤ v < 2 ^ 63) then Some v else None
           | None => None
           end
    end in
  match b with
  | x2d :: ds => go true ds
  | x2b :: ds => go false ds
  | ds => go false ds
  end.

Definition Atoi (s : string) : option Z := atoi_bytes (to_bytes s).

Lemma digit_val_of d : 0 ≤ d < 10 → digit_val (digit_of d) = Some d.
Proof.
  intros Hd. unfold digit_val, digit_of. rewrite byte_val_of, Z.mod_small by lia.
  rewrite decide_True by lia. f_equal. lia.
Qed.

Lemma digits_fuel_app n z acc : digits_fuel n z acc = digits_fuel n z [] ++ acc.
Proof.
  revert z acc. induction n as [|n IH]; intros z acc; simpl; [done|].
  destruct (z / 10 =? 0); [done|]. rewrite IH, (IH _ [_]), <- app_assoc. done.
Qed.

Lemma undigits_app b c acc : undigits (b ++ c) acc = undigits b acc ≫= undigits c.
Proof.
  revert acc. induction b as [|x b IH]; intros acc; simpl; [done|].
  destruct (digit_val x); simpl; [apply IH|done].
Qed.

Lemma undigits_digits n z :
  0 ≤ z < 10 ^ Z.of_nat n → (0 < n)%nat → undigits (digits_fuel n z []) 0 = Some z.
Proof.
  revert z. induction n as [|n IH]; intros z Hz Hn; [lia|]. simpl.
  assert (0 ≤ z `mod` 10 < 10) as Hm by (apply Z.mod_pos_bound; lia).
  pose proof (Z.div_mod z 10 ltac:(lia)) as Hdm.
  destruct (Z.eqb_spec (z / 10) 0) as [E|E].
  - simpl. rewrite digit_val_of by done. simpl. f_equal. lia.
  - assert (0 ≤ z / 10) as Hd by (apply Z.div_pos; lia).
    rewrite Nat2Z.inj_succ, Z.pow_succ_r in Hz by lia.
    assert (z / 10 < 10 ^ Z.of_nat n) by (apply Z.div_lt_upper_bound; lia).
    destruct n as [|n]; [rewrite Z.pow_0_r in *; lia|].
    rewrite digits_fuel_app, undigits_app, IH by lia. simpl.
    rewrite digit_val_of by done. f_equal. lia.
Qed.

(** The first digit is a digit: neither a sign nor white space. *)
Lemma digits_fuel_head n z :
  (0 < n)%nat → ∃ d rest, 0 ≤ d < 10 ∧ digits_fuel n z [] = digit_of d :: rest.
Proof.
  revert z. induction n as [|n IH]; intros z Hn; [lia|]. simpl.
  assert (0 ≤ z `mod` 10 < 10) as Hm by (apply Z.mod_pos_bound; lia).
  destruct (z / 10 =? 0); [eauto|]. destruct n as [|n]; [simpl; eauto|].
  rewrite digits_fuel_app. destruct (IH (z / 10)) as (d & rest & Hd & ->); [lia|].
  simpl. eauto.
Qed.

Lemma digit_of_not_sign d : 0 ≤ d < 10 → digit_of d ≠ x2d ∧ digit_of d ≠ x2b.
Proof.
  intros Hd. split; intros E; apply (f_equal byte_val) in E; unfold digit_of in E;
    rewrite byte_val_of, Z.mod_small in E by lia; vm_compute in E; destruct d; try lia;
    repeat (destruct p; try lia).
Qed.

Lemma atoi_itoa_bytes z : 0 ≤ z < 2 ^ 63 → atoi_bytes (itoa_bytes z) = Some z.
Proof.
  intros Hz. unfold itoa_bytes. destruct (Z.ltb_spec z 0); [lia|].
  assert (0 ≤ z < 10 ^ Z.of_nat 20) as Hz20.
  { split; [lia|]. etransitivity; [apply Hz|]. vm_compute. done. }
  pose proof (undigits_digits 20 z Hz20 ltac:(lia)) as Hu.
  destruct (digits_fuel_head 20 z ltac:(lia)) as (d & rest & Hd & E).
  rewrite E in *. destruct (digit_of_not_sign d Hd) as [H1 H2].
  unfold atoi_bytes. destruct (digit_of d) eqn:Ed; try done; rewrite Hu;
    (rewrite decide_True by lia); done.
Qed.

(** ** [base64.RawURLEncoding] *)

Definition b64_alphabet : Bytes :=
  to_bytes "ABCDEFGHIJKLMNOPQRSTUVWXYZabcdefghijklmnopqrstuvwxyz0123456789-_".

Definition b64_char (i : Z) : byte := default x41 (b64_alphabet !! Z.to_nat i).

Fixpoint index_from (c : byte) (l : Bytes) (i : Z) : option Z :=
  match l with
  | [] => None
  | x :: l => if decide (x = c) then Some i else index_from c l (i + 1)
  end.

Definition b64_index (c : byte) : option Z := index_from c b64_alphabet 0.

Fixpoint b64_encode (b : Bytes) : Bytes :=
  match b with
  | x :: y :: z :: rest =>
      let v := byte_val x * 65536 + byte_val y * 256 + byte_val z in
      b64_char (v / 262144) :: b64_char ((v / 4096) `mod` 64)
        :: b64_char ((v / 64) `mod` 64) :: b64_char (v `mod` 64) :: b64_encode rest
  | [x; y] =>
      let v := byte_val x * 65536 + byte_val y * 256 in
      [b64_char (v / 262144); b64_char ((v / 4096) `mod` 64); b64_char ((v / 64) `mod` 64)]
  | [x] =>
      let v := byte_val x * 65536 in
      [b64_char (v / 262144); b64_char ((v / 4096) `mod` 64)]
  | [] => []
  end.

(** Decoding of the quanta; a final quantum of two or three characters
    yields one or two bytes, its spare bits are not checked (the encoding
    is not strict), and a lone character is [CorruptInputError]. *)
Fixpoint b64_quanta (l : list Z) : option Bytes :=
  match l with
  | a :: b :: c :: d :: rest =>
      let v := a * 262144 + b * 4096 + c * 64 + d in
      r ← b64_quanta rest;
      Some (byte_of (v / 65536) :: byte_of (v / 256) :: byte_of v :: r)
  | [a; b; c] =>
      let v := a * 262144 + b * 4096 + c * 64 in
      Some [byte_of (v / 65536); byte_of (v / 256)]
  | [a; b] => let v := a * 262144 + b * 4096 in Some [byte_of (v / 65536)]
  | [_] => None
  | [] => Some []
  end.

(** The decoder skips line breaks and rejects every other character that
    is not in the alphabet. *)
Definition b64_decode (s : Bytes) : option Bytes :=
  l ← mapM b64_index (filter (λ c, c ≠ x0a ∧ c ≠ x0d) s);
  b64_quanta l.

Lemma b64_char_spec i :
  0 ≤ i < 64 →
  b64_index (b64_char i) = Some i ∧ b64_char i ≠ x0a ∧ b64_char i ≠ x0d
  ∧ not_space_start (b64_char i) = true.
Proof.
  intros Hi.
  assert (forallb (λ n, bool_decide (b64_index (b64_char (Z.of_nat n)) = Some (Z.of_nat n)
                                     ∧ b64_char (Z.of_nat n) ≠ x0a ∧ b64_char (Z.of_nat n) ≠ x0d
                                     ∧ not_space_start (b64_char (Z.of_nat n)) = true))
            (seq 0 64) = true) as Hall by (vm_compute; reflexivity).
  rewrite forallb_forall in Hall. specialize (Hall (Z.to_nat i)).
  rewrite Z2Nat.id in Hall by lia.
  apply bool_decide_eq_true in Hall; [done|]. apply in_seq. lia.
Qed.

Lemma b64_filter_cons i l :
  0 ≤ i < 64 →
  filter (λ c, c ≠ x0a ∧ c ≠ x0d) (b64_char i :: l)
  = b64_char i :: filter (λ c, c ≠ x0a ∧ c ≠ x0d) l.
Proof.
  intros Hi. destruct (b64_char_spec i Hi) as (_ & H1 & H2 & _).
  by rewrite filter_cons_True.
Qed.

(** Induction three bytes at a time. *)
Lemma bytes_ind3 (P : Bytes → Prop) :
  P [] → (∀ x, P [x]) → (∀ x y, P [x; y]) → (∀ x y z r, P r → P (x :: y :: z :: r)) → ∀ b, P b.
Proof.
  intros H0 H1 H2 H3. fix IH 1. intros [|x [|y [|z r]]]; [apply H0|apply H1|apply H2|].
  apply H3, IH.
Qed.

Ltac div_lia := Z.to_euclidean_division_equations; lia.

Ltac b64_step :=
  repeat match goal with
  | |- context [filter _ (b64_char ?i :: _)] =>
      rewrite (b64_filter_cons i) by div_lia
  end.

(** The four sextets of a 24-bit value determine it. *)
Lemma b64_join v :
  v / 262144 * 262144 + (v / 4096) `mod` 64 * 4096 + (v / 64) `mod` 64 * 64 + v `mod` 64 = v.
Proof.
  pose proof (Z.div_mod v 64 ltac:(lia)). pose proof (Z.div_mod (v / 64) 64 ltac:(lia)).
  pose proof (Z.div_mod (v / 4096) 64 ltac:(lia)).
  assert (v / 64 / 64 = v / 4096) as E1 by (by rewrite Z.div_div by lia).
  assert (v / 4096 / 64 = v / 262144) as E2 by (by rewrite Z.div_div by lia).
  rewrite E1, E2 in *. lia.
Qed.

Lemma b64_step_3 x y z :
  let v := byte_val x * 65536 + byte_val y * 256 + byte_val z in
  let w := v / 262144 * 262144 + (v / 4096) `mod` 64 * 4096 + (v / 64) `mod` 64 * 64 + v `mod` 64 in
  byte_of (w / 65536) = x ∧ byte_of (w / 256) = y ∧ byte_of w = z.
Proof.
  intros v w.
  pose proof (byte_val_range x). pose proof (byte_val_range y). pose proof (byte_val_range z).
  assert (w = v) as -> by apply b64_join.
  subst v. split_and!; apply byte_of_eq; div_lia.
Qed.

Lemma b64_step_2 x y :
  let v := byte_val x * 65536 + byte_val y * 256 in
  let w := v / 262144 * 262144 + (v / 4096) `mod` 64 * 4096 + (v / 64) `mod` 64 * 64 in
  byte_of (w / 65536) = x ∧ byte_of (w / 256) = y.
Proof.
  intros v w. pose proof (byte_val_range x). pose proof (byte_val_range y).
  assert (w = v) as ->.
  { pose proof (b64_join v). assert (v `mod` 64 = 0) by (subst v; div_lia). lia. }
  subst v. split; apply byte_of_eq; div_lia.
Qed.

Lemma b64_step_1 x :
  let v := byte_val x * 65536 in
  byte_of ((v / 262144 * 262144 + (v / 4096) `mod` 64 * 4096) / 65536) = x.
Proof.
  intros v. pose proof (byte_val_range x). subst v. apply byte_of_eq. div_lia.
Qed.

Lemma b64_mapM_cons i l :
  0 ≤ i < 64 →
  mapM b64_index (b64_char i :: l) = (r ← mapM b64_index l; Some (i :: r)).
Proof.
  intros Hi. simpl. destruct (b64_char_spec i Hi) as (-> & _). done.
Qed.

Lemma b64_mapM_cons' i l :
  0 ≤ i < 64 →
  mapM b64_index (filter (λ c, c ≠ x0a ∧ c ≠ x0d) (b64_char i :: l))
  = (r ← mapM b64_index (filter (λ c, c ≠ x0a ∧ c ≠ x0d) l); Some (i :: r)).
Proof. intros Hi. by rewrite b64_filter_cons, b64_mapM_cons. Qed.

(** Decoding inverts encoding. *)
Lemma b64_decode_encode b : b64_decode (b64_encode b) = Some b.
Proof.
  unfold b64_decode. induction b as [|x|x y|x y z r IH] using bytes_ind3; cbn [b64_encode].
  - done.
  - pose proof (byte_val_range x).
    rewrite !b64_mapM_cons' by div_lia. simpl. by rewrite b64_step_1.
  - pose proof (byte_val_range x). pose proof (byte_val_range y).
    rewrite !b64_mapM_cons' by div_lia. simpl.
    by destruct (b64_step_2 x y) as [-> ->].
  - pose proof (byte_val_range x). pose proof (byte_val_range y). pose proof (byte_val_range z).
    rewrite !b64_mapM_cons' by div_lia.
    destruct (mapM b64_index _) as [l|]; [|done]. simpl in *. rewrite IH. simpl.
    by destruct (b64_step_3 x y z) as (-> & -> & ->).
Qed.

Lemma b64_encode_head b :
  b ≠ [] → ∃ i rest, 0 ≤ i < 64 ∧ b64_encode b = b64_char i :: rest.
Proof.
  destruct b as [|x [|y [|z r]]]; [done| | |]; intros _; simpl; eexists _, _; (split; [|done]);
    pose proof (byte_val_range x); try pose proof (byte_val_range y);
    try pose proof (byte_val_range z); div_lia.
Qed.

(** ** [encoding/hex] *)

Definition hex_digit (d : Z) : byte := if d <? 10 then byte_of (48 + d) else byte_of (87 + d).

Definition hex_bytes (b : Bytes) : Bytes :=
  b ≫= λ x, [hex_digit (byte_val x / 16); hex_digit (byte_val x `mod` 16)].

Definition HexEncodeToString (b : Bytes) : string := of_bytes (hex_bytes b).

(** ** [binary.BigEndian] *)

Fixpoint be_put (n : nat) (z : Z) : Bytes :=
  match n with
  | O => []
  | S n => byte_of (Z.shiftr z (8 * Z.of_nat n)) :: be_put n z
  end.

Definition be_get (b : Bytes) : Z := foldl (λ acc x, Z.lor (Z.shiftl acc 8) (byte_val x)) 0 b.

Lemma length_be_put n z : length (be_put n z) = n.
Proof. induction n; simpl; congruence. Qed.

Lemma be_get_app b c :
  be_get (b ++ c) = foldl (λ acc x, Z.lor (Z.shiftl acc 8) (byte_val x)) (be_get b) c.
Proof. apply foldl_app. Qed.

Lemma shift_or_byte a x : 0 ≤ a → Z.lor (Z.shiftl a 8) (byte_val x) = a * 256 + byte_val x.
Proof.
  intros Ha. pose proof (byte_val_range x).
  rewrite Z.shiftl_mul_pow2 by lia. change (2 ^ 8) with 256.
  rewrite <- Z.add_nocarry_lor; [done|].
  apply Z.bits_inj'. intros n Hn. rewrite Z.land_spec, Z.bits_0.
  destruct (Z.lt_ge_cases n 8).
  - replace (a * 256) with (Z.shiftl a 8) by (rewrite Z.shiftl_mul_pow2; lia).
    rewrite Z.shiftl_spec_low by lia. done.
  - assert (Z.testbit (byte_val x) n = false) as ->; [|by rewrite andb_false_r].
    rewrite <- (Z.mod_small (byte_val x) (2 ^ 8)) by (change (2^8) with 256; lia).
    apply Z.mod_pow2_bits_high. lia.
Qed.

Lemma be_get_put n z acc :
  0 ≤ acc →
  foldl (λ a x, Z.lor (Z.shiftl a 8) (byte_val x)) acc (be_put n z)
  = acc * 2 ^ (8 * Z.of_nat n) + z `mod` 2 ^ (8 * Z.of_nat n).
Proof.
  revert acc. induction n as [|n IH]; intros acc Hacc.
  - simpl. rewrite Z.mod_1_r. lia.
  - cbn [be_put foldl]. rewrite shift_or_byte by done.
    pose proof (byte_val_range (byte_of (Z.shiftr z (8 * Z.of_nat n)))).
    rewrite IH by lia. rewrite byte_val_of, Z.shiftr_div_pow2 by lia.
    set (p := 2 ^ (8 * Z.of_nat n)).
    assert (0 < p) by (apply Z.pow_pos_nonneg; lia).
    replace (2 ^ (8 * Z.of_nat (S n))) with (p * 256); cycle 1.
    { unfold p. change 256 with (2 ^ 8). rewrite <- Z.pow_add_r by lia. f_equal. lia. }
    rewrite Z.rem_mul_r by lia. ring.
Qed.

(** Reading back a big-endian field yields the value modulo its width. *)
Lemma be_get_put_mod n z : be_get (be_put n z) = z `mod` 2 ^ (8 * Z.of_nat n).
Proof. unfold be_get. rewrite be_get_put by lia. lia. Qed.
