(* ===== verification/GoTime.v ===== *)
(** * GoTime: instants, durations and their RFC 3339 rendering

    [time.Time] values cross the database as TIMESTAMPTZ, whose resolution
    is the microsecond, so instants and durations are integers of
    microseconds since the Unix epoch.  [FormatRFC3339Nano] is
    [t.UTC().Format(time.RFC3339Nano)]; the civil date is computed for the
    proleptic Gregorian calendar. *)

From Stdlib Require Import ZArith Lia.
From S2P Require Import Prelude GoLib.

Local Open Scope Z_scope.

Abbreviation Time := Z (only parsing).
Abbreviation Duration := Z (only parsing).

Definition Second : Z := 1000000.
Definition Millisecond : Z := 1000.
Definition Minute : Z := 60 * Second.
Definition Hour : Z := 60 * Minute.
Definition Day : Z := 24 * Hour.

(** Days since the epoch to (year, month, day). *)
Definition civil_from_days (days : Z) : Z * Z * Z :=
  let z := days + 719468 in
  let era := z / 146097 in
  let doe := z - era * 146097 in
  let yoe := (doe - doe / 1460 + doe / 36524 - doe / 146096) / 365 in
  let doy := doe - (365 * yoe + yoe / 4 - yoe / 100) in
  let mp := (5 * doy + 2) / 153 in
  let d := doy - (153 * mp + 2) / 5 + 1 in
  let m := if mp <? 10 then mp + 3 else mp - 9 in
  let y := yoe + era * 400 + (if m <=? 2 then 1 else 0) in
  (y, m, d).

(** Decimal rendering, zero-padded on the left to [n] digits. *)
Definition pad (n : nat) (z : Z) : Bytes :=
  let ds := digits_fuel 20 z [] in replicate (n - length ds) x30 ++ ds.

Fixpoint drop_zeros (b : Bytes) : Bytes :=
  match b with x30 :: b => drop_zeros b | _ => b end.

(** The fractional second of the layout [.999999999]: up to nine digits
    with trailing zeros removed, nothing when it is zero. *)
Definition fraction (micros : Z) : Bytes :=
  if micros =? 0 then [] else x2e :: reverse (drop_zeros (reverse (pad 6 micros))).

Definition FormatRFC3339Nano (t : Time) : string :=
  let '(y, m, d) := civil_from_days (t / Day) in
  let s := (t / Second) `mod` 86400 in
  of_bytes (pad 4 y ++ [x2d] ++ pad 2 m ++ [x2d] ++ pad 2 d ++ [x54]
            ++ pad 2 (s / 3600) ++ [x3a] ++ pad 2 ((s / 60) `mod` 60) ++ [x3a] ++ pad 2 (s `mod` 60)
            ++ fraction (t `mod` Second) ++ [x5a]).

Example format_epoch : FormatRFC3339Nano 0 = "1970-01-01T00:00:00Z"%string.
Proof. vm_compute. reflexivity. Qed.

Example format_leap_day :
  FormatRFC3339Nano (1709210096 * Second + 120500) = "2024-02-29T12:34:56.1205Z"%string.
Proof. vm_compute. reflexivity. Qed.

(** [now.After(t)]. *)
Definition After (a b : Time) : bool := b <? a.

(** ** time.Parse(time.RFC3339Nano, s) *)

(** (year, month, day) to days since the epoch. *)
Definition days_from_civil (y m d : Z) : Z :=
  let y' := if m <=? 2 then y - 1 else y in
  let era := y' / 400 in
  let yoe := y' - era * 400 in
  let mp := if m >? 2 then m - 3 else m + 9 in
  let doy := (153 * mp + 2) / 5 + d - 1 in
  let doe := yoe * 365 + yoe / 4 - yoe / 100 + doy in
  era * 146097 + doe - 719468.

Definition is_leap (y : Z) : bool :=
  (y `mod` 4 =? 0) && (negb (y `mod` 100 =? 0) || (y `mod` 400 =? 0)).

Definition days_in (y m : Z) : Z :=
  if m =? 2 then (if is_leap y then 29 else 28)
  else if (m =? 4) || (m =? 6) || (m =? 9) || (m =? 11) then 30 else 31.

Definition digit_of (b : byte) : option Z :=
  let v := byte_val b in if (48 <=? v) && (v <=? 57) then Some (v - 48) else None.

(** Exactly [n] digits. *)
Fixpoint parse_digits (n : nat) (acc : Z) (b : Bytes) : option (Z * Bytes) :=
  match n, b with
  | O, _ => Some (acc, b)
  | S n, x :: b => d ← digit_of x; parse_digits n (acc * 10 + d) b
  | S _, [] => None
  end.

Definition expect (x : byte) (b : Bytes) : option Bytes :=
  match b with y :: b => if decide (x = y) then Some b else None | [] => None end.

(** The fraction: a period or comma and at least one digit; digits after
    the sixth are below the resolution. *)
Fixpoint parse_fraction (place : Z) (acc : Z) (b : Bytes) : Z * Bytes :=
  match b with
  | x :: rest => match digit_of x with
                 | Some d => parse_fraction (place / 10) (acc + d * place) rest
                 | None => (acc, b)
                 end
  | [] => (acc, [])
  end.

Definition parse_opt_fraction (b : Bytes) : Z * Bytes :=
  match b with
  | x :: y :: rest =>
      if (bool_decide (x = x2e) || bool_decide (x = x2c)) && bool_decide (is_Some (digit_of y))
      then parse_fraction 100000 0 (y :: rest) else (0, b)
  | _ => (0, b)
  end.

(** The zone: [Z] or a signed offset, in microseconds east of UTC. *)
Definition parse_zone (b : Bytes) : option Z :=
  match b with
  | [x5a] => Some 0
  | sign :: b =>
      s ← (if decide (sign = x2b) then Some 1 else if decide (sign = x2d) then Some (-1) else None);
      '(hh, b) ← parse_digits 2 0 b; b ← expect x3a b; '(mm, b) ← parse_digits 2 0 b;
      if (hh <=? 24) && (mm <? 60) && bool_decide (b = []) then Some (s * (hh * Hour + mm * Minute)) else None
  | [] => None
  end.

Definition ParseRFC3339Nano (s : string) : option Time :=
  '(y, b) ← parse_digits 4 0 (to_bytes s); b ← expect x2d b;
  '(m, b) ← parse_digits 2 0 b; b ← expect x2d b;
  '(d, b) ← parse_digits 2 0 b; b ← expect x54 b;
  '(hh, b) ← parse_digits 2 0 b; b ← expect x3a b;
  '(mm, b) ← parse_digits 2 0 b; b ← expect x3a b;
  '(ss, b) ← parse_digits 2 0 b;
  let '(us, b) := parse_opt_fraction b in
  zone ← parse_zone b;
  if (1 <=? m) && (m <=? 12) && (1 <=? d) && (d <=? days_in y m) && (hh <? 24) && (mm <? 60) && (ss <? 60)
  then Some (days_from_civil y m d * Day + hh * Hour + mm * Minute + ss * Second + us - zone)
  else None.

Example parse_format_leap_day :
  ParseRFC3339Nano (FormatRFC3339Nano (1709210096 * Second + 120500)) = Some (1709210096 * Second + 120500).
Proof. vm_compute. reflexivity. Qed.

Example parse_zone_offset : ParseRFC3339Nano "1970-01-01T02:00:00.5+02:00" = Some 500000.
Proof. vm_compute. reflexivity. Qed.

Example parse_rejects : ParseRFC3339Nano "2023-02-29T00:00:00Z" = None.
Proof. vm_compute. reflexivity. Qed.
