(* ===== verification/GoDuration.v ===== *)
(** * GoDuration: time.ParseDuration

    The parser of durations of Go's standard library, step by step: uint64
    arithmetic with its wrap-around, the overflow checks of the source, and
    fractions in IEEE double precision.  Durations here are nanoseconds, as
    in Go. *)

From Stdlib Require Import ZArith SpecFloat.
From S2P Require Import Prelude GoLib.

Local Open Scope Z_scope.

(** ** float64 *)

Definition float64_of (z : Z) : spec_float := binary_normalize 53 1024 z 0 false.
Definition float64_mul : spec_float → spec_float → spec_float := SFmul 53 1024.
Definition float64_div : spec_float → spec_float → spec_float := SFdiv 53 1024.

(** [uint64(x)] for [0 <= x]: the fraction is discarded. *)
Definition uint64_of_float (x : spec_float) : Z :=
  match x with
  | S754_finite false m e => if 0 <=? e then Z.pos m * 2 ^ e else Z.pos m / 2 ^ (- e)
  | _ => 0
  end.

Example fraction_of_hour :
  uint64_of_float (float64_mul (float64_of 5) (float64_div (float64_of 3600000000000) (float64_of 10))) = 1800000000000.
Proof. vm_compute. reflexivity. Qed.

(** ** The pieces of the parser *)

Definition is_digit (c : byte) : bool := bool_decide (is_Some (digit_val c)).

(** [leadingInt]: the value and the rest, [None] on overflow. *)
Fixpoint leadingInt (b : Bytes) (x : Z) : option (Z * Bytes) :=
  match b with
  | [] => Some (x, [])
  | c :: b' =>
      match digit_val c with
      | None => Some (x, b)
      | Some d => if decide (2 ^ 63 / 10 < x) then None else
                  let x' := x * 10 + d in
                  if decide (2 ^ 63 < x') then None else leadingInt b' x'
      end
  end.

(** [leadingFraction]: the digits that fit, their scale, and the rest. *)
Fixpoint leadingFraction (b : Bytes) (x scale : Z) (overflow : bool) : Z * Z * Bytes :=
  match b with
  | [] => (x, scale, [])
  | c :: b' =>
      match digit_val c with
      | None => (x, scale, b)
      | Some d =>
          if overflow then leadingFraction b' x scale true else
          if decide ((2 ^ 63 - 1) / 10 < x) then leadingFraction b' x scale true else
          let y := x * 10 + d in
          if decide (2 ^ 63 < y) then leadingFraction b' x scale true
          else leadingFraction b' y (scale * 10) false
      end
  end.

(** The unit: everything up to the next dot or digit. *)
Fixpoint span_unit (b : Bytes) : Bytes * Bytes :=
  match b with
  | [] => ([], [])
  | c :: b' => if bool_decide (c = x2e) || is_digit c then ([], b)
               else let '(u, r) := span_unit b' in (c :: u, r)
  end.

Definition unitMap : list (Bytes * Z) :=
  [(to_bytes "ns", 1); (to_bytes "us", 1000); ([xc2; xb5; x73], 1000); ([xce; xbc; x73], 1000);
   (to_bytes "ms", 1000000); (to_bytes "s", 1000000000); (to_bytes "m", 60000000000); (to_bytes "h", 3600000000000)]%Z.

Definition unit_of (u : Bytes) : option Z := snd <$> head (filter (λ kv, kv.1 = u) unitMap).

(** [v += uint64(float64(f) * (float64(unit) / scale))]. *)
Definition add_fraction (v f unit scale : Z) : Z :=
  if decide (0 < f)
  then uint64 (v + uint64_of_float (float64_mul (float64_of f) (float64_div (float64_of unit) (float64_of scale))))
  else v.

(** One number with its unit: the nanoseconds and the rest. *)
Definition duration_item (b : Bytes) : option (Z * Bytes) :=
  match b with
  | [] => None
  | c :: _ =>
      if negb (bool_decide (c = x2e) || is_digit c) then None else
      match leadingInt b 0 with
      | None => None
      | Some (v, b1) =>
          let pre := bool_decide (length b1 ≠ length b) in
          let '(f, scale, b2, post) :=
            match b1 with
            | x2e :: b1' => let '(f, scale, b2) := leadingFraction b1' 0 1 false in
                            (f, scale, b2, bool_decide (length b2 ≠ length b1'))
            | _ => (0, 1, b1, false)
            end in
          if negb pre && negb post then None else
          let '(u, b3) := span_unit b2 in
          if decide (u = []) then None else
          match unit_of u with
          | None => None
          | Some unit =>
              if decide (2 ^ 63 / unit < v) then None else
              let v := add_fraction (uint64 (v * unit)) f unit scale in
              if decide (0 < f ∧ 2 ^ 63 < v) then None else Some (v, b3)
          end
      end
  end.

(** The loop; every round consumes a byte, so that the length of the string
    is enough fuel. *)
Fixpoint duration_items (fuel : nat) (b : Bytes) (d : Z) : option Z :=
  match b, fuel with
  | [], _ => Some d
  | _, O => None
  | _, S fuel =>
      match duration_item b with
      | None => None
      | Some (v, b') => let d := uint64 (d + v) in
                        if decide (2 ^ 63 < d) then None else duration_items fuel b' d
      end
  end.

Definition ParseDuration (s : string) : option Z :=
  let b := to_bytes s in
  let '(neg, b) := match b with x2d :: b => (true, b) | x2b :: b => (false, b) | _ => (false, b) end in
  if decide (b = [x30]) then Some 0 else
  if decide (b = []) then None else
  match duration_items (length b) b 0 with
  | None => None
  | Some d => if neg then Some (int64 (- d)) else if decide (2 ^ 63 - 1 < d) then None else Some d
  end.

Example ParseDuration_1 : ParseDuration "1h15m30.918s" = Some 4530918000000.
Proof. vm_compute. reflexivity. Qed.
Example ParseDuration_2 : ParseDuration "-1.5h" = Some (-5400000000000).
Proof. vm_compute. reflexivity. Qed.
Example ParseDuration_3 : ParseDuration "3000000h" = None.
Proof. vm_compute. reflexivity. Qed.
Example ParseDuration_4 : ParseDuration "0.3333333333333333333h" = Some 1200000000000.
Proof. vm_compute. reflexivity. Qed.
Example ParseDuration_5 : ParseDuration ".s" = None.
Proof. vm_compute. reflexivity. Qed.

(** ** Facts *)

Lemma digit_val_range c d : digit_val c = Some d → 0 ≤ d < 10.
Proof. unfold digit_val. case_decide; [by intros [= <-]|done]. Qed.

Lemma undigits_grows ds : ∀ x v, 0 ≤ x → undigits ds x = Some v → x ≤ v.
Proof.
  induction ds as [|c ds IH]; intros x v Hx; simpl; [intros [= <-]; lia|].
  destruct (digit_val c) as [d|] eqn:Ed; [|done]. apply digit_val_range in Ed.
  intros Hv. assert (x * 10 + d ≤ v) by (apply IH; [lia|done]). lia.
Qed.

Lemma leadingInt_digits ds rest : ∀ x v,
  0 ≤ x → undigits ds x = Some v → v ≤ 2 ^ 63 → match rest with c :: _ => digit_val c = None | [] => True end →
  leadingInt (ds ++ rest) x = Some (v, rest).
Proof.
  induction ds as [|c ds IH]; intros x v Hx Hv Hb Hr; simpl in *.
  { injection Hv as <-. destruct rest as [|c rest]; simpl; [done|]. by rewrite Hr. }
  destruct (digit_val c) as [d|] eqn:Ed; [|done]. apply digit_val_range in Ed.
  pose proof (undigits_grows ds (x * 10 + d) v ltac:(lia) Hv) as Hg.
  rewrite decide_False; [|intros Hd; assert (2 ^ 63 / 10 < 2 ^ 63 / 10 + 1) by lia;
    pose proof (Z.mul_succ_div_gt (2 ^ 63) 10 ltac:(lia)); lia].
  rewrite decide_False by lia. by apply IH; [lia|..].
Qed.

Lemma span_unit_all u : Forall (λ c, c ≠ x2e ∧ digit_val c = None) u → span_unit u = (u, []).
Proof.
  induction 1 as [|c u [Hc Hd] Hu IH]; simpl; [done|]. rewrite bool_decide_eq_false_2 by done.
  unfold is_digit. rewrite Hd. cbn. by rewrite IH.
Qed.

(** Every unit of the table is made of letters, and its own. *)
Lemma unitMap_ok u unit : (u, unit) ∈ unitMap →
  unit_of u = Some unit ∧ 0 < unit ∧ u ≠ [] ∧ Forall (λ c, c ≠ x2e ∧ digit_val c = None) u.
Proof.
  intros Hu. assert (Forall (λ kv, unit_of kv.1 = Some kv.2 ∧ 0 < kv.2 ∧ kv.1 ≠ []
    ∧ Forall (λ c, c ≠ x2e ∧ digit_val c = None) kv.1) unitMap) as Hall.
  { apply (bool_decide_unpack (Forall _ unitMap)). vm_compute. exact I. }
  rewrite Forall_forall in Hall. exact (Hall _ Hu).
Qed.

Lemma itoa_head n : 0 ≤ n < 2 ^ 64 → ∃ c ds, itoa_bytes n = c :: ds ∧ c ≠ x2d ∧ c ≠ x2b ∧ is_digit c = true.
Proof.
  intros Hn. unfold itoa_bytes. destruct (Z.ltb_spec n 0); [lia|].
  destruct (digits_fuel_head 20 n ltac:(lia)) as (d & rest & Hd & ->). exists (digit_of d), rest.
  destruct (digit_of_not_sign d Hd) as [H1 H2]. split_and!; [done..|]. unfold is_digit.
  by rewrite digit_val_of.
Qed.

Lemma itoa_undigits n : 0 ≤ n < 2 ^ 64 → undigits (itoa_bytes n) 0 = Some n.
Proof.
  intros Hn. unfold itoa_bytes. destruct (Z.ltb_spec n 0); [lia|]. apply undigits_digits; [|lia].
  split; [lia|]. etransitivity; [apply Hn|]. vm_compute. done.
Qed.

Lemma duration_item_itoa n u unit :
  (u, unit) ∈ unitMap → 0 ≤ n → n * unit < 2 ^ 63 → duration_item (itoa_bytes n ++ u) = Some (n * unit, []).
Proof.
  intros (Hu & Hpos & Hne & Hf)%unitMap_ok Hn Hb.
  assert (n ≤ n * unit) as Hle by nia.
  destruct (itoa_head n ltac:(lia)) as (c & ds & Ei & _ & _ & Hc).
  assert (leadingInt (itoa_bytes n ++ u) 0 = Some (n, u)) as Hl.
  { apply leadingInt_digits; [lia|apply itoa_undigits; lia|lia|]. destruct u as [|c' u']; [done|].
    by apply Forall_cons in Hf as [[_ ?] _]. }
  assert (length u ≠ length (itoa_bytes n ++ u)) as Hlen by (rewrite length_app, Ei; simpl; lia).
  unfold duration_item. rewrite Ei in *. cbn [app] in *. rewrite Hc, orb_true_r. cbn [negb]. rewrite Hl.
  rewrite (bool_decide_eq_true_2 (length u ≠ _)) by done.
  assert (match u with
          | x2e :: b1' => let '(f, scale, b2) := leadingFraction b1' 0 1 false in (f, scale, b2, bool_decide (length b2 ≠ length b1'))
          | _ => (0, 1, u, false) end = (0, 1, u, false)) as ->.
  { destruct u as [|c' u']; [done|]. apply Forall_cons in Hf as [[Hc' _] _]. by destruct c'. }
  cbn [negb andb]. rewrite span_unit_all by done. rewrite decide_False by done. rewrite Hu.
  assert (n ≤ 2 ^ 63 / unit) as Hdiv by (apply Z.div_le_lower_bound; lia).
  rewrite decide_False by lia. unfold add_fraction. rewrite decide_False by lia.
  rewrite decide_False by lia. unfold uint64. rewrite wrap_unsigned_id by lia. done.
Qed.

(** A whole number with a unit is read as it is written, up to the largest
    duration. *)
Lemma ParseDuration_itoa n u unit :
  (u, unit) ∈ unitMap → 0 ≤ n → n * unit < 2 ^ 63 → ParseDuration (of_bytes (itoa_bytes n ++ u)) = Some (n * unit).
Proof.
  intros Hin Hn Hb. pose proof (duration_item_itoa n u unit Hin Hn Hb) as Hitem.
  apply unitMap_ok in Hin as (_ & Hpos & Hne & _). assert (n ≤ n * unit) by nia.
  destruct (itoa_head n ltac:(lia)) as (c & ds & Ei & H1 & H2 & _). unfold ParseDuration. rewrite to_of_bytes.
  rewrite Ei in *. cbn [app] in *.
  assert (match c :: ds ++ u with x2d :: b => (true, b) | x2b :: b => (false, b) | _ => (false, c :: ds ++ u) end
    = (false, c :: ds ++ u)) as -> by by destruct c.
  rewrite decide_False; [|intros [= _ E]; by apply app_nil in E as [_ ?]]. rewrite decide_False by done.
  cbn [length duration_items]. rewrite Hitem. unfold uint64. rewrite wrap_unsigned_id by lia.
  rewrite decide_False by lia. assert (∀ k d, duration_items k [] d = Some d) as -> by by intros [].
  rewrite decide_False by lia. f_equal. 
Qed.

(** Every duration that is read fits an int64. *)
Lemma ParseDuration_bounds s d : ParseDuration s = Some d → in_int64 d.
Proof.
  unfold ParseDuration, in_int64. set (b := to_bytes s).
  destruct (match b with x2d :: b => (true, b) | x2b :: b => (false, b) | _ => (false, b) end) as [neg b1].
  case_decide; [intros [= <-]; lia|]. case_decide; [done|].
  destruct (duration_items _ b1 0) as [v|] eqn:Ev; [|done].
  assert (0 ≤ v ≤ 2 ^ 63) as Hv.
  { assert (∀ k b x, 0 ≤ x ≤ 2 ^ 63 → ∀ y, duration_items k b x = Some y → 0 ≤ y ≤ 2 ^ 63) as Hgo.
    { induction k as [|k IH]; intros b2 x Hx y; destruct b2 as [|c b2]; cbn [duration_items]; try by intros [= <-].
      destruct (duration_item _) as [[v' b3]|]; [|done]. case_decide; [done|]. apply IH.
      pose proof (wrap_unsigned_range 64 (x + v') ltac:(lia)). unfold uint64 in *. lia. }
    eapply Hgo; [|exact Ev]. lia. }
  destruct neg; [intros [= <-]|case_decide; [done|]; intros [= <-]; lia].
  unfold int64, wrap_signed. pose proof (Z.mod_pos_bound (- v + 2 ^ (64 - 1)) (2 ^ 64) ltac:(lia)). lia.
Qed.

(** ** The fuel *)

Lemma leadingInt_shorter b : ∀ x v r, leadingInt b x = Some (v, r) → (length r ≤ length b)%nat.
Proof.
  induction b as [|c b IH]; intros x v r; simpl; [by intros [= _ <-]|].
  destruct (digit_val c); [|by intros [= _ <-]]. case_decide; [done|]. case_decide; [done|].
  intros Hr%IH. lia.
Qed.

Lemma leadingFraction_shorter b : ∀ x s o, (length (leadingFraction b x s o).2 ≤ length b)%nat.
Proof.
  induction b as [|c b IH]; intros x s o; simpl; [done|]. destruct (digit_val c); [|done].
  destruct o; [etrans; [apply IH|lia]|]. case_decide; [etrans; [apply IH|lia]|].
  case_decide; (etrans; [apply IH|lia]).
Qed.

Lemma span_unit_split b : b = (span_unit b).1 ++ (span_unit b).2.
Proof.
  induction b as [|c b IH]; simpl; [done|]. destruct (_ || _); [done|]. destruct (span_unit b). simpl in *. by rewrite IH.
Qed.

Lemma duration_item_shorter b v r : duration_item b = Some (v, r) → (length r < length b)%nat.
Proof.
  unfold duration_item. destruct b as [|c b]; [done|]. destruct (negb _); [done|].
  destruct (leadingInt (c :: b) 0) as [[n b1]|] eqn:El; [|done]. apply leadingInt_shorter in El.
  set (p := match b1 with x2e :: b1' => _ | _ => _ end). assert (length p.1.2 ≤ length b1)%nat as Hp.
  { unfold p. destruct b1 as [|c1 b1]; [done|]. pose proof (leadingFraction_shorter b1 0 1 false) as Hf.
    destruct c1; try done. destruct (leadingFraction b1 0 1 false) as [[f s] b2]. simpl in *. lia. }
  destruct p as [[[f s] b2] post]. simpl in Hp. destruct (_ && _); [done|].
  pose proof (span_unit_split b2) as Hs. destruct (span_unit b2) as [u b3]. simpl in Hs. case_decide as Hu; [done|].
  destruct (unit_of u); [|done]. case_decide; [done|]. case_decide; [done|]. intros [= _ <-].
  assert (length b2 = length u + length b3)%nat by (rewrite Hs, length_app; done). destruct u; [done|]. simpl in *. lia.
Qed.

(** More fuel than bytes changes nothing: the parser never gives up early. *)
Lemma duration_items_fuel k : ∀ k' b d, (length b ≤ k)%nat → (length b ≤ k')%nat →
  duration_items k b d = duration_items k' b d.
Proof.
  induction k as [|k IH]; intros k' b d Hk Hk'; destruct b as [|c b]; destruct k' as [|k']; try done; simpl in Hk, Hk'; try lia.
  cbn [duration_items]. destruct (duration_item (c :: b)) as [[v r]|] eqn:Ei; [|done].
  apply duration_item_shorter in Ei. simpl in Ei. case_decide; [done|]. apply IH; lia.
Qed.
