(* ===== verification/Domain.v ===== *)
(** * Domain: errors, records and constants of the program

    The sentinels and structs of [internal/domain], the records of
    [internal/application/clientapi/types.go] and of
    [internal/application/outbox/service.go], and the dynamically typed
    values ([any]) that make up event payloads and RPC results.  A nil and
    an empty byte slice are the same value, except where the code sends a
    nil slice to a column (then the field is an [option]). *)

From Stdlib Require Import ZArith.
From S2P Require Import Prelude GoLib GoTime.

Local Open Scope Z_scope.

(** A [uuid.UUID] is the 128-bit number its bytes spell. *)
Definition UUID := N.
Definition uuid_Nil : UUID := 0%N.
#[export] Instance UUID_eq_dec : EqDecision UUID := N.eq_dec.

Definition PublicKeySize : nat := 32.

(** ** Errors *)

Inductive error : Type :=
  (* internal/domain/auth/types.go *)
  | ErrInvalidPublicKey | ErrInvalidSessionID | ErrSessionNotFound | ErrSessionExpired
  | ErrSessionNotAuthenticated | ErrInvalidSignature | ErrInvalidDeviceID
  | ErrInvalidClientNonce | ErrInvalidEventID | ErrSubscriptionNotFound
  (* internal/application/clientapi/service.go *)
  | ErrNotFound | ErrForbidden | ErrConflict | ErrProfileRequired
  (* internal/application/outbox/service.go *)
  | ErrOutboxInvalidDeviceID
  (* database/sql *)
  | ErrNoRows
  (** a statement the database rejects (violated constraint) or could not run *)
  | EDatabase (cause : string)
  (** [errors.New]/[fmt.Errorf] without a wrapped error *)
  | EText (msg : string)
  (** [fmt.Errorf("prefix: %w", inner)] *)
  | EWrap (prefix : string) (inner : error).

#[export] Instance error_eq_dec : EqDecision error.
Proof. solve_decision. Defined.

(** [errors.Is]: the target is compared along the chain of wrapped errors. *)
Fixpoint Is (e target : error) : bool :=
  bool_decide (e = target) || match e with EWrap _ inner => Is inner target | _ => false end.

(** [err.Error()]. *)
Fixpoint Error (e : error) : string :=
  match e with
  | ErrInvalidPublicKey => "invalid public key"
  | ErrInvalidSessionID => "invalid session id"
  | ErrSessionNotFound => "session not found"
  | ErrSessionExpired => "session expired"
  | ErrSessionNotAuthenticated => "session not authenticated"
  | ErrInvalidSignature => "invalid signature"
  | ErrInvalidDeviceID => "invalid device id"
  | ErrInvalidClientNonce => "invalid client nonce"
  | ErrInvalidEventID => "invalid event id"
  | ErrSubscriptionNotFound => "subscription not found"
  | ErrNotFound => "not found"
  | ErrForbidden => "forbidden"
  | ErrConflict => "conflict"
  | ErrProfileRequired => "profile must be completed before using this RPC"
  | ErrOutboxInvalidDeviceID => "invalid device id"
  | ErrNoRows => "sql: no rows in result set"
  | EDatabase cause => cause
  | EText msg => msg
  | EWrap prefix inner => prefix +:+ ": " +:+ Error inner
  end%string.

(** ** Dynamically typed values *)

(** The dynamic Go type of an integer; [KFloat64] is an integral JSON
    number after decoding. *)
Inductive int_kind : Type :=
  | KInt | KInt16 | KInt32 | KInt64 | KUint | KUint16 | KUint32 | KUint64 | KFloat64.

#[export] Instance int_kind_eq_dec : EqDecision int_kind.
Proof. solve_decision. Defined.

#[local] Set Warnings "-register-all".

Inductive any : Type :=
  | ANil
  | AString (s : string)
  | ABytes (b : Bytes)
  | AInt (k : int_kind) (z : Z)
  | ABool (b : bool)
  | AUUID (u : UUID)
  | ATime (t : Time)
  | AList (l : list any)
  | AMap (m : list (string * any)).

(** [map[string]any], as the association list of its entries. *)
Definition GoMap := list (string * any).

Fixpoint map_get (m : GoMap) (key : string) : option any :=
  match m with
  | [] => None
  | (k, v) :: m => if decide (k = key) then Some v else map_get m key
  end.

(** [v, _ := m[key].(string)] and [m[key].([]byte)], [Some] when the
    assertion holds. *)
Definition get_string (m : GoMap) (key : string) : option string :=
  match map_get m key with Some (AString s) => Some s | _ => None end.
Definition get_bytes (m : GoMap) (key : string) : option Bytes :=
  match map_get m key with Some (ABytes b) => Some b | _ => None end.

(** [now.UTC().Format(time.RFC3339Nano)] as a value. *)
Definition AFormatted (t : Time) : any := AString (FormatRFC3339Nano t).

(** ** internal/domain/auth/types.go *)

Record Session : Type := mkSession {
  ses_SessionID : UUID; ses_UserPublicKey : Bytes; ses_ClaimedPublicIP : string;
  ses_DeviceID : string; ses_ClientNonce : Bytes; ses_ChallengePayload : Bytes;
  ses_IsAuthenticated : bool; ses_AuthenticatedAt : option Time;
  ses_ExpiresAt : Time; ses_CreatedAt : Time; ses_UpdatedAt : Time }.

Record Subscription : Type := mkSubscription {
  sub_SubscriptionID : UUID; sub_SessionID : UUID; sub_UserPublicKey : Bytes;
  sub_CreatedAt : Time; sub_UnsubscribedAt : option Time }.

Record Event : Type := mkEvent {
  ev_EventID : UUID; ev_UserPublicKey : Bytes; ev_ReplyToRequestID : option UUID;
  ev_EventType : string; ev_Payload : GoMap; ev_AvailableAt : Time; ev_ExpiresAt : Time;
  ev_DeliveredAt : option Time; ev_CreatedAt : Time }.

(** ** internal/application/outbox/service.go *)

Definition StatusPending : Z := 0.
Definition StatusInFlight : Z := 1.
Definition StatusAcked : Z := 2.
Definition StatusDropped : Z := 3.

Record OutboxEvent : Type := mkOutboxEvent {
  oe_EventID : UUID; oe_DeviceID : string; oe_SegmentID : string; oe_EventType : string;
  oe_Payload : GoMap; oe_CreatedAt : Time; oe_ExpiresAt : Time;
  oe_InflightUntil : option Time; oe_LastSentAt : option Time; oe_Attempts : Z }.

(** ** internal/application/clientapi/types.go *)

Definition VisibilityPublic : Z := 1.
Definition VisibilityLinkOnly : Z := 2.
Definition VisibilityPrivate : Z := 3.
Definition RoleMember : Z := 1.
Definition RoleAdmin : Z := 2.
Definition RoleOwner : Z := 3.
Definition NotificationAll : Z := 1.
Definition FriendRequestPending : Z := 1.
Definition FriendRequestAccepted : Z := 2.
Definition FriendRequestDeclined : Z := 3.
Definition FriendRequestCanceled : Z := 4.
Definition InvitationPending : Z := 1.
Definition InvitationAccepted : Z := 2.
Definition InvitationDeclined : Z := 3.
Definition InvitationRevoked : Z := 4.

Record ProfileRecord : Type := mkProfileRecord {
  pr_PublicKey : Bytes; pr_Username : string; pr_DisplayName : string; pr_Bio : string;
  pr_AvatarHash : string; pr_AvatarBytes : Bytes; pr_ContentType : string;
  pr_LastSeenAt : Time; pr_UpdatedAt : Time; pr_DeletedAt : option Time }.

Record AvatarRecord : Type := mkAvatarRecord { av_Bytes : Bytes; av_ContentType : string }.

Record BanStatusRecord : Type := mkBanStatusRecord {
  ban_IsBanned : bool; ban_Reason : string; ban_BannedAt : Time; ban_ExpiresAt : option Time }.

Record DeviceRecord : Type := mkDeviceRecord {
  dev_ID : UUID; dev_SessionID : option UUID; dev_UserPublicKey : Bytes; dev_DeviceID : string;
  dev_Platform : Z; dev_PushToken : string; dev_IsEnabled : bool; dev_UpdatedAt : Time }.

Record KeyPackageRecord : Type := mkKeyPackageRecord {
  kp_ID : UUID; kp_UserPublicKey : Bytes; kp_DeviceID : string; kp_KeyPackageBytes : Bytes;
  kp_IsLastResort : bool; kp_CreatedAt : Time; kp_ExpiresAt : Time }.

Record ChatRoomGroupInfoRecord : Type := mkGroupInfo {
  gi_RoomID : UUID; gi_UploaderPublicKey : Bytes; gi_GroupInfoBytes : Bytes;
  gi_CreatedAt : Time; gi_UpdatedAt : Time }.

Record ChatRoomWelcomeRecord : Type := mkWelcome {
  wel_RoomID : UUID; wel_TargetUserPublicKey : Bytes; wel_SenderPublicKey : Bytes;
  wel_WelcomeBytes : Bytes; wel_CreatedAt : Time; wel_UpdatedAt : Time }.

Record DirectRoomRecord : Type := mkDirectRoom {
  dr_RoomID : UUID; dr_LeftUserPublicKey : Bytes; dr_RightUserPublicKey : Bytes;
  dr_CreatedAt : Time }.

Record FriendRecord : Type := mkFriend {
  fr_ID : UUID; fr_UserPublicKey : Bytes; fr_FriendPublicKey : Bytes; fr_AcceptedAt : Time }.

Record FriendRequestRecord : Type := mkFriendRequest {
  freq_RequestID : UUID; freq_SenderPublicKey : Bytes; freq_ReceiverPublicKey : Bytes;
  freq_State : Z; freq_CreatedAt : Time; freq_UpdatedAt : Time }.

Record ChatRoomRecord : Type := mkRoom {
  room_RoomID : UUID; room_OwnerPublicKey : Bytes; room_Title : string;
  room_Description : string; room_Visibility : Z; room_AvatarHash : string;
  room_AvatarBytes : Bytes; room_AvatarContentType : string; room_StateID : option UUID;
  room_CreatedAt : Time; room_UpdatedAt : Time; room_DeletedAt : option Time }.

Record ChatRoomStateRecord : Type := mkRoomState {
  rs_ID : UUID; rs_RoomID : UUID; rs_GroupID : UUID; rs_Epoch : Z;
  rs_TreeBytes : option Bytes; rs_TreeHash : option Bytes; rs_CreatedAt : Time }.

Record ChatMemberRecord : Type := mkMember {
  mem_RoomID : UUID; mem_UserPublicKey : Bytes; mem_Role : Z; mem_NotificationLevel : Z;
  mem_JoinedAt : Time; mem_LeftAt : option Time }.

Record ChatMemberPermissionRecord : Type := mkPermission {
  perm_PermissionID : UUID; perm_RoomID : UUID; perm_UserPublicKey : Bytes;
  perm_PermissionKey : string; perm_IsAllowed : bool; perm_CreatedAt : Time;
  perm_UpdatedAt : Time }.

Record ChatInvitationRecord : Type := mkInvitation {
  inv_InvitationID : UUID; inv_RoomID : UUID; inv_InviterPublicKey : Bytes;
  inv_InviteePublicKey : Bytes; inv_ExpiresAt : option Time; inv_InviteToken : Bytes;
  inv_InviteTokenSignature : Bytes; inv_State : Z; inv_CreatedAt : Time; inv_UpdatedAt : Time }.

Record ServerStats : Type := mkServerStats {
  ss_Profiles : Z; ss_Devices : Z; ss_Friends : Z; ss_Rooms : Z }.

Record UserStats : Type := mkUserStats {
  us_Devices : Z; us_KeyPackages : Z; us_Friends : Z; us_OutgoingFriendRequests : Z; us_Rooms : Z }.

Record GroupStats : Type := mkGroupStats { gs_Members : Z; gs_Invites : Z }.

(** Decidable equality of the records that serve as table rows. *)
#[export] Instance FriendRecord_eq_dec : EqDecision FriendRecord.
Proof. solve_decision. Defined.
#[export] Instance FriendRequestRecord_eq_dec : EqDecision FriendRequestRecord.
Proof. solve_decision. Defined.
#[export] Instance ChatMemberRecord_eq_dec : EqDecision ChatMemberRecord.
Proof. solve_decision. Defined.
#[export] Instance Session_eq_dec : EqDecision Session.
Proof. solve_decision. Defined.
#[export] Instance DirectRoomRecord_eq_dec : EqDecision DirectRoomRecord.
Proof. solve_decision. Defined.
#[export] Instance ChatInvitationRecord_eq_dec : EqDecision ChatInvitationRecord.
Proof. solve_decision. Defined.
