(* ===== verification/Database.v ===== *)
(** * Database: the tables behind the repositories and the SQL they run

    A table is the list of its rows in insertion order; the section [sql]
    gives the statements the repositories send (SELECT, UPDATE, DELETE,
    INSERT with and without ON CONFLICT, ORDER BY, LIMIT/OFFSET) their
    meaning, and the lemmas that the components' proofs use.  The columns
    and constraints are those of [db/migrations] once every migration has
    run.  NULLable columns are options; a CHECK, UNIQUE or FOREIGN KEY
    violation is the error [EDatabase] with the constraint's name. *)

From Stdlib Require Import ZArith.
From S2P Require Import Prelude GoLib GoTime Domain.

Local Open Scope Z_scope.

(** ** Rows that differ from the program's records *)

Record ProfileRow : Type := mkProfileRow {
  p_public_key : Bytes; p_username : option string; p_display_name : option string;
  p_bio : option string; p_avatar_hash : option string; p_avatar_bytes : option Bytes;
  p_avatar_content_type : option string; p_last_seen_at : Time; p_created_at : Time;
  p_updated_at : Time; p_deleted_at : option Time }.

Record BanRow : Type := mkBanRow {
  b_public_key : Bytes; b_is_banned : bool; b_reason : option string; b_banned_at : Time;
  b_expires_at : option Time }.

Record OutboxRow : Type := mkOutboxRow {
  ob_event_id : UUID; ob_device_id : string; ob_segment_id : string; ob_event_type : string;
  ob_payload : Bytes; ob_status : Z; ob_send_after : Time; ob_inflight_until : option Time;
  ob_attempts : Z; ob_created_at : Time; ob_expires_at : Time; ob_acked_at : option Time;
  ob_last_sent_at : option Time; ob_last_error : option string }.

Record SegmentRow : Type := mkSegmentRow {
  sg_device_id : string; sg_segment_id : string; sg_head_event_id : option UUID;
  sg_inflight_event_id : option UUID; sg_updated_at : Time }.

Record RoomRow : Type := mkRoomRow {
  r_room_id : UUID; r_owner_public_key : Bytes; r_title : string; r_description : option string;
  r_visibility : Z; r_avatar_hash : option string; r_avatar_bytes : option Bytes;
  r_avatar_content_type : option string; r_state_id : option UUID; r_created_at : Time;
  r_updated_at : Time; r_deleted_at : option Time }.

Record UsageRow : Type := mkUsageRow {
  u_user_public_key : Bytes; u_kind : string; u_bucket_start : Time; u_requests : Z;
  u_bytes_in : Z; u_bytes_out : Z; u_updated_at : Time }.

#[export] Instance OutboxRow_eq_dec : EqDecision OutboxRow.
Proof. solve_decision. Defined.
#[export] Instance SegmentRow_eq_dec : EqDecision SegmentRow.
Proof. solve_decision. Defined.

(** ** The tables, grouped by the component that owns them *)

Record IdentityDB : Type := mkIdentityDB {
  profiles : list ProfileRow;
  ban_statuses : list BanRow;
  auth_sessions : list Session;
  event_subscriptions : list Subscription;
  device_push_tokens : list DeviceRecord;
  key_packages : list KeyPackageRecord;
  user_usage_stats : list UsageRow }.

Record EventDB : Type := mkEventDB {
  user_events : list Event;
  outbox : list OutboxRow;
  outbox_segments : list SegmentRow }.

Record FriendDB : Type := mkFriendDB {
  friend_requests : list FriendRequestRecord;
  friends : list FriendRecord }.

Record RoomDB : Type := mkRoomDB {
  chat_rooms : list RoomRow;
  chat_room_states : list ChatRoomStateRecord;
  chat_members : list ChatMemberRecord;
  chat_member_permissions : list ChatMemberPermissionRecord;
  chat_invitations : list ChatInvitationRecord;
  chat_room_group_infos : list ChatRoomGroupInfoRecord;
  chat_room_welcomes : list ChatRoomWelcomeRecord;
  direct_rooms : list DirectRoomRecord }.

Record DB : Type := mkDB {
  identity : IdentityDB; events : EventDB; social : FriendDB; rooms : RoomDB }.

Definition empty_DB : DB :=
  mkDB (mkIdentityDB [] [] [] [] [] [] []) (mkEventDB [] [] []) (mkFriendDB [] []) (mkRoomDB [] [] [] [] [] [] [] []).

(** Replacing one table. *)
Definition set_profiles (t : list ProfileRow) (db : DB) : DB :=
  mkDB (let g := identity db in mkIdentityDB t (ban_statuses g) (auth_sessions g) (event_subscriptions g) (device_push_tokens g) (key_packages g) (user_usage_stats g)) (events db) (social db) (rooms db).
Definition set_ban_statuses (t : list BanRow) (db : DB) : DB :=
  mkDB (let g := identity db in mkIdentityDB (profiles g) t (auth_sessions g) (event_subscriptions g) (device_push_tokens g) (key_packages g) (user_usage_stats g)) (events db) (social db) (rooms db).
Definition set_auth_sessions (t : list Session) (db : DB) : DB :=
  mkDB (let g := identity db in mkIdentityDB (profiles g) (ban_statuses g) t (event_subscriptions g) (device_push_tokens g) (key_packages g) (user_usage_stats g)) (events db) (social db) (rooms db).
Definition set_event_subscriptions (t : list Subscription) (db : DB) : DB :=
  mkDB (let g := identity db in mkIdentityDB (profiles g) (ban_statuses g) (auth_sessions g) t (device_push_tokens g) (key_packages g) (user_usage_stats g)) (events db) (social db) (rooms db).
Definition set_device_push_tokens (t : list DeviceRecord) (db : DB) : DB :=
  mkDB (let g := identity db in mkIdentityDB (profiles g) (ban_statuses g) (auth_sessions g) (event_subscriptions g) t (key_packages g) (user_usage_stats g)) (events db) (social db) (rooms db).
Definition set_key_packages (t : list KeyPackageRecord) (db : DB) : DB :=
  mkDB (let g := identity db in mkIdentityDB (profiles g) (ban_statuses g) (auth_sessions g) (event_subscriptions g) (device_push_tokens g) t (user_usage_stats g)) (events db) (social db) (rooms db).
Definition set_user_usage_stats (t : list UsageRow) (db : DB) : DB :=
  mkDB (let g := identity db in mkIdentityDB (profiles g) (ban_statuses g) (auth_sessions g) (event_subscriptions g) (device_push_tokens g) (key_packages g) t) (events db) (social db) (rooms db).
Definition set_user_events (t : list Event) (db : DB) : DB :=
  mkDB (identity db) (let g := events db in mkEventDB t (outbox g) (outbox_segments g)) (social db) (rooms db).
Definition set_outbox (t : list OutboxRow) (db : DB) : DB :=
  mkDB (identity db) (let g := events db in mkEventDB (user_events g) t (outbox_segments g)) (social db) (rooms db).
Definition set_outbox_segments (t : list SegmentRow) (db : DB) : DB :=
  mkDB (identity db) (let g := events db in mkEventDB (user_events g) (outbox g) t) (social db) (rooms db).
Definition set_friend_requests (t : list FriendRequestRecord) (db : DB) : DB :=
  mkDB (identity db) (events db) (let g := social db in mkFriendDB t (friends g)) (rooms db).
Definition set_friends (t : list FriendRecord) (db : DB) : DB :=
  mkDB (identity db) (events db) (let g := social db in mkFriendDB (friend_requests g) t) (rooms db).
Definition set_chat_rooms (t : list RoomRow) (db : DB) : DB :=
  mkDB (identity db) (events db) (social db) (let g := rooms db in mkRoomDB t (chat_room_states g) (chat_members g) (chat_member_permissions g) (chat_invitations g) (chat_room_group_infos g) (chat_room_welcomes g) (direct_rooms g)).
Definition set_chat_room_states (t : list ChatRoomStateRecord) (db : DB) : DB :=
  mkDB (identity db) (events db) (social db) (let g := rooms db in mkRoomDB (chat_rooms g) t (chat_members g) (chat_member_permissions g) (chat_invitations g) (chat_room_group_infos g) (chat_room_welcomes g) (direct_rooms g)).
Definition set_chat_members (t : list ChatMemberRecord) (db : DB) : DB :=
  mkDB (identity db) (events db) (social db) (let g := rooms db in mkRoomDB (chat_rooms g) (chat_room_states g) t (chat_member_permissions g) (chat_invitations g) (chat_room_group_infos g) (chat_room_welcomes g) (direct_rooms g)).
Definition set_chat_member_permissions (t : list ChatMemberPermissionRecord) (db : DB) : DB :=
  mkDB (identity db) (events db) (social db) (let g := rooms db in mkRoomDB (chat_rooms g) (chat_room_states g) (chat_members g) t (chat_invitations g) (chat_room_group_infos g) (chat_room_welcomes g) (direct_rooms g)).
Definition set_chat_invitations (t : list ChatInvitationRecord) (db : DB) : DB :=
  mkDB (identity db) (events db) (social db) (let g := rooms db in mkRoomDB (chat_rooms g) (chat_room_states g) (chat_members g) (chat_member_permissions g) t (chat_room_group_infos g) (chat_room_welcomes g) (direct_rooms g)).
Definition set_chat_room_group_infos (t : list ChatRoomGroupInfoRecord) (db : DB) : DB :=
  mkDB (identity db) (events db) (social db) (let g := rooms db in mkRoomDB (chat_rooms g) (chat_room_states g) (chat_members g) (chat_member_permissions g) (chat_invitations g) t (chat_room_welcomes g) (direct_rooms g)).
Definition set_chat_room_welcomes (t : list ChatRoomWelcomeRecord) (db : DB) : DB :=
  mkDB (identity db) (events db) (social db) (let g := rooms db in mkRoomDB (chat_rooms g) (chat_room_states g) (chat_members g) (chat_member_permissions g) (chat_invitations g) (chat_room_group_infos g) t (direct_rooms g)).
Definition set_direct_rooms (t : list DirectRoomRecord) (db : DB) : DB :=
  mkDB (identity db) (events db) (social db) (let g := rooms db in mkRoomDB (chat_rooms g) (chat_room_states g) (chat_members g) (chat_member_permissions g) (chat_invitations g) (chat_room_group_infos g) (chat_room_welcomes g) t).

(** ** Statements *)

Section sql.
Context {R : Type}.
Implicit Types (t : list R) (P : R → Prop).

(** SELECT ... WHERE P *)
Definition sql_select P `{!∀ r, Decision (P r)} t : list R := filter P t.

(** the first row of a query that [QueryRow] scans *)
Definition sql_row P `{!∀ r, Decision (P r)} t : option R := head (filter P t).

(** UPDATE ... SET f WHERE P *)
Definition sql_update P `{!∀ r, Decision (P r)} (f : R → R) t : list R :=
  (λ r, if decide (P r) then f r else r) <$> t.

(** the number of rows a statement affects *)
Definition sql_count P `{!∀ r, Decision (P r)} t : Z := Z.of_nat (length (filter P t)).

(** DELETE ... WHERE P *)
Definition sql_delete P `{!∀ r, Decision (P r)} t : list R := filter (λ r, ¬ P r) t.

(** INSERT of [r], [same] holding between rows that a unique index would
    make conflict; [None] when it is violated. *)
Definition sql_insert (same : R → R → Prop) `{!∀ a b, Decision (same a b)} (r : R) t
  : option (list R) :=
  if decide (Exists (same r) t) then None else Some (t ++ [r]).

(** INSERT ... ON CONFLICT DO NOTHING *)
Definition sql_insert_ignore (same : R → R → Prop) `{!∀ a b, Decision (same a b)} (r : R) t
  : list R :=
  if decide (Exists (same r) t) then t else t ++ [r].

(** INSERT ... ON CONFLICT DO UPDATE SET [merge old new] *)
Definition sql_upsert (same : R → R → Prop) `{!∀ a b, Decision (same a b)} (merge : R → R → R)
  (r : R) t : list R :=
  if decide (Exists (same r) t)
  then sql_update (same r) (λ old, merge old r) t
  else t ++ [r].

(** ORDER BY a key: rows with equal keys keep their order here, SQL
    leaves it open. *)
Definition order_by (le : R → R → Prop) `{!∀ a b, Decision (le a b)} t : list R :=
  merge_sort le t.

(** LIMIT l OFFSET o *)
Definition limit_offset (l o : Z) t : list R := take (Z.to_nat l) (drop (Z.to_nat o) t).

Definition limit (l : Z) t : list R := take (Z.to_nat l) t.
End sql.

(** Ascending and descending order on an integer key. *)
Definition asc {R} (k : R → Z) (a b : R) : Prop := k a ≤ k b.
Definition desc {R} (k : R → Z) (a b : R) : Prop := k b ≤ k a.
#[export] Instance asc_dec {R} (k : R → Z) a b : Decision (asc k a b).
Proof. unfold asc. apply _. Defined.
#[export] Instance desc_dec {R} (k : R → Z) a b : Decision (desc k a b).
Proof. unfold desc. apply _. Defined.
(** ORDER BY k1 DESC, k2 DESC. *)
Definition desc2 {R} (k1 k2 : R → Z) (a b : R) : Prop := k1 b < k1 a ∨ (k1 a = k1 b ∧ k2 b ≤ k2 a).
#[export] Instance desc2_dec {R} (k1 k2 : R → Z) a b : Decision (desc2 k1 k2 a b).
Proof. unfold desc2. apply _. Defined.
#[export] Instance desc2_total {R} (k1 k2 : R → Z) : Total (desc2 k1 k2).
Proof. intros a b. unfold desc2. lia. Qed.
#[export] Instance desc2_trans {R} (k1 k2 : R → Z) : Transitive (desc2 k1 k2).
Proof. intros a b c. unfold desc2. lia. Qed.

(** ORDER BY k ASC, then a BYTEA column ASC. *)
Definition asc_bytes {R} (k : R → Z) (b : R → Bytes) (x y : R) : Prop :=
  k x < k y ∨ (k x = k y ∧ bytes_leb (b x) (b y) = true).
#[export] Instance asc_bytes_dec {R} (k : R → Z) b (x y : R) : Decision (asc_bytes k b x y).
Proof. unfold asc_bytes. apply _. Defined.

#[export] Instance asc_total {R} (k : R → Z) : Total (asc k).
Proof. intros a b. unfold asc. lia. Qed.
#[export] Instance desc_total {R} (k : R → Z) : Total (desc k).
Proof. intros a b. unfold desc. lia. Qed.
#[export] Instance asc_trans {R} (k : R → Z) : Transitive (asc k).
Proof. intros a b c. unfold asc. lia. Qed.
#[export] Instance desc_trans {R} (k : R → Z) : Transitive (desc k).
Proof. intros a b c. unfold desc. lia. Qed.

(** A CHECK list: the name of the first constraint that fails. *)
Fixpoint violated (checks : list (bool * string)) : option string :=
  match checks with
  | [] => None
  | (true, _) :: rest => violated rest
  | (false, name) :: _ => Some name
  end.

Section sql_lemmas.
Context {R : Type}.
Implicit Types (t : list R) (P : R → Prop).

Lemma elem_of_sql_update P `{!∀ r, Decision (P r)} f t r :
  r ∈ sql_update P f t ↔ ∃ r0, r0 ∈ t ∧ ((P r0 ∧ r = f r0) ∨ (¬ P r0 ∧ r = r0)).
Proof.
  unfold sql_update. rewrite list_elem_of_fmap. split.
  - intros (r0 & -> & Hr0). exists r0. split; [done|]. case_decide; auto.
  - intros (r0 & Hr0 & [[HP ->]|[HP ->]]); exists r0; by case_decide.
Qed.

Lemma elem_of_sql_delete P `{!∀ r, Decision (P r)} t r :
  r ∈ sql_delete P t ↔ r ∈ t ∧ ¬ P r.
Proof. unfold sql_delete. rewrite list_elem_of_filter. tauto. Qed.

Lemma sql_update_none P `{!∀ r, Decision (P r)} f t :
  (∀ r, r ∈ t → ¬ P r) → sql_update P f t = t.
Proof.
  intros Hn. unfold sql_update. rewrite <- (list_fmap_id t) at 2. apply list_fmap_ext.
  intros i r Hr%list_elem_of_lookup_2. rewrite decide_False; [done|auto].
Qed.

(** An update that leaves a column alone leaves its projection alone. *)
Lemma fmap_sql_update {K} (k : R → K) P `{!∀ r, Decision (P r)} f t :
  (∀ r, k (f r) = k r) → k <$> sql_update P f t = k <$> t.
Proof.
  intros Hk. unfold sql_update. rewrite <- list_fmap_compose. apply list_fmap_ext.
  intros i r _. simpl. by case_decide.
Qed.

Lemma sql_row_Some P `{!∀ r, Decision (P r)} t r : sql_row P t = Some r → r ∈ t ∧ P r.
Proof. apply head_filter_Some. Qed.

Lemma sql_row_None P `{!∀ r, Decision (P r)} t :
  sql_row P t = None ↔ ∀ r, r ∈ t → ¬ P r.
Proof. apply head_filter_None. Qed.

Lemma sql_row_unique {K} (k : R → K) `{!EqDecision K} t r :
  NoDup (k <$> t) → r ∈ t → sql_row (λ r', k r' = k r) t = Some r.
Proof. intros Hk Hr. unfold sql_row. by rewrite (filter_unique k). Qed.

(** The row that a query finds after an update of the rows it looks for. *)
Lemma sql_row_update_same P `{!∀ r, Decision (P r)} f t :
  (∀ r, P r → P (f r)) → sql_row P (sql_update P f t) = f <$> sql_row P t.
Proof.
  intros Hf. unfold sql_row, sql_update, sql_select. induction t as [|x t IH]; [done|]. simpl. case_decide.
  - rewrite !filter_cons, !decide_True by auto. done.
  - rewrite !filter_cons, !decide_False by done. done.
Qed.

Lemma sql_insert_Some (same : R → R → Prop) `{!∀ a b, Decision (same a b)} r t t' :
  sql_insert same r t = Some t' → t' = t ++ [r] ∧ ∀ x, x ∈ t → ¬ same r x.
Proof.
  unfold sql_insert. case_decide as He; [done|]. intros [= <-]. split; [done|].
  intros x Hx Hs. apply He, Exists_exists. eauto.
Qed.

Lemma elem_of_order_by (le : R → R → Prop) `{!∀ a b, Decision (le a b)} t r :
  r ∈ order_by le t ↔ r ∈ t.
Proof. unfold order_by. by rewrite merge_sort_Permutation. Qed.

Lemma elem_of_limit l t r : r ∈ limit l t → r ∈ t.
Proof. unfold limit. intros Hr. eapply elem_of_sublist; [exact Hr|apply sublist_take]. Qed.

Lemma length_limit l t : 0 ≤ l → Z.of_nat (length (limit l t)) ≤ l.
Proof. intros Hl. unfold limit. rewrite length_take. lia. Qed.

Lemma NoDup_fmap_app_one {K} (k : R → K) t r :
  NoDup (k <$> t) → (∀ x, x ∈ t → k x ≠ k r) → NoDup (k <$> (t ++ [r])).
Proof.
  intros Hk Hn. rewrite fmap_app, NoDup_app. split_and!; [done| |apply NoDup_singleton].
  intros y Hy%list_elem_of_fmap ->%list_elem_of_singleton.
  destruct Hy as (x & E & Hx). by destruct (Hn x Hx).
Qed.

(** The head of a sorted query is a least row. *)
Lemma head_order_by_least (k : R → Z) t r x :
  head (order_by (asc k) t) = Some r → x ∈ t → k r ≤ k x.
Proof.
  intros Hr Hx. pose proof (StronglySorted_merge_sort (asc k) t) as Hs.
  unfold order_by in Hr. rewrite <- (merge_sort_Permutation (asc k) t) in Hx.
  destruct (merge_sort (asc k) t) as [|y l]; simplify_eq/=.
  apply StronglySorted_inv in Hs as [_ Hall].
  apply elem_of_cons in Hx as [->|Hx]; [lia|].
  rewrite Forall_forall in Hall. by apply Hall.
Qed.

Lemma sorted_order_by (k : R → Z) t : StronglySorted (asc k) (order_by (asc k) t).
Proof. apply (StronglySorted_merge_sort (asc k)). Qed.

Lemma StronglySorted_split (le : R → R → Prop) l1 l2 x y :
  StronglySorted le (l1 ++ l2) → x ∈ l1 → y ∈ l2 → le x y.
Proof.
  induction l1 as [|z l1 IH]; simpl; [set_solver|].
  intros [Hs Hall]%StronglySorted_inv [->|Hx]%elem_of_cons Hy; [|by apply IH].
  rewrite Forall_forall in Hall. apply Hall. apply elem_of_app. by right.
Qed.

(** A limited, ordered query returns a prefix: what it leaves out is not
    smaller than what it returns, and it leaves nothing out unless full. *)
Lemma limit_order_by (k : R → Z) l t x :
  x ∈ t → x ∈ limit l (order_by (asc k) t)
  ∨ (Z.of_nat (length (limit l (order_by (asc k) t))) = Z.max 0 l
     ∧ ∀ y, y ∈ limit l (order_by (asc k) t) → k y ≤ k x).
Proof.
  intros Hx. unfold limit. pose proof (sorted_order_by k t) as Hs.
  rewrite <- (elem_of_order_by (asc k)) in Hx.
  rewrite <- (take_drop (Z.to_nat l) (order_by (asc k) t)) in Hs, Hx at 1.
  apply elem_of_app in Hx as [Hx|Hx]; [by left|right]. split.
  - rewrite length_take. destruct (drop (Z.to_nat l) _) eqn:Ed; [by apply not_elem_of_nil in Hx|].
    assert (length (drop (Z.to_nat l) (order_by (asc k) t)) ≠ 0%nat) as Hd by (by rewrite Ed).
    rewrite length_drop in Hd. lia.
  - intros y Hy. by apply (StronglySorted_split (asc k) _ _ y x Hs).
Qed.
End sql_lemmas.

#[export] Hint Rewrite @elem_of_sql_update @elem_of_sql_delete @elem_of_order_by : go_rw.
