(* ===== verification/Effects.v ===== *)
(** * Effects: the world of the program and the monad its code runs in

    A Go function [f(ctx, ...) (A, error)] becomes a computation
    [Ctx → ... → M A]: it reads and changes the world (database, clock,
    UUID generator, random source, notifications) and returns a value, an
    error or a panic.  Changes made before an error are kept; only
    [WithinTransaction] rolls the database back.  The class [Env] collects
    what the world supplies: the readings of the clock, the generated
    UUIDs, which statements fail to execute, and the third-party functions
    whose code is not part of the repository. *)

From Stdlib Require Import ZArith.
From S2P Require Import Prelude GoLib GoTime Domain Database.

Local Open Scope Z_scope.

Class Env : Type := {
  (** [clock.Now()]: the n-th reading *)
  clock_at : nat → Time;
  (** [uuid.New()]: the n-th generated identifier *)
  uuid_at : nat → UUID;
  (** [randomReader.Read] of 8 bytes: the n-th draw, [None] when it fails *)
  random_at : nat → option Bytes;
  (** whether the n-th statement sent to the database fails to execute *)
  fault_at : nat → bool;
  (** crypto/ed25519: [Verify] on a key of the right size *)
  ed25519_verify : Bytes → Bytes → Bytes → bool;
  (** net: whether [net.ParseIP] accepts a string *)
  net_ParseIP : string → bool;
  (** github.com/google/uuid: [String], and [NewSHA1(NameSpaceOID, data)] *)
  uuid_String : UUID → string;
  uuid_NewSHA1_OID : string → UUID;
  (** github.com/fxamacker/cbor: payload maps, and the challenge struct *)
  cbor_Marshal_map : GoMap → option Bytes;
  cbor_Unmarshal_map : Bytes → option GoMap;
  cbor_Marshal_challenge : string → Z → Z → Bytes → option Bytes;
  (** PostgreSQL: [LOWER], and [host(x::inet)] *)
  sql_lower : string → string;
  sql_inet_host : string → option string }.

(** No statement fails to execute. *)
Definition quiet {E : Env} : Prop := ∀ n, fault_at n = false.

(** Notifications sent to the in-process listeners. *)
Inductive Notification : Type :=
  | NotifyKey (key : string)
  | NotifyOutboxEvent (event : OutboxEvent).

Record World : Type := mkWorld {
  w_db : DB; w_clock : nat; w_uuid : nat; w_random : nat; w_stmt : nat;
  w_trace : list Notification }.

Definition initial_World : World := mkWorld empty_DB 0 0 0 0 [].

Definition set_db (db : DB) (w : World) : World :=
  mkWorld db (w_clock w) (w_uuid w) (w_random w) (w_stmt w) (w_trace w).
Definition tick_stmt (w : World) : World :=
  mkWorld (w_db w) (w_clock w) (w_uuid w) (w_random w) (S (w_stmt w)) (w_trace w).

Inductive outcome (A : Type) : Type :=
  | Ok (a : A)
  | Err (e : error)
  | Panic (msg : string).
Arguments Ok {A} a.
Arguments Err {A} e.
Arguments Panic {A} msg.

Definition M (A : Type) : Type := World → outcome A * World.

Definition ret {A} (a : A) : M A := λ w, (Ok a, w).
Definition raise {A} (e : error) : M A := λ w, (Err e, w).
Definition panic {A} (msg : string) : M A := λ w, (Panic msg, w).

Definition bind {A B} (m : M A) (k : A → M B) : M B := λ w,
  match m w with
  | (Ok a, w') => k a w'
  | (Err e, w') => (Err e, w')
  | (Panic s, w') => (Panic s, w')
  end.

Notation "'let*' x := m 'in' k" := (bind m (λ x, k))
  (at level 10, x pattern, m at level 200, k at level 200,
   format "'[v' 'let*'  x  :=  m  'in' '/' k ']'") : go_scope.
Notation "m ;;; k" := (bind m (λ _, k))
  (at level 199, right associativity, format "'[v' m  ;;; '/' k ']'") : go_scope.
Open Scope go_scope.

(** The caller inspects the error instead of returning it. *)
Definition attempt {A} (m : M A) : M (error + A) := λ w,
  match m w with
  | (Ok a, w') => (Ok (inr a), w')
  | (Err e, w') => (Ok (inl e), w')
  | (Panic s, w') => (Panic s, w')
  end.

(** [_ = m]: the error is dropped. *)
Definition ignore_error {A} (m : M A) : M unit := attempt m ;;; ret tt.

(** [fmt.Errorf("prefix: %w", err)] around the error of [m]. *)
Definition wrap_error {A} (prefix : string) (m : M A) : M A := λ w,
  match m w with
  | (Err e, w') => (Err (EWrap prefix e), w')
  | r => r
  end.

(** [for _, x := range l { body }], leaving at the first error. *)
Fixpoint for_each {A} (l : list A) (body : A → M unit) : M unit :=
  match l with
  | [] => ret tt
  | x :: l => body x ;;; for_each l body
  end.

(** The same loop when the body yields a value that is appended. *)
Fixpoint map_each {A B} (l : list A) (body : A → M B) : M (list B) :=
  match l with
  | [] => ret []
  | x :: l => let* y := body x in let* ys := map_each l body in ret (y :: ys)
  end.

Definition of_option {A} (e : error) (o : option A) : M A :=
  match o with Some a => ret a | None => raise e end.

(** What a normal return says about the parts. *)
Lemma bind_ok {A B} (m : M A) (k : A → M B) w b w' :
  bind m k w = (Ok b, w') → ∃ a w1, m w = (Ok a, w1) ∧ k a w1 = (Ok b, w').
Proof. unfold bind. destruct (m w) as [[a|e|s] w1]; [|done|done]. eauto. Qed.

Lemma attempt_ok {A} (m : M A) w r w' :
  attempt m w = (Ok r, w') → match r with inr a => m w = (Ok a, w') | inl e => m w = (Err e, w') end.
Proof. unfold attempt. destruct (m w) as [[a|e|s] w1]; [|..]; by intros [= <- <-]. Qed.

(** ** Effects *)

(** Whether [ctx] carries a transaction. *)
Inductive Ctx : Type := Background | InTx.

Section effects.
Context {E : Env}.

Definition Now : M Time := λ w,
  (Ok (clock_at (w_clock w)),
   mkWorld (w_db w) (S (w_clock w)) (w_uuid w) (w_random w) (w_stmt w) (w_trace w)).

Definition NewUUID : M UUID := λ w,
  (Ok (uuid_at (w_uuid w)),
   mkWorld (w_db w) (w_clock w) (S (w_uuid w)) (w_random w) (w_stmt w) (w_trace w)).

Definition ReadRandom : M (option Bytes) := λ w,
  (Ok (random_at (w_random w)),
   mkWorld (w_db w) (w_clock w) (w_uuid w) (S (w_random w)) (w_stmt w) (w_trace w)).

Definition emit (n : Notification) : M unit := λ w,
  (Ok tt, mkWorld (w_db w) (w_clock w) (w_uuid w) (w_random w) (w_stmt w) (w_trace w ++ [n])).

Definition connection_lost : error := EDatabase "connection".

(** [dbtx(ctx).QueryContext]: a statement that only reads. *)
Definition query {A} (c : Ctx) (f : DB → A) : M A := λ w,
  if fault_at (w_stmt w) then (Err connection_lost, tick_stmt w)
  else (Ok (f (w_db w)), tick_stmt w).

(** [dbtx(ctx).ExecContext]: one statement, atomic in itself. *)
Definition exec {A} (c : Ctx) (f : DB → error + (A * DB)) : M A := λ w,
  if fault_at (w_stmt w) then (Err connection_lost, tick_stmt w)
  else match f (w_db w) with
       | inl e => (Err e, tick_stmt w)
       | inr (a, db) => (Ok a, set_db db (tick_stmt w))
       end.

Definition exec_ (c : Ctx) (f : DB → error + DB) : M unit :=
  exec c (λ db, match f db with inl e => inl e | inr db' => inr (tt, db') end).

(** [TxManager.WithinTransaction]: begin, run, commit; an error or a
    panic of the body, or of the commit, leaves the database as it was.
    With a transaction already in the context the body just runs. *)
Definition WithinTransaction {A} (c : Ctx) (fn : Ctx → M A) : M A :=
  match c with
  | InTx => fn InTx
  | Background => λ w,
      if fault_at (w_stmt w) then (Err (EWrap "begin transaction" connection_lost), tick_stmt w)
      else match fn InTx (tick_stmt w) with
           | (Ok a, w') =>
               if fault_at (w_stmt w')
               then (Err (EWrap "commit transaction" connection_lost),
                     set_db (w_db w) (tick_stmt w'))
               else (Ok a, tick_stmt w')
           | (Err e, w') => (Err e, set_db (w_db w) w')
           | (Panic s, w') => (Panic s, set_db (w_db w) w')
           end
  end.

(** The same for a closure that assigns variables of its caller: the
    values [V] it leaves there come back with its error. *)
Definition WithinTransactionCapturing {V} (c : Ctx) (fn : Ctx → M (V * option error)) : M (V * option error) :=
  match c with
  | InTx => fn InTx
  | Background => λ w,
      if fault_at (w_stmt w) then (Err (EWrap "begin transaction" connection_lost), tick_stmt w)
      else match fn InTx (tick_stmt w) with
           | (Ok (v, None), w') =>
               if fault_at (w_stmt w')
               then (Err (EWrap "commit transaction" connection_lost),
                     set_db (w_db w) (tick_stmt w'))
               else (Ok (v, None), tick_stmt w')
           | (r, w') => (r, set_db (w_db w) w')
           end
  end.

(** [ed25519.Verify] panics on a key that is not 32 bytes long. *)
Definition Verify (key message sig : Bytes) : M bool :=
  if decide (length key = PublicKeySize) then ret (ed25519_verify key message sig)
  else panic "ed25519: bad public key length".

(** ** Program logic *)

(** Weakest precondition: [Q] holds of the outcome and the final world. *)
Definition wp {A} (m : M A) (Q : outcome A → World → Prop) (w : World) : Prop :=
  Q (m w).1 (m w).2.

(** A database invariant that [m] keeps on every outcome. *)
Definition preserves {A} (I : DB → Prop) (m : M A) : Prop :=
  ∀ w, I (w_db w) → I (w_db (m w).2).

Lemma wp_bind {A B} (m : M A) (k : A → M B) Q w :
  wp (bind m k) Q w ↔
  wp m (λ r w', match r with
                | Ok a => wp (k a) Q w'
                | Err e => Q (Err e) w'
                | Panic s => Q (Panic s) w'
                end) w.
Proof. unfold wp, bind. by destruct (m w) as [[a|e|s] w']. Qed.

Lemma wp_mono {A} (m : M A) (Q Q' : outcome A → World → Prop) w :
  wp m Q w → (∀ r w', Q r w' → Q' r w') → wp m Q' w.
Proof. unfold wp. auto. Qed.

Lemma wp_query {A} c (f : DB → A) Q w :
  wp (query c f) Q w ↔
  if fault_at (w_stmt w) then Q (Err connection_lost) (tick_stmt w)
  else Q (Ok (f (w_db w))) (tick_stmt w).
Proof. unfold wp, query. by destruct (fault_at _). Qed.

Lemma wp_exec {A} c (f : DB → error + (A * DB)) Q w :
  wp (exec c f) Q w ↔
  if fault_at (w_stmt w) then Q (Err connection_lost) (tick_stmt w)
  else match f (w_db w) with
       | inl e => Q (Err e) (tick_stmt w)
       | inr (a, db) => Q (Ok a) (set_db db (tick_stmt w))
       end.
Proof. unfold wp, exec. destruct (fault_at _); [done|]. by destruct (f _) as [|[]]. Qed.

Lemma preserves_ret {A} I (a : A) : preserves I (ret a).
Proof. by intros w. Qed.
Lemma preserves_raise {A} I e : preserves I (@raise A e).
Proof. by intros w. Qed.
Lemma preserves_panic {A} I s : preserves I (@panic A s).
Proof. by intros w. Qed.
Lemma preserves_Now I : preserves I Now.
Proof. by intros w. Qed.
Lemma preserves_NewUUID I : preserves I NewUUID.
Proof. by intros w. Qed.
Lemma preserves_ReadRandom I : preserves I ReadRandom.
Proof. by intros w. Qed.
Lemma preserves_emit I n : preserves I (emit n).
Proof. by intros w. Qed.

Lemma preserves_bind {A B} I (m : M A) (k : A → M B) :
  preserves I m → (∀ a, preserves I (k a)) → preserves I (bind m k).
Proof.
  intros Hm Hk w Hw. specialize (Hm w Hw). unfold bind.
  destruct (m w) as [[a|e|s] w']; [by apply Hk|done|done].
Qed.

Lemma preserves_attempt {A} I (m : M A) : preserves I m → preserves I (attempt m).
Proof.
  intros Hm w Hw. specialize (Hm w Hw). unfold attempt.
  by destruct (m w) as [[a|e|s] w'].
Qed.

Lemma preserves_ignore_error {A} I (m : M A) : preserves I m → preserves I (ignore_error m).
Proof.
  intros Hm. apply preserves_bind; [by apply preserves_attempt|intros; apply preserves_ret].
Qed.

Lemma preserves_wrap_error {A} I p (m : M A) : preserves I m → preserves I (wrap_error p m).
Proof.
  intros Hm w Hw. specialize (Hm w Hw). unfold wrap_error.
  by destruct (m w) as [[a|e|s] w'].
Qed.

Lemma preserves_for_each {A} I (l : list A) body :
  (∀ x, x ∈ l → preserves I (body x)) → preserves I (for_each l body).
Proof.
  induction l as [|x l IH]; intros Hl; simpl; [apply preserves_ret|].
  apply preserves_bind; [apply Hl; left|intros _; apply IH; intros; apply Hl; by right].
Qed.

Lemma preserves_map_each {A B} I (l : list A) (body : A → M B) :
  (∀ x, x ∈ l → preserves I (body x)) → preserves I (map_each l body).
Proof.
  induction l as [|x l IH]; intros Hl; simpl; [apply preserves_ret|].
  apply preserves_bind; [apply Hl; left|intros y].
  apply preserves_bind; [apply IH; intros; apply Hl; by right|intros; apply preserves_ret].
Qed.

Lemma preserves_of_option {A} I e (o : option A) : preserves I (of_option e o).
Proof. destruct o; [apply preserves_ret|apply preserves_raise]. Qed.

Lemma preserves_query {A} I c (f : DB → A) : preserves I (query c f).
Proof. intros w Hw. unfold query. by destruct (fault_at _). Qed.

Lemma preserves_exec {A} I c (f : DB → error + (A * DB)) :
  (∀ db a db', I db → f db = inr (a, db') → I db') → preserves I (exec c f).
Proof.
  intros Hf w Hw. unfold exec. destruct (fault_at _); [done|].
  destruct (f (w_db w)) as [|[a db']] eqn:Ef; [done|]. by eapply Hf.
Qed.

Lemma preserves_exec_ I c (f : DB → error + DB) :
  (∀ db db', I db → f db = inr db' → I db') → preserves I (exec_ c f).
Proof.
  intros Hf. apply preserves_exec. intros db [] db' Hdb Eq.
  destruct (f db) eqn:?; simplify_eq. eauto.
Qed.

Lemma preserves_Verify I k m s : preserves I (Verify k m s).
Proof. unfold Verify. case_decide; [apply preserves_ret|apply preserves_panic]. Qed.

Lemma preserves_WithinTransaction {A} I c (fn : Ctx → M A) :
  preserves I (fn InTx) → preserves I (WithinTransaction c fn).
Proof.
  intros Hfn w Hw. destruct c; [|by apply Hfn]. simpl.
  destruct (fault_at _); [done|]. specialize (Hfn (tick_stmt w) Hw).
  destruct (fn InTx (tick_stmt w)) as [[a|e|s] w']; simpl in *; [|done|done].
  by destruct (fault_at _).
Qed.

(** [m] sends no notification, and reads of the clock move on. *)
Definition unheard (w w' : World) : Prop := w_trace w' = w_trace w ∧ (w_clock w ≤ w_clock w')%nat.
Definition silent {A} (m : M A) : Prop := ∀ w, unheard w (m w).2.

#[local] Instance unheard_refl : Reflexive unheard.
Proof. by intros w. Qed.
#[local] Instance unheard_trans : Transitive unheard.
Proof. intros w1 w2 w3 [E1 H1] [E2 H2]. split; [congruence|lia]. Qed.

Lemma silent_pure {A} (m : M A) : (∀ w, (m w).2 = w) → silent m.
Proof. intros Hm w. by rewrite Hm. Qed.
Lemma silent_ret {A} (a : A) : silent (ret a).
Proof. by apply silent_pure. Qed.
Lemma silent_raise {A} e : silent (@raise A e).
Proof. by apply silent_pure. Qed.
Lemma silent_Now : silent Now.
Proof. intros w. split; simpl; [done|lia]. Qed.

Lemma silent_bind {A B} (m : M A) (k : A → M B) :
  silent m → (∀ a, silent (k a)) → silent (bind m k).
Proof.
  intros Hm Hk w. specialize (Hm w). unfold bind.
  destruct (m w) as [[a|e|s] w']; simpl in *; [by etrans; [|apply Hk]|done|done].
Qed.

Lemma silent_wrap_error {A} p (m : M A) : silent m → silent (wrap_error p m).
Proof.
  intros Hm w. specialize (Hm w). unfold wrap_error. by destruct (m w) as [[a|e|s] w'].
Qed.

Lemma silent_for_each {A} (l : list A) body : (∀ x, silent (body x)) → silent (for_each l body).
Proof. intros Hb. induction l; simpl; [apply silent_ret|by apply silent_bind]. Qed.

Lemma silent_map_each {A B} (l : list A) (body : A → M B) :
  (∀ x, silent (body x)) → silent (map_each l body).
Proof.
  intros Hb. induction l; simpl; [apply silent_ret|].
  apply silent_bind; [done|intros]. apply silent_bind; [done|intros]. apply silent_ret.
Qed.

Lemma silent_of_option {A} e (o : option A) : silent (of_option e o).
Proof. destruct o; [apply silent_ret|apply silent_raise]. Qed.

Lemma silent_query {A} c (f : DB → A) : silent (query c f).
Proof. intros w. unfold query. by destruct (fault_at _). Qed.

Lemma silent_exec {A} c (f : DB → error + (A * DB)) : silent (exec c f).
Proof. intros w. unfold exec. destruct (fault_at _); [done|]. by destruct (f _) as [|[]]. Qed.

Lemma silent_exec_ c (f : DB → error + DB) : silent (exec_ c f).
Proof. apply silent_exec. Qed.

Lemma silent_WithinTransaction {A} c (fn : Ctx → M A) :
  silent (fn InTx) → silent (WithinTransaction c fn).
Proof.
  intros Hfn w. destruct c; [|apply Hfn]. simpl. destruct (fault_at _); [done|].
  specialize (Hfn (tick_stmt w)).
  destruct (fn InTx (tick_stmt w)) as [[a|e|s] w']; simpl in *; [|done|done].
  by destruct (fault_at _).
Qed.

(** Triples over the database: from [P], a normal return of [a] reaches
    [Q a], every error and panic reaches [R]. *)
Definition hoare {A} (P : DB → Prop) (m : M A) (Q : A → DB → Prop) (R : DB → Prop) : Prop :=
  ∀ w, P (w_db w) →
    match m w with
    | (Ok a, w') => Q a (w_db w')
    | (_, w') => R (w_db w')
    end.

Lemma hoare_preserves {A} I (m : M A) : hoare I m (λ _, I) I → preserves I m.
Proof. intros Hm w Hw. specialize (Hm w Hw). by destruct (m w) as [[a|e|s] w']. Qed.

Lemma preserves_hoare {A} I (m : M A) : preserves I m → hoare I m (λ _, I) I.
Proof. intros Hm w Hw. specialize (Hm w Hw). by destruct (m w) as [[a|e|s] w']. Qed.

(** A step that keeps [P] is skipped. *)
Lemma hoare_skip {A B} (P : DB → Prop) (m : M A) (k : A → M B) Q (R : DB → Prop) :
  preserves P m → (∀ db, P db → R db) → (∀ a, hoare P (k a) Q R) → hoare P (bind m k) Q R.
Proof.
  intros Hm HR Hk w Hw. specialize (Hm w Hw). unfold bind.
  destruct (m w) as [[a|e|s] w']; simpl in *; [by apply Hk|by apply HR|by apply HR].
Qed.

Lemma hoare_of_preserves {A} I (P R : DB → Prop) (m : M A) :
  preserves I m → (∀ db, P db → I db) → (∀ db, I db → R db) → hoare P m (λ _, R) R.
Proof.
  intros Hm HP HR w Hw. specialize (Hm w (HP _ Hw)). destruct (m w) as [[a|e|s] w']; auto.
Qed.

Lemma hoare_conseq {A} P P' (m : M A) Q Q' R R' :
  hoare P' m Q' R' → (∀ db, P db → P' db) → (∀ a db, Q' a db → Q a db) →
  (∀ db, R' db → R db) → hoare P m Q R.
Proof.
  intros Hm HP HQ HR w Hw. specialize (Hm w (HP _ Hw)).
  destruct (m w) as [[a|e|s] w']; auto.
Qed.

(** Strengthening the precondition, and moving a fact out of it. *)
Lemma hoare_pre {A} (P P' : DB → Prop) (m : M A) Q R : (∀ db, P db → P' db) → hoare P' m Q R → hoare P m Q R.
Proof. intros HP Hm w Hw. by apply Hm, HP. Qed.

Lemma hoare_pure {A} (P : DB → Prop) (φ : Prop) (m : M A) Q R : (φ → hoare P m Q R) → hoare (λ db, P db ∧ φ) m Q R.
Proof. intros Hm w [Hw Hφ]. by apply Hm. Qed.

(** What a normal return guarantees by two triples together. *)
Lemma hoare_both {A} (P P1 P2 : DB → Prop) (m : M A) (Q Q1 Q2 : A → DB → Prop) R1 R2 :
  hoare P1 m Q1 R1 → hoare P2 m Q2 R2 → (∀ db, P db → P1 db ∧ P2 db) →
  (∀ a db, Q1 a db → Q2 a db → Q a db) → hoare P m Q (λ _, True).
Proof.
  intros H1 H2 HP HQ w Hw. destruct (HP _ Hw) as [Hw1 Hw2]. specialize (H1 w Hw1).
  specialize (H2 w Hw2). destruct (m w) as [[a|e|s] w']; auto.
Qed.

Lemma hoare_ret {A} P (a : A) (Q : A → DB → Prop) R : (∀ db, P db → Q a db) → hoare P (ret a) Q R.
Proof. intros HQ w Hw. by apply HQ. Qed.

Lemma hoare_raise {A} P e (Q : A → DB → Prop) R : (∀ db, P db → R db) → hoare P (raise e) Q R.
Proof. intros HR w Hw. by apply HR. Qed.

Lemma hoare_bind {A B} P (m : M A) (k : A → M B) Q Q' R :
  hoare P m Q R → (∀ a, hoare (Q a) (k a) Q' R) → hoare P (bind m k) Q' R.
Proof.
  intros Hm Hk w Hw. specialize (Hm w Hw). unfold bind.
  destruct (m w) as [[a|e|s] w']; [by apply Hk|done|done].
Qed.

Lemma hoare_wrap_error {A} p P (m : M A) Q R : hoare P m Q R → hoare P (wrap_error p m) Q R.
Proof.
  intros Hm w Hw. specialize (Hm w Hw). unfold wrap_error.
  by destruct (m w) as [[a|e|s] w'].
Qed.

Lemma hoare_query {A} P c (f : DB → A) (R : DB → Prop) :
  (∀ db, P db → R db) → hoare P (query c f) (λ a db, P db ∧ a = f db) R.
Proof. intros HR w Hw. unfold query. destruct (fault_at _); simpl; auto. Qed.

Lemma hoare_exec {A} P c (f : DB → error + (A * DB)) (Q : A → DB → Prop) (R : DB → Prop) :
  (∀ db, P db → R db) → (∀ db a db', P db → f db = inr (a, db') → Q a db') →
  hoare P (exec c f) Q R.
Proof.
  intros HR HQ w Hw. unfold exec. destruct (fault_at _); [by apply HR|].
  destruct (f (w_db w)) as [e|[a db']] eqn:Ef; simpl; [by apply HR|by eapply HQ].
Qed.

Lemma hoare_exec_ P c (f : DB → error + DB) (Q : unit → DB → Prop) (R : DB → Prop) :
  (∀ db, P db → R db) → (∀ db db', P db → f db = inr db' → Q tt db') →
  hoare P (exec_ c f) Q R.
Proof.
  intros HR HQ. apply hoare_exec; [done|]. intros db [] db' Hdb Eq.
  destruct (f db) eqn:?; simplify_eq. eauto.
Qed.

Lemma hoare_of_option {A} P e (o : option A) (R : DB → Prop) :
  (∀ db, P db → R db) → hoare P (of_option e o) (λ a db, P db ∧ o = Some a) R.
Proof.
  intros HR. destruct o; [apply hoare_ret|apply hoare_raise]; auto.
Qed.

(** A loop that collects: each element is related to its result. *)
Lemma hoare_map_each {A B} (P : DB → Prop) (Φ : A → B → Prop) (l : list A) (body : A → M B) (R : DB → Prop) :
  (∀ x, hoare P (body x) (λ y db, P db ∧ Φ x y) R) → (∀ db, P db → R db) →
  hoare P (map_each l body) (λ ys db, P db ∧ Forall2 Φ l ys) R.
Proof.
  intros Hb HR. induction l as [|x l IH]; simpl; [apply hoare_ret; by split; [|constructor]|].
  eapply hoare_bind; [apply Hb|]. intros y w [Hw Hy]. specialize (IH w Hw). unfold bind.
  destruct (map_each l body w) as [[ys|e|s] w']; simpl in *; [|done|done].
  destruct IH as [HP Hys]. split; [done|by constructor].
Qed.

Lemma hoare_WithinTransaction {A} c P (fn : Ctx → M A) Q (R : DB → Prop) :
  hoare P (fn InTx) Q R → (∀ db, P db → R db) → hoare P (WithinTransaction c fn) Q R.
Proof.
  intros Hfn HR w Hw. destruct c; [|by apply Hfn]. simpl.
  destruct (fault_at _); [by apply HR|]. specialize (Hfn (tick_stmt w) Hw).
  destruct (fn InTx (tick_stmt w)) as [[a|e|s] w']; simpl in *; [|by apply HR|by apply HR].
  destruct (fault_at _); simpl; [by apply HR|done].
Qed.

Lemma preserves_WithinTransactionCapturing {V} I c (fn : Ctx → M (V * option error)) :
  preserves I (fn InTx) → preserves I (WithinTransactionCapturing c fn).
Proof.
  intros Hfn w Hw. destruct c; [|by apply Hfn]. simpl.
  destruct (fault_at _); [done|]. specialize (Hfn (tick_stmt w) Hw).
  destruct (fn InTx (tick_stmt w)) as [[[v [e|]]|e|s] w']; simpl in *; try done.
  by destruct (fault_at _).
Qed.

(** A transaction only has to restore the invariant by its end. *)
Lemma preserves_tx {A} I (fn : Ctx → M A) :
  hoare I (fn InTx) (λ _, I) (λ _, True) → preserves I (WithinTransaction Background fn).
Proof.
  intros Hfn w Hw. simpl. destruct (fault_at _); [done|]. specialize (Hfn (tick_stmt w) Hw).
  destruct (fn InTx (tick_stmt w)) as [[a|e|s] w']; simpl in *; [|done|done].
  by destruct (fault_at _).
Qed.

(** A transaction that does not succeed changes no table, whatever its
    body did and whichever statement failed. *)
Lemma WithinTransaction_rollback {A} (fn : Ctx → M A) w r w' :
  WithinTransaction Background fn w = (r, w') →
  (∀ a, r ≠ Ok a) → w_db w' = w_db w.
Proof.
  simpl. intros Hrun Hr. destruct (fault_at _); simplify_eq/=; [done|].
  destruct (fn InTx (tick_stmt w)) as [[a|e|s] w1]; simplify_eq/=; [|done|done].
  destruct (fault_at _); simplify_eq/=; [done|]. by destruct (Hr a).
Qed.
End effects.

#[export] Hint Resolve preserves_ret preserves_raise preserves_panic preserves_Now
  preserves_NewUUID preserves_ReadRandom preserves_emit preserves_of_option preserves_query
  preserves_Verify preserves_attempt preserves_ignore_error preserves_wrap_error
  preserves_WithinTransaction : preserves.

Create HintDb silent.
#[export] Hint Resolve silent_ret silent_raise silent_Now silent_wrap_error silent_of_option
  silent_query silent_exec silent_exec_ silent_WithinTransaction : silent.

Ltac solve_silent :=
  repeat first
    [ progress intros
    | solve [auto with silent]
    | apply silent_for_each | apply silent_map_each | apply silent_wrap_error | apply silent_bind
    | match goal with
      | |- silent (if ?b then _ else _) => destruct b
      | |- silent (match ?x with _ => _ end) => destruct x
      end ].

(** Walk down a program: sequencing, loops and case distinctions are
    decomposed, reads and pure steps are closed by the hint database, and
    the writes are left to the caller. *)
Ltac solve_preserves :=
  repeat first
    [ progress intros
    | solve [auto with preserves]
    | apply preserves_for_each | apply preserves_map_each
    | apply preserves_WithinTransaction
    | apply preserves_ignore_error | apply preserves_attempt | apply preserves_wrap_error
    | apply preserves_bind
    | match goal with
      | |- preserves _ (if ?b then _ else _) => destruct b
      | |- preserves _ (match ?x with _ => _ end) => destruct x
      end ].
