(* ===== verification/Migrations.v ===== *)
(** * Migrations: how the tests set up and clear the database

    [migrationVersion], the order of [applyMigrations] and the two clean-ups
    of internal/testutil/postgrestest/postgres.go, over the tables and
    foreign keys of db/migrations; [Open] and [Close] of
    postgres/store.go.  The container of the database is not modelled. *)

From Stdlib Require Import ZArith.
From S2P Require Import Prelude GoLib GoTime Domain Database Effects.

Local Open Scope Z_scope.

(** ** [filepath.Base], [strings.Index] *)

Definition slash : byte := x2f.

Fixpoint strip_slashes (b : Bytes) : Bytes :=
  match b with [] => [] | c :: r => if decide (c = slash) then strip_slashes r else b end.
Fixpoint until_slash (b : Bytes) : Bytes :=
  match b with [] => [] | c :: r => if decide (c = slash) then [] else c :: until_slash r end.

(** The last element of a path: without the slashes at the end, and after
    the last one before. *)
Definition Base (path : Bytes) : Bytes :=
  match path with
  | [] => to_bytes "."
  | _ => match until_slash (strip_slashes (reverse path)) with [] => [slash] | b => reverse b end
  end.

Fixpoint Index (s sub : Bytes) : option nat :=
  if is_prefix sub s then Some 0%nat
  else match s with [] => None | _ :: s => S <$> Index s sub end.

Definition bytes_ltb (a b : Bytes) : bool := negb (bytes_leb b a).

(** ** The order of the migrations *)

(** [V<number>__...]; [None] where the code answers [(0, false)]. *)
Definition migrationVersion (path : Bytes) : option Z :=
  let name := Base path in
  if negb (is_prefix (to_bytes "V") name) then None else
  match Index name (to_bytes "__") with
  | None => None
  | Some separator => atoi_bytes (drop 1 (take separator name))
  end.

(** The comparison that [applyMigrations] gives to [sort.SliceStable]. *)
Definition migration_less (left right : Bytes) : bool :=
  match migrationVersion left, migrationVersion right with
  | Some leftVersion, Some rightVersion =>
      if decide (leftVersion ≠ rightVersion) then bool_decide (leftVersion < rightVersion)
      else bytes_ltb (Base left) (Base right)
  | _, _ => bytes_ltb (Base left) (Base right)
  end.

(** [sort.SliceStable] sorts up to 20 elements by insertion: each element is
    swapped with the one before it while it is less. *)
Section sort.
Context {A : Type} (less : A → A → bool).

(** [sorted] is the sorted part, its last element first. *)
Fixpoint insert_back (x : A) (sorted : list A) : list A :=
  match sorted with
  | [] => [x]
  | y :: rest => if less x y then y :: insert_back x rest else x :: sorted
  end.
Definition SliceStable (l : list A) : list A := reverse (foldl (flip insert_back) [] l).
End sort.

(** ** [applyMigrations] *)

Section apply.
Context {S : Type} (Glob : error + list Bytes) (ReadFile : Bytes → error + Bytes) (ExecContext : Bytes → S → error + S).

(** [t.Fatalf] ends the test with the state as it is. *)
Inductive fatal : Type :=
  | FindMigrations (e : error) | NoMigrations | ReadMigration (path : Bytes) (e : error)
  | ApplyMigration (name : Bytes) (e : error).

Fixpoint apply_each (migrations : list Bytes) (s : S) : option fatal * S :=
  match migrations with
  | [] => (None, s)
  | migration :: rest =>
      match ReadFile migration with
      | inl e => (Some (ReadMigration migration e), s)
      | inr payload =>
          match ExecContext payload s with
          | inl e => (Some (ApplyMigration (Base migration) e), s)
          | inr s => apply_each rest s
          end
      end
  end.

Definition applyMigrations (s : S) : option fatal * S :=
  match Glob with
  | inl e => (Some (FindMigrations e), s)
  | inr [] => (Some NoMigrations, s)
  | inr migrations => apply_each (SliceStable migration_less migrations) s
  end.
End apply.

(** The files of db/migrations, as [filepath.Glob] lists them. *)
Definition migration_files : list Bytes := to_bytes <$>
  ["V10__restore_chat_room_welcomes.sql"; "V11__direct_welcomes_by_device.sql";
   "V12__chat_room_welcomes_conflict_target.sql"; "V1__auth_and_profiles_baseline.sql";
   "V2__social_chat_device_mls.sql"; "V3__pagination_and_ban_status.sql";
   "V4__mls_group_info_and_invitation_contracts.sql"; "V5__direct_rooms.sql";
   "V6__drop_chat_messages.sql"; "V7__user_usage_stats.sql"; "V8__device_outbox.sql";
   "V9__drop_chat_room_welcomes.sql"]%string.

(** ** The tables, and TRUNCATE ... CASCADE *)

Inductive Table : Type :=
  | Tprofiles | Tban_statuses | Tauth_sessions | Tevent_subscriptions | Tdevice_push_tokens | Tkey_packages
  | Tuser_usage_stats | Tuser_events | Toutbox | Toutbox_segments | Tfriend_requests | Tfriends
  | Tchat_rooms | Tchat_room_states | Tchat_members | Tchat_member_permissions | Tchat_invitations
  | Tchat_room_group_infos | Tchat_room_welcomes | Tdirect_rooms.
#[export] Instance table_eq_dec : EqDecision Table.
Proof. solve_decision. Defined.

Definition tables : list Table :=
  [Tprofiles; Tban_statuses; Tauth_sessions; Tevent_subscriptions; Tdevice_push_tokens; Tkey_packages;
   Tuser_usage_stats; Tuser_events; Toutbox; Toutbox_segments; Tfriend_requests; Tfriends;
   Tchat_rooms; Tchat_room_states; Tchat_members; Tchat_member_permissions; Tchat_invitations;
   Tchat_room_group_infos; Tchat_room_welcomes; Tdirect_rooms].

(** The foreign keys of the migrations. *)
Definition references (t : Table) : list Table :=
  match t with
  | Tevent_subscriptions | Tdevice_push_tokens => [Tauth_sessions]
  | Tuser_usage_stats => [Tprofiles]
  | Tchat_room_states | Tchat_members | Tchat_member_permissions | Tchat_invitations
  | Tchat_room_group_infos | Tchat_room_welcomes | Tdirect_rooms => [Tchat_rooms]
  | _ => []
  end.

Definition clear (t : Table) : DB → DB :=
  match t with
  | Tprofiles => set_profiles [] | Tban_statuses => set_ban_statuses []
  | Tauth_sessions => set_auth_sessions [] | Tevent_subscriptions => set_event_subscriptions []
  | Tdevice_push_tokens => set_device_push_tokens [] | Tkey_packages => set_key_packages []
  | Tuser_usage_stats => set_user_usage_stats [] | Tuser_events => set_user_events []
  | Toutbox => set_outbox [] | Toutbox_segments => set_outbox_segments []
  | Tfriend_requests => set_friend_requests [] | Tfriends => set_friends []
  | Tchat_rooms => set_chat_rooms [] | Tchat_room_states => set_chat_room_states []
  | Tchat_members => set_chat_members [] | Tchat_member_permissions => set_chat_member_permissions []
  | Tchat_invitations => set_chat_invitations [] | Tchat_room_group_infos => set_chat_room_group_infos []
  | Tchat_room_welcomes => set_chat_room_welcomes [] | Tdirect_rooms => set_direct_rooms []
  end.

(** One more round of tables that refer to a table of the list. *)
Definition cascade (ts : list Table) : list Table :=
  ts ++ filter (λ t, (t ∉ ts) ∧ Exists (λ t', t' ∈ ts) (references t)) tables.
Definition cleared (ts : list Table) : list Table := Nat.iter (length tables) cascade ts.
Definition stmt_truncate_cascade (ts : list Table) (db : DB) : error + DB := inr (foldl (flip clear) db (cleared ts)).

Definition cleanup_tables : list Table :=
  [Tban_statuses; Tchat_invitations; Tchat_member_permissions; Tdirect_rooms; Tchat_members; Tchat_room_states;
   Tchat_rooms; Tfriends; Tfriend_requests; Tkey_packages; Tdevice_push_tokens; Toutbox_segments; Toutbox;
   Tuser_events; Tevent_subscriptions; Tauth_sessions; Tprofiles].
Definition auth_tables : list Table :=
  [Tban_statuses; Toutbox_segments; Toutbox; Tuser_events; Tevent_subscriptions; Tauth_sessions; Tprofiles].

Section cleanup.
Context {E : Env}.

Definition CleanupTables : M unit :=
  wrap_error "cleanup postgres tables" (exec_ Background (stmt_truncate_cascade cleanup_tables)).
Definition AuthTablesOnlyCleanup : M unit :=
  wrap_error "cleanup postgres auth tables" (exec_ Background (stmt_truncate_cascade auth_tables)).
End cleanup.

(** ** [Open] and [Close] of the store *)

(** What happens to the pool of connections. *)
Inductive PoolCall : Type :=
  | SetMaxOpenConns (n : Z) | SetMaxIdleConns (n : Z) | SetConnMaxLifetime (nanoseconds : Z) | PingContext | ClosePool.
#[export] Instance pool_call_eq_dec : EqDecision PoolCall.
Proof. solve_decision. Defined.

Section store.
Context {DBHandle : Type} (sql_Open : string → error + DBHandle) (Ping : DBHandle → option error) (CloseDB : DBHandle → option error).

(** A store, and the calls its pool has received. *)
Definition Open (dsn : string) : (error + DBHandle) * list PoolCall :=
  match sql_Open dsn with
  | inl e => (inl (EWrap "open postgres" e), [])
  | inr db =>
      let calls := [SetMaxOpenConns 10; SetMaxIdleConns 10; SetConnMaxLifetime (30 * 60 * 10 ^ 9); PingContext] in
      match Ping db with
      | Some e => (inl (EWrap "ping postgres" e), calls ++ [ClosePool])
      | None => (inr db, calls)
      end
  end.

(** A nil store, or one without a pool, is closed without an error. *)
Definition Close (store : option (option DBHandle)) : option error * list PoolCall :=
  match store with
  | Some (Some db) => (CloseDB db, [ClosePool])
  | _ => (None, [])
  end.
End store.

(** ** The order *)

(** Versions first, then names. *)
Definition migration_before (left right : Bytes) : Prop :=
  ∃ l r, migrationVersion left = Some l ∧ migrationVersion right = Some r
    ∧ (l < r ∨ l = r ∧ bytes_leb (Base left) (Base right) = true).

Lemma migration_less_before left right :
  is_Some (migrationVersion left) → is_Some (migrationVersion right) →
  migration_less right left = false ↔ migration_before left right.
Proof.
  intros [l El] [r Er]. unfold migration_less, migration_before, bytes_ltb. rewrite El, Er. split.
  - case_decide as Hne.
    + intros H%bool_decide_eq_false. exists l, r. split_and!; [done..|]. lia.
    + intros H%negb_false_iff. exists l, r. split_and!; [done..|]. right. split; [lia|done].
  - intros (? & ? & [= <-] & [= <-] & H). case_decide; [apply bool_decide_eq_false; lia|].
    apply negb_false_iff. destruct H as [?|[_ H]]; [lia|done].
Qed.

#[export] Instance migration_before_trans : Transitive migration_before.
Proof.
  intros a b c (l & m & El & Em & H1) (m' & r & Em' & Er & H2). assert (m' = m) as -> by congruence.
  exists l, r. split_and!; [done..|]. destruct H1 as [?|[-> H1]], H2 as [?|[-> H2]]; [left; lia..|].
  right. split; [done|]. by eapply bytes_leb_trans.
Qed.

Lemma migration_before_antisym a b : migration_before a b → migration_before b a → Base a = Base b.
Proof.
  intros (l & r & El & Er & H1) (r' & l' & Er' & El' & H2). assert (l' = l ∧ r' = r) as [-> ->] by (split; congruence).
  destruct H1 as [?|[? H1]], H2 as [?|[? H2]]; [lia..|]. by apply bytes_leb_antisym.
Qed.

Lemma migration_before_total a b :
  is_Some (migrationVersion a) → is_Some (migrationVersion b) → migration_before a b ∨ migration_before b a.
Proof.
  intros [l El] [r Er]. destruct (Z.lt_trichotomy l r) as [H|[H|H]].
  - left. exists l, r. auto.
  - destruct (bytes_leb_total (Base a) (Base b)); [left; exists l, r|right; exists r, l]; auto 6.
  - right. exists r, l. auto.
Qed.

Section sorting.
Context {A : Type} (less : A → A → bool).

Lemma insert_back_Permutation x l : insert_back less x l ≡ₚ x :: l.
Proof. induction l as [|y l IH]; [done|]. simpl. destruct (less x y); [|done]. rewrite IH. apply Permutation_swap. Qed.

Lemma SliceStable_Permutation l : SliceStable less l ≡ₚ l.
Proof.
  unfold SliceStable. rewrite reverse_Permutation.
  assert (∀ acc, foldl (flip (insert_back less)) acc l ≡ₚ l ++ acc) as H; [|by rewrite H, app_nil_r].
  induction l as [|x l IH]; intros acc; [done|]. simpl. rewrite IH, insert_back_Permutation. by rewrite Permutation_middle.
Qed.

(** Insertion sorts when the comparison is the strict part of an order on
    the elements. *)
Context (le : A → A → Prop) `{!Transitive le} (good : A → Prop).
Context (less_le : ∀ x y, good x → good y → less y x = false ↔ le x y) (le_total : ∀ x y, good x → good y → le x y ∨ le y x).

Lemma insert_back_sorted x l :
  good x → Forall good l → StronglySorted (flip le) l → StronglySorted (flip le) (insert_back less x l).
Proof.
  intros Hx. induction l as [|y l IH]; simpl; [by repeat constructor|].
  intros [Hy Hl]%Forall_cons [Hs Hall]%StronglySorted_inv. destruct (less x y) eqn:El.
  - constructor; [by apply IH|]. rewrite insert_back_Permutation. constructor; [|done].
    destruct (le_total x y Hx Hy) as [H|H]; [done|]. apply less_le in H; [|done..]. congruence.
  - apply less_le in El; [|done..]. constructor; [by constructor|]. constructor; [done|].
    eapply Forall_impl; [exact Hall|]. intros z Hz. unfold flip in *. by etrans.
Qed.
End sorting.

Lemma SliceStable_sorted {A} (less : A → A → bool) (le : A → A → Prop) `{!Transitive le} (good : A → Prop) l :
  (∀ x y, good x → good y → less y x = false ↔ le x y) → (∀ x y, good x → good y → le x y ∨ le y x) →
  Forall good l → StronglySorted le (SliceStable less l).
Proof.
  intros Hle Htot Hl. unfold SliceStable.
  assert (∀ acc, Forall good acc → StronglySorted (flip le) acc →
    StronglySorted (flip le) (foldl (flip (insert_back less)) acc l)) as H.
  { induction Hl as [|x l Hx Hl IH]; intros acc Hg Hs; [done|]. simpl. apply IH.
    - rewrite insert_back_Permutation. by constructor.
    - by apply (insert_back_sorted less le good). }
  specialize (H [] ltac:(constructor) ltac:(constructor)). induction H as [|x r Hs IH Hall]; [constructor|].
  rewrite reverse_cons. apply StronglySorted_app_2; [|done|by repeat constructor].
  intros y z Hy%elem_of_reverse ->%list_elem_of_singleton. rewrite reverse_involutive in Hy. rewrite Forall_forall in Hall. exact (Hall y Hy).
Qed.

(** ** Applying them *)

Section applying.
Context {S : Type} (ReadFile : Bytes → error + Bytes) (ExecContext : Bytes → S → error + S).

(** The state after the files of a list. *)
Inductive applied : list Bytes → S → S → Prop :=
  | applied_nil s : applied [] s s
  | applied_cons path rest payload s s1 s2 :
      ReadFile path = inr payload → ExecContext payload s = inr s1 → applied rest s1 s2 → applied (path :: rest) s s2.

(** What stops the run at a file. *)
Definition stops_at (path : Bytes) (s : S) : Prop :=
  (∃ e, ReadFile path = inl e) ∨ ∃ payload e, ReadFile path = inr payload ∧ ExecContext payload s = inl e.

Lemma apply_each_spec l s f s' :
  apply_each ReadFile ExecContext l s = (f, s') →
  ∃ before rest, l = before ++ rest ∧ applied before s s'
    ∧ match f with None => rest = [] | Some _ => ∃ path later, rest = path :: later ∧ stops_at path s' end.
Proof.
  revert s. induction l as [|path l IH]; intros s; simpl.
  { intros [= <- <-]. exists [], []. split_and!; [done|constructor|done]. }
  destruct (ReadFile path) as [e|payload] eqn:Er.
  { intros [= <- <-]. exists [], (path :: l). split_and!; [done|constructor|]. exists path, l. split; [done|]. left. by exists e. }
  destruct (ExecContext payload s) as [e|s1] eqn:Ee.
  { intros [= <- <-]. exists [], (path :: l). split_and!; [done|constructor|]. exists path, l. split; [done|]. right. by exists payload, e. }
  intros (before & rest & -> & Ha & Hf)%IH. exists (path :: before), rest. split_and!; [done|by econstructor|done].
Qed.

(** The migrations are applied in the order of their versions, those of one
    version by name, up to the first that cannot be read or fails; no other
    order of the same files has these two keys increasing. *)
Theorem migrations_apply_in_order paths s f s' :
  Forall (λ p, is_Some (migrationVersion p)) paths → NoDup (Base <$> paths) → paths ≠ [] →
  applyMigrations (inr paths) ReadFile ExecContext s = (f, s') →
  ∃ order before rest, order ≡ₚ paths ∧ StronglySorted migration_before order
    ∧ (∀ order', order' ≡ₚ paths → StronglySorted migration_before order' → order' = order)
    ∧ order = before ++ rest ∧ applied before s s'
    ∧ match f with None => rest = [] | Some _ => ∃ path later, rest = path :: later ∧ stops_at path s' end.
Proof.
  intros Hv Hnd Hne. unfold applyMigrations. destruct paths as [|p l]; [done|]. set (paths := p :: l) in *.
  intros (before & rest & E & Hrun)%apply_each_spec.
  pose proof (SliceStable_Permutation migration_less paths) as Hp.
  assert (StronglySorted migration_before (SliceStable migration_less paths)) as Hs.
  { apply (SliceStable_sorted _ _ (λ p, is_Some (migrationVersion p))); [by apply migration_less_before|by apply migration_before_total|done]. }
  exists (SliceStable migration_less paths), before, rest. split_and!; [done|done| |done|apply Hrun..].
  intros order' Hp' Hs'. apply (StronglySorted_unique_strong migration_before); [|done|done|by rewrite Hp', Hp].
  intros a b Ha Hb Hab Hba. rewrite Hp' in Ha. rewrite Hp in Hb.
  eapply (NoDup_fmap_inj_in Base); [exact Hnd|done|done|by apply migration_before_antisym].
Qed.
End applying.

(** The migrations of the repository, which the directory lists with V10
    before V1. *)
Lemma migration_files_sorted :
  Forall (λ p, is_Some (migrationVersion p)) migration_files ∧ NoDup (Base <$> migration_files)
  ∧ migrationVersion <$> SliceStable migration_less migration_files = Some <$> seqZ 1 12.
Proof.
  split_and!; [apply (bool_decide_unpack _); vm_compute; exact I..|vm_compute; reflexivity].
Qed.

(** With a file that has no version the comparison is not an order: [V9]
    comes before [V10], [V10] before [V5x], and [V5x] before [V9]. *)
Lemma migration_less_cycles :
  let path name := to_bytes name in
  migration_less (path "V9__b.sql") (path "V10__a.sql") = true
  ∧ migration_less (path "V10__a.sql") (path "V5x.sql") = true
  ∧ migration_less (path "V5x.sql") (path "V9__b.sql") = true.
Proof. vm_compute. done. Qed.

(** ** Clearing *)

Lemma tables_complete t : t ∈ tables.
Proof. destruct t; apply (bool_decide_unpack _); vm_compute; exact I. Qed.

(** After enough rounds no table that is left refers to one that was
    cleared: the foreign keys hold. *)
Definition closed (ts : list Table) : Prop := ∀ t t', t' ∈ references t → t' ∈ ts → t ∈ ts.

Lemma closed_spec ts :
  Forall (λ t, t ∈ ts ∨ Forall (λ t', t' ∉ ts) (references t)) tables → closed ts.
Proof.
  intros H t t' Hr Ht'. rewrite Forall_forall in H. destruct (H t (tables_complete t)) as [?|Hn]; [done|].
  rewrite Forall_forall in Hn. by destruct (Hn t' Hr).
Qed.

Lemma cleanups_closed : closed (cleared cleanup_tables) ∧ closed (cleared auth_tables).
Proof. split; apply closed_spec, (bool_decide_unpack _); vm_compute; exact I. Qed.

Lemma cleared_lists :
  cleared cleanup_tables = cleanup_tables ++ [Tuser_usage_stats; Tchat_room_group_infos; Tchat_room_welcomes]
  ∧ cleared auth_tables = auth_tables ++ [Tdevice_push_tokens; Tuser_usage_stats].
Proof. split; vm_compute; reflexivity. Qed.

Lemma truncate_all db : stmt_truncate_cascade cleanup_tables db = inr empty_DB.
Proof. unfold stmt_truncate_cascade. rewrite (proj1 cleared_lists). by destruct db as [[] [] [] []]. Qed.
Lemma truncate_auth db :
  stmt_truncate_cascade auth_tables db
  = inr (mkDB (mkIdentityDB [] [] [] [] [] (key_packages (identity db)) []) (mkEventDB [] [] []) (social db) (rooms db)).
Proof. unfold stmt_truncate_cascade. rewrite (proj2 cleared_lists). by destruct db as [[] [] [] []]. Qed.

Section clearing.
Context {E : Env}.

(** [CleanupTables] leaves the empty database: what its list leaves out,
    the usage, the group information and the welcomes, goes by the cascade. *)
Theorem CleanupTables_empties w w' : CleanupTables w = (Ok tt, w') → w_db w' = empty_DB.
Proof.
  unfold CleanupTables, wrap_error, exec_, exec. destruct (fault_at _); [done|]. cbv beta.
  rewrite truncate_all. by intros [= <-].
Qed.

(** [AuthTablesOnlyCleanup] clears more than its name says: the push tokens
    and the usage of all users go by the cascade; key packages, friends and
    rooms stay. *)
Theorem AuthTablesOnlyCleanup_clears w w' :
  AuthTablesOnlyCleanup w = (Ok tt, w') →
  w_db w' = mkDB (mkIdentityDB [] [] [] [] [] (key_packages (identity (w_db w))) []) (mkEventDB [] [] [])
    (social (w_db w)) (rooms (w_db w)).
Proof.
  unfold AuthTablesOnlyCleanup, wrap_error, exec_, exec. destruct (fault_at _); [done|]. cbv beta.
  rewrite truncate_auth. by intros [= <-].
Qed.
End clearing.

(** ** The store *)

Section opening.
Context {DBHandle : Type} (sql_Open : string → error + DBHandle) (Ping : DBHandle → option error).

(** Membership in a list of calls. *)
Ltac solve_calls := rewrite ?elem_of_app, ?elem_of_cons, ?elem_of_nil; intuition discriminate.

(** A store that is answered has a bounded pool that has answered a ping; a
    pool that does not answer is closed. *)
Theorem Open_leaks_no_pool dsn r calls :
  Open sql_Open Ping dsn = (r, calls) →
  (ClosePool ∈ calls ↔ ∃ db e, sql_Open dsn = inr db ∧ Ping db = Some e ∧ r = inl (EWrap "ping postgres" e))
  ∧ match r with
    | inr db => sql_Open dsn = inr db ∧ Ping db = None ∧ SetMaxOpenConns 10 ∈ calls ∧ ClosePool ∉ calls
    | inl _ => calls = [] ∨ last calls = Some ClosePool
    end.
Proof.
  unfold Open. destruct (sql_Open dsn) as [e|db] eqn:Eo; [|destruct (Ping db) as [e|] eqn:Ep]; intros [= <- <-].
  - split; [|by left]. split; [by intros ?%not_elem_of_nil|]. by intros (? & ? & ? & _).
  - split; [|by right]. split; [intros _; by exists db, e|intros _; solve_calls].
  - split; [|split_and!; [done|done|left|solve_calls]]. split; [solve_calls|]. intros (db' & e & [= <-] & E & _). congruence.
Qed.
End opening.
