(* ===== verification/Concrete.v ===== *)
(** * Concrete: one world the theorems apply to

    Concrete functions for what [Env] leaves open: a clock that ticks,
    identifiers that count up, statements that never fail, and stand-ins
    for the third-party functions.  The witnesses of the theorems run the
    program in it. *)

From Stdlib Require Import ZArith.
From stdpp Require Import countable pretty.
From S2P Require Import Prelude GoLib GoTime Domain Database Effects.

Local Open Scope Z_scope.

(** A signature of [message] by [key] is the key followed by the message. *)
Definition toy_verify (key message sig : Bytes) : bool := bool_decide (sig = key ++ message).

(** Identifiers are numbered from 1, so that none is the nil identifier. *)
#[export] Instance concrete_env : Env := {|
  clock_at n := 1000000000 + Z.of_nat n;
  uuid_at n := N.of_nat (S n);
  random_at _ := Some (replicate 8 "007"%byte);
  fault_at _ := false;
  ed25519_verify := toy_verify;
  net_ParseIP s := bool_decide (s ≠ ""%string);
  uuid_String id := pretty id;
  uuid_NewSHA1_OID s := Npos (encode s);
  cbor_Marshal_map m := Some (mjoin ((λ kv, to_bytes kv.1) <$> m));
  cbor_Unmarshal_map b := Some [("bytes"%string, ABytes b)];
  cbor_Marshal_challenge t _ _ nonce := Some (to_bytes t ++ nonce);
  sql_lower s := s;
  sql_inet_host s := Some s |}.

Lemma concrete_quiet : quiet.
Proof. done. Qed.

Lemma concrete_clock_monotone i j : (i ≤ j)%nat → clock_at i ≤ clock_at j.
Proof. simpl. lia. Qed.

(** Keys of 32 equal bytes. *)
Definition key_of (b : byte) : Bytes := replicate 32 b.
Definition alice : Bytes := key_of "097"%byte.
Definition bob : Bytes := key_of "098"%byte.
Definition carol : Bytes := key_of "099"%byte.
