(* ===== verification/Pagination.v ===== *)
(** * Pagination: internal/application/clientapi/pagination.go

    Offset cursors (the base64url text of a decimal offset), page limits
    and page slicing, with the cursor round trip and the theorem that
    following the cursors of a list visits each of its elements once. *)

From Stdlib Require Import ZArith Lia.
From S2P Require Import Prelude GoLib GoTime Domain Database.

Local Open Scope Z_scope.

(** ** Definitions *)

Definition normalizeLimit (limit fallback : Z) : Z :=
  if decide (limit ≤ 0 ∨ 200 < limit) then fallback else limit.

Definition decodeOffsetCursor (cursor : string) : error + Z :=
  if decide (TrimSpace cursor = "") then inr 0
  else match b64_decode (to_bytes cursor) with
       | None => inl (EWrap "invalid cursor" (EText "illegal base64 data"))
       | Some raw =>
           match atoi_bytes raw with
           | Some offset => if decide (offset < 0) then inl (EText "invalid cursor") else inr offset
           | None => inl (EText "invalid cursor")
           end
       end.

Definition encodeOffsetCursor (offset : Z) : string := of_bytes (b64_encode (itoa_bytes offset)).

Definition paginateSlice {A} (items : list A) (limit offset : Z) : list A * any :=
  if decide (Z.of_nat (length items) ≤ limit) then (items, ANil)
  else (take (Z.to_nat limit) items, AString (encodeOffsetCursor (int64 (offset + limit)))).

(** One page of the rows [all] as the list operations of the service serve
    it: decode the cursor, fetch one row more than the limit, slice. *)
Definition serve_page {A} (all : list A) (limit : Z) (cursor : string) : error + (list A * any) :=
  match decodeOffsetCursor cursor with
  | inl e => inl e
  | inr offset => inr (paginateSlice (limit_offset (limit + 1) offset all) limit offset)
  end.

(** A client that follows [nextCursor] until it is nil; [fuel] bounds the
    number of requests. *)
Fixpoint follow_cursors {A} (fuel : nat) (all : list A) (limit : Z) (cursor : string)
  : option (list A) :=
  match fuel with
  | O => None
  | S fuel =>
      match serve_page all limit cursor with
      | inr (items, AString next) => app items <$> follow_cursors fuel all limit next
      | inr (items, _) => Some items
      | inl _ => None
      end
  end.

(** ** Lemmas *)

Lemma normalizeLimit_range limit fallback :
  0 < fallback ≤ 200 → 0 < normalizeLimit limit fallback ≤ 200.
Proof. unfold normalizeLimit. case_decide; lia. Qed.

Lemma encode_decode_cursor_aux raw :
  raw ≠ [] → decodeOffsetCursor (of_bytes (b64_encode raw))
  = match atoi_bytes raw with
    | Some offset => if decide (offset < 0) then inl (EText "invalid cursor") else inr offset
    | None => inl (EText "invalid cursor")
    end.
Proof.
  intros Hraw. unfold decodeOffsetCursor.
  rewrite decide_False; [by rewrite to_of_bytes, b64_decode_encode|].
  destruct (b64_encode_head raw Hraw) as (i & rest & Hi & ->).
  apply TrimSpace_nonempty. by apply (b64_char_spec i).
Qed.

Lemma decode_encode_cursor offset :
  0 ≤ offset < 2 ^ 63 → decodeOffsetCursor (encodeOffsetCursor offset) = inr offset.
Proof.
  intros Ho. unfold encodeOffsetCursor. rewrite encode_decode_cursor_aux.
  - rewrite atoi_itoa_bytes by done. rewrite decide_False by lia. done.
  - unfold itoa_bytes. destruct (Z.ltb_spec offset 0); [lia|].
    destruct (digits_fuel_head 20 offset ltac:(lia)) as (d & rest & _ & ->). done.
Qed.

Lemma follow_from {A} (all : list A) limit cursor k fuel :
  0 < limit → Z.of_nat (length all) < 2 ^ 63 → (k ≤ length all)%nat →
  (length all - k < fuel)%nat → decodeOffsetCursor cursor = inr (Z.of_nat k) →
  follow_cursors fuel all limit cursor = Some (drop k all).
Proof.
  intros Hl Hall. revert cursor k.
  induction fuel as [|fuel IH]; intros cursor k Hk Hf Hc; [lia|]. simpl.
  unfold serve_page. rewrite Hc. unfold paginateSlice, limit_offset. rewrite Nat2Z.id.
  rewrite length_take, length_drop. case_decide as Hlen.
  - rewrite take_ge; [done|]. rewrite length_drop. lia.
  - rewrite int64_id by (unfold in_int64; lia).
    replace (Z.of_nat k + limit) with (Z.of_nat (k + Z.to_nat limit)) by lia.
    rewrite (IH _ (k + Z.to_nat limit)%nat); [|lia|lia|apply decode_encode_cursor; lia].
    simpl. f_equal. rewrite take_take, Nat.min_l by lia.
    rewrite <- drop_drop. apply take_drop.
Qed.

(** ** Properties *)

(** the cursor handed to a client decodes to the offset it was made
    from, for every offset that fits a non-negative [int64]. *)
Lemma cursor_roundtrip offset :
  0 ≤ offset < 2 ^ 63 → decodeOffsetCursor (encodeOffsetCursor offset) = inr offset.
Proof. apply decode_encode_cursor. Qed.

Lemma cursor_roundtrip_witness :
  decodeOffsetCursor (encodeOffsetCursor 9223372036854775807) = inr 9223372036854775807.
Proof. apply cursor_roundtrip. lia. Defined.

(** C27: following the cursors of a list from its first page terminates and
    returns every element exactly once and in order, whatever page limit
    the client asked for (it is normalized to 1..200); one request per
    element, plus one, is enough. *)
Theorem cursors_enumerate {A} (all : list A) limit fallback :
  0 < fallback ≤ 200 → Z.of_nat (length all) < 2 ^ 63 →
  follow_cursors (S (length all)) all (normalizeLimit limit fallback) "" = Some all.
Proof.
  intros Hf Hall. pose proof (normalizeLimit_range limit fallback Hf).
  apply (follow_from all _ "" 0); [lia|done|lia|lia|reflexivity].
Qed.

Lemma cursors_enumerate_witness :
  follow_cursors 4 [10; 20; 30] (normalizeLimit 2 50) "" = Some [10; 20; 30].
Proof. apply (cursors_enumerate [10; 20; 30] 2 50); [lia|vm_compute; done]. Defined.
