(* ===== verification/OutboxRepo.v ===== *)
(** * OutboxRepo: internal/repository/postgres/auth_repository_outbox.go

    The device outbox: a row of [outbox] per (event, device), grouped in
    segments (one per device and room, or per device and event type) of
    which only the head may be in flight.  Each method of the repository is
    a computation of the same name. *)

From Stdlib Require Import ZArith.
From S2P Require Import Prelude GoLib GoTime Domain Database Effects.

Local Open Scope Z_scope.

(** ** Row updates *)

Definition ob_set_claimed (now until : Time) (o : OutboxRow) : OutboxRow :=
  mkOutboxRow (ob_event_id o) (ob_device_id o) (ob_segment_id o) (ob_event_type o) (ob_payload o)
    StatusInFlight until (Some until) (ob_attempts o + 1) (ob_created_at o) (ob_expires_at o)
    (ob_acked_at o) (Some now) None.

Definition ob_set_acked (now : Time) (o : OutboxRow) : OutboxRow :=
  mkOutboxRow (ob_event_id o) (ob_device_id o) (ob_segment_id o) (ob_event_type o) (ob_payload o)
    StatusAcked (ob_send_after o) (ob_inflight_until o) (ob_attempts o) (ob_created_at o)
    (ob_expires_at o) (Some now) (ob_last_sent_at o) (ob_last_error o).

Definition ob_set_dropped (reason : string) (o : OutboxRow) : OutboxRow :=
  mkOutboxRow (ob_event_id o) (ob_device_id o) (ob_segment_id o) (ob_event_type o) (ob_payload o)
    StatusDropped (ob_send_after o) (ob_inflight_until o) (ob_attempts o) (ob_created_at o)
    (ob_expires_at o) (ob_acked_at o) (ob_last_sent_at o) (Some reason).

Definition sg_set (head inflight : option UUID) (now : Time) (s : SegmentRow) : SegmentRow :=
  mkSegmentRow (sg_device_id s) (sg_segment_id s) head inflight now.

(** The statuses of an undelivered event: [status IN (pending, in flight)]. *)
Definition ob_live (o : OutboxRow) : Prop :=
  ob_status o = StatusPending ∨ ob_status o = StatusInFlight.
#[export] Instance ob_live_dec o : Decision (ob_live o).
Proof. unfold ob_live. apply _. Defined.

(** Rows of a segment: [device_id = $1 AND segment_id = $2]. *)
Definition ob_in (dev seg : string) (o : OutboxRow) : Prop :=
  ob_device_id o = dev ∧ ob_segment_id o = seg.
#[export] Instance ob_in_dec dev seg o : Decision (ob_in dev seg o).
Proof. unfold ob_in. apply _. Defined.
Definition sg_in (dev seg : string) (s : SegmentRow) : Prop :=
  sg_device_id s = dev ∧ sg_segment_id s = seg.
#[export] Instance sg_in_dec dev seg s : Decision (sg_in dev seg s).
Proof. unfold sg_in. apply _. Defined.

(** [nullable <= now]: NULL compares to nothing. *)
Definition opt_le (o : option Time) (now : Time) : Prop :=
  match o with Some t => t ≤ now | None => False end.
#[export] Instance opt_le_dec o now : Decision (opt_le o now).
Proof. destruct o; simpl; apply _. Defined.
Definition opt_gt (o : option Time) (now : Time) : Prop :=
  match o with Some t => now < t | None => False end.
#[export] Instance opt_gt_dec o now : Decision (opt_gt o now).
Proof. destruct o; simpl; apply _. Defined.

(** ** Statements *)

Definition same_event (a b : OutboxRow) : Prop := ob_event_id a = ob_event_id b.
#[export] Instance same_event_dec a b : Decision (same_event a b).
Proof. unfold same_event. apply _. Defined.
Definition same_segment (a b : SegmentRow) : Prop :=
  sg_device_id a = sg_device_id b ∧ sg_segment_id a = sg_segment_id b.
#[export] Instance same_segment_dec a b : Decision (same_segment a b).
Proof. unfold same_segment. apply _. Defined.

Definition stmt_insert_outbox (o : OutboxRow) (db : DB) : error + DB :=
  match violated [(bool_decide (ob_device_id o ≠ ""), "outbox_device_id_non_empty"%string);
                  (bool_decide (ob_segment_id o ≠ ""), "outbox_segment_id_non_empty"%string)] with
  | Some name => inl (EDatabase name)
  | None => inr (set_outbox (sql_insert_ignore same_event o (outbox (events db))) db)
  end.

Definition merge_segment (old new : SegmentRow) : SegmentRow :=
  mkSegmentRow (sg_device_id old) (sg_segment_id old)
    (match sg_head_event_id old with Some h => Some h | None => sg_head_event_id new end)
    (sg_inflight_event_id old) (sg_updated_at new).

Definition stmt_upsert_segment (s : SegmentRow) (db : DB) : error + DB :=
  inr (set_outbox_segments (sql_upsert same_segment merge_segment s (outbox_segments (events db))) db).

Definition stmt_drop_tail (dev seg : string) (from : Time) (reason : string) (db : DB) : error + DB :=
  inr (set_outbox (sql_update (λ o, ob_in dev seg o ∧ from ≤ ob_created_at o ∧ ob_live o)
                     (ob_set_dropped reason) (outbox (events db))) db).

Definition stmt_set_segment (dev seg : string) (head inflight : option UUID) (now : Time) (db : DB)
  : error + DB :=
  inr (set_outbox_segments (sql_update (sg_in dev seg) (sg_set head inflight now)
                              (outbox_segments (events db))) db).

(** [SET inflight_event_id = $3] alone. *)
Definition stmt_set_inflight (dev seg : string) (inflight : option UUID) (now : Time) (db : DB)
  : error + DB :=
  inr (set_outbox_segments
         (sql_update (sg_in dev seg) (λ s, sg_set (sg_head_event_id s) inflight now s)
            (outbox_segments (events db))) db).

(** [UPDATE outbox SET ... WHERE event_id = $1 RETURNING ...]. *)
Definition stmt_claim (id : UUID) (now until : Time) (db : DB) : error + (option OutboxRow * DB) :=
  inr (sql_row (λ o, ob_event_id o = id)
         (sql_update (λ o, ob_event_id o = id) (ob_set_claimed now until) (outbox (events db))),
       set_outbox (sql_update (λ o, ob_event_id o = id) (ob_set_claimed now until)
                     (outbox (events db))) db).

Definition stmt_ack (id : UUID) (now : Time) (db : DB) : error + DB :=
  inr (set_outbox (sql_update (λ o, ob_event_id o = id) (ob_set_acked now) (outbox (events db))) db).

Definition stmt_clear_inflight (dev seg : string) (now : Time) (id : UUID) (db : DB) : error + DB :=
  inr (set_outbox_segments
         (sql_update (λ s, sg_in dev seg s ∧ sg_inflight_event_id s = Some id)
            (λ s, sg_set (sg_head_event_id s) None now s) (outbox_segments (events db))) db).

(** ** Queries *)

Record candidate : Type := mkCandidate {
  cand_deviceID : string; cand_segmentID : string; cand_eventID : UUID; cand_status : Z;
  cand_attempts : Z; cand_createdAt : Time; cand_expiresAt : Time }.

(** [outbox_segments s JOIN outbox o ON o.event_id = s.head_event_id]. *)
Definition segment_heads (db : DB) : list (SegmentRow * OutboxRow) :=
  outbox_segments (events db) ≫= λ s,
    pair s <$> filter (λ o, sg_head_event_id s = Some (ob_event_id o)) (outbox (events db)).

(** An event that may be sent (again), or that has expired. *)
Definition ob_due (now : Time) (o : OutboxRow) : Prop :=
  ob_expires_at o ≤ now
  ∨ (ob_status o = StatusPending ∧ ob_send_after o ≤ now)
  ∨ (ob_status o = StatusInFlight ∧ opt_le (ob_inflight_until o) now).
#[export] Instance ob_due_dec now o : Decision (ob_due now o).
Proof. unfold ob_due. apply _. Defined.

Definition to_candidate (p : SegmentRow * OutboxRow) : candidate :=
  let '(s, o) := p in
  mkCandidate (sg_device_id s) (sg_segment_id s) (ob_event_id o) (ob_status o) (ob_attempts o)
    (ob_created_at o) (ob_expires_at o).

Definition select_candidates (now : Time) (batchSize : Z) (db : DB) : list candidate :=
  to_candidate <$>
    limit batchSize (order_by (asc (λ p : SegmentRow * OutboxRow, ob_created_at p.2))
                       (filter (λ p, ob_due now p.2) (segment_heads db))).

Definition select_expired_heads (now : Time) (batchSize : Z) (db : DB) : list candidate :=
  to_candidate <$>
    limit batchSize (order_by (asc (λ p : SegmentRow * OutboxRow, ob_created_at p.2))
                       (filter (λ p, ob_expires_at p.2 ≤ now) (segment_heads db))).

(** The event that becomes the head once [id] is acknowledged. *)
Definition select_next (dev seg : string) (now : Time) (id : UUID) (db : DB) : option UUID :=
  ob_event_id <$>
    head (limit 1 (order_by (asc ob_created_at)
      (sql_select (λ o, ob_in dev seg o ∧ ob_live o ∧ now < ob_expires_at o ∧ ob_event_id o ≠ id)
         (outbox (events db))))).

Definition string_le (a b : string) : Prop := bytes_leb (to_bytes a) (to_bytes b) = true.
#[export] Instance string_le_dec a b : Decision (string_le a b).
Proof. unfold string_le. apply _. Defined.

(** The devices of a user: those of its authenticated sessions and those
    registered for push, sorted, without duplicates or empty names. *)
Definition select_devices (user : Bytes) (db : DB) : list string :=
  order_by string_le (remove_dups (filter (λ d, d ≠ "")
    ((ses_DeviceID <$> sql_select (λ s, ses_UserPublicKey s = user ∧ ses_IsAuthenticated s = true)
                         (auth_sessions (identity db)))
     ++ (dev_DeviceID <$> sql_select (λ d, dev_UserPublicKey d = user)
                            (device_push_tokens (identity db)))))).

(** ** Methods of the repository *)

Section outbox_repo.
Context {E : Env}.

Definition outboxSegmentID (event : Event) : string :=
  let key_value key :=
    match get_string (ev_Payload event) key with
    | Some value => if decide (TrimSpace value ≠ "") then Some value else None
    | None => None
    end in
  match key_value "roomId", key_value "chatId", key_value "segmentId" with
  | Some v, _, _ => v
  | None, Some v, _ => v
  | None, None, Some v => v
  | None, None, None => "global:" +:+ ev_EventType event
  end%string.

Definition outboxEventID (eventID : UUID) (deviceID : string) : UUID :=
  uuid_NewSHA1_OID (uuid_String eventID +:+ ":" +:+ deviceID)%string.

Definition listTargetDeviceIDs (c : Ctx) (user : Bytes) : M (list string) :=
  wrap_error "query outbox devices" (query c (select_devices user)).

Definition append_device (c : Ctx) (event : Event) (payload : Bytes) (segmentID : string)
  (deviceID : string) : M unit :=
  let outboxEventID := outboxEventID (ev_EventID event) deviceID in
  wrap_error "insert outbox event" (exec_ c (stmt_insert_outbox
    (mkOutboxRow outboxEventID deviceID segmentID (ev_EventType event) payload StatusPending
       (ev_AvailableAt event) None 0 (ev_CreatedAt event) (ev_ExpiresAt event) None None None))) ;;;
  wrap_error "upsert outbox segment" (exec_ c (stmt_upsert_segment
    (mkSegmentRow deviceID segmentID (Some outboxEventID) None (ev_CreatedAt event)))).

Definition appendOutbox (c : Ctx) (event : Event) : M unit :=
  let* deviceIDs := listTargetDeviceIDs c (ev_UserPublicKey event) in
  match deviceIDs with
  | [] => ret tt
  | _ =>
      let* payload := of_option (EText "marshal outbox payload") (cbor_Marshal_map (ev_Payload event)) in
      let segmentID := outboxSegmentID event in
      for_each deviceIDs (append_device c event payload segmentID)
  end.

Definition dropSegmentTail (c : Ctx) (dev seg : string) (from now : Time) (reason : string) : M unit :=
  wrap_error "drop outbox tail" (exec_ c (stmt_drop_tail dev seg from reason)) ;;;
  wrap_error "clear dropped outbox segment" (exec_ c (stmt_set_segment dev seg None None now)).

Definition scanOutboxEvent (row : option OutboxRow) : M OutboxEvent :=
  let* o := of_option (EWrap "scan outbox event" ErrNoRows) row in
  let* payload := of_option (EText "unmarshal outbox payload") (cbor_Unmarshal_map (ob_payload o)) in
  ret (mkOutboxEvent (ob_event_id o) (ob_device_id o) (ob_segment_id o) (ob_event_type o) payload
         (ob_created_at o) (ob_expires_at o) (ob_inflight_until o) (ob_last_sent_at o)
         (ob_attempts o)).

Definition claim_one (c : Ctx) (now : Time) (ackTimeout : Duration) (maxAttempts : Z)
  (item : candidate) : M (option OutboxEvent) :=
  if decide (cand_expiresAt item < now ∨ cand_expiresAt item = now
             ∨ maxAttempts < cand_attempts item + 1)
  then dropSegmentTail c (cand_deviceID item) (cand_segmentID item) (cand_createdAt item) now
         "expired_or_attempts_exceeded" ;;; ret None
  else
    let inflightUntil := now + ackTimeout in
    let* row := exec c (stmt_claim (cand_eventID item) now inflightUntil) in
    let* event := scanOutboxEvent row in
    wrap_error "mark segment inflight" (exec_ c (stmt_set_inflight (cand_deviceID item)
      (cand_segmentID item) (Some (cand_eventID item)) now)) ;;;
    ret (Some event).

Definition ClaimPending (c : Ctx) (now : Time) (batchSize : Z) (ackTimeout : Duration)
  (maxAttempts : Z) : M (list OutboxEvent) :=
  if decide (batchSize ≤ 0) then ret [] else
  match c with
  | Background => raise (EText "outbox claim requires transaction")
  | InTx =>
      let* candidates := wrap_error "select outbox segments"
        (query c (select_candidates now batchSize)) in
      let* claimed := map_each candidates (claim_one c now ackTimeout maxAttempts) in
      ret (omap id claimed)
  end.

Definition ListInflight (c : Ctx) (deviceID : string) (now : Time) (lim : Z) : M (list OutboxEvent) :=
  let* rows := wrap_error "query inflight outbox" (query c (λ db,
    limit lim (order_by (asc ob_created_at)
      (sql_select (λ o, ob_device_id o = deviceID ∧ ob_status o = StatusInFlight
                        ∧ opt_gt (ob_inflight_until o) now) (outbox (events db)))))) in
  map_each rows (λ o, scanOutboxEvent (Some o)).

Definition AcknowledgeOutbox (c : Ctx) (now : Time) (eventID : UUID) (deviceID segmentID : string)
  : M unit :=
  match c with
  | Background => raise (EText "outbox ack requires transaction")
  | InTx =>
      let* row := wrap_error "select outbox event for ack" (query c (λ db,
        sql_row (λ o, ob_event_id o = eventID ∧ ob_device_id o = deviceID) (outbox (events db)))) in
      match row with
      | None => ret tt
      | Some o =>
          let storedSegmentID := ob_segment_id o in
          if decide (segmentID ≠ "" ∧ segmentID ≠ storedSegmentID)%string then ret tt else
          if decide (ob_status o = StatusAcked) then ret tt else
          wrap_error "ack outbox event" (exec_ c (stmt_ack eventID now)) ;;;
          let* headEventID := wrap_error "select outbox head" (query c (λ db,
            default uuid_Nil ∘ sg_head_event_id <$>
              sql_row (sg_in deviceID storedSegmentID) (outbox_segments (events db)))) in
          if decide (headEventID = Some eventID) then
            let* nextEventID := wrap_error "select next outbox head"
              (query c (select_next deviceID storedSegmentID now eventID)) in
            wrap_error "advance outbox head"
              (exec_ c (stmt_set_segment deviceID storedSegmentID nextEventID None now))
          else
            wrap_error "clear non-head inflight outbox event"
              (exec_ c (stmt_clear_inflight deviceID storedSegmentID now eventID))
      end
  end.

Definition DropExpiredHeads (c : Ctx) (now : Time) (batchSize : Z) : M Z :=
  let* heads := wrap_error "query expired outbox heads"
    (query c (select_expired_heads now batchSize)) in
  for_each heads (λ h,
    dropSegmentTail c (cand_deviceID h) (cand_segmentID h) (cand_createdAt h) now "expired_head") ;;;
  ret (Z.of_nat (length heads)).

Definition select_terminal (status : Z) (olderThan : Time) (lim : Z) (db : DB) : list UUID :=
  ob_event_id <$> limit lim (order_by (asc ob_created_at)
    (sql_select (λ o, ob_status o = status ∧ default (ob_expires_at o) (ob_acked_at o) ≤ olderThan)
       (outbox (events db)))).

Definition stmt_delete_terminal (status : Z) (olderThan : Time) (lim : Z) (db : DB)
  : error + (Z * DB) :=
  let ids := select_terminal status olderThan lim db in
  inr (sql_count (λ o, ob_event_id o ∈ ids) (outbox (events db)),
       set_outbox (sql_delete (λ o, ob_event_id o ∈ ids) (outbox (events db))) db).

Definition DeleteTerminal (c : Ctx) (status : Z) (olderThan : Time) (lim : Z) : M Z :=
  wrap_error "delete terminal outbox events" (exec c (stmt_delete_terminal status olderThan lim)).
End outbox_repo.
