(* ===== verification/OutboxInv.v ===== *)
(** * OutboxInv: what every operation of the outbox keeps true

    [outbox_wf]: identifiers and segment keys are unique, the head of a
    segment belongs to it, and an event in flight is the head of its
    segment and holds a lease.  Hence a device never has two events of one
    segment in flight.  The invariant survives every method of the
    repository on every outcome, whichever statements fail. *)

From Stdlib Require Import ZArith.
From S2P Require Import Prelude GoLib GoTime Domain Database Effects OutboxRepo.

Local Open Scope Z_scope.

Definition sg_key (s : SegmentRow) : string * string := (sg_device_id s, sg_segment_id s).

Record outbox_wf (g : EventDB) : Prop := {
  wf_ids : NoDup (ob_event_id <$> outbox g);
  wf_keys : NoDup (sg_key <$> outbox_segments g);
  wf_head_in : ∀ s h o, s ∈ outbox_segments g → sg_head_event_id s = Some h →
    o ∈ outbox g → ob_event_id o = h → ob_in (sg_device_id s) (sg_segment_id s) o;
  wf_inflight : ∀ o, o ∈ outbox g → ob_status o = StatusInFlight →
    ∃ s, s ∈ outbox_segments g ∧ sg_in (ob_device_id o) (ob_segment_id o) s
         ∧ sg_head_event_id s = Some (ob_event_id o);
  wf_lease : ∀ o, o ∈ outbox g → ob_status o = StatusInFlight → is_Some (ob_inflight_until o) }.

Definition db_wf (db : DB) : Prop := outbox_wf (events db).

(** ** Consequences *)

Lemma sg_in_key s s' : sg_key s = sg_key s' ↔ sg_in (sg_device_id s) (sg_segment_id s) s'.
Proof. unfold sg_key, sg_in. split; [intros [= -> ->]; done|intros [-> ->]; done]. Qed.

Lemma segment_unique g dev seg s s' :
  outbox_wf g → s ∈ outbox_segments g → s' ∈ outbox_segments g →
  sg_in dev seg s → sg_in dev seg s' → s = s'.
Proof.
  intros Hwf Hs Hs' [<- <-] Hin'. apply (NoDup_fmap_inj_in sg_key (outbox_segments g));
    [apply Hwf|done|done|by apply sg_in_key].
Qed.

Lemma event_unique g o o' :
  outbox_wf g → o ∈ outbox g → o' ∈ outbox g → ob_event_id o = ob_event_id o' → o = o'.
Proof. intros Hwf. apply NoDup_fmap_inj_in, Hwf. Qed.

(** Two events of one segment that are both in flight are the same. *)
Lemma inflight_unique g o o' :
  outbox_wf g → o ∈ outbox g → o' ∈ outbox g →
  ob_status o = StatusInFlight → ob_status o' = StatusInFlight →
  ob_device_id o = ob_device_id o' → ob_segment_id o = ob_segment_id o' → o = o'.
Proof.
  intros Hwf Ho Ho' Hst Hst' Hd Hs.
  destruct (wf_inflight g Hwf o Ho Hst) as (s & Hs1 & Hin & Hh).
  destruct (wf_inflight g Hwf o' Ho' Hst') as (s' & Hs1' & Hin' & Hh').
  rewrite <- Hd, <- Hs in Hin'. rewrite (segment_unique g _ _ s s' Hwf) in Hh by eauto.
  apply (event_unique g); congruence || done.
Qed.

(** ** Statements *)

(** What a statement on the outbox rows leaves alone: identity, place and
    age; it may put a row in flight only with a lease. *)
Definition same_row (o o' : OutboxRow) : Prop :=
  ob_event_id o' = ob_event_id o ∧ ob_device_id o' = ob_device_id o
  ∧ ob_segment_id o' = ob_segment_id o ∧ ob_created_at o' = ob_created_at o
  ∧ ob_expires_at o' = ob_expires_at o.

(** Updating rows without putting any in flight. *)
Lemma wf_update_rows g P `{!∀ o, Decision (P o)} f :
  (∀ o, same_row o (f o)) → (∀ o, ob_status (f o) ≠ StatusInFlight) →
  outbox_wf g → outbox_wf (mkEventDB (user_events g) (sql_update P f (outbox g)) (outbox_segments g)).
Proof.
  intros Hsame Hst Hwf. constructor; simpl.
  - rewrite fmap_sql_update by apply Hsame. apply Hwf.
  - apply Hwf.
  - intros s h o Hs Hh (o0 & Ho0 & Hor)%elem_of_sql_update Hid.
    destruct Hor as [[_ ->]|[_ ->]]; [|by eapply wf_head_in].
    destruct (Hsame o0) as (E1 & E2 & E3 & _).
    pose proof (wf_head_in g Hwf s h o0 Hs Hh Ho0 ltac:(congruence)) as [? ?].
    split; congruence.
  - intros o (o0 & Ho0 & [[_ ->]|[_ ->]])%elem_of_sql_update Ho; [by destruct (Hst o0)|].
    by apply wf_inflight.
  - intros o (o0 & Ho0 & [[_ ->]|[_ ->]])%elem_of_sql_update Ho; [by destruct (Hst o0)|].
    by apply (wf_lease g).
Qed.

Lemma wf_drop_tail dev seg from reason db db' :
  db_wf db → stmt_drop_tail dev seg from reason db = inr db' → db_wf db'.
Proof.
  intros Hwf [= <-]. unfold db_wf. simpl. apply wf_update_rows; [|done|done]. by intros o.
Qed.

Lemma wf_ack id now db db' : db_wf db → stmt_ack id now db = inr db' → db_wf db'.
Proof.
  intros Hwf [= <-]. unfold db_wf. simpl. apply wf_update_rows; [|done|done]. by intros o.
Qed.

(** Deleting rows. *)
Lemma wf_delete_rows g P `{!∀ o, Decision (P o)} :
  outbox_wf g → outbox_wf (mkEventDB (user_events g) (sql_delete P (outbox g)) (outbox_segments g)).
Proof.
  intros Hwf. constructor; simpl.
  - apply NoDup_fmap_filter, Hwf.
  - apply Hwf.
  - intros s h o Hs Hh [Ho _]%elem_of_sql_delete. by eapply wf_head_in.
  - intros o [Ho _]%elem_of_sql_delete. by apply wf_inflight.
  - intros o [Ho _]%elem_of_sql_delete. by apply (wf_lease g).
Qed.

(** Updating segments: keys stay, and where the head changes no event of
    the segment is in flight and the new head belongs to it. *)
Lemma wf_update_segments g P `{!∀ s, Decision (P s)} f :
  (∀ s, sg_key (f s) = sg_key s) →
  (∀ s, s ∈ outbox_segments g → P s → sg_head_event_id (f s) ≠ sg_head_event_id s →
     (∀ o, o ∈ outbox g → ob_in (sg_device_id s) (sg_segment_id s) o → ob_status o ≠ StatusInFlight)
     ∧ ∀ o h, sg_head_event_id (f s) = Some h → o ∈ outbox g → ob_event_id o = h →
         ob_in (sg_device_id s) (sg_segment_id s) o) →
  outbox_wf g → outbox_wf (mkEventDB (user_events g) (outbox g) (sql_update P f (outbox_segments g))).
Proof.
  intros Hkey Hch Hwf. constructor; simpl.
  - apply Hwf.
  - rewrite fmap_sql_update by apply Hkey. apply Hwf.
  - intros s h o (s0 & Hs0 & [[HP ->]|[_ ->]])%elem_of_sql_update Hh Ho Hid; [|by eapply wf_head_in].
    pose proof (Hkey s0) as [= -> ->].
    destruct (decide (sg_head_event_id (f s0) = sg_head_event_id s0)) as [Eh|Eh].
    + eapply wf_head_in; [done|done|by rewrite <- Eh|done|done].
    + by eapply (Hch s0 Hs0 HP Eh).
  - intros o Ho Hst. destruct (wf_inflight g Hwf o Ho Hst) as (s & Hs & Hin & Hh).
    exists (if decide (P s) then f s else s). split_and!.
    + apply elem_of_sql_update. exists s. split; [done|]. case_decide; auto.
    + case_decide; [|done]. pose proof (Hkey s) as [= E1 E2]. destruct Hin. split; congruence.
    + case_decide as HP; [|done].
      destruct (decide (sg_head_event_id (f s) = sg_head_event_id s)) as [Eh|Eh]; [congruence|].
      destruct (Hch s Hs HP Eh) as [Hno _]. destruct Hin.
      by destruct (Hno o Ho ltac:(split; congruence)).
  - apply Hwf.
Qed.

Lemma wf_set_inflight dev seg i now db db' :
  db_wf db → stmt_set_inflight dev seg i now db = inr db' → db_wf db'.
Proof. intros Hwf [= <-]. unfold db_wf. simpl. by apply wf_update_segments. Qed.

Lemma wf_clear_inflight dev seg now id db db' :
  db_wf db → stmt_clear_inflight dev seg now id db = inr db' → db_wf db'.
Proof. intros Hwf [= <-]. unfold db_wf. simpl. by apply wf_update_segments. Qed.

(** No event of the segment is in flight. *)
Definition seg_idle (dev seg : string) (db : DB) : Prop :=
  ∀ o, o ∈ outbox (events db) → ob_in dev seg o → ob_status o ≠ StatusInFlight.

(** Whatever row has identifier [id], it is a row of the segment. *)
Definition id_in_seg (dev seg : string) (id : UUID) (db : DB) : Prop :=
  ∀ o, o ∈ outbox (events db) → ob_event_id o = id → ob_in dev seg o.

Lemma wf_set_segment dev seg head i now db db' :
  db_wf db → seg_idle dev seg db → (∀ h, head = Some h → id_in_seg dev seg h db) →
  stmt_set_segment dev seg head i now db = inr db' → db_wf db'.
Proof.
  intros Hwf Hidle Hhead [= <-]. unfold db_wf. simpl. apply wf_update_segments; [done| |done].
  intros s Hs [Ed Es] _. simpl. rewrite Ed, Es. split; [exact Hidle|].
  intros o h Hh Ho Hid. by eapply (Hhead h Hh).
Qed.

Lemma wf_claim id now until db row db' :
  db_wf db → (∃ s, s ∈ outbox_segments (events db) ∧ sg_head_event_id s = Some id) →
  stmt_claim id now until db = inr (row, db') → db_wf db'.
Proof.
  intros Hwf (s & Hs & Hh) [= _ <-]. unfold db_wf. simpl. constructor; simpl.
  - rewrite fmap_sql_update by done. apply Hwf.
  - apply Hwf.
  - intros s' h o Hs' Hh' (o0 & Ho0 & [[_ ->]|[_ ->]])%elem_of_sql_update Hid;
      exact (wf_head_in _ Hwf s' h o0 Hs' Hh' Ho0 Hid).
  - intros o (o0 & Ho0 & [[E ->]|[_ ->]])%elem_of_sql_update Hst; simpl in *.
    + exists s. split_and!; [done| |congruence].
      destruct (wf_head_in _ Hwf s id o0 Hs Hh Ho0 E) as [-> ->]. done.
    + by apply (wf_inflight _ Hwf).
  - intros o (o0 & Ho0 & [[E ->]|[_ ->]])%elem_of_sql_update Hst; simpl in *; [done|].
    by apply (wf_lease _ Hwf).
Qed.

(** Identifier [id] is used, if at all, for a row of the segment only. *)
Definition id_reserved (dev seg : string) (id : UUID) (db : DB) : Prop :=
  id_in_seg dev seg id db
  ∧ ∀ s, s ∈ outbox_segments (events db) → sg_head_event_id s = Some id → sg_in dev seg s.

(** Appending a row that is not in flight and whose identifier is new, or
    already stands for a row of the same segment. *)
Lemma wf_insert_outbox o db db' :
  db_wf db → ob_status o ≠ StatusInFlight →
  id_reserved (ob_device_id o) (ob_segment_id o) (ob_event_id o) db →
  stmt_insert_outbox o db = inr db' →
  db_wf db' ∧ id_reserved (ob_device_id o) (ob_segment_id o) (ob_event_id o) db'.
Proof.
  intros Hwf Hst [Hrow Hhead]. unfold stmt_insert_outbox. destruct (violated _); [done|].
  intros [= <-]. unfold sql_insert_ignore. case_decide as Hex.
  { replace (set_outbox _ db) with db by (by destruct db as [? []]). done. }
  split; [unfold db_wf; constructor; simpl|split; simpl].
  - apply NoDup_fmap_app_one; [apply Hwf|]. intros x Hx E. apply Hex, Exists_exists. by exists x.
  - apply Hwf.
  - intros s h o' Hs Hh [Ho| ->%list_elem_of_singleton]%elem_of_app Hid; [by eapply (wf_head_in _ Hwf)|].
    destruct (Hhead s Hs) as [Ed Es]; [congruence|]. by split.
  - intros o' [Ho| ->%list_elem_of_singleton]%elem_of_app Hst'; [by apply (wf_inflight _ Hwf)|done].
  - intros o' [Ho| ->%list_elem_of_singleton]%elem_of_app Hst'; [by apply (wf_lease _ Hwf)|done].
  - intros o' [Ho| ->%list_elem_of_singleton]%elem_of_app Hid; [by apply Hrow|done].
  - exact Hhead.
Qed.

(** Creating a segment, or filling the head of one that has none. *)
Lemma wf_upsert_segment s db db' h :
  db_wf db → sg_head_event_id s = Some h →
  id_in_seg (sg_device_id s) (sg_segment_id s) h db →
  stmt_upsert_segment s db = inr db' → db_wf db'.
Proof.
  intros Hwf Hh Hin [= <-]. unfold db_wf, sql_upsert. simpl. case_decide as Hex.
  - apply wf_update_segments; [by intros [] | |done].
    intros s0 Hs0 [Ed Es] Hne. simpl in *. rewrite <- Ed, <- Es.
    destruct (sg_head_event_id s0) as [h0|] eqn:E0; [done|]. split.
    + intros o Ho [? ?] Hst. destruct (wf_inflight _ Hwf o Ho Hst) as (s1 & Hs1 & Hin1 & Hh1).
      rewrite (segment_unique (events db) (ob_device_id o) (ob_segment_id o) s1 s0) in Hh1;
        [congruence|done|done|done|done|]. split; congruence.
    + intros o h' Hh' Ho Hid. rewrite Hh in Hh'. simplify_eq. by apply Hin.
  - constructor; simpl.
    + apply Hwf.
    + apply NoDup_fmap_app_one; [apply Hwf|]. intros x Hx E. destruct Hex.
      apply Exists_exists. exists x. split; [done|]. by injection E.
    + intros s0 h0 o [Hs0| ->%list_elem_of_singleton]%elem_of_app Hh0 Ho Hid; [by eapply (wf_head_in _ Hwf)|].
      rewrite Hh in Hh0. simplify_eq. by apply Hin.
    + intros o Ho Hst. destruct (wf_inflight _ Hwf o Ho Hst) as (s1 & Hs1 & ?).
      exists s1. split; [apply elem_of_app; by left|done].
    + apply Hwf.
Qed.

(** ** Candidates *)

Definition cand_key (x : candidate) : string * string := (cand_deviceID x, cand_segmentID x).

(** A selected candidate is still the head it was when it was read. *)
Definition cand_ok (db : DB) (x : candidate) : Prop :=
  (∃ s, s ∈ outbox_segments (events db) ∧ sg_in (cand_deviceID x) (cand_segmentID x) s
        ∧ sg_head_event_id s = Some (cand_eventID x))
  ∧ ∀ o, o ∈ outbox (events db) → ob_event_id o = cand_eventID x → ob_created_at o = cand_createdAt x.

Lemma cand_ok_rows db P `{!∀ o, Decision (P o)} f x :
  (∀ o, same_row o (f o)) → cand_ok db x → cand_ok (set_outbox (sql_update P f (outbox (events db))) db) x.
Proof.
  intros Hsame [Hs Hc]. split; [exact Hs|]. simpl.
  intros o (o0 & Ho0 & [[_ ->]|[_ ->]])%elem_of_sql_update Hid; [|by apply Hc].
  destruct (Hsame o0) as (E1 & _ & _ & E2 & _). rewrite E2. apply Hc; [done|congruence].
Qed.

Lemma cand_ok_segments db P `{!∀ s, Decision (P s)} f x :
  (∀ s, s ∈ outbox_segments (events db) → P s → sg_key (f s) = sg_key s
        ∧ (sg_head_event_id (f s) = sg_head_event_id s ∨ sg_key s ≠ cand_key x)) →
  cand_ok db x → cand_ok (set_outbox_segments (sql_update P f (outbox_segments (events db))) db) x.
Proof.
  intros Hf [(s & Hs & Hin & Hh) Hc]. split; [|exact Hc]. simpl.
  destruct (decide (P s)) as [HP|HP].
  - destruct (Hf s Hs HP) as [[= E1 E2] Hor]. destruct Hin as [Ed Es].
    destruct Hor as [Eh|Hne]; [|by destruct Hne; unfold sg_key; rewrite Ed, Es].
    exists (f s). split_and!; [|split; congruence|congruence]. apply elem_of_sql_update. eauto.
  - exists s. split_and!; [|done|done]. apply elem_of_sql_update. eauto.
Qed.

(** In a well-formed outbox only the candidate can be in flight in its
    segment, so a drop that starts at its age catches whatever is. *)
Lemma cand_ok_covers db x o :
  db_wf db → cand_ok db x → o ∈ outbox (events db) →
  ob_in (cand_deviceID x) (cand_segmentID x) o → ob_status o = StatusInFlight →
  cand_createdAt x = ob_created_at o.
Proof.
  intros Hwf [(s & Hs & Hin & Hh) Hc] Ho [Ed Es] Hst.
  destruct (wf_inflight _ Hwf o Ho Hst) as (s' & Hs' & Hin' & Hh').
  rewrite <- Ed, <- Es in Hin.
  rewrite (segment_unique (events db) (ob_device_id o) (ob_segment_id o) s' s) in Hh' by done.
  symmetry. apply Hc; [done|congruence].
Qed.

Lemma elem_of_segment_heads db s o :
  (s, o) ∈ segment_heads db ↔
  s ∈ outbox_segments (events db) ∧ o ∈ outbox (events db) ∧ sg_head_event_id s = Some (ob_event_id o).
Proof.
  unfold segment_heads. rewrite list_elem_of_bind. split.
  - intros (s' & (o' & [= <- <-] & [Hh Ho]%list_elem_of_filter)%list_elem_of_fmap & Hs). done.
  - intros (Hs & Ho & Hh). exists s. split; [|done]. apply list_elem_of_fmap.
    exists o. split; [done|]. by apply list_elem_of_filter.
Qed.

Lemma segment_heads_keys db :
  db_wf db → NoDup ((λ p, sg_key p.1) <$> segment_heads db).
Proof.
  intros Hwf. unfold segment_heads. pose proof (wf_ids _ Hwf) as Hids.
  pose proof (wf_keys _ Hwf) as Hkeys. revert Hkeys.
  generalize (outbox_segments (events db)) as segs. intros segs.
  induction segs as [|s segs IH]; simpl; [constructor|]. intros [Hs Hsegs]%NoDup_cons.
  rewrite fmap_app. apply NoDup_app. split_and!; [| |by apply IH].
  - rewrite <- list_fmap_compose. simpl. destruct (sg_head_event_id s) as [h|].
    + assert (length (filter (λ o, Some h = Some (ob_event_id o)) (outbox (events db))) ≤ 1)%nat as Hlen.
      { destruct (filter _ _) as [|o1 [|o2 l]] eqn:Ef; simpl; [lia|lia|exfalso].
        assert (NoDup (ob_event_id <$> (o1 :: o2 :: l))) as Hnd.
        { rewrite <- Ef. by apply NoDup_fmap_filter. }
        assert (∀ o, o ∈ o1 :: o2 :: l → ob_event_id o = h) as Hall.
        { intros o. rewrite <- Ef, list_elem_of_filter. intros [[= ->] _]. done. }
        simpl in Hnd. rewrite (Hall o1), (Hall o2) in Hnd; [|set_solver|set_solver].
        apply NoDup_cons in Hnd as [Hn _]. apply Hn. left. }
      destruct (filter _ _) as [|o1 [|o2 l]]; simpl in *; [constructor|apply NoDup_singleton|lia].
    + replace (filter _ _) with (@nil OutboxRow); [constructor|]. symmetry. by apply filter_nil_iff.
  - intros k ((s1 & o1) & -> & (o' & [= -> ->] & _)%list_elem_of_fmap)%list_elem_of_fmap
      ((s2 & o2) & E & Hin)%list_elem_of_fmap.
    apply list_elem_of_bind in Hin as (s3 & (o3 & [= -> ->] & _)%list_elem_of_fmap & Hs3).
    apply Hs. apply list_elem_of_fmap. by exists s3.
Qed.

(** What a query for segment heads returns can be processed. *)
Definition cands_ok (l : list candidate) (db : DB) : Prop := Forall (cand_ok db) l.

Lemma to_candidate_ok db P `{!∀ p, Decision (P p)} n :
  db_wf db →
  let l := to_candidate <$> limit n (order_by (asc (λ p : SegmentRow * OutboxRow, ob_created_at p.2))
                                       (filter P (segment_heads db))) in
  NoDup (cand_key <$> l) ∧ cands_ok l db.
Proof.
  intros Hwf l. subst l. split.
  - rewrite <- list_fmap_compose.
    replace (_ <$> _) with ((λ p : SegmentRow * OutboxRow, sg_key p.1) <$>
      limit n (order_by (asc (λ p : SegmentRow * OutboxRow, ob_created_at p.2)) (filter P (segment_heads db))));
      [|by apply list_fmap_ext; intros ? []].
    unfold limit, order_by. eapply sublist_NoDup; [|apply fmap_sublist, sublist_take].
    rewrite merge_sort_Permutation. by apply NoDup_fmap_filter, segment_heads_keys.
  - unfold cands_ok. rewrite Forall_forall. intros x (p & -> & Hp)%list_elem_of_fmap.
    apply elem_of_limit, elem_of_order_by in Hp. apply list_elem_of_filter in Hp as [_ Hp].
    destruct p as [s o]. apply elem_of_segment_heads in Hp as (Hs & Ho & Hh).
    split; simpl; [by exists s|]. intros o' Ho' Hid. f_equal. by eapply (event_unique (events db)).
Qed.

(** ** Methods *)

Section methods.
Context {E : Env}.

(** Dropping the tail from the head's age on keeps the invariant, and the
    candidates of other segments. *)
Lemma dropSegmentTail_spec c x rest now reason :
  cand_key x ∉ cand_key <$> rest →
  hoare (λ db, db_wf db ∧ cand_ok db x ∧ cands_ok rest db)
    (dropSegmentTail c (cand_deviceID x) (cand_segmentID x) (cand_createdAt x) now reason)
    (λ _ db, db_wf db ∧ cands_ok rest db) db_wf.
Proof.
  intros Hx. unfold dropSegmentTail. eapply hoare_bind.
  - apply hoare_wrap_error, hoare_exec_ with
      (Q := λ _ db, db_wf db ∧ seg_idle (cand_deviceID x) (cand_segmentID x) db ∧ cands_ok rest db).
    { by intros db [? _]. }
    intros db db' (Hwf & Hok & Hrest) Heq. split_and!.
    + by eapply wf_drop_tail.
    + injection Heq as <-.
      intros o (o0 & Ho0 & [[_ ->]|[Hn ->]])%elem_of_sql_update Hin Hst; [done|].
      apply Hn. split_and!; [done| |by right].
      rewrite (cand_ok_covers db x o0) by done. lia.
    + injection Heq as <-. eapply Forall_impl; [exact Hrest|].
      intros y. by apply cand_ok_rows.
  - intros u. apply hoare_wrap_error, hoare_exec_; [by intros db [? _]|].
    intros db db' (Hwf & Hidle & Hrest) Heq. split.
    { eapply wf_set_segment; [exact Hwf|exact Hidle| |exact Heq]. done. }
    injection Heq as <-. unfold cands_ok in *. rewrite Forall_forall in *.
    intros y Hy. apply cand_ok_segments; [|by apply Hrest].
    intros s _ [Ed Es]. split; [done|right]. intros Ek. apply Hx.
    apply list_elem_of_fmap. exists y. split; [|done]. rewrite <- Ek. unfold sg_key, cand_key. by rewrite Ed, Es.
Qed.

Lemma scanOutboxEvent_preserves I row : preserves I (scanOutboxEvent row).
Proof. unfold scanOutboxEvent. solve_preserves. Qed.

Lemma claim_one_spec c now timeout maxAttempts x rest :
  cand_key x ∉ cand_key <$> rest →
  hoare (λ db, db_wf db ∧ cand_ok db x ∧ cands_ok rest db)
    (claim_one c now timeout maxAttempts x) (λ _ db, db_wf db ∧ cands_ok rest db) db_wf.
Proof.
  intros Hx. unfold claim_one. case_decide.
  - eapply hoare_bind; [by apply dropSegmentTail_spec|]. intros u. by apply hoare_ret.
  - eapply (hoare_bind _ _ _ (λ _ db, db_wf db ∧ cands_ok rest db)).
    { apply hoare_exec; [by intros db [? _]|].
      intros db row db' (Hwf & [(s & Hs & _ & Hh) _] & Hrest) Heq. split.
      - eapply wf_claim; eauto.
      - injection Heq as _ <-. eapply Forall_impl; [exact Hrest|]. intros y. by apply cand_ok_rows. }
    intros row. apply hoare_skip; [apply scanOutboxEvent_preserves|by intros db [? _]|].
    intros ev. apply (hoare_bind _ _ _ (λ _ db, db_wf db ∧ cands_ok rest db)); [|by intros u; apply hoare_ret].
    apply hoare_wrap_error, hoare_exec_; [by intros db [? _]|].
    intros db db' [Hwf Hrest] Heq. split; [by eapply wf_set_inflight|].
    injection Heq as <-. eapply Forall_impl; [exact Hrest|]. intros y.
    apply cand_ok_segments. auto.
Qed.

Lemma claim_loop_spec c now timeout maxAttempts l :
  NoDup (cand_key <$> l) →
  hoare (λ db, db_wf db ∧ cands_ok l db) (map_each l (claim_one c now timeout maxAttempts))
    (λ _, db_wf) db_wf.
Proof.
  induction l as [|x l IH]; simpl; intros Hnd; [by apply hoare_ret; intros db [? _]|].
  apply NoDup_cons in Hnd as [Hx Hl]. eapply hoare_bind.
  - eapply hoare_conseq; [by apply claim_one_spec|..]; [|done|done].
    intros db [Hwf Hall]. by inversion_clear Hall.
  - intros y. eapply hoare_bind; [by apply IH|]. intros ys. by apply hoare_ret.
Qed.

Lemma ClaimPending_wf c now batchSize timeout maxAttempts :
  preserves db_wf (ClaimPending c now batchSize timeout maxAttempts).
Proof.
  unfold ClaimPending. case_decide; [apply preserves_ret|].
  destruct c; [apply preserves_raise|]. apply hoare_preserves. eapply hoare_bind.
  - by apply hoare_wrap_error, hoare_query.
  - intros l. apply (hoare_bind _ _ _ (λ _, db_wf)); [|by intros; apply hoare_ret].
    intros w [Hwf ->].
    destruct (to_candidate_ok (w_db w) (λ p, ob_due now p.2) batchSize Hwf) as [Hnd Hok].
    by apply (claim_loop_spec InTx now timeout maxAttempts _ Hnd w).
Qed.

Lemma drop_loop_spec c now reason l :
  NoDup (cand_key <$> l) →
  hoare (λ db, db_wf db ∧ cands_ok l db)
    (for_each l (λ h, dropSegmentTail c (cand_deviceID h) (cand_segmentID h) (cand_createdAt h) now reason))
    (λ _, db_wf) db_wf.
Proof.
  induction l as [|x l IH]; simpl; intros Hnd; [by apply hoare_ret; intros db [? _]|].
  apply NoDup_cons in Hnd as [Hx Hl].
  apply (hoare_bind _ _ _ (λ _ db, db_wf db ∧ cands_ok l db)); [|by intros; apply IH].
  eapply hoare_conseq; [by apply dropSegmentTail_spec|..]; [|done|done].
  intros db [Hwf Hall]. by inversion_clear Hall.
Qed.

Lemma DropExpiredHeads_wf c now batchSize : preserves db_wf (DropExpiredHeads c now batchSize).
Proof.
  unfold DropExpiredHeads. apply hoare_preserves. eapply hoare_bind.
  - by apply hoare_wrap_error, hoare_query.
  - intros l. apply (hoare_bind _ _ _ (λ _, db_wf)); [|by intros; apply hoare_ret].
    intros w [Hwf ->].
    destruct (to_candidate_ok (w_db w) (λ p, ob_expires_at p.2 ≤ now) batchSize Hwf) as [Hnd Hok].
    by apply (drop_loop_spec c now _ _ Hnd w).
Qed.

Lemma DeleteTerminal_wf c status olderThan lim : preserves db_wf (DeleteTerminal c status olderThan lim).
Proof.
  unfold DeleteTerminal. apply preserves_wrap_error, preserves_exec.
  intros db a db' Hwf [= _ <-]. by apply wf_delete_rows.
Qed.

Lemma ListInflight_preserves I c dev now lim : preserves I (ListInflight c dev now lim).
Proof. unfold ListInflight, scanOutboxEvent. solve_preserves. Qed.

(** Acknowledging: once the row is acknowledged its segment is idle, and
    whatever becomes the head was selected from the segment. *)
Lemma head_idle dev seg id db s :
  db_wf db → (∀ o, o ∈ outbox (events db) → ob_event_id o = id → ob_status o ≠ StatusInFlight) →
  sql_row (sg_in dev seg) (outbox_segments (events db)) = Some s →
  sg_head_event_id s = None ∨ sg_head_event_id s = Some id → seg_idle dev seg db.
Proof.
  intros Hwf Hid [Hs Hin]%sql_row_Some Hh o Ho [<- <-] Hst.
  destruct (wf_inflight _ Hwf o Ho Hst) as (s' & Hs' & Hin' & Hh').
  rewrite (segment_unique (events db) (ob_device_id o) (ob_segment_id o) s' s) in Hh' by done.
  destruct Hh as [Hh|Hh]; [congruence|]. apply (Hid o); [done|congruence|done].
Qed.

Lemma select_next_in dev seg now id db h :
  db_wf db → select_next dev seg now id db = Some h →
  ∃ o, o ∈ outbox (events db) ∧ ob_event_id o = h ∧ ob_in dev seg o ∧ ob_live o
       ∧ now < ob_expires_at o ∧ h ≠ id.
Proof.
  intros Hwf. unfold select_next. intros (o & Ho & ->)%fmap_Some.
  apply head_Some_elem_of, elem_of_limit, elem_of_order_by in Ho.
  unfold sql_select in Ho. apply list_elem_of_filter in Ho as [(Hin & Hl & He & Hne) Ho].
  by exists o.
Qed.

Lemma id_in_seg_row dev seg o db :
  db_wf db → o ∈ outbox (events db) → ob_in dev seg o → id_in_seg dev seg (ob_event_id o) db.
Proof. intros Hwf Ho Hin o' Ho' Eo. by rewrite (event_unique (events db) o' o). Qed.

Lemma AcknowledgeOutbox_wf c now id dev seg : preserves db_wf (AcknowledgeOutbox c now id dev seg).
Proof.
  unfold AcknowledgeOutbox. destruct c; [apply preserves_raise|].
  apply preserves_bind; [auto with preserves|]. intros [o|]; [|apply preserves_ret].
  case_decide; [apply preserves_ret|]. case_decide; [apply preserves_ret|].
  apply hoare_preserves.
  apply (hoare_bind _ _ _ (λ _ db, db_wf db ∧ ∀ o, o ∈ outbox (events db) → ob_event_id o = id →
                                     ob_status o ≠ StatusInFlight)).
  { apply hoare_wrap_error, hoare_exec_; [done|]. intros db db' Hwf Heq.
    split; [by eapply wf_ack|]. injection Heq as <-. simpl.
    by intros o' (o0 & Ho0 & [[_ ->]|[Hn ->]])%elem_of_sql_update. }
  intros u. eapply hoare_bind; [by apply hoare_wrap_error, hoare_query; intros db [? _]|].
  intros hd. simpl. case_decide as Eh.
  - eapply hoare_bind.
    { apply hoare_wrap_error, hoare_query. by intros db [[? _] _]. }
    intros nxt. apply hoare_wrap_error, hoare_exec_; [by intros db [[[? _] _] _]|].
    intros db db' [[[Hwf Hid] Ehd] En] Heq. subst hd nxt.
    eapply wf_set_segment; [exact Hwf| | |exact Heq].
    + destruct (sql_row _ _) as [s|] eqn:Es; [|done]. injection Ehd as Eh. unfold compose in Eh.
      apply (head_idle _ _ id db s Hwf Hid Es). destruct (sg_head_event_id s); [right; simpl in Eh; congruence|by left].
    + intros h (o' & Ho' & <- & Hin & _)%select_next_in; [|done]. by apply id_in_seg_row.
  - apply hoare_wrap_error, hoare_exec_; [by intros db [[? _] _]|].
    intros db db' [[Hwf _] _] Heq. by eapply wf_clear_inflight.
Qed.

(** ** Appending an event *)

Lemma id_reserved_mono dev seg id d s i db db' :
  id_reserved dev seg id db →
  (∀ o, o ∈ outbox (events db') → o ∈ outbox (events db) ∨ (ob_event_id o = i ∧ ob_in d s o)) →
  (∀ g, g ∈ outbox_segments (events db') → sg_head_event_id g = Some id →
     (∃ g', g' ∈ outbox_segments (events db) ∧ sg_head_event_id g' = Some id ∧ sg_key g = sg_key g')
     ∨ (id = i ∧ sg_in d s g)) →
  (i = id → d = dev ∧ s = seg) → id_reserved dev seg id db'.
Proof.
  intros [Hr Hs] Ho Hg Hi. split.
  - intros o [Hin|[Eid Hin]]%Ho Hid; [by apply Hr|]. destruct Hi as [-> ->]; congruence || done.
  - intros g Hgin Hh. destruct (Hg g Hgin Hh) as [(g' & Hg' & Hh' & Hk)|[Eid Hin]].
    + destruct (Hs g' Hg' Hh') as [E1 E2]. injection Hk as E3 E4. split; congruence.
    + by destruct Hi as [-> ->].
Qed.

Lemma append_device_spec c event payload seg x rest :
  (∀ d, d ∈ rest → outboxEventID (ev_EventID event) x = outboxEventID (ev_EventID event) d → x = d) →
  let reserved d := id_reserved d seg (outboxEventID (ev_EventID event) d) in
  hoare (λ db, db_wf db ∧ ∀ d, d ∈ x :: rest → reserved d db)
    (append_device c event payload seg x)
    (λ _ db, db_wf db ∧ ∀ d, d ∈ rest → reserved d db) db_wf.
Proof.
  intros Hinj reserved. unfold append_device.
  set (id := outboxEventID (ev_EventID event) x).
  apply (hoare_bind _ _ _ (λ _ db, db_wf db ∧ ∀ d, d ∈ x :: rest → reserved d db)).
  - apply hoare_wrap_error, hoare_exec_; [by intros db [? _]|]. intros db db' [Hwf Hres] Heq.
    eapply wf_insert_outbox in Heq as HH; [|done|done|apply Hres; left]. destruct HH as [Hwf' Hx].
    split; [done|]. intros d [->|Hd]%elem_of_cons; [exact Hx|].
    apply (id_reserved_mono _ _ _ x seg id db); [by apply Hres; right| | |by intros ->%Hinj].
    + unfold stmt_insert_outbox in Heq. destruct (violated _); [done|]. injection Heq as <-.
      simpl. unfold sql_insert_ignore. case_decide; [by left|].
      intros o [Ho| ->%list_elem_of_singleton]%elem_of_app; [by left|by right].
    + unfold stmt_insert_outbox in Heq. destruct (violated _); [done|]. injection Heq as <-.
      intros g Hg Hh. left. by exists g.
  - intros u. apply hoare_wrap_error, hoare_exec_; [by intros db [? _]|].
    intros db db' [Hwf Hres] Heq. split.
    + eapply wf_upsert_segment; [done| | |exact Heq]; [done|]. apply (Hres x). left.
    + intros d Hd. apply (id_reserved_mono _ _ _ x seg id db);
        [by apply Hres; right| | |by intros ->%Hinj]; injection Heq as <-; [by left|].
      simpl. unfold sql_upsert. intros g Hg Hh. case_decide.
      * apply elem_of_sql_update in Hg as (g0 & Hg0 & [[[E1 E2] ->]|[_ ->]]); [|left; by exists g0].
        simpl in *. destruct (sg_head_event_id g0) as [h0|] eqn:E0; [left; by exists g0; rewrite E0|].
        right. by simplify_eq.
      * apply elem_of_app in Hg as [Hg| ->%list_elem_of_singleton]; [left; by exists g|].
        right. by simplify_eq/=.
Qed.

(** The identifiers an event would get are its own: distinct devices get
    distinct identifiers, and none stands for a row elsewhere. *)
Definition event_reserved (event : Event) (db : DB) : Prop :=
  (∀ d d', outboxEventID (ev_EventID event) d = outboxEventID (ev_EventID event) d' → d = d')
  ∧ ∀ d, id_reserved d (outboxSegmentID event) (outboxEventID (ev_EventID event) d) db.

Lemma appendOutbox_wf c event :
  hoare (λ db, db_wf db ∧ event_reserved event db) (appendOutbox c event) (λ _, db_wf) db_wf.
Proof.
  unfold appendOutbox, listTargetDeviceIDs.
  apply hoare_skip; [auto with preserves|by intros db [? _]|]. intros [|d0 devs].
  { by apply hoare_ret; intros db [? _]. }
  apply hoare_skip; [auto with preserves|by intros db [? _]|]. intros payload.
  intros w [Hwf [Hinj Hres]]. generalize (d0 :: devs). intros l.
  assert (hoare (λ db, db_wf db ∧ ∀ d, d ∈ l → id_reserved d (outboxSegmentID event)
             (outboxEventID (ev_EventID event) d) db)
           (for_each l (append_device c event payload (outboxSegmentID event))) (λ _, db_wf) db_wf) as Hl.
  { clear w Hwf Hres. induction l as [|x l IH]; simpl; [by apply hoare_ret; intros db [? _]|].
    eapply hoare_bind; [by apply append_device_spec; auto|]. by intros u. }
  apply Hl. auto.
Qed.
End methods.
