(* ===== verification/OutboxService.v ===== *)
(** * OutboxService: internal/application/outbox

    The service that dispatches, lists and acknowledges outbox events and
    its janitor, over the repository of [OutboxRepo].  Notifiers are an
    interface: [eventbus] and the push notifier implement it and the
    multi-notifier fans out to several. *)

From Stdlib Require Import ZArith.
From S2P Require Import Prelude GoLib GoTime Domain Database Effects OutboxRepo.

Local Open Scope Z_scope.

(** [type Notifier interface]. *)
Record Notifier : Type := mkNotifier {
  n_NotifyKey : string → M unit;
  n_NotifyOutboxEvent : OutboxEvent → M unit }.

(** What callers rely on: a notification returns normally and writes no
    table. *)
Definition told (w w' : World) : Prop := w_db w' = w_db w ∧ (w_clock w ≤ w_clock w')%nat.
Class NotifierLaws (n : Notifier) : Prop := {
  NotifyKey_ok : ∀ key w, ∃ w', n_NotifyKey n key w = (Ok tt, w') ∧ told w w';
  NotifyOutboxEvent_ok : ∀ ev w, ∃ w', n_NotifyOutboxEvent n ev w = (Ok tt, w') ∧ told w w' }.

#[export] Instance told_refl : Reflexive told.
Proof. by intros w. Qed.
#[export] Instance told_trans : Transitive told.
Proof. intros w1 w2 w3 [E1 H1] [E2 H2]. split; [congruence|lia]. Qed.

(** A notifier that records what it is told. *)
Definition trace_notifier : Notifier :=
  mkNotifier (λ key, emit (NotifyKey key)) (λ ev, emit (NotifyOutboxEvent ev)).

#[export] Instance trace_notifier_laws : NotifierLaws trace_notifier.
Proof. split; intros x w; eexists; (split; [reflexivity|done]). Qed.

(** ** multi_notifier.go *)

(** [NewMultiNotifier]: nil notifiers are left out. *)
Definition NewMultiNotifier (notifiers : list (option Notifier)) : list Notifier := omap id notifiers.

Definition MultiNotifier (notifiers : list Notifier) : Notifier :=
  mkNotifier (λ key, for_each notifiers (λ n, n_NotifyKey n key))
             (λ ev, for_each notifiers (λ n, n_NotifyOutboxEvent n ev)).

Lemma for_each_ok {A} (l : list A) (body : A → M unit) w :
  (∀ x w, x ∈ l → ∃ w', body x w = (Ok tt, w') ∧ told w w') →
  ∃ w', for_each l body w = (Ok tt, w') ∧ told w w'.
Proof.
  revert w. induction l as [|x l IH]; simpl; intros w Hb; [by exists w|].
  destruct (Hb x w) as (w1 & E1 & D1); [left|]. unfold bind. rewrite E1.
  destruct (IH w1) as (w2 & E2 & D2); [by intros; apply Hb; right|].
  exists w2. split; [done|]. by etrans.
Qed.

#[export] Instance MultiNotifier_laws ns : (∀ n, n ∈ ns → NotifierLaws n) → NotifierLaws (MultiNotifier ns).
Proof.
  intros Hns. split; intros x w; apply for_each_ok; intros n w' Hn;
    [apply (Hns n Hn).(NotifyKey_ok n)|apply (Hns n Hn).(NotifyOutboxEvent_ok n)].
Qed.

(** ** service.go *)

Record OutboxConfig : Type := mkOutboxConfig {
  PollInterval : Duration; BatchSizeSegments : Z; AckTimeout : Duration; MaxAttempts : Z;
  JanitorInterval : Duration; DeleteBatchSize : Z; AckRetention : Duration;
  DropRetention : Duration }.

Record OutboxService : Type := mkOutboxService {
  os_cfg : OutboxConfig; os_notifier : option Notifier }.

(** The zero and negative settings are replaced; [clock], [txManager] and
    [repo] tell whether the dependency is not nil. *)
Definition NewService (cfg : OutboxConfig) (clock txManager repo : bool) (notifier : option Notifier)
  : error + OutboxService :=
  if negb clock || negb txManager || negb repo
  then inl (EText "all dependencies are required")
  else
    let dflt v d := if decide (v ≤ 0) then d else v in
    inr (mkOutboxService
      (mkOutboxConfig (dflt (PollInterval cfg) (300 * Millisecond))
         (dflt (BatchSizeSegments cfg) 32) (dflt (AckTimeout cfg) (15 * Second))
         (dflt (MaxAttempts cfg) 5) (dflt (JanitorInterval cfg) (2 * Minute))
         (dflt (DeleteBatchSize cfg) 500) (dflt (AckRetention cfg) (24 * Hour))
         (dflt (DropRetention cfg) (24 * Hour))) notifier).

(** The settings a constructed service runs with. *)
Definition cfg_ok (cfg : OutboxConfig) : Prop :=
  0 < BatchSizeSegments cfg ∧ 0 < AckTimeout cfg ∧ 0 < MaxAttempts cfg ∧ 0 < DeleteBatchSize cfg
  ∧ 0 < PollInterval cfg ∧ 0 < JanitorInterval cfg ∧ 0 < AckRetention cfg ∧ 0 < DropRetention cfg.

Section service.
Context {E : Env}.

Definition notify (s : OutboxService) (f : Notifier → M unit) : M unit :=
  match os_notifier s with Some n => f n | None => ret tt end.

Definition announce (s : OutboxService) (event : OutboxEvent) : M unit :=
  notify s (λ n, n_NotifyOutboxEvent n event ;;; n_NotifyKey n (oe_DeviceID event)).

(** The service's notifier, if it has one, keeps the laws. *)
Definition notifier_ok (s : OutboxService) : Prop :=
  match os_notifier s with Some n => NotifierLaws n | None => True end.

Lemma notify_key_ok s key w :
  notifier_ok s → ∃ w', notify s (λ n, n_NotifyKey n key) w = (Ok tt, w') ∧ told w w'.
Proof.
  unfold notifier_ok, notify. destruct (os_notifier s) as [n|]; intros Hn; [apply NotifyKey_ok|by exists w].
Qed.

Lemma announce_ok s ev w : notifier_ok s → ∃ w', announce s ev w = (Ok tt, w') ∧ told w w'.
Proof.
  unfold notifier_ok, announce, notify. destruct (os_notifier s) as [n|]; intros Hn; [|by exists w].
  destruct (NotifyOutboxEvent_ok ev w) as (w1 & E1 & T1).
  destruct (NotifyKey_ok (oe_DeviceID ev) w1) as (w2 & E2 & T2). unfold bind. rewrite E1, E2.
  exists w2. split; [done|]. by etrans.
Qed.

Definition DispatchOnce (s : OutboxService) (c : Ctx) : M Z :=
  let* now := Now in
  let* events := WithinTransaction c (λ txCtx,
    ClaimPending txCtx now (BatchSizeSegments (os_cfg s)) (AckTimeout (os_cfg s))
      (MaxAttempts (os_cfg s))) in
  for_each events (announce s) ;;;
  ret (Z.of_nat (length events)).

Definition ServiceListInflight (s : OutboxService) (c : Ctx) (deviceID : string) (lim : Z)
  : M (list OutboxEvent) :=
  if decide (deviceID = "") then raise ErrOutboxInvalidDeviceID else
  let lim := if decide (lim ≤ 0) then BatchSizeSegments (os_cfg s) else lim in
  let* now := Now in
  ListInflight c deviceID now lim.

Definition Acknowledge (s : OutboxService) (c : Ctx) (eventID : UUID) (deviceID segmentID : string)
  : M unit :=
  if decide (eventID = uuid_Nil) then raise (EText "invalid event id") else
  if decide (deviceID = "") then raise ErrOutboxInvalidDeviceID else
  WithinTransaction c (λ txCtx,
    let* now := Now in AcknowledgeOutbox txCtx now eventID deviceID segmentID) ;;;
  notify s (λ n, n_NotifyKey n deviceID).

(** One pass of the janitor: [run] of [RunJanitor]. *)
Definition janitor_run (s : OutboxService) (c : Ctx) : M unit :=
  let* now := Now in
  DropExpiredHeads c now (BatchSizeSegments (os_cfg s)) ;;;
  DeleteTerminal c StatusAcked (now - AckRetention (os_cfg s)) (DeleteBatchSize (os_cfg s)) ;;;
  DeleteTerminal c StatusDropped (now - DropRetention (os_cfg s)) (DeleteBatchSize (os_cfg s)) ;;;
  ret tt.

Definition context_canceled : error := EText "context canceled".

(** The background loops, for a context that is cancelled after [ticks]
    further ticks of the timer. *)
Fixpoint RunDispatcher (s : OutboxService) (c : Ctx) (ticks : nat) : M unit :=
  DispatchOnce s c ;;;
  match ticks with O => raise context_canceled | S n => RunDispatcher s c n end.

Fixpoint RunJanitor (s : OutboxService) (c : Ctx) (ticks : nat) : M unit :=
  janitor_run s c ;;;
  match ticks with O => raise context_canceled | S n => RunJanitor s c n end.
End service.

Lemma NewService_cfg_ok cfg a b c n s : NewService cfg a b c n = inr s → cfg_ok (os_cfg s).
Proof.
  unfold NewService. destruct (_ || _); [done|]. intros [= <-]. unfold cfg_ok. simpl.
  split_and!; case_decide; unfold Hour, Minute, Second, Millisecond in *; lia.
Qed.
