(* ===== verification/OutboxSpec.v ===== *)
(** * OutboxSpec: what the outbox service promises

    Reachability of the outbox under every operation of the program, what
    [DispatchOnce] announces, and the order in which a segment is served. *)

From Stdlib Require Import ZArith.
From S2P Require Import Prelude GoLib GoTime Domain Database Effects OutboxRepo OutboxInv OutboxService.

Local Open Scope Z_scope.

Section spec.
Context {E : Env}.

(** ** Claiming *)

(** The event scanned from a row. *)
Definition event_of (o : OutboxRow) (payload : GoMap) : OutboxEvent :=
  mkOutboxEvent (ob_event_id o) (ob_device_id o) (ob_segment_id o) (ob_event_type o) payload
    (ob_created_at o) (ob_expires_at o) (ob_inflight_until o) (ob_last_sent_at o) (ob_attempts o).

(** [y] was selected from a row that is still as it was. *)
Definition cand_row (now : Time) (y : candidate) (db : DB) : Prop :=
  ∃ s o, y = to_candidate (s, o) ∧ ob_due now o ∧ o ∈ outbox (events db)
         ∧ ob_in (cand_deviceID y) (cand_segmentID y) o.

(** [ev] is the event of candidate [y], now durably leased. *)
Definition claimed (now : Time) (timeout : Duration) (maxAttempts : Z) (y : candidate)
  (ev : OutboxEvent) (db : DB) : Prop :=
  ∃ s o payload, y = to_candidate (s, o) ∧ ob_due now o ∧ now < ob_expires_at o
    ∧ ob_attempts o + 1 ≤ maxAttempts ∧ ob_in (cand_deviceID y) (cand_segmentID y) o
    ∧ cbor_Unmarshal_map (ob_payload o) = Some payload
    ∧ ob_set_claimed now (now + timeout) o ∈ outbox (events db)
    ∧ ev = event_of (ob_set_claimed now (now + timeout) o) payload.

(** Rows outside the segment are neither changed, added nor removed. *)
Definition frame_seg (k : string * string) (db db' : DB) : Prop :=
  ∀ o, ¬ ob_in k.1 k.2 o → o ∈ outbox (events db) ↔ o ∈ outbox (events db').

Lemma frame_seg_update k P `{!∀ o, Decision (P o)} f db :
  (∀ o, o ∈ outbox (events db) → P o → ob_in k.1 k.2 o) → (∀ o, same_row o (f o)) →
  frame_seg k db (set_outbox (sql_update P f (outbox (events db))) db).
Proof.
  intros HP Hsame o Hn. simpl. rewrite elem_of_sql_update. split.
  - intros Ho. exists o. split; [done|]. right. split; [|done]. intros HPo. by apply Hn, HP.
  - intros (o0 & Ho0 & [[HPo ->]|[_ ->]]); [|done]. destruct Hn.
    destruct (Hsame o0) as (_ & E1 & E2 & _). destruct (HP o0 Ho0 HPo) as [? ?].
    split; congruence.
Qed.

Lemma cand_row_frame now k y db db' :
  frame_seg k db db' → k ≠ cand_key y → cand_row now y db → cand_row now y db'.
Proof.
  intros Hf Hk (s & o & Hy & Hd & Ho & Hin). exists s, o. split_and!; [done|done| |done].
  apply Hf; [|done]. intros [E1 E2]. apply Hk. destruct Hin as [E3 E4].
  unfold cand_key. destruct k; simpl in *. congruence.
Qed.

Lemma claimed_frame now timeout maxA k y ev db db' :
  frame_seg k db db' → k ≠ cand_key y →
  claimed now timeout maxA y ev db → claimed now timeout maxA y ev db'.
Proof.
  intros Hf Hk (s & o & p & Hy & Hd & He & Ha & Hin & Hp & Ho & Hev). exists s, o, p.
  split_and!; [done..| |done]. apply Hf; [|done]. intros [E1 E2]. apply Hk. destruct Hin as [E3 E4].
  unfold cand_key. destruct k; simpl in *. congruence.
Qed.

Definition ready (now : Time) (l : list candidate) (db : DB) : Prop :=
  db_wf db ∧ cands_ok l db ∧ ∀ y, y ∈ l → cand_row now y db.

Lemma dropSegmentTail_frame c x now reason db0 :
  hoare (λ db, db = db0)
    (dropSegmentTail c (cand_deviceID x) (cand_segmentID x) (cand_createdAt x) now reason)
    (λ _ db, frame_seg (cand_key x) db0 db) (λ _, True).
Proof.
  unfold dropSegmentTail. apply (hoare_bind _ _ _ (λ _ db, frame_seg (cand_key x) db0 db)).
  - apply hoare_wrap_error, hoare_exec_; [done|]. intros db db' -> [= <-].
    apply frame_seg_update; [by intros o _ [? _]|by intros o].
  - intros u. apply hoare_wrap_error, hoare_exec_; [done|]. by intros db db' Hf [= <-].
Qed.

Lemma scanOutboxEvent_Some o w :
  scanOutboxEvent (Some o) w =
  match cbor_Unmarshal_map (ob_payload o) with
  | Some p => (Ok (event_of o p), w)
  | None => (Err (EText "unmarshal outbox payload"), w)
  end.
Proof. unfold scanOutboxEvent, bind, of_option, ret. by destruct (cbor_Unmarshal_map _). Qed.

(** The row a claim returns, for a candidate that is worth claiming. *)
Lemma claim_row now timeout maxA x row db db' :
  ¬ (cand_expiresAt x < now ∨ cand_expiresAt x = now ∨ maxA < cand_attempts x + 1) →
  ready now [x] db → stmt_claim (cand_eventID x) now (now + timeout) db = inr (row, db') →
  ∃ o, row = Some o ∧ ∀ p, cbor_Unmarshal_map (ob_payload o) = Some p →
    frame_seg (cand_key x) db db' ∧ claimed now timeout maxA x (event_of o p) db'.
Proof.
  intros Hd (Hwf & _ & Hc). destruct (Hc x) as (s & o & Hx & Hdue & Ho & Hin); [left|].
  unfold stmt_claim. set (upd := sql_update _ _ _). intros [= <- <-].
  assert (∀ o0, o0 ∈ outbox (events db) → ob_event_id o0 = cand_eventID x → o0 = o) as Huniq.
  { intros o0 Ho0 Eid. apply (event_unique _ _ _ Hwf); [done|done|]. by subst x. }
  assert (ob_set_claimed now (now + timeout) o ∈ upd) as Hupd.
  { apply elem_of_sql_update. exists o. split; [done|]. left. by subst x. }
  exists (ob_set_claimed now (now + timeout) o). split.
  - destruct (sql_row _ upd) as [o'|] eqn:Erow.
    + apply sql_row_Some in Erow as [(o0 & Ho0 & [[Eid ->]|[Hn ->]])%elem_of_sql_update Hid]; [|done].
      by rewrite (Huniq o0).
    + rewrite sql_row_None in Erow. destruct (Erow _ Hupd). by subst x.
  - intros p Hp. split.
    + apply frame_seg_update; [|by intros o2]. intros o1 Ho1 Eid. by rewrite (Huniq o1).
    + exists s, o, p. split_and!; subst x; simpl in *; (done || lia).
Qed.

Lemma claim_one_claims now timeout maxA x db0 :
  hoare (λ db, db = db0 ∧ ready now [x] db) (claim_one InTx now timeout maxA x)
    (λ r db, frame_seg (cand_key x) db0 db
             ∧ ∀ ev, r = Some ev → claimed now timeout maxA x ev db) (λ _, True).
Proof.
  unfold claim_one. case_decide as Hd.
  - apply (hoare_bind _ _ _ (λ _ db, frame_seg (cand_key x) db0 db)).
    + eapply hoare_conseq; [apply (dropSegmentTail_frame _ _ _ _ db0)|by intros db [? _]|done|done].
    + intros u. by apply hoare_ret.
  - set (post := λ ev db, frame_seg (cand_key x) db0 db ∧ claimed now timeout maxA x ev db).
    apply (hoare_bind _ _ _ (λ row db, ∃ o, row = Some o ∧
      ∀ p, cbor_Unmarshal_map (ob_payload o) = Some p → post (event_of o p) db)).
    { apply hoare_exec; [done|]. by intros db row db' [-> Hr]; apply claim_row. }
    intros row. apply (hoare_bind _ _ _ post).
    { intros w (o & -> & Hp). rewrite scanOutboxEvent_Some. by destruct (cbor_Unmarshal_map _); auto. }
    intros ev. apply (hoare_bind _ _ _ (λ _, post ev)).
    { apply hoare_wrap_error, hoare_exec_; [done|]. by intros db db' Hp [= <-]. }
    intros u. apply hoare_ret. by intros db [Hf Hc]; split; [|intros ev' [= <-]].
Qed.

Lemma claim_one_step now timeout maxA x rest (old : list (candidate * OutboxEvent)) :
  cand_key x ∉ cand_key <$> rest → (∀ p, p ∈ old → cand_key p.1 ≠ cand_key x) →
  hoare (λ db, ready now (x :: rest) db ∧ ∀ p, p ∈ old → claimed now timeout maxA p.1 p.2 db)
    (claim_one InTx now timeout maxA x)
    (λ r db, ready now rest db ∧ (∀ p, p ∈ old → claimed now timeout maxA p.1 p.2 db)
             ∧ ∀ ev, r = Some ev → claimed now timeout maxA x ev db) (λ _, True).
Proof.
  intros Hx Hold w [(Hwf & Hok & Hrow) Hcl]. unfold cands_ok in Hok.
  inversion Hok as [|? ? Hokx Hokr]; subst.
  pose proof (claim_one_spec InTx now timeout maxA x rest Hx w ltac:(by split_and!)) as H1.
  assert (ready now [x] (w_db w)) as Hready.
  { split_and!; [done|by constructor|]. intros y ->%list_elem_of_singleton. apply Hrow. left. }
  pose proof (claim_one_claims now timeout maxA x (w_db w) w (conj eq_refl Hready)) as H2.
  destruct (claim_one _ _ _ _ _ w) as [[r|e|s] w']; [|done|done].
  destruct H1 as [Hwf' Hok'], H2 as [Hf Hev]. split_and!; [split_and!; [done|done|]| |done].
  - intros y Hy. eapply cand_row_frame; [exact Hf| |apply Hrow; by right].
    intros Ek. apply Hx. rewrite Ek. by apply list_elem_of_fmap_2.
  - intros p Hp. eapply claimed_frame; [exact Hf| |by apply Hcl]. by apply not_eq_sym, Hold.
Qed.

Lemma claim_loop_claims now timeout maxA l : ∀ old : list (candidate * OutboxEvent),
  NoDup (cand_key <$> l) → (∀ p y, p ∈ old → y ∈ l → cand_key p.1 ≠ cand_key y) →
  hoare (λ db, ready now l db ∧ ∀ p, p ∈ old → claimed now timeout maxA p.1 p.2 db)
    (map_each l (claim_one InTx now timeout maxA))
    (λ rs db, (∀ p, p ∈ old → claimed now timeout maxA p.1 p.2 db)
              ∧ Forall2 (λ y r, ∀ ev, r = Some ev → claimed now timeout maxA y ev db) l rs)
    (λ _, True).
Proof.
  induction l as [|x l IH]; simpl; intros old Hnd Hold.
  { apply hoare_ret. intros db [_ Hcl]. by split; [|constructor]. }
  apply NoDup_cons in Hnd as [Hx Hl]. eapply hoare_bind.
  { apply (claim_one_step _ _ _ _ _ old Hx). intros p Hp. apply Hold; [done|left]. }
  intros r. set (old' := match r with Some ev => (x, ev) :: old | None => old end).
  assert (∀ p y, p ∈ old' → y ∈ l → cand_key p.1 ≠ cand_key y) as Hold'.
  { intros p y Hp Hy. destruct r as [ev|]; [|by apply Hold; [|right]].
    apply elem_of_cons in Hp as [->|Hp]; [|by apply Hold; [|right]]. simpl.
    intros Ek. apply Hx. rewrite Ek. by apply list_elem_of_fmap_2. }
  eapply hoare_bind.
  { eapply hoare_conseq; [apply (IH old' Hl Hold')| |done|done].
    intros db (Hready & Hcl & Hev). split; [done|]. intros p Hp.
    destruct r as [ev|]; [|by apply Hcl]. apply elem_of_cons in Hp as [->|Hp]; [by apply Hev|by apply Hcl]. }
  intros rs. apply hoare_ret. intros db [Hcl Hall]. split.
  - intros p Hp. apply Hcl. destruct r; [by right|done].
  - constructor; [|done]. intros ev ->. apply (Hcl (x, ev)). left.
Qed.

(** The key of an event, and that no two events of a list share it. *)
Definition ev_key (ev : OutboxEvent) : string * string := (oe_DeviceID ev, oe_SegmentID ev).

(** [ev] is in flight: its row is there, leased until [now + timeout]. *)
Definition leased (now : Time) (timeout : Duration) (maxAttempts : Z) (db db' : DB)
  (ev : OutboxEvent) : Prop :=
  oe_InflightUntil ev = Some (now + timeout) ∧ oe_LastSentAt ev = Some now
  ∧ oe_Attempts ev ≤ maxAttempts ∧ now < oe_ExpiresAt ev
  ∧ (∃ o s, o ∈ outbox (events db) ∧ s ∈ outbox_segments (events db) ∧ ob_due now o
       ∧ ob_event_id o = oe_EventID ev ∧ sg_in (oe_DeviceID ev) (oe_SegmentID ev) s
       ∧ sg_head_event_id s = Some (oe_EventID ev) ∧ oe_Attempts ev = ob_attempts o + 1)
  ∧ ∃ o payload, o ∈ outbox (events db') ∧ ob_status o = StatusInFlight
       ∧ cbor_Unmarshal_map (ob_payload o) = Some payload ∧ ev = event_of o payload.

Lemma select_candidates_inv now batch db y :
  y ∈ select_candidates now batch db →
  ∃ s o, y = to_candidate (s, o) ∧ s ∈ outbox_segments (events db) ∧ o ∈ outbox (events db)
         ∧ sg_head_event_id s = Some (ob_event_id o) ∧ ob_due now o.
Proof.
  intros ([s o] & -> & Hy)%list_elem_of_fmap.
  apply elem_of_limit, elem_of_order_by, list_elem_of_filter in Hy as [Hd Hp].
  apply elem_of_segment_heads in Hp as (Hs & Ho & Hh). by exists s, o.
Qed.

Lemma select_candidates_ready now batch db :
  db_wf db → NoDup (cand_key <$> select_candidates now batch db)
             ∧ ready now (select_candidates now batch db) db.
Proof.
  intros Hwf. destruct (to_candidate_ok db (λ p, ob_due now p.2) batch Hwf) as [Hnd Hok].
  split; [done|]. split_and!; [done|done|].
  intros y (s & o & -> & Hs & Ho & Hh & Hd)%select_candidates_inv. exists s, o.
  split_and!; [done..|]. by eapply (wf_head_in _ Hwf).
Qed.

Lemma claimed_leased now timeout maxA batch db db' y ev :
  y ∈ select_candidates now batch db → claimed now timeout maxA y ev db' →
  leased now timeout maxA db db' ev ∧ ev_key ev = cand_key y.
Proof.
  intros (s1 & o1 & -> & Hs1 & Ho1 & Hh1 & Hd1)%select_candidates_inv
    (s & o & p & Hy & Hd & He & Ha & [Ein1 Ein2] & Hp & Ho & ->).
  injection Hy as E1 E2 E3 _ E4 _ _. simpl in *. split.
  - unfold leased. simpl. split_and!; [done|done|lia|done| |].
    + exists o1, s1. unfold sg_in. simpl. split_and!; congruence || done.
    + by exists (ob_set_claimed now (now + timeout) o), p.
  - unfold ev_key, cand_key. simpl. congruence.
Qed.

Lemma omap_claimed (P : candidate → OutboxEvent → Prop) l rs :
  (∀ y ev, y ∈ l → P y ev → ev_key ev = cand_key y) →
  Forall2 (λ y r, ∀ ev, r = Some ev → P y ev) l rs →
  sublist (ev_key <$> omap id rs) (cand_key <$> l)
  ∧ ∀ ev, ev ∈ omap id rs → ∃ y, y ∈ l ∧ P y ev.
Proof.
  intros Hkey HF. induction HF as [|y r l rs Hr HF IH]; simpl; [split; [constructor|set_solver]|].
  destruct IH as [IH1 IH2]; [by intros; apply Hkey; [right|]|].
  destruct r as [ev|]; simpl.
  - rewrite (Hkey y ev); [|left|by apply Hr]. split; [by constructor|].
    intros ev' [->|Hev]%elem_of_cons; [exists y; split; [left|by apply Hr]|].
    destruct (IH2 ev' Hev) as (y' & ? & ?). exists y'. split; [by right|done].
  - split; [by constructor|]. intros ev' Hev.
    destruct (IH2 ev' Hev) as (y' & ? & ?). exists y'. split; [by right|done].
Qed.

Lemma ClaimPending_claims now batch timeout maxA w evs w' :
  db_wf (w_db w) → ClaimPending InTx now batch timeout maxA w = (Ok evs, w') →
  Z.of_nat (length evs) ≤ Z.max 0 batch ∧ NoDup (ev_key <$> evs)
  ∧ Forall (leased now timeout maxA (w_db w) (w_db w')) evs.
Proof.
  intros Hwf. unfold ClaimPending. case_decide as Hb.
  { intros [= <- <-]. simpl. split_and!; [lia|constructor|constructor]. }
  unfold bind at 1, wrap_error, query. destruct (fault_at _); [done|].
  set (l := select_candidates now batch (w_db w)).
  destruct (select_candidates_ready now batch (w_db w) Hwf) as [Hnd Hready].
  assert (∀ p : candidate * OutboxEvent, p ∈ [] → claimed now timeout maxA p.1 p.2 (w_db w)) as Hnil
    by (by intros p Hp%not_elem_of_nil).
  pose proof (claim_loop_claims now timeout maxA l [] Hnd ltac:(set_solver) (tick_stmt w)
    (conj Hready Hnil)) as H. unfold bind.
  destruct (map_each l _ _) as [[rs|e|s] w1]; [|done|done]. intros [= <- <-].
  destruct H as [_ HF].
  destruct (omap_claimed (λ y ev, claimed now timeout maxA y ev (w_db w1)) l rs) as [Hsub Hev]; [|exact HF|].
  { intros y ev Hy Hc. by eapply claimed_leased. }
  assert (Z.of_nat (length l) ≤ batch) as Hlen.
  { unfold l, select_candidates. rewrite length_fmap. apply length_limit. lia. }
  split_and!.
  - apply sublist_length in Hsub. rewrite !length_fmap in Hsub. lia.
  - eapply sublist_NoDup; [exact Hnd|exact Hsub].
  - apply Forall_forall. intros ev (y & Hy & Hc)%Hev. by eapply claimed_leased.
Qed.

Lemma wrapped_query_ok {A} p c (f : DB → A) w a w' :
  wrap_error p (query c f) w = (Ok a, w') → a = f (w_db w) ∧ w_db w' = w_db w.
Proof. unfold wrap_error, query. destruct (fault_at _); [done|]. by intros [= <- <-]. Qed.
Lemma wrapped_exec_ok p c (f : DB → error + DB) w u w' :
  wrap_error p (exec_ c f) w = (Ok u, w') → f (w_db w) = inr (w_db w').
Proof.
  unfold wrap_error, exec_, exec. destruct (fault_at _); [done|]. destruct (f _) as [e|db]; [done|]. by intros [= _ <-].
Qed.

Lemma map_each_Forall2 {A B} (Φ : A → B → Prop) (l : list A) (body : A → M B) w ys w' :
  (∀ x w y w', body x w = (Ok y, w') → Φ x y) → map_each l body w = (Ok ys, w') → Forall2 Φ l ys.
Proof.
  intros Hb. revert w ys. induction l as [|x l IH]; intros w ys; cbn [map_each]; [by intros [= <- <-]|].
  intros (y & w1 & Hx & (ys' & w2 & Hl & [= <- <-])%bind_ok)%bind_ok. constructor; [by eapply Hb|by eapply IH].
Qed.

Lemma Forall2_elem {A B} (Φ : A → B → Prop) l k x : Forall2 Φ l k → x ∈ l → ∃ y, y ∈ k ∧ Φ x y.
Proof.
  induction 1 as [|x' y l k Hxy HF IH]; intros Hx; [by apply not_elem_of_nil in Hx|].
  apply elem_of_cons in Hx as [->|Hx]; [exists y; by split; [left|]|].
  destruct (IH Hx) as (y' & Hy & HΦ). exists y'. by split; [right|].
Qed.

Lemma Forall2_both {A B} (Φ Ψ : A → B → Prop) l k :
  Forall2 Φ l k → Forall2 Ψ l k → Forall2 (λ x y, Φ x y ∧ Ψ x y) l k.
Proof. intros HΦ HΨ. induction HΦ; [constructor|]. inversion HΨ; subst. by constructor; [|auto]. Qed.

(** A candidate that may be sent is not skipped. *)
Lemma claim_one_claims_it now timeout maxA y w r w' :
  now < cand_expiresAt y → cand_attempts y + 1 ≤ maxA →
  claim_one InTx now timeout maxA y w = (Ok r, w') → is_Some r.
Proof.
  intros He Ha. unfold claim_one. rewrite decide_False by lia.
  intros (row & w1 & _ & (ev & w2 & _ & (u & w3 & _ & [= <- <-])%bind_ok)%bind_ok)%bind_ok. done.
Qed.

Lemma ClaimPending_claims_all now batch timeout maxA w evs w' y :
  db_wf (w_db w) → 0 < batch → ClaimPending InTx now batch timeout maxA w = (Ok evs, w') →
  y ∈ select_candidates now batch (w_db w) → now < cand_expiresAt y → cand_attempts y + 1 ≤ maxA →
  ∃ ev, ev ∈ evs ∧ claimed now timeout maxA y ev (w_db w').
Proof.
  intros Hwf Hb Hc Hy He Ha. unfold ClaimPending in Hc. rewrite decide_False in Hc by lia.
  apply bind_ok in Hc as (l & w1 & Hq & (rs & w2 & Hl & [= <- <-])%bind_ok).
  unfold wrap_error, query in Hq. destruct (fault_at _); [done|]. injection Hq as <- <-.
  destruct (select_candidates_ready now batch (w_db w) Hwf) as [Hnd Hready].
  pose proof (claim_loop_claims now timeout maxA (select_candidates now batch (w_db w)) [] Hnd ltac:(set_solver) (tick_stmt w)) as HF.
  specialize (HF ltac:(split; [exact Hready|by intros p Hp%not_elem_of_nil])). rewrite Hl in HF. destruct HF as [_ HF].
  assert (Forall2 (λ y r, now < cand_expiresAt y → cand_attempts y + 1 ≤ maxA → is_Some r)
            (select_candidates now batch (w_db w)) rs) as HS.
  { eapply map_each_Forall2; [|exact Hl]. intros x v r v' Hx Hex Hax. by eapply claim_one_claims_it. }
  destruct (Forall2_elem _ _ _ y (Forall2_both _ _ _ _ HF HS) Hy) as (r & Hr & Hcl & Hs). destruct (Hs He Ha) as [ev ->].
  exists ev. split; [by apply list_elem_of_omap; exists (Some ev)|by apply Hcl].
Qed.

(** Whatever is in flight after a claim was as it is before, or is the event
    of the claim. *)
Lemma claim_one_accounts now timeout maxA x w r w' :
  NoDup (ob_event_id <$> outbox (events (w_db w))) → claim_one InTx now timeout maxA x w = (Ok r, w') →
  NoDup (ob_event_id <$> outbox (events (w_db w')))
  ∧ ∀ o, o ∈ outbox (events (w_db w')) → ob_status o = StatusInFlight →
      o ∈ outbox (events (w_db w)) ∨ ∃ ev p, r = Some ev ∧ cbor_Unmarshal_map (ob_payload o) = Some p ∧ ev = event_of o p.
Proof.
  intros Hnd. unfold claim_one. case_decide.
  - intros (u & w1 & (u' & w0 & E1%wrapped_exec_ok & E2%wrapped_exec_ok)%bind_ok & [= <- <-])%bind_ok.
    injection E1 as E1. injection E2 as E2. rewrite <- E2, <- E1. cbn. split; [by rewrite fmap_sql_update|].
    intros o (o0 & Ho0 & [[_ ->]|[_ ->]])%elem_of_sql_update Hst; [done|by left].
  - intros (row & w1 & Ec & (ev & w2 & Es & (u & w3 & E3%wrapped_exec_ok & [= <- <-])%bind_ok)%bind_ok)%bind_ok.
    unfold exec, stmt_claim in Ec. destruct (fault_at _); [done|]. injection Ec as Er <-.
    destruct row as [o1|]; [rewrite scanOutboxEvent_Some in Es|done].
    destruct (cbor_Unmarshal_map (ob_payload o1)) as [p|] eqn:Ep; [|done]. injection Es as <- <-.
    injection E3 as E3. rewrite <- E3. cbn. cbn in Er. apply sql_row_Some in Er as [Ho1 Hid].
    set (rows := sql_update _ _ _) in *. assert (NoDup (ob_event_id <$> rows)) as Hnd' by (unfold rows; by rewrite fmap_sql_update).
    split; [done|]. intros o Ho Hst. pose proof Ho as (o0 & Ho0 & [[E0 ->]|[_ ->]])%elem_of_sql_update; [right|by left].
    assert (o1 = ob_set_claimed now (now + timeout) o0) as <- by (apply (NoDup_fmap_inj_in ob_event_id _ _ _ Hnd'); [done|done|cbn; congruence]).
    by exists (event_of o1 p), p.
Qed.

Lemma claim_loop_accounts now timeout maxA l : ∀ w rs w',
  NoDup (ob_event_id <$> outbox (events (w_db w))) → map_each l (claim_one InTx now timeout maxA) w = (Ok rs, w') →
  ∀ o, o ∈ outbox (events (w_db w')) → ob_status o = StatusInFlight →
    o ∈ outbox (events (w_db w)) ∨ ∃ ev p, ev ∈ omap id rs ∧ cbor_Unmarshal_map (ob_payload o) = Some p ∧ ev = event_of o p.
Proof.
  induction l as [|x l IH]; intros w rs w' Hnd; cbn [map_each]; [by intros [= <- <-] o Ho _; left|].
  intros (r & w1 & Hx & (rs' & w2 & Hl & [= <- <-])%bind_ok)%bind_ok o Ho Hst.
  destruct (claim_one_accounts _ _ _ _ _ _ _ Hnd Hx) as [Hnd1 H1].
  destruct (IH w1 rs' w2 Hnd1 Hl o Ho Hst) as [Ho1|(ev & p & Hev & Hp)].
  - destruct (H1 o Ho1 Hst) as [?|(ev & p & -> & Hp)]; [by left|right]. exists ev, p. split; [left|done].
  - right. exists ev, p. split; [|done]. destruct r; [by right|done].
Qed.

Lemma ClaimPending_accounts now batch timeout maxA w evs w' :
  db_wf (w_db w) → ClaimPending InTx now batch timeout maxA w = (Ok evs, w') →
  ∀ o, o ∈ outbox (events (w_db w')) → ob_status o = StatusInFlight →
    o ∈ outbox (events (w_db w)) ∨ ∃ ev p, ev ∈ evs ∧ cbor_Unmarshal_map (ob_payload o) = Some p ∧ ev = event_of o p.
Proof.
  intros Hwf. unfold ClaimPending. case_decide; [by intros [= <- <-] o Ho _; left|].
  intros (l & w1 & [_ E1]%wrapped_query_ok & (rs & w2 & Hl & [= <- <-])%bind_ok)%bind_ok. rewrite <- E1.
  apply (claim_loop_accounts _ _ _ _ _ _ _ (wf_ids _ (eq_ind_r db_wf Hwf E1)) Hl).
Qed.

(** A segment and its head, which is due. *)
Definition due_head (now : Time) (db : DB) (p : SegmentRow * OutboxRow) : Prop :=
  p.1 ∈ outbox_segments (events db) ∧ p.2 ∈ outbox (events db)
  ∧ sg_head_event_id p.1 = Some (ob_event_id p.2) ∧ ob_due now p.2.

(** A due head is selected, or a whole batch of others is, none younger. *)
Lemma select_candidates_complete now batch db p :
  db_wf db → due_head now db p →
  to_candidate p ∈ select_candidates now batch db
  ∨ ∃ ps, Z.of_nat (length ps) = Z.max 0 batch ∧ NoDup ((λ p, sg_key p.1) <$> ps)
      ∧ ∀ q, q ∈ ps → q ≠ p ∧ due_head now db q ∧ ob_created_at q.2 ≤ ob_created_at p.2.
Proof.
  intros Hwf (Hs & Ho & Hh & Hd). unfold select_candidates. set (t := filter _ (segment_heads db)).
  assert (p ∈ t) as Hp by (apply list_elem_of_filter; split; [done|]; destruct p; by apply elem_of_segment_heads).
  destruct (decide (p ∈ limit batch (order_by (asc (λ q : SegmentRow * OutboxRow, ob_created_at q.2)) t)))
    as [?|Hnin]; [left; by apply list_elem_of_fmap_2|].
  destruct (limit_order_by (λ q : SegmentRow * OutboxRow, ob_created_at q.2) batch t p Hp) as [Hin|[Hlen Hle]].
  - left. by apply list_elem_of_fmap_2.
  - right. eexists. split; [exact Hlen|]. split.
    + unfold limit, order_by. eapply sublist_NoDup; [|apply fmap_sublist, sublist_take].
      rewrite merge_sort_Permutation. by apply NoDup_fmap_filter, segment_heads_keys.
    + intros q Hq. split; [by intros ->|]. split; [|by apply Hle]. apply elem_of_limit, elem_of_order_by, list_elem_of_filter in Hq as [Hdq Hq].
      destruct q as [s o]. by apply elem_of_segment_heads in Hq as (? & ? & ?).
Qed.

(** The segment could be served: its head may be sent. *)
Definition sendable (now : Time) (maxAttempts : Z) (o : OutboxRow) : Prop :=
  now < ob_expires_at o ∧ ob_attempts o + 1 ≤ maxAttempts.

Lemma ClaimPending_complete now batch timeout maxA w evs w' p :
  db_wf (w_db w) → 0 < batch → ClaimPending InTx now batch timeout maxA w = (Ok evs, w') →
  due_head now (w_db w) p → sendable now maxA p.2 →
  ob_event_id p.2 ∈ oe_EventID <$> evs
  ∨ ∃ ps, Z.of_nat (length ps) = Z.max 0 batch ∧ NoDup ((λ p, sg_key p.1) <$> ps)
      ∧ ∀ q, q ∈ ps → q ≠ p ∧ due_head now (w_db w) q ∧ ob_created_at q.2 ≤ ob_created_at p.2.
Proof.
  intros Hwf Hb Hc Hdue [He Ha]. destruct (select_candidates_complete now batch (w_db w) p Hwf Hdue) as [Hy|?]; [left|by right].
  destruct (ClaimPending_claims_all now batch timeout maxA w evs w' (to_candidate p)) as (ev & Hev & s & o & pl & Ey & _ & _ & _ & _ & _ & _ & ->);
    [done..|by destruct p|by destruct p|].
  apply list_elem_of_fmap. eexists. split; [|exact Hev]. destruct p as [s0 o0]. injection Ey as _ Ei. cbn. congruence.
Qed.

(** ** Dispatching *)

Lemma ClaimPending_silent c now batch timeout maxA : silent (ClaimPending c now batch timeout maxA).
Proof. unfold ClaimPending, claim_one, dropSegmentTail, scanOutboxEvent. solve_silent. Qed.

Definition announcements (evs : list OutboxEvent) : list Notification :=
  evs ≫= λ ev, [NotifyOutboxEvent ev; NotifyKey (oe_DeviceID ev)].

Lemma announce_loop cfg evs w :
  for_each evs (announce (mkOutboxService cfg (Some trace_notifier))) w
  = (Ok tt, mkWorld (w_db w) (w_clock w) (w_uuid w) (w_random w) (w_stmt w)
              (w_trace w ++ announcements evs)).
Proof.
  revert w. induction evs as [|ev evs IH]; intros w; simpl.
  { unfold ret. rewrite app_nil_r. by destruct w. }
  unfold bind at 1. simpl. rewrite IH. simpl. by rewrite <- !app_assoc.
Qed.

(** C5: Whatever statements fail, [DispatchOnce] either fails, and then no
    table has changed and nobody was told anything, or it announces
    exactly the events it leased. The announced are at most a batch, at
    most one per segment, each one the due head of its segment, unexpired,
    within the allowed number of attempts, and durably in flight until the
    acknowledgement timeout. Conversely nothing is leased in silence: a row
    in flight afterwards was already in flight as it is, or is announced.
    And nothing that could be served is passed over: with a batch size
    configured, a due head which has neither expired nor used up its
    attempts is among the announced, unless a whole batch of other segments
    had heads at least as old. *)
Theorem DispatchOnce_leases cfg w r w' :
  db_wf (w_db w) →
  DispatchOnce (mkOutboxService cfg (Some trace_notifier)) Background w = (r, w') →
  let now := clock_at (w_clock w) in
  match r with
  | Ok n => ∃ evs, w_trace w' = w_trace w ++ announcements evs
      ∧ n = Z.of_nat (length evs) ∧ n ≤ Z.max 0 (BatchSizeSegments cfg)
      ∧ NoDup (ev_key <$> evs)
      ∧ Forall (leased now (AckTimeout cfg) (MaxAttempts cfg) (w_db w) (w_db w')) evs
      ∧ (∀ o, o ∈ outbox (events (w_db w')) → ob_status o = StatusInFlight →
           o ∈ outbox (events (w_db w))
           ∨ ∃ ev p, ev ∈ evs ∧ cbor_Unmarshal_map (ob_payload o) = Some p ∧ ev = event_of o p)
      ∧ (0 < BatchSizeSegments cfg → ∀ p, due_head now (w_db w) p → sendable now (MaxAttempts cfg) p.2 →
           ob_event_id p.2 ∈ oe_EventID <$> evs
           ∨ ∃ ps, Z.of_nat (length ps) = BatchSizeSegments cfg ∧ NoDup ((λ p, sg_key p.1) <$> ps)
               ∧ ∀ q, q ∈ ps → q ≠ p ∧ due_head now (w_db w) q ∧ ob_created_at q.2 ≤ ob_created_at p.2)
  | _ => w_db w' = w_db w ∧ w_trace w' = w_trace w
  end.
Proof.
  intros Hwf. cbv zeta. unfold DispatchOnce. cbn [os_cfg]. unfold bind at 1, Now.
  set (now := clock_at (w_clock w)). set (w0 := mkWorld _ _ _ _ _ _).
  set (tx := WithinTransaction Background (λ txCtx, ClaimPending txCtx now (BatchSizeSegments cfg)
    (AckTimeout cfg) (MaxAttempts cfg))).
  unfold bind at 1.
  assert (silent tx) as Hs by (apply silent_WithinTransaction; apply ClaimPending_silent).
  destruct (Hs w0) as [Htr _]. fold tx.
  destruct (tx w0) as [q w1] eqn:Etx. simpl in Htr.
  destruct q as [evs|e|m].
  - unfold bind. rewrite (announce_loop cfg evs w1). intros [= <- <-]. simpl. rewrite Htr.
    exists evs. split; [done|]. split; [done|].
    unfold tx, WithinTransaction in Etx. destruct (fault_at _); [done|].
    destruct (ClaimPending _ _ _ _ _ (tick_stmt w0)) as [[evs'|e|m] w2] eqn:Ec; [|done|done].
    destruct (fault_at _); [done|]. injection Etx as -> <-.
    pose proof (Hwf : db_wf (w_db (tick_stmt w0))) as Hwf0. destruct (ClaimPending_claims _ _ _ _ _ _ _ Hwf0 Ec) as (Hn & Hnd & HF).
    do 3 (split; [done|]). split; [apply (ClaimPending_accounts _ _ _ _ _ _ _ Hwf0 Ec)|].
    intros Hb p Hp Hok. rewrite <- (Z.max_r 0 (BatchSizeSegments cfg)) by lia. by apply (ClaimPending_complete _ _ _ _ _ _ _ p Hwf0 Hb Ec).
  - intros [= <- <-]. split; [|done]. apply (WithinTransaction_rollback _ _ _ _ Etx). done.
  - intros [= <- <-]. split; [|done]. apply (WithinTransaction_rollback _ _ _ _ Etx). done.
Qed.
End spec.
