(* ===== verification/OutboxOrder.v ===== *)
(** * OutboxOrder: the outbox serves each segment oldest first and strands nothing

    [served now]: the head of a segment is a live event, and every live
    unexpired event has, in its segment, a head that is not younger.  The
    invariant holds along every run whose appends arrive in order of
    creation and complete, whose clock does not run backwards and whose
    janitor passes complete; dispatching and acknowledging may fail at any
    statement, being transactions. *)

From Stdlib Require Import ZArith.
From S2P Require Import Prelude GoLib GoTime Domain Database Effects OutboxRepo OutboxInv OutboxService.
From S2P Require Import OutboxSpec.

Local Open Scope Z_scope.

Record served (now : Time) (g : EventDB) : Prop := {
  sv_live : ∀ s h, s ∈ outbox_segments g → sg_head_event_id s = Some h →
    ∃ r, r ∈ outbox g ∧ ob_event_id r = h ∧ ob_live r;
  sv_covers : ∀ o, o ∈ outbox g → ob_live o → now < ob_expires_at o →
    ∃ s r, s ∈ outbox_segments g ∧ sg_in (ob_device_id o) (ob_segment_id o) s ∧ r ∈ outbox g
           ∧ sg_head_event_id s = Some (ob_event_id r) ∧ ob_created_at r ≤ ob_created_at o }.

Definition ordered (now : Time) (db : DB) : Prop := db_wf db ∧ served now (events db).

Lemma served_later now now' g : now ≤ now' → served now g → served now' g.
Proof. intros Hle [Hl Hc]. split; [done|]. intros o Ho Hlive He. apply Hc; [done|done|lia]. Qed.

(** ** Statements *)

(** Rows that are live before and after a statement. *)
Lemma served_update_live now g P `{!∀ o, Decision (P o)} f :
  (∀ o, same_row o (f o)) → (∀ o, o ∈ outbox g → P o → ob_live o ∧ ob_live (f o)) →
  served now g → served now (mkEventDB (user_events g) (sql_update P f (outbox g)) (outbox_segments g)).
Proof.
  intros Hsame HP [Hl Hc].
  assert (∀ r, r ∈ outbox g → ∃ r', r' ∈ sql_update P f (outbox g) ∧ same_row r r' ∧ (ob_live r → ob_live r')) as Hup.
  { intros r Hr. exists (if decide (P r) then f r else r). split_and!.
    - apply elem_of_sql_update. exists r. split; [done|]. case_decide; auto.
    - case_decide; [apply Hsame|by split_and!].
    - case_decide as HPr; [by intros _; apply HP|done]. }
  split; simpl.
  - intros s h Hs Hh. destruct (Hl s h Hs Hh) as (r & Hr & Hid & Hlive).
    destruct (Hup r Hr) as (r' & Hr' & (E1 & _) & Hlive'). exists r'. split_and!; [done|congruence|auto].
  - intros o (o0 & Ho0 & Hcase)%elem_of_sql_update Hlive He.
    assert (ob_live o0 ∧ same_row o0 o) as [Hlive0 (E1 & E2 & E3 & E4 & E5)].
    { destruct Hcase as [[HPo ->]|[_ ->]]; [by split; [apply HP|]|by split_and!]. }
    destruct (Hc o0 Ho0 Hlive0 ltac:(lia)) as (s & r & Hs & Hin & Hr & Hh & Hle).
    destruct (Hup r Hr) as (r' & Hr' & (F1 & _ & _ & F4 & _) & _).
    exists s, r'. rewrite E2, E3, E4, F1, F4. by split_and!.
Qed.

(** Deleting rows that are not live. *)
Lemma served_delete now g P `{!∀ o, Decision (P o)} :
  outbox_wf g → (∀ o, o ∈ outbox g → P o → ¬ ob_live o) →
  served now g → served now (mkEventDB (user_events g) (sql_delete P (outbox g)) (outbox_segments g)).
Proof.
  intros Hwf HP [Hl Hc]. split; simpl.
  - intros s h Hs Hh. destruct (Hl s h Hs Hh) as (r & Hr & Hid & Hlive). exists r.
    split_and!; [|done|done]. apply elem_of_sql_delete. split; [done|]. intros HPr. by apply (HP r).
  - intros o [Ho _]%elem_of_sql_delete Hlive He.
    destruct (Hc o Ho Hlive He) as (s & r & Hs & Hin & Hr & Hh & Hle). exists s, r.
    split_and!; [done|done| |done|done]. apply elem_of_sql_delete. split; [done|].
    intros HPr. destruct (Hl s _ Hs Hh) as (r' & Hr' & Hid & Hlive').
    rewrite (event_unique g r' r) in Hlive' by done. by apply (HP r).
Qed.

(** Dropping a segment from the age of its head on and clearing it. *)
Lemma served_drop now dev seg from reason t db :
  ordered now db →
  (∀ o, o ∈ outbox (events db) → ob_in dev seg o → ob_live o → now < ob_expires_at o →
     from ≤ ob_created_at o) →
  served now (mkEventDB (user_events (events db))
    (sql_update (λ o, ob_in dev seg o ∧ from ≤ ob_created_at o ∧ ob_live o) (ob_set_dropped reason)
       (outbox (events db)))
    (sql_update (sg_in dev seg) (sg_set None None t) (outbox_segments (events db)))).
Proof.
  intros [Hwf [Hl Hc]] Hfrom.
  assert (∀ r, r ∈ outbox (events db) → ¬ ob_in dev seg r →
    r ∈ sql_update (λ o, ob_in dev seg o ∧ from ≤ ob_created_at o ∧ ob_live o) (ob_set_dropped reason)
       (outbox (events db))) as Hkeep.
  { intros r Hr Hn. apply elem_of_sql_update. exists r. split; [done|right]. tauto. }
  split; simpl.
  - intros s h (s0 & Hs0 & [[_ ->]|[Hn ->]])%elem_of_sql_update Hh; [done|].
    destruct (Hl s0 h Hs0 Hh) as (r & Hr & Hid & Hlive). exists r. split_and!; [|done|done].
    apply Hkeep; [done|]. intros [E1 E2]. apply Hn.
    destruct (wf_head_in _ Hwf s0 h r Hs0 Hh Hr Hid) as [E3 E4]. split; congruence.
  - intros o (o0 & Ho0 & [[_ ->]|[Hn ->]])%elem_of_sql_update Hlive He; [by destruct Hlive|].
    assert (¬ ob_in dev seg o0) as Hnin by (intros Hin; apply Hn; auto).
    destruct (Hc o0 Ho0 Hlive He) as (s & r & Hs & Hin & Hr & Hh & Hle). exists s, r.
    destruct (wf_head_in _ Hwf s _ r Hs Hh Hr eq_refl) as [E3 E4]. destruct Hin as [E1 E2].
    split_and!; [|done|apply Hkeep; [done|]|done|done].
    + apply elem_of_sql_update. exists s. split; [done|right]. split; [|done].
      intros [E5 E6]. apply Hnin. split; congruence.
    + intros [E5 E6]. apply Hnin. split; congruence.
Qed.

(** The rows once event [id] is acknowledged. *)
Definition acked_rows (id : UUID) (t : Time) (rows : list OutboxRow) : list OutboxRow :=
  sql_update (λ o, ob_event_id o = id) (ob_set_acked t) rows.

Lemma acked_rows_live id t rows o :
  o ∈ acked_rows id t rows → ob_live o → o ∈ rows ∧ ob_event_id o ≠ id.
Proof. by intros (o0 & Ho0 & [[_ ->]|[Hn ->]])%elem_of_sql_update [H|H]. Qed.

Lemma acked_rows_keep id t rows o : o ∈ rows → ob_event_id o ≠ id → o ∈ acked_rows id t rows.
Proof. intros Ho Hn. apply elem_of_sql_update. exists o. auto. Qed.

(** The new head of the segment is its oldest live unexpired event. *)
Lemma select_next_least dev seg now id db o :
  o ∈ outbox (events db) → ob_in dev seg o → ob_live o → now < ob_expires_at o → ob_event_id o ≠ id →
  ∃ n, select_next dev seg now id db = Some (ob_event_id n) ∧ n ∈ outbox (events db)
       ∧ ob_created_at n ≤ ob_created_at o.
Proof.
  intros Ho Hin Hl He Hne. unfold select_next, sql_select.
  set (l := filter _ (outbox (events db))).
  assert (o ∈ l) as Hol by (apply list_elem_of_filter; auto).
  destruct (head (order_by (asc ob_created_at) l)) as [n|] eqn:Eh.
  - exists n. split_and!.
    + replace (head (limit 1 _)) with (Some n); [done|]. unfold limit. simpl.
      by destruct (order_by (asc ob_created_at) l).
    + apply head_Some_elem_of, elem_of_order_by, list_elem_of_filter in Eh. tauto.
    + by eapply head_order_by_least.
  - rewrite <- (elem_of_order_by (asc ob_created_at)) in Hol.
    destruct (order_by (asc ob_created_at) l); [by apply not_elem_of_nil in Hol|done].
Qed.

(** Acknowledging the head: the segment moves on to its next event. *)
Lemma served_ack_head now dev seg id db o s0 :
  ordered now db → o ∈ outbox (events db) → ob_event_id o = id → ob_in dev seg o →
  s0 ∈ outbox_segments (events db) → sg_in dev seg s0 →
  let rows := acked_rows id now (outbox (events db)) in
  served now (mkEventDB (user_events (events db)) rows
    (sql_update (sg_in dev seg)
       (sg_set (select_next dev seg now id (set_outbox rows db)) None now)
       (outbox_segments (events db)))).
Proof.
  intros [Hwf [Hl Hc]] Ho Hid Hin Hs0 Hin0 rows. split; simpl.
  - intros s h (s1 & Hs1 & [[_ ->]|[Hn ->]])%elem_of_sql_update Hh.
    + simpl in Hh. unfold select_next in Hh. apply fmap_Some in Hh as (n & Hnx & ->).
      apply head_Some_elem_of, elem_of_limit, elem_of_order_by, list_elem_of_filter in Hnx.
      exists n. tauto.
    + destruct (Hl s1 h Hs1 Hh) as (r & Hr & Er & Hlive). exists r. split_and!; [|done|done].
      apply acked_rows_keep; [done|]. intros E. rewrite (event_unique _ r o Hwf) in Er by congruence || done.
      destruct (wf_head_in _ Hwf s1 h o Hs1 Hh Ho Er) as [E3 E4]. apply Hn. destruct Hin. split; congruence.
  - intros o1 Ho1 Hlive He. destruct (acked_rows_live _ _ _ _ Ho1 Hlive) as [Ho1' Hne].
    destruct (decide (ob_in dev seg o1)) as [Hin1|Hin1].
    + destruct (select_next_least dev seg now id (set_outbox rows db) o1) as (n & En & Hn & Hle); [done..|].
      eexists (sg_set _ None now s0), n. split_and!; [|split; simpl| |exact En|done].
      * apply elem_of_sql_update. exists s0. split; [done|]. by left.
      * destruct Hin1, Hin0; congruence.
      * destruct Hin1, Hin0; congruence.
      * done.
    + destruct (Hc o1 Ho1' Hlive He) as (s & r & Hs & Hsin & Hr & Hh & Hle). exists s, r.
      destruct (wf_head_in _ Hwf s _ r Hs Hh Hr eq_refl) as [E3 E4]. destruct Hsin as [E1 E2].
      split_and!; [|done| |done|done].
      * apply elem_of_sql_update. exists s. split; [done|right]. split; [|done].
        intros [E5 E6]. apply Hin1. split; congruence.
      * apply acked_rows_keep; [done|]. intros E. rewrite (event_unique _ r o Hwf) in E3, E4 by congruence || done.
        destruct Hin. apply Hin1. split; congruence.
Qed.

(** Acknowledging an event that is not the head. *)
Lemma served_ack_other now dev seg id t db o P `{!∀ s, Decision (P s)} :
  ordered now db → o ∈ outbox (events db) → ob_event_id o = id → ob_in dev seg o →
  (∀ s, s ∈ outbox_segments (events db) → sg_in dev seg s → sg_head_event_id s ≠ Some id) →
  served now (mkEventDB (user_events (events db)) (acked_rows id now (outbox (events db)))
    (sql_update P (λ s, sg_set (sg_head_event_id s) None t s) (outbox_segments (events db)))).
Proof.
  intros [Hwf [Hl Hc]] Ho Hid Hin Hhead.
  assert (∀ s r, s ∈ outbox_segments (events db) → sg_head_event_id s = Some (ob_event_id r) →
            r ∈ outbox (events db) → r ∈ acked_rows id now (outbox (events db))) as Hkeep.
  { intros s r Hs Hh Hr. apply acked_rows_keep; [done|]. intros E.
    assert (r = o) as -> by (apply (event_unique _ _ _ Hwf); congruence || done).
    destruct (wf_head_in _ Hwf s _ o Hs Hh Ho eq_refl) as [E1 E2].
    apply (Hhead s Hs); [destruct Hin; split; congruence|congruence]. }
  split; simpl.
  - intros s h (s1 & Hs1 & Hcase)%elem_of_sql_update Hh.
    assert (sg_head_event_id s1 = Some h) as Hh1 by (by destruct Hcase as [[_ ->]|[_ ->]]).
    destruct (Hl s1 h Hs1 Hh1) as (r & Hr & <- & Hlive). exists r. split_and!; [|done|done]. by eapply Hkeep.
  - intros o1 Ho1 Hlive He. destruct (acked_rows_live _ _ _ _ Ho1 Hlive) as [Ho1' _].
    destruct (Hc o1 Ho1' Hlive He) as (s & r & Hs & Hsin & Hr & Hh & Hle).
    exists (if decide (P s) then sg_set (sg_head_event_id s) None t s else s), r.
    split_and!; [|by case_decide|by eapply Hkeep|by case_decide|done].
    apply elem_of_sql_update. exists s. split; [done|]. case_decide; auto.
Qed.

(** Appending the youngest event of a segment. *)
Lemma served_append now db o seg :
  ordered now db → ob_live o → sg_head_event_id seg = Some (ob_event_id o) →
  sg_in (ob_device_id o) (ob_segment_id o) seg →
  (∀ o', o' ∈ outbox (events db) → ob_event_id o' ≠ ob_event_id o) →
  (∀ o', o' ∈ outbox (events db) → ob_live o' → ob_in (ob_device_id o) (ob_segment_id o) o' →
     ob_created_at o' ≤ ob_created_at o) →
  served now (mkEventDB (user_events (events db)) (outbox (events db) ++ [o])
    (sql_upsert same_segment merge_segment seg (outbox_segments (events db)))).
Proof.
  intros [Hwf [Hl Hc]] Hlo Hhead [Ed Es] Hfresh Hyoung. unfold sql_upsert.
  assert (o ∈ outbox (events db) ++ [o]) as Hon by (apply elem_of_app; right; by constructor).
  case_decide as Hex.
  - apply Exists_exists in Hex as (s0 & Hs0 & F1 & F2). split; simpl.
    + intros s h (s1 & Hs1 & Hcase)%elem_of_sql_update Hh.
      assert (sg_head_event_id s1 = Some h ∨ h = ob_event_id o) as [Hh1| ->].
      { destruct Hcase as [[_ ->]|[_ ->]]; [|by left]. simpl in Hh.
        destruct (sg_head_event_id s1); [by left|right; congruence]. }
      * destruct (Hl s1 h Hs1 Hh1) as (r & Hr & E & Hlr). exists r. rewrite elem_of_app. auto.
      * by exists o.
    + intros o1 [Ho1| ->%list_elem_of_singleton]%elem_of_app Hl1 He.
      * destruct (Hc o1 Ho1 Hl1 He) as (s & r & Hs & Hsin & Hr & Hh & Hle).
        exists (if decide (same_segment seg s) then merge_segment s seg else s), r.
        rewrite elem_of_app. split_and!; [|by case_decide|by left| |done].
        -- apply elem_of_sql_update. exists s. split; [done|]. case_decide; auto.
        -- case_decide; [|done]. simpl. by rewrite Hh.
      * destruct (sg_head_event_id s0) as [h|] eqn:E0.
        -- destruct (Hl s0 h Hs0 E0) as (r & Hr & <- & Hlr).
           destruct (wf_head_in _ Hwf s0 _ r Hs0 E0 Hr eq_refl) as [G1 G2].
           exists (merge_segment s0 seg), r. rewrite elem_of_app.
           split_and!; [|split; simpl; congruence|by left|simpl; by rewrite E0|].
           ++ apply elem_of_sql_update. exists s0. split; [done|]. by left.
           ++ apply Hyoung; [done|done|]. split; congruence.
        -- exists (merge_segment s0 seg), o.
           split_and!; [|split; simpl; congruence|done|simpl; by rewrite E0|lia].
           apply elem_of_sql_update. exists s0. split; [done|]. by left.
  - split; simpl.
    + intros s h [Hs| ->%list_elem_of_singleton]%elem_of_app Hh.
      * destruct (Hl s h Hs Hh) as (r & Hr & E & Hlr). exists r. rewrite elem_of_app. auto.
      * exists o. split_and!; [done|congruence|done].
    + intros o1 [Ho1| ->%list_elem_of_singleton]%elem_of_app Hl1 He.
      * destruct (Hc o1 Ho1 Hl1 He) as (s & r & Hs & Hsin & Hr & Hh & Hle). exists s, r.
        rewrite !elem_of_app. auto 10.
      * exists seg, o. rewrite (elem_of_app (outbox_segments _)). split_and!; [right; by constructor|done|done|done|lia].
Qed.

(** Segments keep their key and head. *)
Lemma served_update_segments now g P `{!∀ s, Decision (P s)} f :
  (∀ s, sg_key (f s) = sg_key s ∧ sg_head_event_id (f s) = sg_head_event_id s) →
  served now g → served now (mkEventDB (user_events g) (outbox g) (sql_update P f (outbox_segments g))).
Proof.
  intros Hf [Hl Hc]. split; simpl.
  - intros s h (s1 & Hs1 & Hcase)%elem_of_sql_update Hh. apply (Hl s1 h Hs1).
    destruct Hcase as [[_ ->]|[_ ->]]; [|done]. by rewrite <- (proj2 (Hf s1)).
  - intros o Ho Hlive He. destruct (Hc o Ho Hlive He) as (s & r & Hs & [E1 E2] & Hr & Hh & Hle).
    exists (if decide (P s) then f s else s), r. destruct (Hf s) as [[= F1 F2] F3].
    split_and!; [|case_decide; split; congruence|done|case_decide; congruence|done].
    apply elem_of_sql_update. exists s. split; [done|]. case_decide; auto.
Qed.

(** ** Methods *)

Section methods.
Context {E : Env}.

Lemma cand_ok_oldest now db x o :
  ordered now db → cand_ok db x → o ∈ outbox (events db) →
  ob_in (cand_deviceID x) (cand_segmentID x) o → ob_live o → now < ob_expires_at o →
  cand_createdAt x ≤ ob_created_at o.
Proof.
  intros [Hwf [_ Hc]] [(s & Hs & Hin & Hh) Hage] Ho [Ed Es] Hlive He.
  destruct (Hc o Ho Hlive He) as (s' & r & Hs' & Hin' & Hr & Hh' & Hle).
  rewrite <- Ed, <- Es in Hin.
  assert (s' = s) as -> by (eapply segment_unique; [exact Hwf|done|done|done|done]).
  rewrite <- (Hage r Hr); [done|congruence].
Qed.

Lemma dropSegmentTail_served now c x t reason :
  hoare (λ db, ordered now db ∧ cand_ok db x)
    (dropSegmentTail c (cand_deviceID x) (cand_segmentID x) (cand_createdAt x) t reason)
    (λ _ db, served now (events db)) (λ _, True).
Proof.
  unfold dropSegmentTail.
  apply (hoare_bind _ _ _ (λ _ db, ∃ db0, ordered now db0 ∧ cand_ok db0 x ∧
    stmt_drop_tail (cand_deviceID x) (cand_segmentID x) (cand_createdAt x) reason db0 = inr db)).
  - apply hoare_wrap_error, hoare_exec_; [done|]. intros db db' [Ho Hok] Heq. by exists db.
  - intros u. apply hoare_wrap_error, hoare_exec_; [done|].
    intros db db' (db0 & Ho & Hok & [= <-]) [= <-]. simpl.
    apply (served_drop now _ _ _ reason t db0); [done|]. intros o. by apply (cand_ok_oldest now db0).
Qed.

Lemma claim_one_served now c timeout maxA x :
  hoare (λ db, ordered now db ∧ cand_ok db x) (claim_one c now timeout maxA x)
    (λ _ db, served now (events db)) (λ _, True).
Proof.
  unfold claim_one. case_decide.
  - eapply hoare_bind; [apply dropSegmentTail_served|]. intros u. by apply hoare_ret.
  - apply (hoare_bind _ _ _ (λ _ db, served now (events db))).
    { apply hoare_exec; [done|]. intros db row db' [[Hwf Hs] [(s & Hsg & Hin & Hh) _]] [= _ <-]. simpl.
      apply served_update_live; [by intros o| |done]. intros o Ho Eid.
      destruct (sv_live _ _ Hs s _ Hsg Hh) as (r & Hr & Er & Hlive).
      rewrite (event_unique _ o r Hwf) by congruence || done. split; [done|by right]. }
    intros row. apply hoare_skip; [apply scanOutboxEvent_preserves|done|]. intros ev.
    apply (hoare_bind _ _ _ (λ _ db, served now (events db))); [|by intros u; apply hoare_ret].
    apply hoare_wrap_error, hoare_exec_; [done|]. intros db db' Hs [= <-]. simpl.
    by apply served_update_segments.
Qed.

(** Loops over candidates: each step keeps the order and the candidates
    that are left. *)
Lemma candidates_loop {A} now (body : candidate → M A) l :
  (∀ x rest, cand_key x ∉ cand_key <$> rest →
     hoare (λ db, ordered now db ∧ cands_ok (x :: rest) db) (body x)
           (λ _ db, ordered now db ∧ cands_ok rest db) (λ _, True)) →
  NoDup (cand_key <$> l) →
  hoare (λ db, ordered now db ∧ cands_ok l db) (map_each l body) (λ _, ordered now) (λ _, True).
Proof.
  intros Hbody. induction l as [|x l IH]; simpl; intros Hnd; [by apply hoare_ret; intros db [? _]|].
  apply NoDup_cons in Hnd as [Hx Hl]. eapply hoare_bind; [by apply Hbody|].
  intros y. eapply hoare_bind; [by apply IH|]. intros ys. by apply hoare_ret.
Qed.

Lemma claim_one_ordered now c timeout maxA x rest :
  cand_key x ∉ cand_key <$> rest →
  hoare (λ db, ordered now db ∧ cands_ok (x :: rest) db) (claim_one c now timeout maxA x)
    (λ _ db, ordered now db ∧ cands_ok rest db) (λ _, True).
Proof.
  intros Hx. eapply hoare_both;
    [apply (claim_one_spec c now timeout maxA x rest Hx)|apply (claim_one_served now c timeout maxA x)| |].
  - intros db [[Hwf Hs] Hok]. by inversion_clear Hok.
  - by intros a db [? ?] ?.
Qed.

Lemma drop_ordered now c x rest t reason :
  cand_key x ∉ cand_key <$> rest →
  hoare (λ db, ordered now db ∧ cands_ok (x :: rest) db)
    (dropSegmentTail c (cand_deviceID x) (cand_segmentID x) (cand_createdAt x) t reason)
    (λ _ db, ordered now db ∧ cands_ok rest db) (λ _, True).
Proof.
  intros Hx. eapply hoare_both;
    [apply (dropSegmentTail_spec c x rest t reason Hx)|apply (dropSegmentTail_served now c x t reason)| |].
  - intros db [[Hwf Hs] Hok]. by inversion_clear Hok.
  - by intros a db [? ?] ?.
Qed.

Lemma ClaimPending_ordered c now batch timeout maxA :
  hoare (ordered now) (ClaimPending c now batch timeout maxA) (λ _, ordered now) (λ _, True).
Proof.
  unfold ClaimPending. case_decide; [by apply hoare_ret|]. destruct c; [by apply hoare_raise|].
  eapply hoare_bind; [by apply hoare_wrap_error, hoare_query|]. intros l.
  apply (hoare_bind _ _ _ (λ _, ordered now)); [|by intros; apply hoare_ret].
  intros w [Ho ->].
  destruct (to_candidate_ok (w_db w) (λ p, ob_due now p.2) batch (proj1 Ho)) as [Hnd Hok].
  by apply (candidates_loop now _ _ (claim_one_ordered now InTx timeout maxA) Hnd w).
Qed.

(** A loop whose results are dropped runs like one whose results are kept. *)
Lemma for_each_map_each {A} (l : list A) (body : A → M unit) P Q (R : DB → Prop) :
  hoare P (map_each l body) (λ _, Q) R → hoare P (for_each l body) (λ _, Q) R.
Proof.
  intros Hm w Hw. specialize (Hm w Hw). clear Hw.
  assert (for_each l body w = match map_each l body w with
            | (Ok _, w') => (Ok tt, w') | (Err e, w') => (Err e, w') | (Panic s, w') => (Panic s, w') end) as ->.
  { clear Hm. revert w. induction l as [|x l IH]; intros w; simpl; [done|].
    unfold bind. destruct (body x w) as [[[]|e|s] w1]; [|done|done]. rewrite IH.
    by destruct (map_each l body w1) as [[]]. }
  by destruct (map_each l body w) as [[a|e|s] w'].
Qed.

Lemma DropExpiredHeads_ordered c now batch :
  hoare (ordered now) (DropExpiredHeads c now batch) (λ _, ordered now) (λ _, True).
Proof.
  unfold DropExpiredHeads. eapply hoare_bind; [by apply hoare_wrap_error, hoare_query|]. intros l.
  apply (hoare_bind _ _ _ (λ _, ordered now)); [|by intros; apply hoare_ret].
  intros w [Ho ->].
  destruct (to_candidate_ok (w_db w) (λ p, ob_expires_at p.2 ≤ now) batch (proj1 Ho)) as [Hnd Hok].
  refine (for_each_map_each _ _ _ _ _ (candidates_loop now _ _ _ Hnd) w (conj Ho Hok)).
  intros x rest Hx. by apply drop_ordered.
Qed.

Lemma DeleteTerminal_ordered now c status olderThan lim :
  status = StatusAcked ∨ status = StatusDropped →
  preserves (ordered now) (DeleteTerminal c status olderThan lim).
Proof.
  intros Hst. unfold DeleteTerminal. apply preserves_wrap_error, preserves_exec.
  intros db a db' [Hwf Hs] [= _ <-]. split; [by apply wf_delete_rows|]. simpl.
  apply served_delete; [done| |done]. intros o Ho Hsel Hlive.
  unfold select_terminal in Hsel. apply list_elem_of_fmap in Hsel as (o' & E' & Ho').
  apply elem_of_limit, elem_of_order_by, list_elem_of_filter in Ho' as [[Hst' _] Ho'].
  rewrite (event_unique _ o' o Hwf) in Hst' by congruence || done.
  destruct Hst, Hlive; congruence || (unfold StatusAcked, StatusDropped, StatusPending, StatusInFlight in *; lia).
Qed.

Lemma AcknowledgeOutbox_served c now id dev seg :
  hoare (ordered now) (AcknowledgeOutbox c now id dev seg) (λ _ db, served now (events db)) (λ _, True).
Proof.
  unfold AcknowledgeOutbox. destruct c; [by apply hoare_raise|].
  eapply hoare_bind; [by apply hoare_wrap_error, hoare_query|]. intros [o|]; [|by apply hoare_ret; intros db [[_ ?] _]].
  case_decide; [by apply hoare_ret; intros db [[_ ?] _]|].
  case_decide; [by apply hoare_ret; intros db [[_ ?] _]|].
  set (S := ob_segment_id o).
  apply (hoare_bind _ _ _ (λ _ db, ∃ db0, ordered now db0 ∧ o ∈ outbox (events db0) ∧ ob_event_id o = id
    ∧ ob_in dev S o ∧ db = set_outbox (acked_rows id now (outbox (events db0))) db0)).
  { apply hoare_wrap_error, hoare_exec_; [done|]. intros db db' [Ho Hr] [= <-]. symmetry in Hr.
    apply sql_row_Some in Hr as [Hin [Hid Hdev]]. by exists db. }
  intros u. eapply hoare_bind; [by apply hoare_wrap_error, hoare_query|]. intros hd. simpl.
  case_decide as Eh.
  - eapply hoare_bind; [by apply hoare_wrap_error, hoare_query|]. intros nxt.
    apply hoare_wrap_error, hoare_exec_; [done|].
    intros db db' [[(db0 & Ho & Hin & Hid & Hseg & ->) Ehd] ->] [= <-]. simpl in *. rewrite Eh in Ehd.
    destruct (sql_row _ _) as [s|] eqn:Es; [|done]. apply sql_row_Some in Es as [Hs Hsin].
    by apply (served_ack_head now dev S id db0 o s).
  - apply hoare_wrap_error, hoare_exec_; [done|].
    intros db db' [(db0 & Ho & Hin & Hid & Hseg & ->) Ehd] [= <-]. simpl in *.
    apply (served_ack_other now dev S id now db0 o); [done..|].
    intros s Hs Hsin Hh. apply Eh. rewrite Ehd.
    destruct (sql_row (sg_in dev S) _) as [s'|] eqn:Es.
    + apply sql_row_Some in Es as [Hs' Hsin'].
      rewrite (segment_unique _ dev S s' s (proj1 Ho)) by done. simpl. unfold compose. by rewrite Hh.
    + rewrite sql_row_None in Es. by destruct (Es s Hs).
Qed.

(** ** Appending *)

(** The identifiers that [event] gets on its devices are unused. *)
Definition event_fresh (event : Event) (db : DB) : Prop :=
  (∀ d d', outboxEventID (ev_EventID event) d = outboxEventID (ev_EventID event) d' → d = d')
  ∧ ∀ d, (∀ o, o ∈ outbox (events db) → ob_event_id o ≠ outboxEventID (ev_EventID event) d)
         ∧ ∀ s, s ∈ outbox_segments (events db) →
             sg_head_event_id s ≠ Some (outboxEventID (ev_EventID event) d).

(** No undelivered event of its segment is younger than [event]. *)
Definition event_youngest (event : Event) (db : DB) : Prop :=
  ∀ o, o ∈ outbox (events db) → ob_live o → ob_segment_id o = outboxSegmentID event →
    ob_created_at o ≤ ev_CreatedAt event.

(** What the devices still to be served may rely on. *)
Definition device_ready (event : Event) (d : string) (db : DB) : Prop :=
  (∀ o, o ∈ outbox (events db) → ob_event_id o ≠ outboxEventID (ev_EventID event) d)
  ∧ (∀ s, s ∈ outbox_segments (events db) → sg_head_event_id s ≠ Some (outboxEventID (ev_EventID event) d))
  ∧ ∀ o, o ∈ outbox (events db) → ob_live o → ob_in d (outboxSegmentID event) o →
      ob_created_at o ≤ ev_CreatedAt event.

(** The two statements of one device, together. *)
Lemma append_statements now event x payload db db1 db2 :
  let id := outboxEventID (ev_EventID event) x in
  let seg := outboxSegmentID event in
  ordered now db → device_ready event x db →
  stmt_insert_outbox (mkOutboxRow id x seg (ev_EventType event) payload StatusPending
    (ev_AvailableAt event) None 0 (ev_CreatedAt event) (ev_ExpiresAt event) None None None) db = inr db1 →
  stmt_upsert_segment (mkSegmentRow x seg (Some id) None (ev_CreatedAt event)) db1 = inr db2 →
  served now (events db2)
  ∧ ∀ d, d ≠ x → (outboxEventID (ev_EventID event) d ≠ id) → device_ready event d db → device_ready event d db2.
Proof.
  intros id seg Ho (Hf & Hh & Hy). unfold stmt_insert_outbox. destruct (violated _); [done|].
  unfold sql_insert_ignore. rewrite decide_False.
  2:{ intros (o & Hin & E')%Exists_exists. by apply (Hf o). }
  intros [= <-] [= <-]. simpl. split.
  - apply served_append; [done|by left|done|done|exact Hf|exact Hy].
  - intros d Hdx Hne (Gf & Gh & Gy). unfold device_ready. simpl. split_and!.
    + intros o [Hin| ->%list_elem_of_singleton]%elem_of_app; [by apply Gf|]. simpl. congruence.
    + unfold sql_upsert. intros s Hin. case_decide.
      * apply elem_of_sql_update in Hin as (s0 & Hs0 & [[_ ->]|[_ ->]]); [|by apply Gh]. simpl.
        destruct (sg_head_event_id s0) eqn:E0; [rewrite <- E0; by apply Gh|congruence].
      * apply elem_of_app in Hin as [Hin| ->%list_elem_of_singleton]; [by apply Gh|]. simpl. congruence.
    + intros o [Hin| ->%list_elem_of_singleton]%elem_of_app; [by apply Gy|]. intros _ [? _]. done.
Qed.

Lemma append_device_served now c event payload x rest :
  x ∉ rest →
  (∀ d d', outboxEventID (ev_EventID event) d = outboxEventID (ev_EventID event) d' → d = d') →
  hoare (λ db, ordered now db ∧ ∀ d, d ∈ x :: rest → device_ready event d db)
    (append_device c event payload (outboxSegmentID event) x)
    (λ _ db, served now (events db) ∧ ∀ d, d ∈ rest → device_ready event d db) (λ _, True).
Proof.
  intros Hx Hinj. unfold append_device.
  apply (hoare_bind _ _ _ (λ _ db1, ∃ db, ordered now db ∧ (∀ d, d ∈ x :: rest → device_ready event d db)
    ∧ stmt_insert_outbox (mkOutboxRow (outboxEventID (ev_EventID event) x) x (outboxSegmentID event)
        (ev_EventType event) payload StatusPending (ev_AvailableAt event) None 0 (ev_CreatedAt event)
        (ev_ExpiresAt event) None None None) db = inr db1)).
  - apply hoare_wrap_error, hoare_exec_; [done|]. intros db db' [Ho Hd] Heq. by exists db.
  - intros u. apply hoare_wrap_error, hoare_exec_; [done|].
    intros db1 db2 (db & Ho & Hd & E1) E2.
    destruct (append_statements now event x payload db db1 db2) as [Hs Hr]; [done|apply Hd; left|done|done|].
    split; [done|]. intros d Hdr. assert (d ≠ x) by congruence.
    apply Hr; [done| |apply Hd; by right]. by intros ?%Hinj.
Qed.

Lemma append_device_ordered now c event payload x rest :
  x ∉ rest →
  (∀ d d', outboxEventID (ev_EventID event) d = outboxEventID (ev_EventID event) d' → d = d') →
  hoare (λ db, ordered now db ∧ ∀ d, d ∈ x :: rest → device_ready event d db)
    (append_device c event payload (outboxSegmentID event) x)
    (λ _ db, ordered now db ∧ ∀ d, d ∈ rest → device_ready event d db) (λ _, True).
Proof.
  intros Hx Hinj. eapply hoare_both;
    [apply (append_device_spec c event payload (outboxSegmentID event) x rest);
       by intros d _ ?%Hinj
    |apply (append_device_served now c event payload x rest Hx Hinj)| |].
  - intros db [[Hwf Hs] Hd]. split; [|done]. split; [done|]. intros d Hin.
    destruct (Hd d Hin) as (Hf & Hh & _). by split; [intros o Ho ?; destruct (Hf o)|intros s Hsg ?; destruct (Hh s)].
  - by intros a db [? _] [? ?].
Qed.

Lemma select_devices_NoDup user db : NoDup (select_devices user db).
Proof. unfold select_devices, order_by. rewrite merge_sort_Permutation. apply NoDup_remove_dups. Qed.

Lemma appendOutbox_ordered now c event :
  hoare (λ db, ordered now db ∧ event_fresh event db ∧ event_youngest event db)
    (appendOutbox c event) (λ _, ordered now) (λ _, True).
Proof.
  unfold appendOutbox, listTargetDeviceIDs.
  eapply hoare_bind; [by apply hoare_wrap_error, hoare_query|]. intros [|d0 devs].
  { by apply hoare_ret; intros db [[? _] _]. }
  apply hoare_skip; [auto with preserves|done|]. intros payload.
  intros w [[Ho [[Hinj Hf] Hy]] El].
  pose proof (select_devices_NoDup (ev_UserPublicKey event) (w_db w)) as Hnd. rewrite <- El in Hnd.
  revert Hnd. generalize (d0 :: devs). intros l Hnd.
  assert (hoare (λ db, ordered now db ∧ ∀ d, d ∈ l → device_ready event d db)
           (for_each l (append_device c event payload (outboxSegmentID event))) (λ _, ordered now)
           (λ _, True)) as Hl.
  { clear El. induction l as [|x l IH]; simpl; [by apply hoare_ret; intros db [? _]|].
    apply NoDup_cons in Hnd as [Hx Hnd].
    eapply hoare_bind; [by apply append_device_ordered|]. intros u. by apply IH. }
  apply Hl. split; [done|]. intros d _. destruct (Hf d) as [G1 G2]. split_and!; [done|done|].
  intros o Hin Hlive [_ Eseg]. by apply Hy.
Qed.
End methods.
