(* ===== verification/OutboxReach.v ===== *)
(** * OutboxReach: runs of the outbox

    The step relations of the outbox under the whole program: [outbox_step]
    lets every operation fail at any statement, [ordered_step] asks appends
    and janitor passes to complete.  What holds along every run. *)

From Stdlib Require Import ZArith.
From S2P Require Import Prelude GoLib GoTime Domain Database Effects OutboxRepo OutboxInv OutboxService.
From S2P Require Import OutboxSpec OutboxOrder.

Local Open Scope Z_scope.

Section reach.
Context {E : Env} (s : OutboxService) (Hs : notifier_ok s).

(** One operation of the program.  [step_other] stands for everything
    that does not write the outbox tables. *)
Inductive outbox_step : World → World → Prop :=
  | step_append c event w :
      event_reserved event (w_db w) → outbox_step w (appendOutbox c event w).2
  | step_dispatch w : outbox_step w (DispatchOnce s Background w).2
  | step_ack id dev seg w : outbox_step w (Acknowledge s Background id dev seg w).2
  | step_janitor c w : outbox_step w (janitor_run s c w).2
  | step_list c dev lim w : outbox_step w (ServiceListInflight s c dev lim w).2
  | step_other w w' : events (w_db w') = events (w_db w) → outbox_step w w'.

(** The same with appends that complete, in order of creation, and
    janitor passes that complete. *)
Inductive ordered_step : World → World → Prop :=
  | ostep_append c event w w' :
      event_fresh event (w_db w) → event_youngest event (w_db w) →
      appendOutbox c event w = (Ok tt, w') → ordered_step w w'
  | ostep_dispatch w : ordered_step w (DispatchOnce s Background w).2
  | ostep_ack id dev seg w : ordered_step w (Acknowledge s Background id dev seg w).2
  | ostep_janitor c w w' : janitor_run s c w = (Ok tt, w') → ordered_step w w'
  | ostep_other w w' :
      events (w_db w') = events (w_db w) → (w_clock w ≤ w_clock w')%nat → ordered_step w w'.

Definition after_now (w : World) : World :=
  mkWorld (w_db w) (S (w_clock w)) (w_uuid w) (w_random w) (w_stmt w) (w_trace w).

Lemma announce_loop_ok evs w : ∃ w', for_each evs (announce s) w = (Ok tt, w') ∧ told w w'.
Proof. apply for_each_ok. intros ev w' _. by apply announce_ok. Qed.

(** Up to the notifications, a dispatch is its transaction. *)
Lemma DispatchOnce_tx w :
  told (WithinTransaction Background (λ c, ClaimPending c (clock_at (w_clock w))
          (BatchSizeSegments (os_cfg s)) (AckTimeout (os_cfg s)) (MaxAttempts (os_cfg s))) (after_now w)).2
       (DispatchOnce s Background w).2.
Proof.
  unfold DispatchOnce, bind at 1, Now. fold (after_now w). unfold bind at 1.
  destruct (WithinTransaction _ _ _) as [[evs|e|m] w1]; [|done|done].
  unfold bind. destruct (announce_loop_ok evs w1) as (w2 & -> & Ht). done.
Qed.

Lemma Acknowledge_tx id dev seg w :
  told w (Acknowledge s Background id dev seg w).2
  ∨ told (WithinTransaction Background (λ c,
            let* now := Now in AcknowledgeOutbox c now id dev seg) w).2
         (Acknowledge s Background id dev seg w).2.
Proof.
  unfold Acknowledge. case_decide; [by left|]. case_decide; [by left|]. right. unfold bind at 2.
  destruct (WithinTransaction _ _ _) as [[u|e|m] w1]; [|done|done].
  destruct (notify_key_ok s dev w1 Hs) as (w2 & -> & Ht). done.
Qed.

(** ** Under any failure *)

Lemma outbox_step_wf w w' : outbox_step w w' → db_wf (w_db w) → db_wf (w_db w').
Proof.
  intros Hstep Hwf. destruct Hstep as [c event w Hr|w|id dev seg w|c w|c dev lim w|w w' He].
  - pose proof (appendOutbox_wf c event w (conj Hwf Hr)) as H.
    by destruct (appendOutbox c event w) as [[]].
  - destruct (DispatchOnce_tx w) as [-> _].
    apply (preserves_WithinTransaction db_wf); [apply ClaimPending_wf|exact Hwf].
  - destruct (Acknowledge_tx id dev seg w) as [[-> _]|[-> _]]; [done|].
    apply (preserves_WithinTransaction db_wf); [|exact Hwf].
    apply preserves_bind; [apply preserves_Now|]. intros now. apply AcknowledgeOutbox_wf.
  - apply (λ H : preserves db_wf (janitor_run s c), H w Hwf). unfold janitor_run.
    apply preserves_bind; [apply preserves_Now|]. intros now.
    apply preserves_bind; [apply DropExpiredHeads_wf|]. intros n.
    do 2 (apply preserves_bind; [apply DeleteTerminal_wf|]; intros ?). apply preserves_ret.
  - apply (λ H : preserves db_wf (ServiceListInflight s c dev lim), H w Hwf). unfold ServiceListInflight.
    case_decide; [apply preserves_raise|].
    apply preserves_bind; [apply preserves_Now|]. intros now. apply ListInflight_preserves.
  - unfold db_wf. by rewrite He.
Qed.

(** C4: In every state that the program can reach from an empty outbox,
    whichever statements failed on the way, two different events of one
    segment of a device are never in flight together, and an event in
    flight has a lease after which it will be sent again. *)
Theorem outbox_single_flight w0 w o o' :
  outbox (events (w_db w0)) = [] → outbox_segments (events (w_db w0)) = [] →
  rtc outbox_step w0 w →
  o ∈ outbox (events (w_db w)) → o' ∈ outbox (events (w_db w)) →
  ob_status o = StatusInFlight → ob_status o' = StatusInFlight →
  ob_device_id o = ob_device_id o' → ob_segment_id o = ob_segment_id o' →
  o = o' ∧ is_Some (ob_inflight_until o).
Proof.
  intros E1 E2 Hrun Ho Ho' Hst Hst' Hd Hseg.
  assert (db_wf (w_db w)) as Hwf.
  { assert (db_wf (w_db w0)) as Hwf0.
    { constructor; rewrite ?E1, ?E2; simpl; try constructor; set_solver. }
    clear -Hrun Hwf0 Hs. induction Hrun; [done|]. eauto using outbox_step_wf. }
  split; [by eapply inflight_unique|by eapply wf_lease].
Qed.

(** ** With appends in order *)

Lemma tx_ordered {A} (P : DB → Prop) (fn : Ctx → M A) (Q : DB → Prop) w :
  hoare P (fn InTx) (λ _, Q) (λ _, True) → P (w_db w) →
  let w' := (WithinTransaction Background fn w).2 in Q (w_db w') ∨ w_db w' = w_db w.
Proof.
  intros Hfn Hw. simpl. destruct (fault_at _); [by right|]. specialize (Hfn (tick_stmt w) Hw).
  destruct (fn InTx (tick_stmt w)) as [[a|e|m] w1]; simpl; [|by right|by right].
  destruct (fault_at _); [by right|by left].
Qed.

Lemma AcknowledgeOutbox_ordered c now id dev seg :
  hoare (ordered now) (AcknowledgeOutbox c now id dev seg) (λ _, ordered now) (λ _, True).
Proof.
  eapply hoare_both; [apply preserves_hoare, AcknowledgeOutbox_wf|apply (AcknowledgeOutbox_served c now)| |].
  - intros db Ho. split; [apply Ho|exact Ho].
  - by intros a db ? ?.
Qed.

Lemma ordered_later now now' db : now ≤ now' → ordered now db → ordered now' db.
Proof. intros Hle [Hwf Hsv]. split; [done|]. by eapply served_later. Qed.

Hypothesis clock_monotone : ∀ i j, (i ≤ j)%nat → clock_at i ≤ clock_at j.

Definition in_order (w : World) : Prop := ordered (clock_at (w_clock w)) (w_db w).

Lemma in_order_told w w' : told w w' → in_order w → in_order w'.
Proof.
  intros [Edb Hc]. unfold in_order. rewrite Edb. apply ordered_later. by apply clock_monotone.
Qed.

Lemma hoare_ok {A} P (m : M A) (Q : A → DB → Prop) R w a w' :
  hoare P m Q R → P (w_db w) → m w = (Ok a, w') → Q a (w_db w').
Proof. intros Hm Hw Em. specialize (Hm w Hw). by rewrite Em in Hm. Qed.

Lemma silent_clock {A} (m : M A) r w w' : silent m → m w = (r, w') → (w_clock w ≤ w_clock w')%nat.
Proof. intros Hm Em. destruct (Hm w) as [_ Hc]. by rewrite Em in Hc. Qed.

Lemma in_order_tx {A} (fn : Ctx → M A) now w :
  silent (fn InTx) → hoare (ordered now) (fn InTx) (λ _, ordered now) (λ _, True) →
  now ≤ clock_at (w_clock w) → ordered now (w_db w) →
  in_order (WithinTransaction Background fn w).2.
Proof.
  intros Hsil Hfn Hle Ho. apply (ordered_later now).
  - etrans; [exact Hle|]. apply clock_monotone.
    by destruct (silent_WithinTransaction Background fn Hsil w).
  - destruct (tx_ordered (ordered now) fn (ordered now) w Hfn Ho) as [|E1]; [done|by rewrite E1].
Qed.

Lemma AcknowledgeOutbox_silent c now id dev seg : silent (AcknowledgeOutbox c now id dev seg).
Proof. unfold AcknowledgeOutbox. solve_silent. Qed.

Lemma janitor_run_silent c : silent (janitor_run s c).
Proof. unfold janitor_run, DropExpiredHeads, dropSegmentTail, DeleteTerminal. solve_silent. Qed.

Lemma appendOutbox_silent c event : silent (appendOutbox c event).
Proof. unfold appendOutbox, listTargetDeviceIDs, append_device. solve_silent. Qed.

Lemma janitor_run_ordered c w w' :
  in_order w → janitor_run s c w = (Ok tt, w') → ordered (clock_at (w_clock w)) (w_db w').
Proof.
  intros Hw. set (now := clock_at (w_clock w)).
  assert (hoare (ordered now) (DropExpiredHeads c now (BatchSizeSegments (os_cfg s)) ;;;
    DeleteTerminal c StatusAcked (now - AckRetention (os_cfg s)) (DeleteBatchSize (os_cfg s)) ;;;
    DeleteTerminal c StatusDropped (now - DropRetention (os_cfg s)) (DeleteBatchSize (os_cfg s)) ;;;
    ret tt) (λ _, ordered now) (λ _, True)) as Hj.
  { eapply hoare_bind; [apply DropExpiredHeads_ordered|]. intros n.
    do 2 (apply hoare_skip; [apply DeleteTerminal_ordered; tauto|done|]; intros ?). by apply hoare_ret. }
  unfold janitor_run, bind at 1, Now. intros Erun.
  exact (hoare_ok _ _ _ _ (after_now w) _ _ Hj Hw Erun).
Qed.

(** A transaction that reads the clock first. *)
Lemma in_order_tx_now {A} (k : Ctx → Time → M A) w :
  (∀ now, silent (k InTx now)) →
  (∀ now, hoare (ordered now) (k InTx now) (λ _, ordered now) (λ _, True)) →
  in_order w → in_order (WithinTransaction Background (λ c, let* now := Now in k c now) w).2.
Proof.
  intros Hsil Hk Hw. simpl. destruct (fault_at _); [done|].
  unfold bind, Now. fold (after_now (tick_stmt w)).
  pose proof (Hk (clock_at (w_clock w)) (after_now (tick_stmt w)) Hw) as H.
  destruct (Hsil (clock_at (w_clock w)) (after_now (tick_stmt w))) as [_ Hc].
  change (clock_at (w_clock (tick_stmt w))) with (clock_at (w_clock w)).
  destruct (k InTx _ _) as [[a|e|m] w1]; simpl in *;
    assert (clock_at (w_clock w) ≤ clock_at (w_clock w1)) by (apply clock_monotone; lia).
  - destruct (fault_at _); simpl; by apply (ordered_later (clock_at (w_clock w))).
  - by apply (ordered_later (clock_at (w_clock w))).
  - by apply (ordered_later (clock_at (w_clock w))).
Qed.

Lemma ordered_step_in_order w w' : ordered_step w w' → in_order w → in_order w'.
Proof.
  intros Hstep Hw. destruct Hstep as [c event w w' Hf Hy Erun|w|id dev seg w|c w w' Erun|w w' He Hc].
  - apply (ordered_later (clock_at (w_clock w))).
    + apply clock_monotone. by eapply silent_clock; [apply appendOutbox_silent|exact Erun].
    + eapply (hoare_ok _ _ (λ _, ordered (clock_at (w_clock w))) _ w); [apply (appendOutbox_ordered (clock_at (w_clock w)) c event)| |exact Erun].
      by split_and!.
  - eapply in_order_told; [apply DispatchOnce_tx|].
    eapply (in_order_tx _ (clock_at (w_clock w))); [apply ClaimPending_silent|apply ClaimPending_ordered| |exact Hw].
    apply clock_monotone. simpl. lia.
  - destruct (Acknowledge_tx id dev seg w) as [Ht|Ht]; [by eapply in_order_told|].
    eapply in_order_told; [exact Ht|]. apply (in_order_tx_now (λ c now, AcknowledgeOutbox c now id dev seg));
    [intros; apply AcknowledgeOutbox_silent|intros; apply AcknowledgeOutbox_ordered|done].
  - apply (ordered_later (clock_at (w_clock w))).
    + apply clock_monotone. by eapply silent_clock; [apply janitor_run_silent|exact Erun].
    + by eapply janitor_run_ordered.
  - unfold in_order. eapply (ordered_later (clock_at (w_clock w))); [by apply clock_monotone|].
    unfold ordered, db_wf. by rewrite He.
Qed.

(** C1: When events are appended in order of creation, appends and janitor
    passes complete and the clock does not run backwards, no undelivered
    unexpired event is ever stranded or overtaken: its segment has a head,
    the head is itself undelivered, belongs to the segment, is not younger
    than the event, and whatever is in flight in the segment is that head. *)
Theorem outbox_serves_oldest w0 w o :
  outbox (events (w_db w0)) = [] → outbox_segments (events (w_db w0)) = [] →
  rtc ordered_step w0 w →
  o ∈ outbox (events (w_db w)) → ob_live o → clock_at (w_clock w) < ob_expires_at o →
  ∃ sg hd, sg ∈ outbox_segments (events (w_db w)) ∧ sg_in (ob_device_id o) (ob_segment_id o) sg
    ∧ hd ∈ outbox (events (w_db w)) ∧ sg_head_event_id sg = Some (ob_event_id hd)
    ∧ ob_live hd ∧ ob_in (ob_device_id o) (ob_segment_id o) hd
    ∧ ob_created_at hd ≤ ob_created_at o
    ∧ ∀ o', o' ∈ outbox (events (w_db w)) → ob_in (ob_device_id o) (ob_segment_id o) o' →
        ob_status o' = StatusInFlight → o' = hd.
Proof.
  intros E1 E2 Hrun Ho Hlive He.
  assert (in_order w) as [Hwf Hsv].
  { assert (in_order w0) as H0.
    { split; constructor; rewrite ?E1, ?E2; simpl; try constructor; set_solver. }
    clear -Hrun H0 Hs clock_monotone. induction Hrun; [done|]. eauto using ordered_step_in_order. }
  destruct (sv_covers _ _ Hsv o Ho Hlive He) as (sg & hd & Hsg & Hin & Hhd & Hh & Hle).
  destruct (sv_live _ _ Hsv sg _ Hsg Hh) as (r & Hr & Er & Hlr).
  assert (r = hd) as -> by (by apply (event_unique _ _ _ Hwf)).
  destruct (wf_head_in _ Hwf sg _ hd Hsg Hh Hhd eq_refl) as [F1 F2]. destruct Hin as [G1 G2].
  exists sg, hd. split_and!; [done|done|done|done|done|split; congruence|done|].
  intros o' Ho' [K1 K2] Hst. destruct (wf_inflight _ Hwf o' Ho' Hst) as (sg' & Hsg' & Hin' & Hh').
  rewrite K1, K2 in Hin'.
  assert (sg' = sg) as -> by (eapply segment_unique; [exact Hwf|done|done|done|by split]).
  apply (event_unique _ _ _ Hwf); congruence || done.
Qed.
End reach.
