(* ===== verification/OutboxRace.v ===== *)
(** * OutboxRace: an acknowledgement and an append that overlap

    [AcknowledgeOutbox] reads which event comes next and writes it as the
    head of the segment in two statements of a transaction that locks
    nothing in between.  Under PostgreSQL's default isolation an append may
    commit between them.  The first part of the acknowledgement writes only
    the status of the acknowledged row, which no statement of an append
    reads, so running the append between the two parts is that schedule. *)

From Stdlib Require Import ZArith.
From S2P Require Import Prelude GoLib GoTime Domain Database Effects OutboxRepo OutboxInv OutboxService.
From S2P Require Import OutboxSpec OutboxOrder OutboxReach.

Local Open Scope Z_scope.

Section race.
Context {E : Env}.

(** What an acknowledgement has found out before its last statement: nothing
    is left to do, or the segment of the event and, when the event is its
    head, the event to come next. *)
Definition ack_plan : Type := option (string * option (option UUID)).

(** [AcknowledgeOutbox] up to its last query. *)
Definition ack_read (now : Time) (eventID : UUID) (deviceID segmentID : string) : M ack_plan :=
  let* row := wrap_error "select outbox event for ack" (query InTx (λ db,
    sql_row (λ o, ob_event_id o = eventID ∧ ob_device_id o = deviceID) (outbox (events db)))) in
  match row with
  | None => ret None
  | Some o =>
      let storedSegmentID := ob_segment_id o in
      if decide (segmentID ≠ "" ∧ segmentID ≠ storedSegmentID)%string then ret None else
      if decide (ob_status o = StatusAcked) then ret None else
      wrap_error "ack outbox event" (exec_ InTx (stmt_ack eventID now)) ;;;
      let* headEventID := wrap_error "select outbox head" (query InTx (λ db,
        default uuid_Nil ∘ sg_head_event_id <$>
          sql_row (sg_in deviceID storedSegmentID) (outbox_segments (events db)))) in
      if decide (headEventID = Some eventID) then
        let* nextEventID := wrap_error "select next outbox head"
          (query InTx (select_next deviceID storedSegmentID now eventID)) in
        ret (Some (storedSegmentID, Some nextEventID))
      else ret (Some (storedSegmentID, None))
  end.

(** Its last statement. *)
Definition ack_write (now : Time) (eventID : UUID) (deviceID : string) (plan : ack_plan) : M unit :=
  match plan with
  | None => ret tt
  | Some (storedSegmentID, Some nextEventID) =>
      wrap_error "advance outbox head"
        (exec_ InTx (stmt_set_segment deviceID storedSegmentID nextEventID None now))
  | Some (storedSegmentID, None) =>
      wrap_error "clear non-head inflight outbox event"
        (exec_ InTx (stmt_clear_inflight deviceID storedSegmentID now eventID))
  end.

(** The two parts are the whole. *)
Lemma ack_split now id dev seg w :
  AcknowledgeOutbox InTx now id dev seg w
  = bind (ack_read now id dev seg) (ack_write now id dev) w.
Proof.
  unfold AcknowledgeOutbox, ack_read, bind.
  destruct (wrap_error _ _ w) as [[row|e|m] w1]; [|done|done]. destruct row as [o|]; [|done].
  case_decide; [done|]. case_decide; [done|].
  destruct (wrap_error _ _ w1) as [[u|e|m] w2]; [|done|done].
  destruct (wrap_error _ _ w2) as [[hd|e|m] w3]; [|done|done].
  case_decide; [|done]. by destruct (wrap_error _ _ w3) as [[nxt|e|m] w4].
Qed.

(** The schedule: an append between the two parts. *)
Definition append_during_ack (now : Time) (eventID : UUID) (deviceID segmentID : string) (event : Event) : M unit :=
  let* plan := ack_read now eventID deviceID segmentID in
  appendOutbox Background event ;;;
  ack_write now eventID deviceID plan.

(** ** The append *)

(** The event is queued for a device and was never sent to it. *)
Definition queued (event : Event) (dev : string) (db : DB) : Prop :=
  ∃ o, o ∈ outbox (events db) ∧ ob_event_id o = outboxEventID (ev_EventID event) dev
    ∧ ob_in dev (outboxSegmentID event) o ∧ ob_status o = StatusPending ∧ ob_expires_at o = ev_ExpiresAt event.

Definition unqueued (event : Event) (dev : string) (db : DB) : Prop :=
  ∀ o, o ∈ outbox (events db) → ob_event_id o ≠ outboxEventID (ev_EventID event) dev.

(** The place of the event: its row is in its segment, not yet sent, the
    segment has the head [hd] and no segment has the event as its head. *)
Record in_place (event : Event) (dev : string) (hd : option UUID) (db : DB) : Prop := {
  ip_row : ∀ o, o ∈ outbox (events db) → ob_event_id o = outboxEventID (ev_EventID event) dev →
    ob_in dev (outboxSegmentID event) o ∧ ob_status o = StatusPending;
  ip_heads : ∀ s, s ∈ outbox_segments (events db) → sg_head_event_id s ≠ Some (outboxEventID (ev_EventID event) dev);
  ip_segment : ∃ s, s ∈ outbox_segments (events db) ∧ sg_in dev (outboxSegmentID event) s;
  ip_head : ∀ s, s ∈ outbox_segments (events db) → sg_in dev (outboxSegmentID event) s → sg_head_event_id s = hd }.

(** The event is queued, and its segment has no head. *)
Definition stranded (event : Event) (dev : string) (db : DB) : Prop :=
  queued event dev db ∧ in_place event dev None db.

Lemma in_place_rows event dev hd P `{!∀ o, Decision (P o)} f db :
  (∀ o, same_row o (f o)) →
  (∀ o, ob_event_id o = outboxEventID (ev_EventID event) dev → ob_in dev (outboxSegmentID event) o → ¬ P o) →
  in_place event dev hd db → in_place event dev hd (set_outbox (sql_update P f (outbox (events db))) db).
Proof.
  intros Hsame Hno [H1 H2 H3 H4]. constructor; [|done..].
  intros o (o0 & Ho0 & [[HP ->]|[_ ->]])%elem_of_sql_update Hid; [|by apply H1].
  destruct (Hsame o0) as (Ei & _). assert (ob_event_id o0 = outboxEventID (ev_EventID event) dev) as Hid0 by congruence.
  destruct (H1 o0 Ho0 Hid0) as [Hin _]. by destruct (Hno o0 Hid0 Hin).
Qed.

(** Changing the segments: no head becomes the event, and the segment of
    the event gets the head [hd']. *)
Lemma in_place_segments event dev hd hd' P `{!∀ s, Decision (P s)} f db :
  (∀ s, sg_key (f s) = sg_key s) →
  (∀ s, s ∈ outbox_segments (events db) → P s → sg_head_event_id (f s) ≠ Some (outboxEventID (ev_EventID event) dev)) →
  (∀ s, s ∈ outbox_segments (events db) → sg_in dev (outboxSegmentID event) s → sg_head_event_id s = hd →
     sg_head_event_id (if decide (P s) then f s else s) = hd') →
  in_place event dev hd db → in_place event dev hd' (set_outbox_segments (sql_update P f (outbox_segments (events db))) db).
Proof.
  intros Hkey Hf Hhd [H1 H2 (s1 & Hs1 & Hin1) H4].
  assert (∀ s, sg_in dev (outboxSegmentID event) (f s) ↔ sg_in dev (outboxSegmentID event) s) as Hin.
  { intros s. unfold sg_in. specialize (Hkey s). injection Hkey as -> ->. done. }
  constructor; [done| | |].
  - intros s (s0 & Hs0 & [[HP ->]|[_ ->]])%elem_of_sql_update; [by apply Hf|by apply H2].
  - exists (if decide (P s1) then f s1 else s1). split; [apply elem_of_sql_update; exists s1; split; [done|]; case_decide; auto|].
    case_decide; [by apply Hin|done].
  - intros s (s0 & Hs0 & Hcase)%elem_of_sql_update Hs. specialize (Hhd s0 Hs0).
    destruct Hcase as [[HP ->]|[HP ->]]; [rewrite decide_True in Hhd by done; apply (proj1 (Hin s0)) in Hs|rewrite decide_False in Hhd by done].
    + apply Hhd; [done|by apply H4].
    + apply Hhd; [done|by apply H4].
Qed.

Lemma append_device_keeps event payload dev x :
  preserves (queued event dev) (append_device Background event payload (outboxSegmentID event) x).
Proof.
  unfold append_device. apply preserves_bind; [|intros []]; apply preserves_wrap_error, preserves_exec_.
  - intros db db' (o & Ho & Hr). unfold stmt_insert_outbox. destruct (violated _); [done|]. intros [= <-].
    exists o. split; [|exact Hr]. cbn. unfold sql_insert_ignore. case_decide; [done|]. apply elem_of_app. by left.
  - by intros db db' Hq [= <-].
Qed.

Lemma append_device_queues event payload dev x :
  (∀ d d', outboxEventID (ev_EventID event) d = outboxEventID (ev_EventID event) d' → d = d') →
  hoare (unqueued event dev) (append_device Background event payload (outboxSegmentID event) x)
    (λ _ db, if decide (x = dev) then queued event dev db else unqueued event dev db) (λ _, True).
Proof.
  intros Hinj. set (Q db := if decide (x = dev) then queued event dev db else unqueued event dev db).
  unfold append_device. apply (hoare_bind _ _ _ (λ _, Q)).
  - apply hoare_wrap_error, hoare_exec_; [done|]. intros db db' Hu.
    unfold stmt_insert_outbox. destruct (violated _); [done|]. intros [= <-].
    unfold Q, sql_insert_ignore. destruct (decide (x = dev)) as [->|Hne]; case_decide as Hex.
    + apply Exists_exists in Hex as (o & Ho & Hid). by destruct (Hu o Ho).
    + eexists. split; [cbn; apply elem_of_app; right; by apply list_elem_of_singleton|].
      split_and!; [reflexivity|by split|reflexivity|reflexivity].
    + exact Hu.
    + intros o [Ho| ->%list_elem_of_singleton]%elem_of_app; [by apply Hu|]. cbn. by intros ?%Hinj.
  - intros []. apply hoare_wrap_error, hoare_exec_; [done|]. by intros db db' Hq [= <-].
Qed.

Lemma append_device_in_place event payload dev hd x :
  (∀ d d', outboxEventID (ev_EventID event) d = outboxEventID (ev_EventID event) d' → d = d') →
  preserves (in_place event dev (Some hd)) (append_device Background event payload (outboxSegmentID event) x).
Proof.
  intros Hinj. unfold append_device. apply preserves_bind; [|intros []]; apply preserves_wrap_error, preserves_exec_.
  - intros db db' [H1 H2 H3 H4]. unfold stmt_insert_outbox. destruct (violated _); [done|]. intros [= <-].
    constructor; [|done..]. unfold sql_insert_ignore. cbn. intros o Ho. case_decide; [by apply H1|].
    apply elem_of_app in Ho as [Ho| ->%list_elem_of_singleton]; [by apply H1|]. cbn. intros ->%Hinj. done.
  - intros db db' [H1 H2 (s1 & Hs1 & Hin1) H4] [= <-]. set (new := mkSegmentRow _ _ _ _ _).
    assert (x = dev ∨ Some (outboxEventID (ev_EventID event) x) ≠ Some (outboxEventID (ev_EventID event) dev)) as Hx.
    { destruct (decide (x = dev)) as [->|Hne]; [by left|right]. by intros [= ?%Hinj]. }
    unfold sql_upsert. case_decide as Hex.
    + apply (in_place_segments _ _ (Some hd)); [by intros []| | |by constructor; [..|exists s1|]].
      * intros s Hs [Ed Es]. cbn in *. destruct (sg_head_event_id s) as [h0|] eqn:Eh; [rewrite <- Eh; by apply H2|].
        destruct Hx as [->|Hx]; [|exact Hx]. rewrite (H4 s) in Eh; [done..|by split].
      * intros s _ _ Eh. case_decide; [|done]. cbn. by rewrite Eh.
    + constructor; [done|..]; cbn.
      * intros s [Hs| ->%list_elem_of_singleton]%elem_of_app; [by apply H2|]. destruct Hx as [->|Hx]; [|exact Hx].
        destruct Hex. apply Exists_exists. exists s1. split; [done|]. destruct Hin1. by split.
      * exists s1. split; [apply elem_of_app; by left|done].
      * intros s [Hs| ->%list_elem_of_singleton]%elem_of_app Hin; [by apply H4|].
        destruct Hex. apply Exists_exists. exists s1. split; [done|]. destruct Hin as [<- _], Hin1. by split.
Qed.

Lemma append_in_place event dev hd :
  (∀ d d', outboxEventID (ev_EventID event) d = outboxEventID (ev_EventID event) d' → d = d') →
  preserves (in_place event dev (Some hd)) (appendOutbox Background event).
Proof.
  intros Hinj. unfold appendOutbox, listTargetDeviceIDs. apply preserves_bind; [auto with preserves|].
  intros [|d devices]; [apply preserves_ret|]. apply preserves_bind; [auto with preserves|]. intros payload.
  apply preserves_for_each. intros x _. by apply append_device_in_place.
Qed.

Lemma append_queues event dev :
  (∀ d d', outboxEventID (ev_EventID event) d = outboxEventID (ev_EventID event) d' → d = d') →
  hoare (λ db, unqueued event dev db ∧ dev ∈ select_devices (ev_UserPublicKey event) db)
    (appendOutbox Background event) (λ _, queued event dev) (λ _, True).
Proof.
  intros Hinj. unfold appendOutbox, listTargetDeviceIDs.
  eapply hoare_bind; [by apply hoare_wrap_error, hoare_query|]. intros devices.
  apply (hoare_pre _ (λ db, unqueued event dev db ∧ dev ∈ devices)); [intros db [[Hu Hd] ->]; by split|].
  destruct devices as [|d0 devices]; [by intros w [_ ?%not_elem_of_nil]|].
  eapply hoare_bind; [apply hoare_of_option; by intros|]. intros payload.
  apply (hoare_pre _ (λ db, unqueued event dev db ∧ dev ∈ d0 :: devices)); [by intros db [? _]|].
  generalize (d0 :: devices) as l. intros l. clear d0 devices.
  induction l as [|x l IH]; cbn [for_each]; [by intros w [_ ?%not_elem_of_nil]|].
  intros w [Hu Hin]. pose proof (append_device_queues event payload dev x Hinj w Hu) as Hx. unfold bind.
  destruct (append_device _ _ _ _ x w) as [[u|e|m] w1]; [|done|done].
  destruct (decide (x = dev)) as [->|Hne].
  - assert (preserves (queued event dev) (for_each l (append_device Background event payload (outboxSegmentID event)))) as Hk
      by (apply preserves_for_each; intros; apply append_device_keeps).
    specialize (Hk w1 Hx). by destruct (for_each l _ w1) as [[u'|e|m] w2].
  - apply (IH w1). split; [done|]. by apply elem_of_cons in Hin as [->|?].
Qed.

(** ** The race *)

(** The event is the head of its segment, with nothing to follow it. *)
Record last_of_segment (now : Time) (id : UUID) (dev S : string) (db : DB) : Prop := {
  ls_wf : db_wf db;
  ls_row : ∃ o, o ∈ outbox (events db) ∧ ob_event_id o = id ∧ ob_in dev S o ∧ ob_status o ≠ StatusAcked;
  ls_head : ∃ s, s ∈ outbox_segments (events db) ∧ sg_in dev S s ∧ sg_head_event_id s = Some id;
  ls_alone : ∀ o, o ∈ outbox (events db) → ob_in dev S o → ob_live o → now < ob_expires_at o → ob_event_id o = id }.

Lemma ack_read_last now id dev S seg event db0 :
  S = outboxSegmentID event → seg = ""%string ∨ seg = S → last_of_segment now id dev S db0 → event_fresh event db0 →
  hoare (λ db, db = db0) (ack_read now id dev seg)
    (λ plan db, plan = Some (S, Some None) ∧ unqueued event dev db ∧ in_place event dev (Some id) db
             ∧ identity db = identity db0) (λ _, True).
Proof.
  intros ES Hseg [Hwf (o & Ho & Hid & [Hdev HS] & Hst) (s & Hs & Hin & Hh) Halone] [_ Hfresh]. unfold ack_read.
  eapply hoare_bind; [by apply hoare_wrap_error, hoare_query|]. intros row.
  apply (hoare_pre _ (λ db, db = db0 ∧ row = Some o)).
  { intros db [-> ->]. split; [done|]. destruct (sql_row _ _) as [o'|] eqn:Er.
    - apply sql_row_Some in Er as (Ho' & Hid' & _). f_equal. apply (event_unique _ _ _ Hwf); [done|done|congruence].
    - rewrite sql_row_None in Er. by destruct (Er o Ho). }
  apply (hoare_pure (λ db, db = db0)). intros ->. rewrite HS, decide_False by (intros [? ?]; by destruct Hseg as [->| ->]).
  rewrite decide_False by done.
  set (acked db := identity db = identity db0 ∧ outbox_segments (events db) = outbox_segments (events db0)
                   ∧ outbox (events db) = acked_rows id now (outbox (events db0))).
  apply (hoare_bind _ _ _ (λ _, acked)).
  { apply hoare_wrap_error, hoare_exec_; [done|]. by intros db db' -> [= <-]. }
  intros []. eapply hoare_bind; [by apply hoare_wrap_error, hoare_query|]. intros hd.
  apply (hoare_pre _ (λ db, acked db ∧ hd = Some id)).
  { intros db [(Ei & Es & Eo) ->]. split; [done|]. rewrite Es.
    destruct (sql_row _ _) as [s'|] eqn:Er; [|by rewrite sql_row_None in Er; destruct (Er s Hs)].
    apply sql_row_Some in Er as [Hs' Hin']. rewrite (segment_unique _ dev S s' s Hwf) by done. cbn. by rewrite Hh. }
  apply (hoare_pure acked). intros ->. rewrite decide_True by done.
  eapply hoare_bind; [by apply hoare_wrap_error, hoare_query|]. intros nxt. apply hoare_ret.
  intros db [(Ei & Es & Eo) ->]. split_and!; [|intros o' Ho'| |done].
  - do 3 f_equal. destruct (select_next _ _ _ _ _) as [h|] eqn:En; [|done]. exfalso.
    unfold select_next in En. apply fmap_Some in En as (o' & Ho' & ->).
    apply head_Some_elem_of, elem_of_limit, elem_of_order_by, list_elem_of_filter in Ho' as [(Hin' & Hl & He & Hne) Ho'].
    rewrite Eo in Ho'. apply acked_rows_live in Ho' as [Ho' _]; [|done]. by apply Hne, Halone.
  - rewrite Eo in Ho'. destruct (Hfresh dev) as [Hf _].
    apply elem_of_sql_update in Ho' as (o0 & Ho0 & [[_ ->]|[_ ->]]); exact (Hf o0 Ho0).
  - destruct (Hfresh dev) as [Hf Hfh]. constructor; rewrite ?Es; [|done| |].
    + intros o' Ho'. rewrite Eo in Ho'. apply elem_of_sql_update in Ho' as (o0 & Ho0 & [[_ ->]|[_ ->]]);
        intros Hid'; by destruct (Hf o0 Ho0).
    + exists s. by rewrite <- ES.
    + intros s' Hs' Hin'. rewrite <- ES in Hin'. by rewrite (segment_unique _ dev S s' s Hwf).
Qed.

(** ** Afterwards *)

Section afterwards.
Context (event : Event) (dev : string).
#[local] Abbreviation S := (outboxSegmentID event).
#[local] Abbreviation ID := (outboxEventID (ev_EventID event) dev).
#[local] Abbreviation lost := (stranded event dev).

(** Statements on other rows, and on other segments. *)
Lemma stranded_rows P `{!∀ o, Decision (P o)} f db :
  (∀ o, same_row o (f o)) → (∀ o, ob_event_id o = ID → ob_in dev S o → ¬ P o) →
  lost db → lost (set_outbox (sql_update P f (outbox (events db))) db).
Proof.
  intros Hsame Hno [(o & Ho & Hid & Hin & Hr) Hp]. split; [|by apply in_place_rows].
  exists o. split; [|done]. apply elem_of_sql_update. exists o. split; [done|right]. split; [by apply Hno|done].
Qed.

Lemma stranded_segments P `{!∀ s, Decision (P s)} f db :
  (∀ s, sg_key (f s) = sg_key s) → (∀ s, P s → sg_head_event_id (f s) = sg_head_event_id s ∨ sg_head_event_id (f s) ≠ Some ID) →
  (∀ s, sg_in dev S s → P s → sg_head_event_id s = None → sg_head_event_id (f s) = None) →
  lost db → lost (set_outbox_segments (sql_update P f (outbox_segments (events db))) db).
Proof.
  intros Hkey Hf Hhd [Hq Hp]. split; [exact Hq|]. pose proof Hp as [H1 H2 H3 H4]. apply (in_place_segments _ _ None); [done| | |done].
  - intros s Hs [->|?]%Hf; [by apply H2|done].
  - intros s _ Hin Eh. case_decide; [by apply Hhd|done].
Qed.

Lemma dropSegmentTail_stranded c d s from now reason :
  (d, s) ≠ (dev, S) → preserves lost (dropSegmentTail c d s from now reason).
Proof.
  intros Hne. unfold dropSegmentTail. apply preserves_bind; [|intros []]; apply preserves_wrap_error, preserves_exec_.
  - intros db db' Hl [= <-]. apply stranded_rows; [by intros []| |done]. intros o _ [E1 E2] ([E3 E4] & _). congruence.
  - intros db db' Hl [= <-]. apply stranded_segments; [by intros []|by right|done|done].
Qed.

(** What a head is not. *)
Definition elsewhere (x : candidate) : Prop := cand_key x ≠ (dev, S) ∧ cand_eventID x ≠ ID.

Lemma heads_elsewhere P `{!∀ p, Decision (P p)} n db : lost db →
  Forall elsewhere (to_candidate <$> limit n (order_by (asc (λ p : SegmentRow * OutboxRow, ob_created_at p.2)) (filter P (segment_heads db)))).
Proof.
  intros [_ [_ H2 _ H4]]. apply Forall_forall. intros y ([s hd] & -> & Hy)%list_elem_of_fmap.
  apply elem_of_limit, elem_of_order_by, list_elem_of_filter in Hy as [_ Hp].
  apply elem_of_segment_heads in Hp as (Hs & _ & Hh). split; cbn.
  - intros [= Ed Es]. by rewrite H4 in Hh.
  - intros Ei. apply (H2 s Hs). congruence.
Qed.

Lemma claim_one_stranded c now timeout maxA x : elsewhere x → preserves lost (claim_one c now timeout maxA x).
Proof.
  intros [Hkey Hid]. unfold claim_one. case_decide.
  { apply preserves_bind; [by apply dropSegmentTail_stranded|intros; apply preserves_ret]. }
  apply preserves_bind; [|intros row; apply preserves_bind; [apply scanOutboxEvent_preserves|intros ev; apply preserves_bind; [|intros; apply preserves_ret]]].
  - apply preserves_exec. intros db row db' Hl [= _ <-]. apply stranded_rows; [by intros []| |done]. intros o ? _ ?. congruence.
  - apply preserves_wrap_error, preserves_exec_. intros db db' Hl [= <-].
    apply stranded_segments; [by intros []|by left|done|done].
Qed.

Lemma ClaimPending_stranded now batch timeout maxA : hoare lost (ClaimPending InTx now batch timeout maxA) (λ _, lost) lost.
Proof.
  unfold ClaimPending. case_decide; [by apply hoare_ret|].
  eapply hoare_bind; [by apply hoare_wrap_error, hoare_query|]. intros l.
  apply (hoare_pre _ (λ db, lost db ∧ Forall elsewhere l)); [intros db [Hl ->]; split; [done|by apply heads_elsewhere]|].
  apply hoare_pure. intros Hall. apply preserves_hoare. apply preserves_bind; [|intros; apply preserves_ret].
  apply preserves_map_each. rewrite Forall_forall in Hall. intros x Hx. by apply claim_one_stranded, Hall.
Qed.

Lemma DropExpiredHeads_stranded c now batch : hoare lost (DropExpiredHeads c now batch) (λ _, lost) lost.
Proof.
  unfold DropExpiredHeads. eapply hoare_bind; [by apply hoare_wrap_error, hoare_query|]. intros l.
  apply (hoare_pre _ (λ db, lost db ∧ Forall elsewhere l)); [intros db [Hl ->]; split; [done|by apply heads_elsewhere]|].
  apply hoare_pure. intros Hall. apply preserves_hoare. apply preserves_bind; [|intros; apply preserves_ret].
  apply preserves_for_each. rewrite Forall_forall in Hall. intros x Hx. by apply dropSegmentTail_stranded, Hall.
Qed.

Lemma DeleteTerminal_stranded c status olderThan lim :
  status ≠ StatusPending → preserves lost (DeleteTerminal c status olderThan lim).
Proof.
  intros Hst. unfold DeleteTerminal. apply preserves_wrap_error, preserves_exec.
  intros db n db' [(o & Ho & Hid & Hin & Hs & He) [H1 H2 H3 H4]] [= _ <-].
  assert (∀ o1, o1 ∈ outbox (events db) → ob_event_id o1 = ID → ob_event_id o1 ∉ select_terminal status olderThan lim db) as Hkeep.
  { intros o1 Ho1 Hid1 Hsel. unfold select_terminal in Hsel. apply list_elem_of_fmap in Hsel as (o2 & E2 & Ho2).
    apply elem_of_limit, elem_of_order_by, list_elem_of_filter in Ho2 as [[Hst2 _] Ho2].
    destruct (H1 o2 Ho2) as [_ Hp]; congruence. }
  split; [exists o; split; [|done]|constructor; [|done..]]; cbn.
  - apply elem_of_sql_delete. split; [done|]. by apply Hkeep.
  - intros o1 [Ho1 _]%elem_of_sql_delete. by apply H1.
Qed.

Lemma janitor_run_stranded s c : preserves lost (janitor_run s c).
Proof.
  unfold janitor_run. apply preserves_bind; [apply preserves_Now|]. intros now.
  apply preserves_bind; [apply hoare_preserves, DropExpiredHeads_stranded|intros n].
  do 2 (apply preserves_bind; [by apply DeleteTerminal_stranded|intros ?]). apply preserves_ret.
Qed.

(** An acknowledgement of another event finds no head, or another one. *)
Lemma AcknowledgeOutbox_stranded now id d seg :
  id ≠ uuid_Nil → id ≠ ID → preserves lost (AcknowledgeOutbox InTx now id d seg).
Proof.
  intros Hnil Hne. apply hoare_preserves. unfold AcknowledgeOutbox.
  eapply hoare_bind; [by apply hoare_wrap_error, hoare_query|]. intros [o|]; [|by apply hoare_ret; intros db [? _]].
  case_decide; [by apply hoare_ret; intros db [? _]|]. case_decide; [by apply hoare_ret; intros db [? _]|].
  apply (hoare_pre _ lost); [by intros db [? _]|].
  apply (hoare_bind _ _ _ (λ _, lost)).
  { apply hoare_wrap_error, hoare_exec_; [done|]. intros db db' Hl [= <-].
    apply stranded_rows; [by intros []| |done]. intros o1 ? _ ?. congruence. }
  intros []. eapply hoare_bind; [by apply hoare_wrap_error, hoare_query|]. intros hd.
  case_decide as Hhd.
  - eapply (hoare_pre _ (λ db, lost db ∧ (d, ob_segment_id o) ≠ (dev, S))).
    { intros db [Hl ->]. split; [done|]. intros [= -> Es]. destruct Hl as [_ [_ _ _ H4]].
      destruct (sql_row _ _) as [sg|] eqn:Er; [|done]. apply sql_row_Some in Er as [Hsg Hin]. rewrite Es in Hin.
      cbn in Hhd. rewrite (H4 sg Hsg Hin) in Hhd. by injection Hhd as <-. }
    apply hoare_pure. intros Hseg. eapply hoare_bind; [by apply hoare_wrap_error, hoare_query|]. intros nxt.
    apply hoare_wrap_error, hoare_exec_; [by intros db [? _]|]. intros db db' [Hl ->] [= <-].
    apply stranded_segments; [by intros []| | |done].
    + intros sg _. right. cbn. intros Hn. unfold select_next in Hn. apply fmap_Some in Hn as (o' & Ho' & Hid').
      apply head_Some_elem_of, elem_of_limit, elem_of_order_by, list_elem_of_filter in Ho' as [([E1 E2] & _) Ho'].
      destruct Hl as [_ [H1 _ _ _]]. destruct (H1 o' Ho') as [[? ?] _]; [done|]. apply Hseg. congruence.
    + intros sg [E1 E2] [E3 E4] _. destruct Hseg. congruence.
  - apply hoare_wrap_error, hoare_exec_; [by intros db [? _]|]. intros db db' [Hl _] [= <-].
    apply stranded_segments; [by intros []|by left|done|done].
Qed.

(** Appending another event, to another segment or not to the device. *)
Lemma append_device_stranded c event' payload x :
  outboxEventID (ev_EventID event') x ≠ ID → (x, outboxSegmentID event') ≠ (dev, S) →
  preserves lost (append_device c event' payload (outboxSegmentID event') x).
Proof.
  intros Hid Hseg. unfold append_device. apply preserves_bind; [|intros []]; apply preserves_wrap_error, preserves_exec_.
  - intros db db' [(o & Ho & Hr) [H1 H2 H3 H4]]. unfold stmt_insert_outbox. destruct (violated _); [done|]. intros [= <-].
    unfold sql_insert_ignore. split; [exists o; split; [|done]|constructor; [|done..]]; cbn; case_decide; try done.
    + apply elem_of_app. by left.
    + intros o1 [Ho1| ->%list_elem_of_singleton]%elem_of_app; [by apply H1|]. cbn. intros ?. congruence.
  - intros db db' Hl [= <-]. unfold sql_upsert. case_decide.
    + apply stranded_segments; [by intros []| | |done]; cbn.
      * intros sg _. destruct (sg_head_event_id sg); [by left|right]. congruence.
      * intros sg [E1 E2] [E3 E4] _. cbn in *. destruct Hseg. congruence.
    + destruct Hl as [Hq [H1 H2 (s1 & Hs1 & Hin1) H4]]. split; [exact Hq|]. constructor; [done|..]; cbn.
      * intros sg [Hs| ->%list_elem_of_singleton]%elem_of_app; [by apply H2|]. cbn. congruence.
      * exists s1. split; [apply elem_of_app; by left|done].
      * intros sg [Hs| ->%list_elem_of_singleton]%elem_of_app; [by apply H4|]. intros [E1 E2]. cbn in *. destruct Hseg. congruence.
Qed.

(** The other operations of the program, whichever statements fail: appends
    of other events to other segments, or not to the device; the
    dispatcher; acknowledgements of other events; the janitor; listings;
    and everything that does not write the outbox. *)
Inductive other_step (s : OutboxService) : World → World → Prop :=
  | other_append c event' w :
      event_reserved event' (w_db w) →
      outboxSegmentID event' ≠ S ∨ dev ∉ select_devices (ev_UserPublicKey event') (w_db w) →
      other_step s w (appendOutbox c event' w).2
  | other_dispatch w : other_step s w (DispatchOnce s Background w).2
  | other_ack id d seg w : id ≠ ID → other_step s w (Acknowledge s Background id d seg w).2
  | other_janitor c w : other_step s w (janitor_run s c w).2
  | other_list c d lim w : other_step s w (ServiceListInflight s c d lim w).2
  | other_elsewhere w w' : events (w_db w') = events (w_db w) → other_step s w w'.

Lemma append_stranded c event' w :
  event_reserved event' (w_db w) → outboxSegmentID event' ≠ S ∨ dev ∉ select_devices (ev_UserPublicKey event') (w_db w) →
  lost (w_db w) → lost (w_db (appendOutbox c event' w).2).
Proof.
  intros [_ Hres] Hother Hl.
  assert (∀ x, x ∈ select_devices (ev_UserPublicKey event') (w_db w) →
    outboxEventID (ev_EventID event') x ≠ ID ∧ (x, outboxSegmentID event') ≠ (dev, S)) as Hx.
  { intros x Hx. assert ((x, outboxSegmentID event') ≠ (dev, S)) as Hne by (intros [= -> Eseg]; by destruct Hother).
    split; [|done]. intros Eid. destruct Hl as [(o & Ho & Hid & [E1 E2] & _) _]. destruct (Hres x) as [Hin _].
    destruct (Hin o Ho) as [E3 E4]; [congruence|]. apply Hne. congruence. }
  assert (hoare (λ db, db = w_db w) (appendOutbox c event') (λ _, lost) lost) as Ha.
  { unfold appendOutbox, listTargetDeviceIDs. eapply hoare_bind; [apply hoare_wrap_error, hoare_query; by intros db ->|]. intros l.
    apply (hoare_pre _ (λ db, lost db ∧ l = select_devices (ev_UserPublicKey event') (w_db w))); [by intros db [-> ->]|].
    apply hoare_pure. intros ->. apply preserves_hoare. destruct (select_devices _ _) as [|d0 devices]; [apply preserves_ret|].
    apply preserves_bind; [auto with preserves|]. intros payload. apply preserves_for_each. intros x Hin.
    destruct (Hx x Hin). by apply append_device_stranded. }
  specialize (Ha w eq_refl). by destruct (appendOutbox c event' w) as [[u|e|m] w1].
Qed.

Lemma other_step_stranded s w w' : notifier_ok s → other_step s w w' → lost (w_db w) → lost (w_db w').
Proof.
  intros Hs Hstep Hl. destruct Hstep as [c event' w Hr Ho|w|id d seg w Hne|c w|c d lim w|w w' He].
  - by apply append_stranded.
  - destruct (DispatchOnce_tx s Hs w) as [-> _]. apply (preserves_WithinTransaction lost); [|exact Hl].
    apply hoare_preserves, ClaimPending_stranded.
  - destruct (decide (id = uuid_Nil)) as [->|Hnil]; [unfold Acknowledge; by rewrite decide_True|].
    destruct (Acknowledge_tx s Hs id d seg w) as [[-> _]|[-> _]]; [done|].
    apply (preserves_WithinTransaction lost); [|exact Hl].
    apply preserves_bind; [apply preserves_Now|]. intros now. by apply AcknowledgeOutbox_stranded.
  - by apply janitor_run_stranded.
  - apply (λ H : preserves lost (ServiceListInflight s c d lim), H w Hl). unfold ServiceListInflight.
    case_decide; [apply preserves_raise|].
    apply preserves_bind; [apply preserves_Now|]. intros now. apply ListInflight_preserves.
  - destruct Hl as [Hq [H1 H2 H3 H4]]. split; [unfold queued in *; by rewrite He|constructor; rewrite ?He; done].
Qed.

Lemma stranded_not_served t db : t < ev_ExpiresAt event → lost db → ¬ served t (events db).
Proof.
  intros Ht [(o & Ho & Hid & [Ed ES] & Hst & He) [_ _ _ Hhead]] [_ Hc].
  destruct (Hc o Ho ltac:(by left) ltac:(lia)) as (s & r & Hs & Hin & _ & Hh & _). rewrite Ed, ES in Hin.
  by rewrite (Hhead s Hs Hin) in Hh.
Qed.
End afterwards.

(** C21: An acknowledgement that overlaps an append strands the appended
    event.  Let the head of a segment be acknowledged while nothing follows
    it, and let an append to the segment commit after the acknowledgement
    has looked for the next event and before it writes the head.  If both
    complete, the new event is queued, never sent, in a segment without a
    head, and what [served] promises of every state of a run without such
    overlaps fails at every time before the event expires.  And so it
    stays: whatever dispatches, acknowledgements of other events, passes of
    the janitor and appends of other events follow, however often and
    whichever of their statements fail, as long as nothing is appended to
    that segment of the device: nothing ever sends it. *)
Theorem append_during_ack_strands s now id dev seg event w w1 w' :
  notifier_ok s →
  seg = ""%string ∨ seg = outboxSegmentID event →
  last_of_segment now id dev (outboxSegmentID event) (w_db w) → event_fresh event (w_db w) →
  dev ∈ select_devices (ev_UserPublicKey event) (w_db w) →
  append_during_ack now id dev seg event w = (Ok tt, w1) →
  rtc (other_step event dev s) w1 w' →
  queued event dev (w_db w')
  ∧ (∀ s, s ∈ outbox_segments (events (w_db w')) → sg_in dev (outboxSegmentID event) s → sg_head_event_id s = None)
  ∧ ∀ t, t < ev_ExpiresAt event → ¬ served t (events (w_db w')).
Proof.
  intros Hs Hseg Hlast Hfresh Hdev Hrun Hafter.
  assert (hoare (λ db, db = w_db w) (append_during_ack now id dev seg event) (λ _, stranded event dev) (λ _, True)) as Hrace.
  { unfold append_during_ack. eapply hoare_bind; [by apply (ack_read_last now id dev (outboxSegmentID event) seg event)|]. intros plan.
    set (plan0 := Some (outboxSegmentID event, Some None) : ack_plan).
    apply (hoare_bind _ _ _ (λ _ db, plan = plan0 ∧ queued event dev db ∧ in_place event dev (Some id) db)).
    - intros w0 (-> & Hu & Hp & Ei).
      pose proof (append_queues event dev (proj1 Hfresh) w0) as Ha.
      pose proof (append_in_place event dev id (proj1 Hfresh) w0 Hp) as Hp'.
      assert (select_devices (ev_UserPublicKey event) (w_db w0) = select_devices (ev_UserPublicKey event) (w_db w)) as Ed
        by (unfold select_devices; by rewrite Ei).
      rewrite <- Ed in Hdev. specialize (Ha (conj Hu Hdev)). by destruct (appendOutbox _ _ w0) as [[u|e|m] w2].
    - intros []. apply (hoare_pre _ (λ db, (queued event dev db ∧ in_place event dev (Some id) db) ∧ plan = plan0)); [by intros db [? ?]|].
      apply hoare_pure. intros ->. cbn [ack_write].
      apply hoare_wrap_error, hoare_exec_; [done|]. intros db db' [Hq Hp] [= <-]. split; [exact Hq|].
      apply (in_place_segments _ _ (Some id)); [by intros []|done| |done].
      intros sg _ Hin _. by rewrite decide_True. }
  specialize (Hrace w eq_refl). rewrite Hrun in Hrace.
  assert (stranded event dev (w_db w')) as Hl.
  { clear -Hafter Hrace Hs. induction Hafter; [done|]. eauto using other_step_stranded. }
  split_and!; [apply Hl|apply Hl|]. intros t Ht. by apply (stranded_not_served event dev).
Qed.
End race.
