(* ===== verification/OutboxLocks.v ===== *)
(** * OutboxLocks: the row locks of overlapping outbox transactions

    An [UPDATE] locks the rows it changes until its transaction ends and
    waits for a row that another transaction has locked; [FOR UPDATE] does
    the same for the rows it returns, and [SKIP LOCKED] leaves out those that
    are locked.  Here the two transactions of the outbox, the claim of the
    dispatcher and the acknowledgement of a client, are written statement by
    statement with the rows that each statement locks ([Tx]); run alone they
    are the methods of [OutboxRepo].  A [Server] interleaves any number of
    them, each with its own uncommitted writes, and fails a transaction of a
    circle that waits for itself, as PostgreSQL does. *)

From Stdlib Require Import ZArith.
From S2P Require Import Prelude GoLib GoTime Domain Database Effects OutboxRepo OutboxInv OutboxService.

Local Open Scope Z_scope.

(** ** Transactions *)

(** A row, by its primary key. *)
Inductive RowKey : Type := OutboxKey (id : UUID) | SegmentKey (deviceID segmentID : string).
#[export] Instance RowKey_eq_dec : EqDecision RowKey.
Proof. solve_decision. Defined.

(** What is left of a transaction.  A statement knows the rows that are
    locked by others, which only [SKIP LOCKED] uses, and the tables as its
    transaction sees them; [rows] are the rows that it locks, [wrap] the text
    put before its error. *)
Inductive Tx (A : Type) : Type :=
  | TxReturn (a : A)
  | TxRaise (e : error)
  | TxStmt (B : Set) (wrap : option string) (rows : list RowKey → DB → list RowKey)
      (stmt : list RowKey → DB → error + (B * DB)) (k : B → Tx A).
Arguments TxReturn {A} a.
Arguments TxRaise {A} e.
Arguments TxStmt {A B} wrap rows stmt k.

Fixpoint tx_bind {A B} (t : Tx A) (k : A → Tx B) : Tx B :=
  match t with
  | TxReturn a => k a
  | TxRaise e => TxRaise e
  | TxStmt wrap rows stmt k' => TxStmt wrap rows stmt (λ b, tx_bind (k' b) k)
  end.
Notation "'tx*' x := t 'in' k" := (tx_bind t (λ x, k))
  (at level 10, x pattern, t at level 200, k at level 200) : go_scope.

Fixpoint tx_each {A B} (l : list A) (body : A → Tx B) : Tx (list B) :=
  match l with
  | [] => TxReturn []
  | x :: l => tx* y := body x in tx* ys := tx_each l body in TxReturn (y :: ys)
  end.

Definition tx_option {A} (e : error) (o : option A) : Tx A :=
  match o with Some a => TxReturn a | None => TxRaise e end.

(** A [SELECT], which locks nothing, and an [UPDATE]. *)
Definition tx_query {A : Set} (message : string) (f : DB → A) : Tx A :=
  TxStmt (Some message) (λ _ _, []) (λ _ db, inr (f db, db)) TxReturn.
Definition tx_exec (message : string) (rows : DB → list RowKey) (stmt : DB → error + DB) : Tx unit :=
  TxStmt (Some message) (λ _, rows) (λ _ db, match stmt db with inl e => inl e | inr db' => inr (tt, db') end) TxReturn.

Definition outbox_rows (P : OutboxRow → Prop) `{!∀ o, Decision (P o)} (db : DB) : list RowKey :=
  (λ o, OutboxKey (ob_event_id o)) <$> sql_select P (outbox (events db)).
Definition segment_rows (P : SegmentRow → Prop) `{!∀ s, Decision (P s)} (db : DB) : list RowKey :=
  (λ s, SegmentKey (sg_device_id s) (sg_segment_id s)) <$> sql_select P (outbox_segments (events db)).

(** ** auth_repository_outbox.go *)

Section transactions.
Context {E : Env}.

Definition tx_dropSegmentTail (dev seg : string) (from now : Time) (reason : string) : Tx unit :=
  tx* _ := tx_exec "drop outbox tail" (outbox_rows (λ o, ob_in dev seg o ∧ from ≤ ob_created_at o ∧ ob_live o))
             (stmt_drop_tail dev seg from reason) in
  tx_exec "clear dropped outbox segment" (segment_rows (sg_in dev seg)) (stmt_set_segment dev seg None None now).

Definition tx_scanOutboxEvent (row : option OutboxRow) : Tx OutboxEvent :=
  tx* o := tx_option (EWrap "scan outbox event" ErrNoRows) row in
  tx* payload := tx_option (EText "unmarshal outbox payload") (cbor_Unmarshal_map (ob_payload o)) in
  TxReturn (mkOutboxEvent (ob_event_id o) (ob_device_id o) (ob_segment_id o) (ob_event_type o) payload
              (ob_created_at o) (ob_expires_at o) (ob_inflight_until o) (ob_last_sent_at o) (ob_attempts o)).

(** The [SELECT ... FOR UPDATE OF s SKIP LOCKED]. *)
Definition select_unlocked (busy : list RowKey) (now : Time) (batchSize : Z) (db : DB) : list candidate :=
  to_candidate <$>
    limit batchSize (order_by (asc (λ p : SegmentRow * OutboxRow, ob_created_at p.2))
      (filter (λ p, SegmentKey (sg_device_id p.1) (sg_segment_id p.1) ∉ busy)
         (filter (λ p, ob_due now p.2) (segment_heads db)))).
Definition candidate_row (item : candidate) : RowKey := SegmentKey (cand_deviceID item) (cand_segmentID item).

Definition tx_claim_one (now : Time) (ackTimeout : Duration) (maxAttempts : Z) (item : candidate) : Tx (option OutboxEvent) :=
  if decide (cand_expiresAt item < now ∨ cand_expiresAt item = now ∨ maxAttempts < cand_attempts item + 1)
  then tx* _ := tx_dropSegmentTail (cand_deviceID item) (cand_segmentID item) (cand_createdAt item) now
                  "expired_or_attempts_exceeded" in
       TxReturn None
  else
    tx* row := TxStmt None (λ _, outbox_rows (λ o, ob_event_id o = cand_eventID item))
                 (λ _, stmt_claim (cand_eventID item) now (now + ackTimeout)) TxReturn in
    tx* event := tx_scanOutboxEvent row in
    tx* _ := tx_exec "mark segment inflight" (segment_rows (sg_in (cand_deviceID item) (cand_segmentID item)))
               (stmt_set_inflight (cand_deviceID item) (cand_segmentID item) (Some (cand_eventID item)) now) in
    TxReturn (Some event).

Definition tx_ClaimPending (now : Time) (batchSize : Z) (ackTimeout : Duration) (maxAttempts : Z) : Tx (list OutboxEvent) :=
  if decide (batchSize ≤ 0) then TxReturn [] else
  tx* candidates := TxStmt (Some "select outbox segments"%string)
        (λ busy db, candidate_row <$> select_unlocked busy now batchSize db)
        (λ busy db, inr (select_unlocked busy now batchSize db, db)) TxReturn in
  tx* claimed := tx_each candidates (tx_claim_one now ackTimeout maxAttempts) in
  TxReturn (omap id claimed).

Definition tx_AcknowledgeOutbox (now : Time) (eventID : UUID) (deviceID segmentID : string) : Tx unit :=
  tx* row := tx_query "select outbox event for ack" (λ db,
    sql_row (λ o, ob_event_id o = eventID ∧ ob_device_id o = deviceID) (outbox (events db))) in
  match row with
  | None => TxReturn tt
  | Some o =>
      let storedSegmentID := ob_segment_id o in
      if decide (segmentID ≠ "" ∧ segmentID ≠ storedSegmentID)%string then TxReturn tt else
      if decide (ob_status o = StatusAcked) then TxReturn tt else
      tx* _ := tx_exec "ack outbox event" (outbox_rows (λ o, ob_event_id o = eventID)) (stmt_ack eventID now) in
      tx* headEventID := tx_query (A := option UUID) "select outbox head" (λ db,
        default uuid_Nil ∘ sg_head_event_id <$> sql_row (sg_in deviceID storedSegmentID) (outbox_segments (events db))) in
      if decide (headEventID = Some eventID) then
        tx* nextEventID := tx_query "select next outbox head" (select_next deviceID storedSegmentID now eventID) in
        tx_exec "advance outbox head" (segment_rows (sg_in deviceID storedSegmentID))
          (stmt_set_segment deviceID storedSegmentID nextEventID None now)
      else
        tx_exec "clear non-head inflight outbox event"
          (segment_rows (λ s, sg_in deviceID storedSegmentID s ∧ sg_inflight_event_id s = Some eventID))
          (stmt_clear_inflight deviceID storedSegmentID now eventID)
  end.

End transactions.

(** ** The server *)

(** A connection in a transaction: its writes so far, the rows it has
    locked, and what is left to do. *)
Record session : Type := mkTxSession { se_writes : list (DB → DB); se_rows : list RowKey; se_tx : Tx unit }.
Definition begin (t : Tx unit) : session := mkTxSession [] [] t.

(** The committed tables and the connections. *)
Record Server : Type := mkServer { sv_db : DB; sv_sessions : list session }.

(** A statement sees what is committed and the writes of its transaction. *)
Definition view (db : DB) (s : session) : DB := foldl (λ db write, write db) db (se_writes s).

(** The rows that are locked by the connections other than [i]. *)
Definition others (i : nat) (σ : Server) : list RowKey := delete i (sv_sessions σ) ≫= se_rows.

(** The rows that the next statement locks. *)
Definition wanted (busy : list RowKey) (db : DB) (s : session) : list RowKey :=
  match se_tx s with TxStmt _ rows _ _ => rows busy (view db s) | _ => [] end.
Definition wants (i : nat) (σ : Server) : list RowKey :=
  match sv_sessions σ !! i with Some s => wanted (others i σ) (sv_db σ) s | None => [] end.

Definition waits_for (σ : Server) (i j : nat) : Prop :=
  i ≠ j ∧ ∃ s r, sv_sessions σ !! j = Some s ∧ r ∈ se_rows s ∧ r ∈ wants i σ.

(** A connection that waits for itself in a circle. *)
Definition deadlocked (σ : Server) (i : nat) : Prop := tc (waits_for σ) i i.
Definition deadlock_detected : error := EDatabase "deadlock detected".

Definition wrapped_error (wrap : option string) (e : error) : error :=
  match wrap with Some message => EWrap message e | None => e end.

(** A statement that fails ends its transaction, which drops its writes and
    its locks. *)
Definition fails (e : error) (s : session) : session :=
  match se_tx s with TxStmt wrap _ _ _ => begin (TxRaise (wrapped_error wrap e)) | _ => s end.

Definition performs (busy : list RowKey) (db : DB) (s : session) : session :=
  match se_tx s with
  | TxStmt wrap rows stmt k =>
      match stmt busy (view db s) with
      | inl e => fails e s
      | inr (b, _) =>
          mkTxSession (se_writes s ++ [λ db, match stmt busy db with inl _ => db | inr (_, db') => db' end])
            (se_rows s ++ rows busy (view db s)) (k b)
      end
  | _ => s
  end.

Definition pending (s : session) : bool := match se_tx s with TxStmt _ _ _ _ => true | _ => false end.
Definition set_session (i : nat) (s : session) (σ : Server) : Server :=
  mkServer (sv_db σ) (<[i := s]> (sv_sessions σ)).

(** What can happen next: a statement that waits for nobody is executed, a
    transaction commits, the server ends a deadlock by failing one of those
    in it, or a connection is lost. *)
Inductive locks_step (σ : Server) : Server → Prop :=
  | locks_perform i s : sv_sessions σ !! i = Some s → pending s = true → (∀ j, ¬ waits_for σ i j) →
      locks_step σ (set_session i (performs (others i σ) (sv_db σ) s) σ)
  | locks_commit i s : sv_sessions σ !! i = Some s → se_tx s = TxReturn tt → se_writes s ≠ [] →
      locks_step σ (mkServer (view (sv_db σ) s) (<[i := begin (TxReturn tt)]> (sv_sessions σ)))
  | locks_victim i s : sv_sessions σ !! i = Some s → deadlocked σ i →
      locks_step σ (set_session i (fails deadlock_detected s) σ)
  | locks_lost i s : sv_sessions σ !! i = Some s → pending s = true →
      locks_step σ (set_session i (fails connection_lost s) σ).

(** ** Alone *)

Section alone.
Context {E : Env}.

Definition wrapped {A} (wrap : option string) (m : M A) : M A :=
  match wrap with Some message => wrap_error message m | None => m end.

(** A transaction with the server to itself. *)
Fixpoint tx_run {A} (t : Tx A) : M A :=
  match t with
  | TxReturn a => ret a
  | TxRaise e => raise e
  | TxStmt wrap _ stmt k => let* b := wrapped wrap (exec InTx (stmt [])) in tx_run (k b)
  end.

Lemma tx_run_bind {A B} (t : Tx A) (k : A → Tx B) w : tx_run (tx_bind t k) w = bind (tx_run t) (λ a, tx_run (k a)) w.
Proof.
  revert w. induction t as [a|e|C wrap rows stmt k' IH]; intros w; [done|done|]. cbn. unfold bind at 1 2 3.
  destruct (wrapped _ _ w) as [[b|e|m] w']; [|done|done]. apply IH.
Qed.

Lemma tx_run_stmt {A} wrap rows stmt w : tx_run (TxStmt wrap rows stmt (@TxReturn A)) w = wrapped wrap (exec InTx (stmt [])) w.
Proof. cbn. unfold bind. by destruct (wrapped _ _ w) as [[b|e|m] w']. Qed.

Lemma tx_run_query {A : Set} message (f : DB → A) w : tx_run (tx_query message f) w = wrap_error message (query InTx f) w.
Proof. unfold tx_query. rewrite tx_run_stmt. cbn. unfold wrap_error, exec, query. by destruct (fault_at _). Qed.

Lemma tx_run_exec message rows stmt w : tx_run (tx_exec message rows stmt) w = wrap_error message (exec_ InTx stmt) w.
Proof. unfold tx_exec. by rewrite tx_run_stmt. Qed.

Lemma tx_run_each {A B} (l : list A) (body : A → Tx B) (body' : A → M B) w :
  (∀ x w, tx_run (body x) w = body' x w) → tx_run (tx_each l body) w = map_each l body' w.
Proof.
  intros Hb. revert w. induction l as [|x l IH]; intros w; [done|]. cbn. rewrite tx_run_bind. unfold bind at 1 2.
  rewrite Hb. destruct (body' x w) as [[y|e|m] w1]; [|done|done]. rewrite tx_run_bind. unfold bind. rewrite IH.
  by destruct (map_each l body' w1) as [[ys|e|m] w2].
Qed.

Lemma tx_run_option {A} e (o : option A) : tx_run (tx_option e o) = of_option e o.
Proof. by destruct o. Qed.

(** A transaction that is begun by a part that runs as [m]. *)
Lemma tx_run_then {A B} (t : Tx A) (m : M A) (k : A → Tx B) (k' : A → M B) w :
  (∀ w, tx_run t w = m w) → (∀ a w, tx_run (k a) w = k' a w) → tx_run (tx_bind t k) w = bind m k' w.
Proof.
  intros Ht Hk. rewrite tx_run_bind. unfold bind. rewrite Ht. by destruct (m w) as [[a|e|x] w'].
Qed.

Create HintDb tx_run.
#[local] Hint Resolve tx_run_query tx_run_exec tx_run_stmt : tx_run.
#[local] Hint Extern 1 (tx_run (tx_option _ _) _ = _) => rewrite tx_run_option; reflexivity : tx_run.
#[local] Hint Extern 2 (tx_run _ _ = _) => reflexivity : tx_run.
Ltac tx_run_tac := repeat (apply tx_run_then; [by auto with tx_run|intros; cbv beta]); auto with tx_run.

Lemma tx_run_dropSegmentTail dev seg from now reason w :
  tx_run (tx_dropSegmentTail dev seg from now reason) w = dropSegmentTail InTx dev seg from now reason w.
Proof. unfold tx_dropSegmentTail, dropSegmentTail. tx_run_tac. Qed.

Lemma tx_run_scan row w : tx_run (tx_scanOutboxEvent row) w = scanOutboxEvent row w.
Proof. unfold tx_scanOutboxEvent, scanOutboxEvent. tx_run_tac. Qed.
#[local] Hint Resolve tx_run_dropSegmentTail tx_run_scan : tx_run.

Lemma tx_run_claim_one now ackTimeout maxAttempts item w :
  tx_run (tx_claim_one now ackTimeout maxAttempts item) w = claim_one InTx now ackTimeout maxAttempts item w.
Proof. unfold tx_claim_one, claim_one. case_decide; tx_run_tac. Qed.

Lemma select_unlocked_alone now batchSize db : select_unlocked [] now batchSize db = select_candidates now batchSize db.
Proof.
  unfold select_unlocked, select_candidates. do 3 f_equal. generalize (filter (λ p, ob_due now p.2) (segment_heads db)).
  intros l. induction l as [|p l IH]; [done|]. rewrite filter_cons_True by apply not_elem_of_nil. by rewrite IH.
Qed.

(** Run alone, the transactions are the methods of the repository. *)
Lemma tx_run_ClaimPending now batchSize ackTimeout maxAttempts w :
  tx_run (tx_ClaimPending now batchSize ackTimeout maxAttempts) w = ClaimPending InTx now batchSize ackTimeout maxAttempts w.
Proof.
  unfold tx_ClaimPending, ClaimPending. case_decide; [done|]. apply tx_run_then.
  - intros w'. rewrite tx_run_stmt. cbn. unfold wrap_error, exec, query. rewrite select_unlocked_alone.
    by destruct (fault_at _).
  - intros candidates w'. apply tx_run_then; [|done]. intros w1. apply tx_run_each. apply tx_run_claim_one.
Qed.

Lemma tx_run_AcknowledgeOutbox now eventID deviceID segmentID w :
  tx_run (tx_AcknowledgeOutbox now eventID deviceID segmentID) w = AcknowledgeOutbox InTx now eventID deviceID segmentID w.
Proof.
  unfold tx_AcknowledgeOutbox, AcknowledgeOutbox. apply tx_run_then; [by auto with tx_run|]. intros [o|] w1; [|done].
  cbv zeta. case_decide; [done|]. case_decide; [done|]. do 2 (apply tx_run_then; [by auto with tx_run|intros]).
  case_decide; tx_run_tac.
Qed.
End alone.
