(* ===== verification/OutboxDeadlock.v ===== *)
(** * OutboxDeadlock: which outbox transactions wait for each other

    Transactions that lock rows in the order of a rank never form a circle
    ([climbing_never_deadlocks]).  Acknowledgements do: each locks its event
    and then its segment.  The claim of the dispatcher locks the segments
    first and their events later, and can end in a deadlock with the
    acknowledgement of an event that is due. *)

From Stdlib Require Import ZArith.
From S2P Require Import Prelude GoLib GoTime Domain Database Effects OutboxRepo OutboxInv OutboxService OutboxSpec.
From S2P Require Import OutboxLocks.

Local Open Scope Z_scope.

(** ** Locking in order *)

Section ranked.
Variable rank : RowKey → nat.

(** Every statement to come locks rows above [n] and above those locked
    before it. *)
Fixpoint climbs {A} (n : nat) (t : Tx A) : Prop :=
  match t with
  | TxStmt _ rows _ k =>
      ∃ m, (n ≤ m)%nat ∧ (∀ busy db r, r ∈ rows busy db → (n < rank r ≤ m)%nat) ∧ ∀ b, climbs m (k b)
  | _ => True
  end.

Definition in_rank (s : session) : Prop :=
  ∃ n, (∀ r, r ∈ se_rows s → (rank r ≤ n)%nat) ∧ climbs n (se_tx s).
Definition climbing (σ : Server) : Prop := ∀ i s, sv_sessions σ !! i = Some s → in_rank s.

Lemma in_rank_begin t : climbs 0 t → in_rank (begin t).
Proof. intros Ht. exists 0%nat. split; [by intros r ?%not_elem_of_nil|done]. Qed.

Lemma in_rank_fails e s : in_rank s → in_rank (fails e s).
Proof. unfold fails. intros Hs. destruct (se_tx s) eqn:Et; [done|done|]. by apply in_rank_begin. Qed.

Lemma in_rank_performs busy db s : in_rank s → in_rank (performs busy db s).
Proof.
  intros Hs. unfold performs. destruct (se_tx s) as [a|e|B wrap rows stmt k] eqn:Et; [done|done|].
  destruct (stmt _ _) as [e|[b db']]; [by apply in_rank_fails|].
  destruct Hs as (n & Hn & Ht). rewrite Et in Ht. destruct Ht as (m & Hle & Hr & Hk).
  exists m. split; [|apply Hk]. intros r [Hin|Hin]%elem_of_app; [specialize (Hn r Hin); lia|].
  apply Hr in Hin. lia.
Qed.

Lemma locks_step_climbing σ σ' : locks_step σ σ' → climbing σ → climbing σ'.
Proof.
  intros Hstep Hc.
  assert (∀ i s db, in_rank s → climbing (mkServer db (<[i := s]> (sv_sessions σ)))) as Hset.
  { intros i s db Hs j s' [(-> & <- & _)|[_ Hj]]%list_lookup_insert_Some; [done|]. by eapply Hc. }
  destruct Hstep as [i s Hi _ _|i s Hi _ _|i s Hi _|i s Hi _]; apply Hset.
  - apply in_rank_performs. by eapply Hc.
  - by apply in_rank_begin.
  - apply in_rank_fails. by eapply Hc.
  - apply in_rank_fails. by eapply Hc.
Qed.

(** Who is waited for wants only rows above the one that is waited for. *)
Lemma waits_up σ i j : climbing σ → waits_for σ i j →
  ∃ r, r ∈ wants i σ ∧ ∀ r', r' ∈ wants j σ → (rank r < rank r')%nat.
Proof.
  intros Hc (_ & s & r & Hj & Hr & Hw). exists r. split; [done|]. intros r' Hr'. unfold wants, wanted in Hr'. rewrite Hj in Hr'.
  destruct (Hc j s Hj) as (n & Hn & Ht). specialize (Hn r Hr).
  destruct (se_tx s); [by apply not_elem_of_nil in Hr'..|]. destruct Ht as (m & _ & Hm & _). apply Hm in Hr'. lia.
Qed.

Lemma circle_up σ i j : climbing σ → tc (waits_for σ) i j →
  ∃ r, r ∈ wants i σ ∧ ∀ r', r' ∈ wants j σ → (rank r < rank r')%nat.
Proof.
  intros Hc. induction 1 as [i j Hw|i j k Hw _ (r' & Hr' & Hup')]; [by apply waits_up|].
  destruct (waits_up σ i j Hc Hw) as (r & Hr & Hup). exists r. split; [done|]. intros r2 Hr2.
  specialize (Hup r' Hr'). specialize (Hup' r2 Hr2). lia.
Qed.

Lemma climbing_never_deadlocks σ0 σ i : climbing σ0 → rtc locks_step σ0 σ → ¬ deadlocked σ i.
Proof.
  intros Hc Hrun Hd. assert (climbing σ) as Hcσ by (clear Hd; induction Hrun; eauto using locks_step_climbing).
  destruct (circle_up σ i i Hcσ Hd) as (r & Hr & Hup). specialize (Hup r Hr). lia.
Qed.

Lemma climbs_query {A : Set} {B} n message (f : DB → A) (k : A → Tx B) :
  (∀ a, climbs n (k a)) → climbs n (tx_bind (tx_query message f) k).
Proof. intros Hk. exists n. split_and!; [lia|by intros _ _ r ?%not_elem_of_nil|exact Hk]. Qed.

Lemma climbs_exec {A} n m message rows stmt (k : unit → Tx A) :
  (∀ db r, r ∈ rows db → rank r = m) → (n < m)%nat → climbs m (k tt) →
  climbs n (tx_bind (tx_exec message rows stmt) k).
Proof. intros Hr Hnm Hk. exists m. split_and!; [lia|intros _ db r ->%Hr; lia|by intros []]. Qed.
End ranked.

(** An event before its segment. *)
Definition event_first (r : RowKey) : nat := match r with OutboxKey _ => 1 | SegmentKey _ _ => 2 end.

Lemma outbox_rows_rank P `{!∀ o, Decision (P o)} db r : r ∈ outbox_rows P db → event_first r = 1%nat.
Proof. by intros (o & -> & _)%list_elem_of_fmap. Qed.
Lemma segment_rows_rank P `{!∀ s, Decision (P s)} db r : r ∈ segment_rows P db → event_first r = 2%nat.
Proof. by intros (o & -> & _)%list_elem_of_fmap. Qed.

Section deadlock.
Context {E : Env}.

Lemma acknowledgement_climbs now id dev seg : climbs event_first 0 (tx_AcknowledgeOutbox now id dev seg).
Proof.
  unfold tx_AcknowledgeOutbox. apply climbs_query. intros [o|]; [|done]. cbv zeta. case_decide; [done|]. case_decide; [done|].
  apply (climbs_exec _ _ 1%nat); [intros; by eapply outbox_rows_rank|lia|]. apply climbs_query. intros hd. case_decide.
  - apply climbs_query. intros next. exists 2%nat.
    split_and!; [lia|intros _ db r ->%segment_rows_rank; lia|done].
  - exists 2%nat. split_and!; [lia|intros _ db r ->%segment_rows_rank; lia|done].
Qed.

(** Acknowledgements never wait for each other in a circle.  Let any
    number of clients acknowledge any events at any times, each in its own
    transaction, with the statements in any order and connections lost
    anywhere.  In every state that this reaches no transaction is part of a
    deadlock: an acknowledgement that holds an event waits at most for a
    segment, and who holds a segment waits for nothing. *)
Lemma acknowledgements_never_deadlock (acks : list (Time * UUID * string * string)) db σ i :
  rtc locks_step (mkServer db ((λ '(now, id, dev, seg), begin (tx_AcknowledgeOutbox now id dev seg)) <$> acks)) σ →
  ¬ deadlocked σ i.
Proof.
  apply climbing_never_deadlocks with (rank := event_first). intros j s Hj. cbn in Hj. rewrite list_lookup_fmap in Hj.
  destruct (acks !! j) as [[[[now id] dev] seg]|]; [|done]. injection Hj as <-. apply in_rank_begin, acknowledgement_climbs.
Qed.

(** ** A claim and an acknowledgement *)

(** A failed connection: the transaction is over, its writes and locks are gone. *)
Definition failed (e : error) (s : session) : Prop := ∃ e', s = begin (TxRaise e') ∧ Is e' e = true.

Lemma fails_failed e s : pending s = true → failed e (fails e s).
Proof.
  unfold pending, fails. destruct (se_tx s) as [| |B wrap rows stmt k]; [done..|]. intros _. eexists. split; [done|].
  assert (Is e e = true) as He by (destruct e; cbn; by rewrite bool_decide_eq_true_2).
  destruct wrap; cbn; [|done]. by rewrite He, orb_true_r.
Qed.

(** Two connections. *)
Definition pair_server (db : DB) (s0 s1 : session) : Server := mkServer db [s0; s1].

Lemma pair_waits db s0 s1 i j :
  waits_for (pair_server db s0 s1) i j ↔
  (i = 0%nat ∧ j = 1%nat ∧ ∃ r, r ∈ se_rows s1 ∧ r ∈ wants 0 (pair_server db s0 s1))
  ∨ (i = 1%nat ∧ j = 0%nat ∧ ∃ r, r ∈ se_rows s0 ∧ r ∈ wants 1 (pair_server db s0 s1)).
Proof.
  split.
  - intros (Hne & s & r & Hj & Hr & Hw). destruct j as [|[|j]]; cbn in Hj; [| |done]; injection Hj as <-.
    + destruct i as [|[|i]]; [done| |by apply not_elem_of_nil in Hw]. right. eauto.
    + destruct i as [|[|i]]; [|done|by apply not_elem_of_nil in Hw]. left. eauto.
  - intros [(-> & -> & r & Hr & Hw)|(-> & -> & r & Hr & Hw)]; (split; [done|]); eauto.
Qed.

Lemma pair_first db s0 s1 :
  pending s0 = true → (∀ r, r ∈ se_rows s1 → r ∉ wants 0 (pair_server db s0 s1)) →
  locks_step (pair_server db s0 s1) (pair_server db (performs (others 0 (pair_server db s0 s1)) db s0) s1).
Proof.
  intros Hp Hfree. apply (locks_perform (pair_server db s0 s1) 0 s0); [done|done|].
  by intros j [(_ & _ & r & Hr & ?%(Hfree r Hr))|(? & _)]%pair_waits.
Qed.

Lemma pair_second db s0 s1 :
  pending s1 = true → (∀ r, r ∈ se_rows s0 → r ∉ wants 1 (pair_server db s0 s1)) →
  locks_step (pair_server db s0 s1) (pair_server db s0 (performs (others 1 (pair_server db s0 s1)) db s1)).
Proof.
  intros Hp Hfree. apply (locks_perform (pair_server db s0 s1) 1 s1); [done|done|].
  by intros j [(? & _)|(_ & _ & r & Hr & ?%(Hfree r Hr))]%pair_waits.
Qed.

(** When both wait, a transaction fails before anything else happens, and
    either may be the one. *)
Lemma pair_stuck db s0 s1 σ' :
  pending s0 = true → pending s1 = true →
  waits_for (pair_server db s0 s1) 0 1 → waits_for (pair_server db s0 s1) 1 0 →
  locks_step (pair_server db s0 s1) σ' →
  ∃ i s e, sv_sessions σ' !! i = Some s ∧ failed e s ∧ (e = deadlock_detected ∨ e = connection_lost).
Proof.
  intros Hp0 Hp1 H01 H10 Hstep.
  assert (∀ i s, sv_sessions (pair_server db s0 s1) !! i = Some s →
            pending s = true ∧ (∃ j, waits_for (pair_server db s0 s1) i j) ∧ (i < 2)%nat) as Hall.
  { intros [|[|i]] s Hi; cbn in Hi; [injection Hi as <-..|done]; (split_and!; [done|by eexists|lia]). }
  destruct Hstep as [i s Hi _ Hfree|i s Hi Ht _|i s Hi _|i s Hi _]; destruct (Hall i s Hi) as (Hp & [j Hj] & Hlt).
  - by destruct (Hfree j).
  - unfold pending in Hp. by rewrite Ht in Hp.
  - exists i, (fails deadlock_detected s), deadlock_detected.
    split_and!; [by apply list_lookup_insert_eq|by apply fails_failed|by left].
  - exists i, (fails connection_lost s), connection_lost.
    split_and!; [by apply list_lookup_insert_eq|by apply fails_failed|by right].
Qed.

Lemma performs_query {A : Set} busy db ws rows message (f : DB → A) k :
  performs busy db (mkTxSession ws rows (tx_bind (tx_query message f) k))
  = mkTxSession (ws ++ [λ db, db]) (rows ++ []) (k (f (view db (mkTxSession ws rows (TxReturn tt))))).
Proof. done. Qed.

(** What the acknowledgement does before it writes the segment. *)
Lemma acknowledgement_reaches_segment t id dev S seg db s0 o sg :
  db_wf db → o ∈ outbox (events db) → ob_event_id o = id → ob_in dev S o → ob_status o ≠ StatusAcked →
  sg ∈ outbox_segments (events db) → sg_in dev S sg → sg_head_event_id sg = Some id →
  seg = ""%string ∨ seg = S → (∀ i, OutboxKey i ∉ se_rows s0) →
  ∃ s1, rtc locks_step (pair_server db s0 (begin (tx_AcknowledgeOutbox t id dev seg))) (pair_server db s0 s1)
    ∧ pending s1 = true ∧ OutboxKey id ∈ se_rows s1 ∧ ∀ busy, SegmentKey dev S ∈ wanted busy db s1.
Proof.
  intros Hwf Ho Hid [Hdev HS] Hst Hsg Hin Hh Hseg Hfree.
  eexists. split.
  - eapply rtc_l.
    { apply pair_second; [done|]. by intros r _ ?%not_elem_of_nil. }
    unfold begin, tx_AcknowledgeOutbox. rewrite performs_query. cbv beta. unfold view at 1. cbn [se_writes foldl app].
    assert (sql_row (λ o, ob_event_id o = id ∧ ob_device_id o = dev) (outbox (events db)) = Some o) as ->.
    { destruct (sql_row _ _) as [o'|] eqn:Er; [|by rewrite sql_row_None in Er; destruct (Er o Ho)].
      apply sql_row_Some in Er as (Ho' & Hid' & _). f_equal. apply (event_unique _ _ _ Hwf); [done|done|congruence]. }
    cbv beta iota zeta. rewrite HS, decide_False by (intros [? ?]; by destruct Hseg as [->| ->]).
    rewrite decide_False by done.
    eapply rtc_l.
    { apply pair_second; [done|]. intros r Hr (o' & -> & _)%list_elem_of_fmap. by destruct (Hfree (ob_event_id o')). }
    cbn. eapply rtc_l; [apply pair_second; [done|by intros r _ ?%not_elem_of_nil]|]. cbn.
    assert (sql_row (sg_in dev S) (outbox_segments (events db)) = Some sg) as ->.
    { destruct (sql_row _ _) as [s'|] eqn:Er; [|by rewrite sql_row_None in Er; destruct (Er sg Hsg)].
      apply sql_row_Some in Er as [Hs' Hin']. by rewrite (segment_unique _ dev S s' sg Hwf). }
    cbn. rewrite Hh. cbn. rewrite decide_True by done.
    eapply rtc_l; [apply pair_second; [done|by intros r _ ?%not_elem_of_nil]|]. cbn. apply rtc_refl.
  - split_and!; [done| |].
    + rewrite !app_nil_r. apply list_elem_of_fmap. exists o. rewrite Hid. split; [done|].
      by apply list_elem_of_filter.
    + intros busy. apply list_elem_of_fmap. exists sg. destruct Hin as [<- <-]. split; [done|].
      by apply list_elem_of_filter.
Qed.

(** What the claim does before it writes the event of its first candidate. *)
Definition dispatch_tx (now : Time) (batchSize : Z) (ackTimeout : Duration) (maxAttempts : Z) : Tx unit :=
  tx* _ := tx_ClaimPending now batchSize ackTimeout maxAttempts in TxReturn tt.

Lemma claim_reaches_event now batchSize ackTimeout maxAttempts db c rest s1 :
  0 < batchSize → select_candidates now batchSize db = c :: rest → se_rows s1 = [] →
  ∃ s0, locks_step (pair_server db (begin (dispatch_tx now batchSize ackTimeout maxAttempts)) s1) (pair_server db s0 s1)
    ∧ pending s0 = true ∧ se_rows s0 = candidate_row <$> c :: rest
    ∧ ∀ busy o, o ∈ outbox (events db) → ob_event_id o = cand_eventID c → ob_in (cand_deviceID c) (cand_segmentID c) o →
        ob_created_at o = cand_createdAt c → ob_live o → OutboxKey (cand_eventID c) ∈ wanted busy db s0.
Proof.
  intros Hb Hc Hs1. eexists. split.
  - apply pair_first; [|rewrite Hs1; by intros r ?%not_elem_of_nil].
    unfold dispatch_tx, tx_ClaimPending. by rewrite decide_False by lia.
  - assert (others 0 (pair_server db (begin (dispatch_tx now batchSize ackTimeout maxAttempts)) s1) = []) as ->.
    { unfold others. cbn. by rewrite Hs1. }
    unfold dispatch_tx, tx_ClaimPending. rewrite decide_False by lia.
    cbn. rewrite select_unlocked_alone, Hc. cbn. unfold tx_claim_one. case_decide; (split_and!; [done|done|]).
    + intros busy o Ho Hid Hin Hage Hl. apply list_elem_of_fmap. exists o. rewrite Hid. split; [done|].
      apply list_elem_of_filter. by rewrite Hage.
    + intros busy o Ho Hid _ _ _. apply list_elem_of_fmap. exists o. rewrite Hid. split; [done|].
      by apply list_elem_of_filter.
Qed.

(** C22: The claim of the dispatcher and an acknowledgement take their locks
    in opposite orders and can deadlock.  Let the oldest head that is due be
    undelivered, and let a client acknowledge it while the dispatcher claims
    it, with or without the name of its segment.  Then a schedule leads to a
    state in which the claim waits for the event that the acknowledgement has
    updated, and the acknowledgement for the segment that the claim has
    locked.  From there one of them fails before anything else happens, and
    it may be the dispatcher, whose error ends the process. *)
Theorem acknowledgement_deadlocks_dispatch now batchSize ackTimeout maxAttempts t seg db c rest :
  0 < batchSize → db_wf db → select_candidates now batchSize db = c :: rest →
  cand_status c = StatusPending ∨ cand_status c = StatusInFlight →
  seg = ""%string ∨ seg = cand_segmentID c →
  ∃ dispatch ack,
    let σ := pair_server db dispatch ack in
    rtc locks_step (pair_server db (begin (dispatch_tx now batchSize ackTimeout maxAttempts))
                       (begin (tx_AcknowledgeOutbox t (cand_eventID c) (cand_deviceID c) seg))) σ
    ∧ waits_for σ 0 1 ∧ waits_for σ 1 0
    ∧ (∀ σ', locks_step σ σ' →
         ∃ i s e, sv_sessions σ' !! i = Some s ∧ failed e s ∧ (e = deadlock_detected ∨ e = connection_lost))
    ∧ ∃ victim, failed deadlock_detected victim ∧ locks_step σ (pair_server db victim ack).
Proof.
  intros Hb Hwf Hc Hst Hseg.
  destruct (select_candidates_inv now batchSize db c) as (sg & o & -> & Hsg & Ho & Hh & _); [rewrite Hc; left|].
  cbn [to_candidate cand_eventID cand_deviceID cand_segmentID cand_status] in *.
  pose proof (wf_head_in _ Hwf sg _ o Hsg Hh Ho eq_refl) as Hin.
  destruct (claim_reaches_event now batchSize ackTimeout maxAttempts db (to_candidate (sg, o)) rest
              (begin (tx_AcknowledgeOutbox t (ob_event_id o) (sg_device_id sg) seg)) Hb Hc eq_refl)
    as (s0 & Hstep & Hp0 & Hrows & Hwants).
  destruct (acknowledgement_reaches_segment t (ob_event_id o) (sg_device_id sg) (sg_segment_id sg) seg db s0 o sg)
    as (s1 & Hrun & Hp1 & Hheld & Hwanted); [done|done|done|done| |done|done|done|done| |].
  { intros Ha. rewrite Ha in Hst. by destruct Hst. }
  { intros i Hi. rewrite Hrows in Hi. by apply list_elem_of_fmap in Hi as (? & ? & _). }
  assert (waits_for (pair_server db s0 s1) 0 1) as H01.
  { apply pair_waits. left. split_and!; [done..|]. exists (OutboxKey (ob_event_id o)). split; [done|]. by apply (Hwants _ o). }
  assert (waits_for (pair_server db s0 s1) 1 0) as H10.
  { apply pair_waits. right. split_and!; [done..|]. exists (SegmentKey (sg_device_id sg) (sg_segment_id sg)).
    split; [rewrite Hrows; left|apply Hwanted]. }
  exists s0, s1. cbv zeta. split_and!; [by eapply rtc_l|done|done|intros σ'; by apply pair_stuck|].
  exists (fails deadlock_detected s0). split; [by apply fails_failed|].
  apply (locks_victim (pair_server db s0 s1) 0 s0); [done|]. eapply tc_l; [exact H01|by apply tc_once].
Qed.
End deadlock.
