(* ===== verification/OutboxLife.v ===== *)
(** * OutboxLife: the life of an outbox row

    The abstract life of an event in the outbox of a device - queued, sent
    and sent again, acknowledged or dropped, retired - and the theorem that
    every operation of the program, failed statements included, moves every
    row along it. *)

From Stdlib Require Import ZArith.
From S2P Require Import Prelude GoLib GoTime Domain Database Effects OutboxRepo OutboxInv OutboxService.
From S2P Require Import OutboxSpec OutboxOrder OutboxReach.

Local Open Scope Z_scope.

(** ** The abstract life *)

(** An event as it is queued. *)
Definition new_row (o : OutboxRow) : Prop :=
  ob_status o = StatusPending ∧ ob_attempts o = 0 ∧ ob_inflight_until o = None ∧ ob_acked_at o = None
  ∧ ob_last_sent_at o = None.

(** Why an event is given up: an event of its segment that is not younger
    has expired or was sent as often as is allowed. *)
Definition doomed (cfg : OutboxConfig) (now : Time) (rows : list OutboxRow) (o : OutboxRow) : Prop :=
  ∃ hd, hd ∈ rows ∧ ob_in (ob_device_id o) (ob_segment_id o) hd ∧ ob_created_at hd ≤ ob_created_at o
    ∧ (ob_expires_at hd ≤ now ∨ MaxAttempts cfg < ob_attempts hd + 1).

(** What happens to an event at an instant, among the rows there were. *)
Inductive row_step (cfg : OutboxConfig) (now : Time) (rows : list OutboxRow) : OutboxRow → OutboxRow → Prop :=
  | row_claimed o :
      ob_live o → ob_due now o → now < ob_expires_at o → ob_attempts o + 1 ≤ MaxAttempts cfg →
      row_step cfg now rows o (ob_set_claimed now (now + AckTimeout cfg) o)
  | row_acked o : ob_status o ≠ StatusAcked → row_step cfg now rows o (ob_set_acked now o)
  | row_dropped o reason :
      ob_live o → doomed cfg now rows o → row_step cfg now rows o (ob_set_dropped reason o).

(** An event that the janitor may delete. *)
Definition retired (cfg : OutboxConfig) (now : Time) (o : OutboxRow) : Prop :=
  let finished := default (ob_expires_at o) (ob_acked_at o) in
  (ob_status o = StatusAcked ∧ finished ≤ now - AckRetention cfg)
  ∨ (ob_status o = StatusDropped ∧ finished ≤ now - DropRetention cfg).

(** What every row of a reachable outbox satisfies. *)
Record row_ok (cfg : OutboxConfig) (o : OutboxRow) : Prop := {
  ro_attempts : 0 ≤ ob_attempts o ≤ MaxAttempts cfg;
  ro_pending : ob_status o = StatusPending → ob_attempts o = 0 ∧ ob_last_sent_at o = None;
  ro_inflight : ob_status o = StatusInFlight → 0 < ob_attempts o ∧ is_Some (ob_last_sent_at o);
  ro_sent : is_Some (ob_last_sent_at o) ↔ 0 < ob_attempts o;
  ro_acked : ob_status o = StatusAcked ↔ is_Some (ob_acked_at o) }.

Lemma live_not_final o : ob_live o → ob_status o ≠ StatusAcked ∧ ob_status o ≠ StatusDropped.
Proof. unfold ob_live, StatusAcked, StatusDropped, StatusPending, StatusInFlight. lia. Qed.

Lemma row_ok_new cfg o : 0 ≤ MaxAttempts cfg → new_row o → row_ok cfg o.
Proof.
  intros Hmax (Est & Ea & _ & Eack & El). constructor; rewrite ?Est, ?Ea, ?Eack, ?El; done.
Qed.

Lemma row_ok_step cfg now rows o o' : row_step cfg now rows o o' → row_ok cfg o → row_ok cfg o'.
Proof.
  intros [o1 Hlive Hdue He Ha|o1 Hst|o1 reason Hlive Hd] [R1 R2 R3 R4 R5].
  - constructor; cbn; [lia|done|intros _; split; [lia|by eexists]|split; [lia|by eexists]|].
    split; [done|]. intros Hack%R5. by destruct (live_not_final _ Hlive).
  - constructor; cbn; [done|done|done|done|]. split; [by eexists|done].
  - constructor; cbn; [done|done|done|done|]. split; [done|]. intros Hack%R5. by destruct (live_not_final _ Hlive).
Qed.

(** ** Statements *)

Section evolves.
Context (cfg : OutboxConfig) (now : Time) (rows : list OutboxRow).

(** Since [rows], rows have moved, none came and none went. *)
Definition evolves (db : DB) : Prop :=
  (∀ o, o ∈ rows → ∃ o', o' ∈ outbox (events db) ∧ rtc (row_step cfg now rows) o o')
  ∧ ∀ o', o' ∈ outbox (events db) → ∃ o, o ∈ rows ∧ rtc (row_step cfg now rows) o o'.

Lemma evolves_same db db' : outbox (events db') = outbox (events db) → evolves db → evolves db'.
Proof. unfold evolves. by intros ->. Qed.

Lemma evolves_refl db : rows = outbox (events db) → evolves db.
Proof. intros Hr. unfold evolves. rewrite <- Hr. split; intros o Ho; exists o; (split; [done|apply rtc_refl]). Qed.

Lemma evolves_update P `{!∀ o, Decision (P o)} f db :
  (∀ o, o ∈ outbox (events db) → P o → row_step cfg now rows o (f o)) →
  evolves db → evolves (set_outbox (sql_update P f (outbox (events db))) db).
Proof.
  intros Hf [H1 H2]. split; simpl.
  - intros o (o1 & Ho1 & Hs)%H1. exists (if decide (P o1) then f o1 else o1).
    split; [apply elem_of_sql_update; exists o1; split; [done|]; case_decide; auto|].
    case_decide; [|done]. eapply rtc_r; [exact Hs|]. by apply Hf.
  - intros o' (o1 & Ho1 & Hcase)%elem_of_sql_update. destruct (H2 o1 Ho1) as (o & Ho & Hs). exists o.
    split; [done|]. destruct Hcase as [[HP ->]|[_ ->]]; [|done]. eapply rtc_r; [exact Hs|]. by apply Hf.
Qed.

Lemma evolves_drop dev seg from reason db db' :
  (∃ hd, hd ∈ rows ∧ ob_in dev seg hd ∧ ob_created_at hd = from
     ∧ (ob_expires_at hd ≤ now ∨ MaxAttempts cfg < ob_attempts hd + 1)) →
  stmt_drop_tail dev seg from reason db = inr db' → evolves db → evolves db'.
Proof.
  intros (hd & Hhd & Hin & <- & Hwhy) [= <-]. apply evolves_update.
  intros o Ho ([<- <-] & Hfrom & Hlive). constructor; [done|]. exists hd. by split_and!.
Qed.

Context {E : Env}.

Lemma dropSegmentTail_evolves c dev seg from reason :
  (∃ hd, hd ∈ rows ∧ ob_in dev seg hd ∧ ob_created_at hd = from
     ∧ (ob_expires_at hd ≤ now ∨ MaxAttempts cfg < ob_attempts hd + 1)) →
  preserves evolves (dropSegmentTail c dev seg from now reason).
Proof.
  intros Hhd. unfold dropSegmentTail. apply preserves_bind; [|intros u].
  - apply preserves_wrap_error, preserves_exec_. intros db db' Hev Heq. by eapply evolves_drop.
  - apply preserves_wrap_error, preserves_exec_. intros db db' Hev [= <-]. by eapply evolves_same.
Qed.

(** A candidate that was selected from the rows. *)
Definition selected (due : OutboxRow → Prop) (y : candidate) : Prop :=
  ∃ s hd, y = to_candidate (s, hd) ∧ hd ∈ rows ∧ ob_in (cand_deviceID y) (cand_segmentID y) hd ∧ due hd.

Lemma claim_one_evolves x rest :
  cand_key x ∉ cand_key <$> rest → selected (λ _, True) x →
  hoare (λ db, ready now (x :: rest) db ∧ evolves db) (claim_one InTx now (AckTimeout cfg) (MaxAttempts cfg) x)
    (λ _ db, ready now rest db ∧ evolves db) (λ _, True).
Proof.
  intros Hx Hsel.
  eapply (hoare_both _ (λ db, ready now (x :: rest) db ∧ ∀ p : candidate * OutboxEvent, p ∈ [] → _)
            (λ db, ready now (x :: rest) db ∧ evolves db) _ _ _ (λ _, evolves) _ (λ _, True));
    [apply (claim_one_step now (AckTimeout cfg) (MaxAttempts cfg) x rest []); [done|set_solver]| | |].
  2: { intros db [Hr He]. split; [split; [done|by intros p Hp%not_elem_of_nil]|done]. }
  2: { intros r db (Hr & _) He. by split. }
  unfold claim_one. case_decide as Hd.
  - eapply (hoare_conseq _ evolves); [apply preserves_hoare|by intros db [_ ?]|done|done].
    apply preserves_bind; [|intros; apply preserves_ret].
    apply dropSegmentTail_evolves. destruct Hsel as (s & hd & -> & Hhd & Hin & _). exists hd.
    split_and!; [done|done|done|]. simpl in *. lia.
  - apply (hoare_bind _ _ _ (λ _, evolves)).
    + apply hoare_exec; [done|]. intros db row db' [(Hwf & Hok & Hc) Hev] Heq.
      destruct (Hc x) as (s & o & Hy & Hdue & Ho & Hin); [apply elem_of_cons; by left|].
      injection Heq as _ <-. apply evolves_update; [|done]. intros o1 Ho1 Hid.
      assert (o1 = o) as -> by (apply (event_unique _ _ _ Hwf); [done|done|by subst x]).
      subst x. simpl in *. constructor; [|done|lia|lia]. destruct Hdue as [?|[[? _]|[? _]]]; [lia|by left|by right].
    + intros row. eapply (hoare_conseq _ evolves); [apply preserves_hoare|done|done|done].
      apply preserves_bind; [apply scanOutboxEvent_preserves|intros ev].
      apply preserves_bind; [|intros; apply preserves_ret].
      apply preserves_wrap_error, preserves_exec_. intros db db' Hev [= <-]. by eapply evolves_same.
Qed.

Lemma claim_loop_evolves l :
  NoDup (cand_key <$> l) → (∀ y, y ∈ l → selected (λ _, True) y) →
  hoare (λ db, ready now l db ∧ evolves db) (map_each l (claim_one InTx now (AckTimeout cfg) (MaxAttempts cfg)))
    (λ _, evolves) (λ _, True).
Proof.
  induction l as [|x l IH]; simpl; intros Hnd Hsel; [by apply hoare_ret; intros db [_ ?]|].
  apply NoDup_cons in Hnd as [Hx Hl].
  eapply hoare_bind; [apply claim_one_evolves; [done|apply Hsel, elem_of_cons; by left]|]. intros r.
  eapply hoare_bind; [apply IH; [done|intros y Hy; apply Hsel, elem_of_cons; by right]|].
  intros rs. by apply hoare_ret.
Qed.

Lemma selected_heads P `{!∀ p, Decision (P p)} n db y :
  db_wf db → rows = outbox (events db) →
  y ∈ to_candidate <$> limit n (order_by (asc (λ p : SegmentRow * OutboxRow, ob_created_at p.2))
                                  (filter P (segment_heads db))) →
  ∃ s hd, y = to_candidate (s, hd) ∧ P (s, hd) ∧ hd ∈ rows ∧ ob_in (cand_deviceID y) (cand_segmentID y) hd.
Proof.
  intros Hwf Hrows ([s hd] & -> & Hy)%list_elem_of_fmap.
  apply elem_of_limit, elem_of_order_by, list_elem_of_filter in Hy as [HP Hp].
  apply elem_of_segment_heads in Hp as (Hs & Hhd & Hh). exists s, hd.
  split_and!; [done|done|by rewrite Hrows|]. by eapply (wf_head_in _ Hwf).
Qed.

Lemma ClaimPending_evolves batch :
  hoare (λ db, db_wf db ∧ rows = outbox (events db))
    (ClaimPending InTx now batch (AckTimeout cfg) (MaxAttempts cfg)) (λ _, evolves) (λ _, True).
Proof.
  unfold ClaimPending. case_decide; [apply hoare_ret; intros db [_ ?]; by apply evolves_refl|].
  eapply hoare_bind; [by apply hoare_wrap_error, hoare_query|]. intros l.
  apply (hoare_bind _ _ _ (λ _, evolves)); [|by intros; apply hoare_ret].
  intros w [[Hwf Hrows] ->].
  destruct (select_candidates_ready now batch (w_db w) Hwf) as [Hnd Hready].
  apply (claim_loop_evolves _ Hnd); [|split; [done|by apply evolves_refl]].
  intros y Hy. destruct (selected_heads (λ p, ob_due now p.2) batch (w_db w) y Hwf Hrows Hy)
    as (s & hd & -> & _ & Hhd & Hin). by exists s, hd.
Qed.

Lemma DropExpiredHeads_evolves c batch :
  hoare (λ db, db_wf db ∧ rows = outbox (events db)) (DropExpiredHeads c now batch) (λ _, evolves) evolves.
Proof.
  unfold DropExpiredHeads. eapply hoare_bind.
  { apply hoare_wrap_error, hoare_query. intros db [_ ?]. by apply evolves_refl. }
  intros l. apply (hoare_bind _ _ _ (λ _, evolves)); [|by intros; apply hoare_ret].
  intros w [[Hwf Hrows] ->]. revert w Hwf Hrows.
  assert (∀ l : list candidate, (∀ y, y ∈ l → selected (λ hd, ob_expires_at hd ≤ now) y) →
    preserves evolves (for_each l (λ h, dropSegmentTail c (cand_deviceID h) (cand_segmentID h) (cand_createdAt h) now
      "expired_head"))) as Hloop.
  { intros l' Hl. apply preserves_for_each. intros y (s & hd & -> & Hhd & Hin & He)%Hl.
    apply dropSegmentTail_evolves. exists hd. split_and!; [done|done|done|by left]. }
  intros w Hwf Hrows. apply preserves_hoare; [|by apply evolves_refl]. apply Hloop. intros y Hy.
  destruct (selected_heads (λ p, ob_expires_at p.2 ≤ now) batch (w_db w) y Hwf Hrows Hy)
    as (s & hd & -> & He & Hhd & Hin). by exists s, hd.
Qed.

Lemma AcknowledgeOutbox_evolves id dev seg :
  hoare (λ db, db_wf db ∧ rows = outbox (events db)) (AcknowledgeOutbox InTx now id dev seg) (λ _, evolves) (λ _, True).
Proof.
  unfold AcknowledgeOutbox.
  eapply hoare_bind; [by apply hoare_wrap_error, hoare_query|]. intros row.
  destruct row as [o|]; [|apply hoare_ret; intros db [[_ ?] _]; by apply evolves_refl].
  case_decide; [apply hoare_ret; intros db [[_ ?] _]; by apply evolves_refl|].
  case_decide as Hst; [apply hoare_ret; intros db [[_ ?] _]; by apply evolves_refl|].
  apply (hoare_bind _ _ _ (λ _, evolves)).
  - apply hoare_wrap_error, hoare_exec_; [done|]. intros db db' [[Hwf Hrows] Hrow] [= <-].
    symmetry in Hrow. apply sql_row_Some in Hrow as (Ho & Hid & _).
    apply evolves_update; [|by apply evolves_refl]. intros o1 Ho1 Hid1. constructor.
    by rewrite (event_unique _ o1 o Hwf) by (done || congruence).
  - intros u. eapply (hoare_conseq _ evolves); [apply preserves_hoare|done|done|done].
    apply preserves_bind; [auto with preserves|]. intros hd. case_decide.
    + apply preserves_bind; [auto with preserves|]. intros nxt.
      apply preserves_wrap_error, preserves_exec_. intros db db' Hev [= <-]. by eapply evolves_same.
    + apply preserves_wrap_error, preserves_exec_. intros db db' Hev [= <-]. by eapply evolves_same.
Qed.
End evolves.

(** ** Operations *)

(** One operation: every row there was is there, moved along its life, or
    was retired; every row there is was there before, or is newly queued
    under an identifier that no row had. *)
Record outbox_life (cfg : OutboxConfig) (now : Time) (rows rows' : list OutboxRow) : Prop := {
  life_kept : ∀ o, o ∈ rows → ∃ o1, rtc (row_step cfg now rows) o o1 ∧ (o1 ∈ rows' ∨ retired cfg now o1);
  life_from : ∀ o', o' ∈ rows' →
    (∃ o, o ∈ rows ∧ rtc (row_step cfg now rows) o o')
    ∨ (new_row o' ∧ ∀ o, o ∈ rows → ob_event_id o ≠ ob_event_id o') }.

Lemma life_refl cfg now rows : outbox_life cfg now rows rows.
Proof.
  constructor; intros o Ho; [exists o; split; [apply rtc_refl|by left]|].
  left. exists o. split; [done|apply rtc_refl].
Qed.

Lemma evolves_life cfg now rows db : evolves cfg now rows db → outbox_life cfg now rows (outbox (events db)).
Proof.
  intros [H1 H2]. constructor; [intros o (o' & ? & ?)%H1; exists o'; auto|intros o' Ho'; left; auto].
Qed.

Lemma row_ok_steps cfg now rows o o' : rtc (row_step cfg now rows) o o' → row_ok cfg o → row_ok cfg o'.
Proof. induction 1; eauto using row_ok_step. Qed.

Lemma life_rows_ok cfg now rows rows' :
  0 ≤ MaxAttempts cfg → outbox_life cfg now rows rows' → Forall (row_ok cfg) rows → Forall (row_ok cfg) rows'.
Proof.
  intros Hmax [_ Hf] Hok. rewrite Forall_forall in *. intros o' Ho'.
  destruct (Hf o' Ho') as [(o & Ho & Hs)|[Hn _]]; [|by apply row_ok_new].
  eapply row_ok_steps; [exact Hs|by apply Hok].
Qed.

Section append.
Context {E : Env} (rows : list OutboxRow).

(** Since [rows], rows were only queued. *)
Definition grows (db : DB) : Prop :=
  (∀ o, o ∈ rows → o ∈ outbox (events db))
  ∧ ∀ o', o' ∈ outbox (events db) → o' ∈ rows ∨ (new_row o' ∧ ∀ o, o ∈ rows → ob_event_id o ≠ ob_event_id o').

Lemma grows_insert o db db' : new_row o → stmt_insert_outbox o db = inr db' → grows db → grows db'.
Proof.
  intros Hn. unfold stmt_insert_outbox. destruct (violated _); [done|]. intros [= <-] [H1 H2].
  unfold sql_insert_ignore. case_decide as He; simpl; [done|]. split; simpl.
  - intros o1 Ho1. apply elem_of_app. left. by apply H1.
  - intros o1 [Ho1| ->%list_elem_of_singleton]%elem_of_app; [by apply H2|]. right. split; [done|].
    intros o2 Ho2 Hid. apply He, Exists_exists. exists o2. split; [by apply H1|done].
Qed.

Lemma appendOutbox_grows c event : preserves grows (appendOutbox c event).
Proof.
  unfold appendOutbox, listTargetDeviceIDs. apply preserves_bind; [auto with preserves|].
  intros [|d devices]; [apply preserves_ret|]. apply preserves_bind; [auto with preserves|]. intros payload.
  apply preserves_for_each. intros x _. unfold append_device. apply preserves_bind; [|intros u].
  - apply preserves_wrap_error, preserves_exec_. intros db db' Hg Heq. eapply grows_insert; [|exact Heq|exact Hg]. by split_and!.
  - apply preserves_wrap_error, preserves_exec_. intros db db' Hg [= <-]. exact Hg.
Qed.

Lemma grows_life cfg now db : grows db → outbox_life cfg now rows (outbox (events db)).
Proof.
  intros [H1 H2]. constructor.
  - intros o Ho. exists o. split; [apply rtc_refl|left; by apply H1].
  - intros o' [Ho'|Hn]%H2; [left; exists o'; split; [done|apply rtc_refl]|by right].
Qed.
End append.

Section janitor.
Context {E : Env} (s : OutboxService) (now : Time) (rows : list OutboxRow).

(** Well formed, and a stage of the life of [rows] without new ones. *)
Definition fades (db : DB) : Prop :=
  db_wf db ∧ outbox_life (os_cfg s) now rows (outbox (events db)).

Lemma DeleteTerminal_fades c status olderThan lim :
  (∀ o, ob_status o = status → default (ob_expires_at o) (ob_acked_at o) ≤ olderThan → retired (os_cfg s) now o) →
  preserves fades (DeleteTerminal c status olderThan lim).
Proof.
  intros Hret. unfold DeleteTerminal. apply preserves_wrap_error, preserves_exec.
  intros db a db' [Hwf [H1 H2]] [= _ <-]. split; [by apply wf_delete_rows|]. constructor; simpl.
  - intros o (o1 & Hs & [Ho1|Hr])%H1; exists o1; (split; [done|]); [|by right].
    destruct (decide (ob_event_id o1 ∈ select_terminal status olderThan lim db)) as [Hsel|Hsel].
    + right. unfold select_terminal in Hsel. apply list_elem_of_fmap in Hsel as (o2 & E2 & Ho2).
      apply elem_of_limit, elem_of_order_by, list_elem_of_filter in Ho2 as [[Hst Hold] Ho2].
      rewrite (event_unique _ o1 o2 Hwf) by (done || congruence). by apply Hret.
    + left. by apply elem_of_sql_delete.
  - intros o' [Ho' _]%elem_of_sql_delete. by apply H2.
Qed.

Lemma janitor_life c w :
  db_wf (w_db w) → rows = outbox (events (w_db w)) → now = clock_at (w_clock w) →
  outbox_life (os_cfg s) now rows (outbox (events (w_db (janitor_run s c w).2))).
Proof.
  intros Hwf Hrows Hnow. unfold janitor_run, bind at 1, Now. rewrite <- Hnow.
  set (w1 := mkWorld _ _ _ _ _ _).
  assert (fades (w_db (DropExpiredHeads c now (BatchSizeSegments (os_cfg s)) w1).2)) as Hdrop.
  { split; [by apply DropExpiredHeads_wf|]. apply evolves_life.
    pose proof (DropExpiredHeads_evolves (os_cfg s) now rows c (BatchSizeSegments (os_cfg s)) w1 (conj Hwf Hrows)) as H.
    by destruct (DropExpiredHeads _ _ _ w1) as [[n|e|m] w2]. }
  unfold bind at 1. destruct (DropExpiredHeads _ _ _ w1) as [[n|e|m] w2]; [|apply Hdrop|apply Hdrop].
  assert (preserves fades (DeleteTerminal c StatusAcked (now - AckRetention (os_cfg s)) (DeleteBatchSize (os_cfg s)) ;;;
    DeleteTerminal c StatusDropped (now - DropRetention (os_cfg s)) (DeleteBatchSize (os_cfg s)) ;;; ret tt)) as Hdel.
  { apply preserves_bind; [apply DeleteTerminal_fades; intros o ? ?; left; by split|intros a].
    apply preserves_bind; [apply DeleteTerminal_fades; intros o ? ?; right; by split|intros b]. apply preserves_ret. }
  apply (Hdel w2 Hdrop).
Qed.
End janitor.

(** ** Reachable outboxes *)

Section lives.
Context {E : Env} (s : OutboxService) (Hs : notifier_ok s).

Lemma tx_at {A} (fn : Ctx → M A) (Q : DB → Prop) w :
  match fn InTx (tick_stmt w) with (Ok _, w1) => Q (w_db w1) | _ => True end → Q (w_db w) →
  Q (w_db (WithinTransaction Background fn w).2).
Proof.
  intros Hfn Hw. simpl. destruct (fault_at _); [done|].
  destruct (fn InTx (tick_stmt w)) as [[a|e|m] w1]; simpl; [|done|done]. by destruct (fault_at _).
Qed.

Lemma outbox_step_life w w' :
  db_wf (w_db w) → outbox_step s w w' →
  outbox_life (os_cfg s) (clock_at (w_clock w)) (outbox (events (w_db w))) (outbox (events (w_db w'))).
Proof.
  intros Hwf Hstep. set (now := clock_at (w_clock w)). set (rows := outbox (events (w_db w))).
  set (Q db := outbox_life (os_cfg s) now rows (outbox (events db))).
  assert (Q (w_db w)) as Hrefl by apply life_refl.
  destruct Hstep as [c event w Hr|w|id dev seg w|c w|c dev lim w|w w' He].
  - apply grows_life, appendOutbox_grows. split; [done|by left].
  - destruct (DispatchOnce_tx s Hs w) as [-> _]. apply (tx_at _ Q); [|done].
    pose proof (ClaimPending_evolves (os_cfg s) now rows (BatchSizeSegments (os_cfg s)) (tick_stmt (after_now w))
      (conj Hwf eq_refl)) as H.
    destruct (ClaimPending _ _ _ _ _ _) as [[evs|e|m] w1]; [by apply evolves_life|done|done].
  - destruct (Acknowledge_tx s Hs id dev seg w) as [[-> _]|[-> _]]; [done|]. apply (tx_at _ Q); [|done].
    pose proof (AcknowledgeOutbox_evolves (os_cfg s) now rows id dev seg (after_now (tick_stmt w)) (conj Hwf eq_refl)) as H.
    change ((let* now := Now in AcknowledgeOutbox InTx now id dev seg) (tick_stmt w))
      with (AcknowledgeOutbox InTx now id dev seg (after_now (tick_stmt w))).
    destruct (AcknowledgeOutbox _ _ _ _ _ _) as [[u|e|m] w1]; [by apply evolves_life|done|done].
  - by apply janitor_life.
  - apply (λ H : preserves Q (ServiceListInflight s c dev lim), H w Hrefl). unfold ServiceListInflight.
    case_decide; [apply preserves_raise|].
    apply preserves_bind; [apply preserves_Now|]. intros now'. apply ListInflight_preserves.
  - unfold Q in Hrefl. by rewrite He.
Qed.

(** C6: The life of an event.  In every outbox that the program can reach
    from an empty one, whichever statements fail, an operation moves every
    row along its life only: a queued or sent event is sent when it is due,
    unexpired and was sent less often than is allowed, it is dropped only
    with an older or equal event of its segment that expired or ran out of
    attempts, it is acknowledged once, and it is deleted only when it was
    acknowledged or dropped and its retention is over; other rows are only
    added, as never sent.  And no event is ever sent more often than
    allowed: the attempts of every row stay within the limit, they are zero
    as long as it is pending and exactly the acknowledged ones have the time
    of an acknowledgement. *)
Theorem outbox_life_cycle w0 w w' :
  0 ≤ MaxAttempts (os_cfg s) → outbox (events (w_db w0)) = [] → outbox_segments (events (w_db w0)) = [] →
  rtc (outbox_step s) w0 w → outbox_step s w w' →
  outbox_life (os_cfg s) (clock_at (w_clock w)) (outbox (events (w_db w))) (outbox (events (w_db w')))
  ∧ Forall (row_ok (os_cfg s)) (outbox (events (w_db w'))).
Proof.
  intros Hmax E1 E2 Hrun Hstep. set (good w := db_wf (w_db w) ∧ Forall (row_ok (os_cfg s)) (outbox (events (w_db w)))).
  assert (∀ w1 w2, outbox_step s w1 w2 → good w1 → good w2) as Hgood.
  { intros w1 w2 Hst [Hwf Hok]. split; [by eapply outbox_step_wf|].
    eapply life_rows_ok; [done|by apply outbox_step_life|done]. }
  assert (good w0) as H0.
  { split; [|by rewrite E1]. constructor; rewrite ?E1, ?E2; simpl; try constructor; set_solver. }
  assert (good w) as Hw by (clear -Hrun H0 Hgood; induction Hrun; eauto).
  split; [by apply outbox_step_life; [apply Hw|]|by eapply Hgood].
Qed.
End lives.
