(* ===== verification/AuthRepo.v ===== *)
(** * AuthRepo: internal/repository/postgres/auth_repository.go

    Sessions, subscriptions and user events over the tables
    [auth_sessions], [event_subscriptions], [user_events] and [profiles],
    and [NotifyingEventRepository] (internal/platform/eventbus), the
    decorator that wakes up listeners after an append. *)

From Stdlib Require Import ZArith.
From S2P Require Import Prelude GoLib GoTime Domain Database Effects OutboxRepo OutboxService.

Local Open Scope Z_scope.

(** ** Rows *)

Definition is_key (b : Bytes) : bool := bool_decide (length b = PublicKeySize).
Definition non_empty (b : Bytes) : bool := bool_decide (b ≠ []).

Definition same_session (a b : Session) : Prop := ses_SessionID a = ses_SessionID b.
#[export] Instance same_session_dec a b : Decision (same_session a b).
Proof. unfold same_session. apply _. Defined.
Definition same_subscription (a b : Subscription) : Prop := sub_SubscriptionID a = sub_SubscriptionID b.
#[export] Instance same_subscription_dec a b : Decision (same_subscription a b).
Proof. unfold same_subscription. apply _. Defined.
Definition same_user_event (a b : Event) : Prop := ev_EventID a = ev_EventID b.
#[export] Instance same_user_event_dec a b : Decision (same_user_event a b).
Proof. unfold same_user_event. apply _. Defined.
Definition same_profile (a b : ProfileRow) : Prop := p_public_key a = p_public_key b.
#[export] Instance same_profile_dec a b : Decision (same_profile a b).
Proof. unfold same_profile. apply _. Defined.

Definition ses_set_authenticated (at_ : Time) (s : Session) : Session :=
  mkSession (ses_SessionID s) (ses_UserPublicKey s) (ses_ClaimedPublicIP s) (ses_DeviceID s)
    (ses_ClientNonce s) (ses_ChallengePayload s) true (Some at_) (ses_ExpiresAt s) (ses_CreatedAt s) at_.

Definition ses_set_ip (ip : string) (s : Session) : Session :=
  mkSession (ses_SessionID s) (ses_UserPublicKey s) ip (ses_DeviceID s) (ses_ClientNonce s)
    (ses_ChallengePayload s) (ses_IsAuthenticated s) (ses_AuthenticatedAt s) (ses_ExpiresAt s)
    (ses_CreatedAt s) (ses_UpdatedAt s).

Definition sub_set_unsubscribed (at_ : Time) (s : Subscription) : Subscription :=
  mkSubscription (sub_SubscriptionID s) (sub_SessionID s) (sub_UserPublicKey s) (sub_CreatedAt s) (Some at_).

Definition ev_set_delivered (at_ : Time) (e : Event) : Event :=
  mkEvent (ev_EventID e) (ev_UserPublicKey e) (ev_ReplyToRequestID e) (ev_EventType e) (ev_Payload e)
    (ev_AvailableAt e) (ev_ExpiresAt e) (Some at_) (ev_CreatedAt e).

Definition ev_set_payload (payload : GoMap) (e : Event) : Event :=
  mkEvent (ev_EventID e) (ev_UserPublicKey e) (ev_ReplyToRequestID e) (ev_EventType e) payload
    (ev_AvailableAt e) (ev_ExpiresAt e) (ev_DeliveredAt e) (ev_CreatedAt e).

Definition p_set_seen (at_ : Time) (p : ProfileRow) : ProfileRow :=
  mkProfileRow (p_public_key p) (p_username p) (p_display_name p) (p_bio p) (p_avatar_hash p)
    (p_avatar_bytes p) (p_avatar_content_type p) at_ (p_created_at p) at_ (p_deleted_at p).

(** Insertion into a table with CHECK constraints and a unique index. *)
Definition insert_checked {R} (checks : list (bool * string)) (same : R → R → Prop)
  `{!∀ a b, Decision (same a b)} (index : string) (r : R) (t : list R) : error + list R :=
  match violated checks with
  | Some name => inl (EDatabase name)
  | None => match sql_insert same r t with Some t' => inr t' | None => inl (EDatabase index) end
  end.

Definition on_table {R} (set : list R → DB → DB) (r : error + list R) (db : DB) : error + DB :=
  match r with inl e => inl e | inr t => inr (set t db) end.

Lemma insert_checked_Some {R} checks (same : R → R → Prop) `{!∀ a b, Decision (same a b)} index r t t' :
  insert_checked checks same index r t = inr t' →
  t' = t ++ [r] ∧ violated checks = None ∧ ∀ x, x ∈ t → ¬ same r x.
Proof.
  unfold insert_checked. destruct (violated checks); [done|].
  destruct (sql_insert same r t) eqn:E; [|done]. intros [= <-].
  by apply sql_insert_Some in E as [-> ?].
Qed.

(** ** Event payloads in the column [payload JSONB]

    [json.Marshal] followed by [json.Unmarshal] into [map[string]any]: byte
    slices become base64 strings, identifiers and instants their text,
    numbers floats. *)
Fixpoint json_value {E : Env} (v : any) : any :=
  match v with
  | ANil => ANil
  | AString s => AString s
  | ABytes b => AString (of_bytes (b64_encode b))
  | AInt _ z => AInt KFloat64 z
  | ABool b => ABool b
  | AUUID u => AString (uuid_String u)
  | ATime t => AFormatted t
  | AList l => AList (json_value <$> l)
  | AMap m => AMap (prod_map id json_value <$> m)
  end.

Definition json_payload {E : Env} (m : GoMap) : GoMap := prod_map id json_value <$> m.

(** ** Statements *)

Definition stmt_insert_session {E : Env} (s : Session) (db : DB) : error + DB :=
  (* NULLIF($3, '')::inet, read back as COALESCE(host(...), '') *)
  match (if decide (ses_ClaimedPublicIP s = "") then Some ""%string
         else sql_inet_host (ses_ClaimedPublicIP s)) with
  | None => inl (EDatabase "invalid input syntax for type inet")
  | Some host =>
      on_table set_auth_sessions
        (insert_checked
           [(is_key (ses_UserPublicKey s), "auth_sessions_user_public_key_length"%string);
            (non_empty (ses_ClientNonce s), "auth_sessions_client_nonce_non_empty"%string);
            (non_empty (ses_ChallengePayload s), "auth_sessions_challenge_payload_non_empty"%string)]
           same_session "auth_sessions_pkey" (ses_set_ip host s) (auth_sessions (identity db))) db
  end.

Definition stmt_mark_authenticated (id : UUID) (at_ : Time) (db : DB) : error + (option Session * DB) :=
  let t := sql_update (λ s, ses_SessionID s = id) (ses_set_authenticated at_) (auth_sessions (identity db)) in
  inr (sql_row (λ s, ses_SessionID s = id) t, set_auth_sessions t db).

Definition new_profile (key : Bytes) (at_ : Time) : ProfileRow :=
  mkProfileRow key None None None None None None at_ at_ at_ None.

Definition stmt_touch_profile (key : Bytes) (at_ : Time) (db : DB) : error + DB :=
  inr (set_profiles (sql_upsert same_profile (λ old new, p_set_seen (p_last_seen_at new) old)
                       (new_profile key at_) (profiles (identity db))) db).

Definition stmt_insert_subscription (s : Subscription) (db : DB) : error + DB :=
  if decide (Exists (λ x, ses_SessionID x = sub_SessionID s) (auth_sessions (identity db)))
  then on_table set_event_subscriptions
         (insert_checked [(is_key (sub_UserPublicKey s), "event_subscriptions_user_public_key_length"%string)]
            same_subscription "event_subscriptions_pkey" s (event_subscriptions (identity db))) db
  else inl (EDatabase "event_subscriptions_session_id_fkey").

Definition stmt_deactivate_subscription (id : UUID) (at_ : Time) (db : DB) : error + (Z * DB) :=
  let P s := sub_SubscriptionID s = id ∧ sub_UnsubscribedAt s = None in
  let t := event_subscriptions (identity db) in
  inr (sql_count P t, set_event_subscriptions (sql_update P (sub_set_unsubscribed at_) t) db).

Definition stmt_insert_event (e : Event) (db : DB) : error + DB :=
  on_table set_user_events
    (insert_checked [(is_key (ev_UserPublicKey e), "user_events_user_public_key_length"%string)]
       same_user_event "user_events_pkey" e (user_events (events db))) db.

Definition ev_pending (user : Bytes) (now redeliverBefore : Time) (e : Event) : Prop :=
  ev_UserPublicKey e = user ∧ (ev_DeliveredAt e = None ∨ opt_le (ev_DeliveredAt e) redeliverBefore)
  ∧ ev_AvailableAt e ≤ now ∧ now < ev_ExpiresAt e.
#[export] Instance ev_pending_dec user now rb e : Decision (ev_pending user now rb e).
Proof. unfold ev_pending. apply _. Defined.

(** ** Methods *)

Section auth_repo.
Context {E : Env}.

Definition CreateSession (c : Ctx) (session : Session) : M unit :=
  wrap_error "insert auth session" (exec_ c (stmt_insert_session session)).

Definition GetSession (c : Ctx) (sessionID : UUID) : M Session :=
  let* row := wrap_error "select auth session" (query c (λ db,
    sql_row (λ s, ses_SessionID s = sessionID) (auth_sessions (identity db)))) in
  of_option ErrSessionNotFound row.

Definition MarkAuthenticated (c : Ctx) (sessionID : UUID) (authenticatedAt : Time) : M Session :=
  let* row := wrap_error "mark auth session authenticated"
    (exec c (stmt_mark_authenticated sessionID authenticatedAt)) in
  of_option ErrSessionNotFound row.

Definition TouchProfile (c : Ctx) (publicKey : Bytes) (lastSeenAt : Time) : M unit :=
  wrap_error "touch profile" (exec_ c (stmt_touch_profile publicKey lastSeenAt)).

Definition DeleteExpiredSessions (c : Ctx) (now : Time) : M Z :=
  wrap_error "delete expired auth sessions" (exec c (λ db,
    let P s := ses_ExpiresAt s ≤ now in
    let gone := ses_SessionID <$> filter P (auth_sessions (identity db)) in
    (* event_subscriptions: ON DELETE CASCADE; device_push_tokens: ON DELETE SET NULL *)
    inr (sql_count P (auth_sessions (identity db)),
         set_auth_sessions (sql_delete P (auth_sessions (identity db)))
           (set_event_subscriptions (sql_delete (λ s, sub_SessionID s ∈ gone) (event_subscriptions (identity db)))
             (set_device_push_tokens
                (sql_update (λ d, dev_SessionID d ∈ Some <$> gone)
                   (λ d, mkDeviceRecord (dev_ID d) None (dev_UserPublicKey d) (dev_DeviceID d) (dev_Platform d)
                           (dev_PushToken d) (dev_IsEnabled d) (dev_UpdatedAt d))
                   (device_push_tokens (identity db))) db))))).

Definition CreateSubscription (c : Ctx) (subscription : Subscription) : M unit :=
  wrap_error "insert event subscription" (exec_ c (stmt_insert_subscription subscription)).

Definition DeactivateSubscription (c : Ctx) (subscriptionID : UUID) (unsubscribedAt : Time) : M unit :=
  let* rowsAffected := wrap_error "deactivate event subscription"
    (exec c (stmt_deactivate_subscription subscriptionID unsubscribedAt)) in
  if decide (rowsAffected = 0) then raise ErrSubscriptionNotFound else ret tt.

(** [AuthRepository.Append]: the user event and its outbox rows. *)
Definition AppendEvent (c : Ctx) (event : Event) : M unit :=
  wrap_error "insert user event" (exec_ c (stmt_insert_event (ev_set_payload (json_payload (ev_Payload event)) event))) ;;;
  appendOutbox c event.

Definition ListPending (c : Ctx) (userPublicKey : Bytes) (now redeliverBefore : Time) (lim : Z) : M (list Event) :=
  wrap_error "query pending user events" (query c (λ db,
    limit lim (order_by (asc ev_CreatedAt)
      (sql_select (ev_pending userPublicKey now redeliverBefore) (user_events (events db)))))).

Definition MarkDelivered (c : Ctx) (eventIDs : list UUID) (deliveredAt : Time) : M unit :=
  match eventIDs with
  | [] => ret tt
  | _ => wrap_error "mark user events delivered" (exec_ c (λ db,
           inr (set_user_events (sql_update (λ e, ev_EventID e ∈ eventIDs) (ev_set_delivered deliveredAt)
                                   (user_events (events db))) db)))
  end.

(** [AuthRepository.Acknowledge]. *)
Definition AcknowledgeUserEvent (c : Ctx) (userPublicKey : Bytes) (eventID : UUID) : M unit :=
  wrap_error "acknowledge user event" (exec_ c (λ db,
    inr (set_user_events (sql_delete (λ e, ev_EventID e = eventID ∧ ev_UserPublicKey e = userPublicKey)
                            (user_events (events db))) db))).

Definition DeleteExpired (c : Ctx) (now : Time) : M Z :=
  wrap_error "delete expired user events" (exec c (λ db,
    inr (sql_count (λ e, ev_ExpiresAt e ≤ now) (user_events (events db)),
         set_user_events (sql_delete (λ e, ev_ExpiresAt e ≤ now) (user_events (events db))) db))).

(** ** internal/platform/eventbus/notifying_events.go *)

(** [keyString]: the key of a user's listeners. *)
Definition keyString (userPublicKey : Bytes) : string := HexEncodeToString userPublicKey.

(** [NotifyingEventRepository.Append] around [AuthRepository.Append]. *)
Definition NotifyingAppend (bus : option Notifier) (c : Ctx) (event : Event) : M unit :=
  AppendEvent c event ;;;
  match bus with
  | Some b => if decide (ev_UserPublicKey event ≠ []) then n_NotifyKey b (keyString (ev_UserPublicKey event))
              else ret tt
  | None => ret tt
  end.
End auth_repo.
