(* ===== verification/AuthService.v ===== *)
(** * AuthService: internal/application/auth

    The challenge-response authentication of a session and the event
    subscriptions, over the repository of [AuthRepo].  Events are appended
    through the interface [EventAppender], which the plain repository and
    its notifying decorator implement. *)

From Stdlib Require Import ZArith.
From S2P Require Import Prelude GoLib GoTime Domain Database Effects OutboxRepo OutboxService AuthRepo.

Local Open Scope Z_scope.

(** ** The event appender

    What the services rely on when they append an event. *)

Class EventAppender {E : Env} : Type := append_event : Ctx → Event → M unit.

Definition other_tables (db db' : DB) : Prop :=
  identity db' = identity db ∧ social db' = social db ∧ rooms db' = rooms db.

Class EventAppenderLaws {E : Env} (A : EventAppender) : Prop := {
  (** only the event tables are written, on every outcome *)
  append_frame : ∀ c e w, other_tables (w_db w) (w_db (append_event c e w).2);
  (** a normal return means that the event is recorded for its user *)
  append_records : ∀ c e w w', append_event c e w = (Ok tt, w') →
    user_events (events (w_db w')) = user_events (events (w_db w)) ++ [ev_set_payload (json_payload (ev_Payload e)) e];
  append_no_panic : ∀ c e w msg, (append_event c e w).1 ≠ Panic msg;
  append_clock : ∀ c e w, (w_clock w ≤ w_clock (append_event c e w).2)%nat }.

Section appender.
Context {E : Env}.

Lemma appendOutbox_frame c e (ue : list Event) (db0 : DB) :
  preserves (λ db, other_tables db0 db ∧ user_events (events db) = ue) (appendOutbox c e).
Proof.
  unfold appendOutbox, listTargetDeviceIDs, append_device. solve_preserves.
  - apply preserves_exec_. unfold stmt_insert_outbox. intros db db' [Hf Hu].
    destruct (violated _); [done|]. intros [= <-]. done.
  - apply preserves_exec_. intros db db' [Hf Hu] [= <-]. done.
Qed.

Lemma wrap_no_panic {A} p (m : M A) w s : (∀ s, (m w).1 ≠ Panic s) → (wrap_error p m w).1 ≠ Panic s.
Proof. unfold wrap_error. intros Hm. specialize (Hm s). by destruct (m w) as [[]]. Qed.

Lemma exec_no_panic {A} c (f : DB → error + (A * DB)) w s : (exec c f w).1 ≠ Panic s.
Proof. unfold exec. destruct (fault_at _); [done|]. by destruct (f _) as [|[]]. Qed.

Lemma query_no_panic {A} c (f : DB → A) w s : (query c f w).1 ≠ Panic s.
Proof. unfold query. by destruct (fault_at _). Qed.

Lemma bind_no_panic {A B} (m : M A) (k : A → M B) w s :
  (∀ s, (m w).1 ≠ Panic s) → (∀ a w' s, (k a w').1 ≠ Panic s) → (bind m k w).1 ≠ Panic s.
Proof.
  unfold bind. intros Hm Hk. specialize (Hm s). destruct (m w) as [[a|e|m'] w']; [apply Hk|done|]. simpl in *. congruence.
Qed.

Lemma for_each_no_panic {A} (l : list A) body w s :
  (∀ x w s, (body x w).1 ≠ Panic s) → (for_each l body w).1 ≠ Panic s.
Proof.
  intros Hb. revert w s. induction l as [|x l IH]; intros w s; simpl; [done|].
  by apply bind_no_panic.
Qed.

Lemma appendOutbox_no_panic c e w s : (appendOutbox c e w).1 ≠ Panic s.
Proof.
  unfold appendOutbox, listTargetDeviceIDs, append_device.
  apply bind_no_panic; [intros; apply wrap_no_panic; intros; apply query_no_panic|].
  intros [|d l] w' s'; [done|]. cbn beta iota. apply bind_no_panic; [intros; by destruct (cbor_Marshal_map _)|].
  intros p w1 s1. apply for_each_no_panic. intros x w2 s2.
  apply bind_no_panic; [|intros _ w3 s3]; intros; apply wrap_no_panic; intros; apply exec_no_panic.
Qed.

(** The repository itself. *)
#[local] Instance repo_appender : EventAppender := AppendEvent.

Lemma AppendEvent_silent c e : silent (AppendEvent c e).
Proof. unfold AppendEvent, appendOutbox, listTargetDeviceIDs, append_device. solve_silent. Qed.

Lemma AppendEvent_spec c e w :
  let r := AppendEvent c e w in
  other_tables (w_db w) (w_db r.2) ∧ (∀ s, r.1 ≠ Panic s)
  ∧ (r.1 = Ok tt → user_events (events (w_db r.2))
       = user_events (events (w_db w)) ++ [ev_set_payload (json_payload (ev_Payload e)) e]).
Proof.
  unfold AppendEvent, bind, wrap_error, exec_, exec, stmt_insert_event.
  destruct (fault_at _); [done|]. destruct (insert_checked _ _ _ _ _) as [err|t] eqn:Ei; simpl; [done|].
  apply insert_checked_Some in Ei as (-> & _ & _).
  set (w1 := set_db _ _).
  pose proof (appendOutbox_frame c e (user_events (events (w_db w)) ++ [ev_set_payload (json_payload (ev_Payload e)) e])
    (w_db w) w1 (conj (conj eq_refl (conj eq_refl eq_refl)) eq_refl)) as [Hf Hu].
  split_and!; [done|apply appendOutbox_no_panic|done].
Qed.

#[export] Instance AppendEvent_laws : EventAppenderLaws AppendEvent.
Proof.
  constructor; unfold append_event.
  - intros c e w. apply AppendEvent_spec.
  - intros c e w w' Er. destruct (AppendEvent_spec c e w) as (_ & _ & H). rewrite Er in H. by apply H.
  - intros c e w msg. apply AppendEvent_spec.
  - intros c e w. apply AppendEvent_silent.
Qed.

(** The decorator keeps the laws of what it decorates. *)
#[export] Instance NotifyingAppend_laws bus :
  (∀ b, bus = Some b → NotifierLaws b) → EventAppenderLaws (NotifyingAppend bus).
Proof.
  intros Hb.
  assert (∀ c e w, ∃ w1, NotifyingAppend bus c e w = ((AppendEvent c e w).1, w1)
            ∧ told (AppendEvent c e w).2 w1) as Heq.
  { intros c e w. unfold NotifyingAppend, bind. destruct (AppendEvent c e w) as [[[]|er|m] w0]; simpl; [|by exists w0|by exists w0].
    destruct bus as [b|]; [|by exists w0]. case_decide; [|by exists w0].
    destruct (Hb b eq_refl) as [Hk _]. apply Hk. }
  constructor; unfold append_event; intros c e w; destruct (Heq c e w) as (w1 & -> & [Ew Ec]); simpl.
  - rewrite Ew. apply AppendEvent_spec.
  - intros w' [= Er <-]. rewrite Ew. by apply AppendEvent_spec.
  - apply AppendEvent_spec.
  - destruct (AppendEvent_silent c e w) as [_ ?]. lia.
Qed.
End appender.

(** ** service.go *)

Record AuthConfig : Type := mkAuthConfig {
  ChallengeTTL : Duration; EventRetention : Duration; EventBatchSize : Z;
  EventRedeliveryCooldown : Duration }.

(** [NewService]: [deps] tells whether every dependency is not nil. *)
Definition NewAuthService (cfg : AuthConfig) (deps : bool) : error + AuthConfig :=
  if decide (ChallengeTTL cfg ≤ 0) then inl (EText "challenge ttl must be > 0") else
  if decide (EventRetention cfg ≤ 0) then inl (EText "event retention must be > 0") else
  let batch := if decide (EventBatchSize cfg ≤ 0) then 100 else EventBatchSize cfg in
  let cooldown := if decide (EventRedeliveryCooldown cfg ≤ 0) then 5 * Second
                  else EventRedeliveryCooldown cfg in
  if negb deps then inl (EText "all dependencies are required")
  else inr (mkAuthConfig (ChallengeTTL cfg) (EventRetention cfg) batch cooldown).

Record RequestAuthChallengeInput : Type := mkRequestAuthChallengeInput {
  rac_UserPublicKey : Bytes; rac_PublicIP : string; rac_DeviceID : string; rac_ClientNonce : Bytes }.
Record RequestAuthChallengeOutput : Type := mkRequestAuthChallengeOutput {
  rac_SessionID : UUID; rac_ChallengePayload : Bytes; rac_ExpiresAt : Time }.
Record SolveAuthChallengeOutput : Type := mkSolveAuthChallengeOutput {
  sac_IsAuthenticated : bool; sac_UserPublicKey : Bytes; sac_ServerTime : Time }.

Definition authenticationChallengeType : string := "authenticationChallenge".

Section service.
Context {E : Env} {A : EventAppender} (cfg : AuthConfig).

(** challenge_payload.go *)
Definition marshalAuthChallengePayload (expiresAt : Time) (serverNonce : Z) (clientNonce : Bytes) : M Bytes :=
  of_option (EText "marshal auth challenge payload")
    (cbor_Marshal_challenge authenticationChallengeType (uint64 expiresAt) serverNonce clientNonce).

Definition randomUint64 (randomBytes : Bytes) : Z := be_get randomBytes.

Definition RequestAuthChallenge (c : Ctx) (input : RequestAuthChallengeInput) : M RequestAuthChallengeOutput :=
  if decide (length (rac_UserPublicKey input) ≠ PublicKeySize) then raise ErrInvalidPublicKey else
  if decide (TrimSpace (rac_DeviceID input) = "") then raise ErrInvalidDeviceID else
  if decide (rac_ClientNonce input = []) then raise ErrInvalidClientNonce else
  if decide (rac_PublicIP input ≠ "" ∧ net_ParseIP (rac_PublicIP input) = false)
  then raise (EText "invalid public ip") else
  let* now := Now in
  let* nonce := ReadRandom in
  let* serverNonceBytes := of_option (EText "generate auth challenge nonce") nonce in
  let expiresAt := now + ChallengeTTL cfg in
  let* challengePayload := marshalAuthChallengePayload expiresAt (randomUint64 serverNonceBytes)
                             (rac_ClientNonce input) in
  let* sessionID := NewUUID in
  let session := mkSession sessionID (rac_UserPublicKey input) (rac_PublicIP input) (rac_DeviceID input)
                   (rac_ClientNonce input) challengePayload false None expiresAt now now in
  CreateSession c session ;;;
  ret (mkRequestAuthChallengeOutput sessionID challengePayload expiresAt).

Definition auth_event (user : Bytes) (eventID : UUID) (eventType : string) (payload : GoMap) (now : Time) : Event :=
  mkEvent eventID user None eventType payload now (now + EventRetention cfg) None now.

(** The transaction of [SolveAuthChallenge]. *)
Definition solve_tx (sessionID : UUID) (now : Time) (txCtx : Ctx) : M Session :=
  let* session := MarkAuthenticated txCtx sessionID now in
  TouchProfile txCtx (ses_UserPublicKey session) now ;;;
  let* eventID := NewUUID in
  append_event txCtx (auth_event (ses_UserPublicKey session) eventID "auth.sessionAuthenticated"
    [("sessionId"%string, AString (uuid_String (ses_SessionID session)));
     ("authenticatedAt"%string, AFormatted now)] now) ;;;
  ret session.

Definition SolveAuthChallenge (c : Ctx) (sessionID : UUID) (signature : Bytes) : M SolveAuthChallengeOutput :=
  if decide (sessionID = uuid_Nil) then raise ErrInvalidSessionID else
  let* session := GetSession c sessionID in
  let* now := Now in
  if decide (ses_ExpiresAt session < now) then raise ErrSessionExpired else
  let* ok := Verify (ses_UserPublicKey session) (ses_ChallengePayload session) signature in
  if negb ok then raise ErrInvalidSignature else
  let* session := WithinTransaction c (solve_tx (ses_SessionID session) now) in
  ret (mkSolveAuthChallengeOutput true (ses_UserPublicKey session) now).

Definition LookupSession (c : Ctx) (sessionID : UUID) : M Session := GetSession c sessionID.

Definition SubscribeToEvents (c : Ctx) (sessionID : UUID) : M (UUID * Time) :=
  let* session := GetSession c sessionID in
  if negb (ses_IsAuthenticated session) then raise ErrSessionNotAuthenticated else
  let* now := Now in
  let* subscriptionID := NewUUID in
  let subscription := mkSubscription subscriptionID (ses_SessionID session) (ses_UserPublicKey session) now None in
  WithinTransaction c (λ txCtx,
    CreateSubscription txCtx subscription ;;;
    let* eventID := NewUUID in
    append_event txCtx (auth_event (ses_UserPublicKey session) eventID "auth.eventsSubscribed"
      [("subscriptionId"%string, AString (uuid_String subscriptionID));
       ("subscribedAt"%string, AFormatted now)] now)) ;;;
  ret (subscriptionID, now).

Definition UnsubscribeFromEvents (c : Ctx) (subscriptionID : UUID) : M Time :=
  let* now := Now in
  DeactivateSubscription c subscriptionID now ;;;
  ret now.

Definition pull_limit (lim : Z) : Z :=
  if decide (lim ≤ 0 ∨ EventBatchSize cfg < lim) then EventBatchSize cfg else lim.

Definition PullEvents (c : Ctx) (userPublicKey : Bytes) (lim : Z) : M (list Event) :=
  if decide (length userPublicKey ≠ PublicKeySize) then raise ErrInvalidPublicKey else
  let* now := Now in
  let* events := ListPending c userPublicKey now (now - EventRedeliveryCooldown cfg) (pull_limit lim) in
  match events with
  | [] => ret []
  | _ => WithinTransaction c (λ txCtx, MarkDelivered txCtx (ev_EventID <$> events) now) ;;; ret events
  end.

Definition AcknowledgeEvent (c : Ctx) (userPublicKey : Bytes) (eventID : UUID) : M unit :=
  if decide (length userPublicKey ≠ PublicKeySize) then raise ErrInvalidPublicKey else
  if decide (eventID = uuid_Nil) then raise ErrInvalidEventID else
  AcknowledgeUserEvent c userPublicKey eventID.
End service.
