(* ===== verification/AuthSpec.v ===== *)
(** * AuthSpec: what authentication promises

    Only a holder of the key authenticates a session; what a solved
    challenge changes; what pulling events returns and when it returns it
    again. *)

From Stdlib Require Import ZArith.
From S2P Require Import Prelude GoLib GoTime Domain Database Effects OutboxRepo OutboxService AuthRepo.
From S2P Require Import AuthService.

Local Open Scope Z_scope.

Section spec.
Context {E : Env} {A : EventAppender} {L : EventAppenderLaws append_event} (cfg : AuthConfig).

(** A signature of the challenge by the key of the session. *)
Definition proven (s : Session) : Prop :=
  ∃ sig, ed25519_verify (ses_UserPublicKey s) (ses_ChallengePayload s) sig = true.

Record sessions_ok (db : DB) : Prop := {
  so_ids : NoDup (ses_SessionID <$> auth_sessions (identity db));
  so_key : ∀ s, s ∈ auth_sessions (identity db) → length (ses_UserPublicKey s) = PublicKeySize;
  so_auth : ∀ s, s ∈ auth_sessions (identity db) → ses_IsAuthenticated s = true → proven s }.

(** An invariant of the tables that events do not touch. *)
Lemma preserves_append (I : DB → Prop) c e :
  (∀ db db', other_tables db db' → I db → I db') → preserves I (append_event c e).
Proof. intros HI w Hw. eapply HI; [apply append_frame|done]. Qed.

Lemma sessions_ok_ext db db' :
  auth_sessions (identity db') = auth_sessions (identity db) → sessions_ok db → sessions_ok db'.
Proof. intros Es [H1 H2 H3]. constructor; by rewrite Es. Qed.

Lemma sessions_ok_insert s db db' :
  ses_IsAuthenticated s = false → stmt_insert_session s db = inr db' → sessions_ok db → sessions_ok db'.
Proof.
  intros Hun. unfold stmt_insert_session.
  destruct (if decide _ then _ else _) as [host|]; [|done]. unfold on_table.
  destruct (insert_checked _ _ _ _ _) as [e|t] eqn:Ei; [done|]. intros [= <-] [H1 H2 H3].
  apply insert_checked_Some in Ei as (-> & Hv & Hn). constructor; simpl.
  - apply NoDup_fmap_app_one; [done|]. intros x Hx Ex. by apply (Hn x Hx).
  - intros s' [Hs'| ->%list_elem_of_singleton]%elem_of_app; [by apply H2|]. simpl.
    simpl in Hv. unfold is_key in Hv. by destruct (decide (length (ses_UserPublicKey s) = PublicKeySize));
      [|rewrite bool_decide_false in Hv].
  - intros s' [Hs'| ->%list_elem_of_singleton]%elem_of_app Ha; [by apply H3|]. simpl in Ha. congruence.
Qed.

Lemma sessions_ok_mark s at_ row db db' :
  stmt_mark_authenticated (ses_SessionID s) at_ db = inr (row, db') →
  s ∈ auth_sessions (identity db) → proven s → sessions_ok db →
  row = Some (ses_set_authenticated at_ s) ∧ sessions_ok db'.
Proof.
  intros [= <- <-] Hs Hp [H1 H2 H3]. split.
  - set (t := sql_update _ _ _).
    assert (ses_set_authenticated at_ s ∈ t) as Hin.
    { apply elem_of_sql_update. exists s. auto. }
    assert (NoDup (ses_SessionID <$> t)) as Hnd by (unfold t; by rewrite fmap_sql_update).
    exact (sql_row_unique ses_SessionID t (ses_set_authenticated at_ s) Hnd Hin).
  - constructor; simpl.
    + by rewrite fmap_sql_update.
    + intros s' (s0 & Hs0 & [[_ ->]|[_ ->]])%elem_of_sql_update; by apply (H2 s0).
    + intros s' (s0 & Hs0 & [[Eid ->]|[_ ->]])%elem_of_sql_update Ha; [|by apply H3].
      assert (s0 = s) as -> by (by apply (NoDup_fmap_inj_in ses_SessionID _ _ _ H1)). exact Hp.
Qed.

Lemma RequestAuthChallenge_sessions c input : preserves sessions_ok (RequestAuthChallenge cfg c input).
Proof.
  unfold RequestAuthChallenge, marshalAuthChallengePayload, CreateSession. solve_preserves.
  apply preserves_exec_. intros db db' Hok Heq. by eapply sessions_ok_insert; [|exact Heq|done].
Qed.

Lemma TouchProfile_sessions I c key at_ :
  (∀ db db', auth_sessions (identity db') = auth_sessions (identity db) → I db → I db') →
  preserves I (TouchProfile c key at_).
Proof.
  intros HI. apply preserves_wrap_error, preserves_exec_. intros db db' Hok [= <-]. by apply (HI db).
Qed.

(** The transaction of a solved challenge, from the session that was read. *)
Lemma solve_body_sessions c s now :
  hoare (λ db, sessions_ok db ∧ s ∈ auth_sessions (identity db) ∧ proven s)
    (solve_tx cfg (ses_SessionID s) now c)
    (λ r db, r = ses_set_authenticated now s ∧ sessions_ok db) sessions_ok.
Proof.
  unfold solve_tx. apply (hoare_bind _ _ _ (λ r db, r = ses_set_authenticated now s ∧ sessions_ok db)).
  - unfold MarkAuthenticated.
    apply (hoare_bind _ _ _ (λ row db, row = Some (ses_set_authenticated now s) ∧ sessions_ok db)).
    + apply hoare_wrap_error, hoare_exec; [by intros db [? _]|].
      intros db row db' (Hok & Hs & Hp) Heq. by eapply sessions_ok_mark.
    + intros row w [-> Hok]. done.
  - intros r. set (P db := r = ses_set_authenticated now s ∧ sessions_ok db).
    assert (∀ db db', auth_sessions (identity db') = auth_sessions (identity db) → P db → P db') as HP.
    { intros db db' Es [? Hok]. split; [done|]. by apply (sessions_ok_ext db). }
    assert (∀ db, P db → sessions_ok db) as HR by (by intros db [_ ?]).
    apply (hoare_skip P); [by apply TouchProfile_sessions|done|intros _].
    apply (hoare_skip P); [apply preserves_NewUUID|done|intros eid].
    apply (hoare_skip P); [|done|intros _; by apply hoare_ret].
    apply preserves_append. intros db db' [Ei _] Hdb. eapply HP; [|exact Hdb]. by rewrite Ei.
Qed.

Lemma GetSession_hoare P c id :
  hoare P (GetSession c id)
    (λ s db, P db ∧ s ∈ auth_sessions (identity db) ∧ ses_SessionID s = id) P.
Proof.
  unfold GetSession. eapply hoare_bind; [by apply hoare_wrap_error, hoare_query|]. intros row.
  intros w [Hp Er]. destruct row as [s|]; [|exact Hp]. symmetry in Er.
  by apply sql_row_Some in Er as [Hs Hid].
Qed.

Lemma Verify_spec k m sig w :
  (Verify k m sig w = (Ok (ed25519_verify k m sig), w) ∧ length k = PublicKeySize)
  ∨ (Verify k m sig w = (Panic "ed25519: bad public key length", w) ∧ length k ≠ PublicKeySize).
Proof. unfold Verify. case_decide; auto. Qed.

Lemma SolveAuthChallenge_sessions c id sig : preserves sessions_ok (SolveAuthChallenge cfg c id sig).
Proof.
  unfold SolveAuthChallenge. case_decide; [apply preserves_raise|]. apply hoare_preserves.
  eapply hoare_bind; [apply GetSession_hoare|]. intros s.
  set (P db := sessions_ok db ∧ s ∈ auth_sessions (identity db) ∧ ses_SessionID s = id).
  assert (∀ db, P db → sessions_ok db) as HR by (by intros db [? _]).
  apply (hoare_skip P); [apply preserves_Now|done|intros now].
  case_decide; [by apply hoare_raise|].
  apply (hoare_bind _ _ _ (λ ok db, P db ∧ ok = ed25519_verify (ses_UserPublicKey s) (ses_ChallengePayload s) sig)).
  { intros w Hw. destruct (Verify_spec (ses_UserPublicKey s) (ses_ChallengePayload s) sig w) as [[-> _]|[-> _]];
      [done|by apply HR]. }
  intros [|]; simpl; [|by apply hoare_raise; intros db [? _]; apply HR].
  apply (hoare_bind _ _ _ (λ r db, r = ses_set_authenticated now s ∧ sessions_ok db)).
  - eapply hoare_conseq; [apply hoare_WithinTransaction; [apply (solve_body_sessions InTx s now)|by intros db [? _]]| |done|done].
    intros db [(Hok & Hs & _) Hv]. split_and!; [done|done|]. by exists sig.
  - intros r. by apply hoare_ret; intros db [_ ?].
Qed.

Lemma SubscribeToEvents_sessions c id : preserves sessions_ok (SubscribeToEvents cfg c id).
Proof.
  unfold SubscribeToEvents, GetSession, CreateSubscription. solve_preserves.
  - apply preserves_exec_. unfold stmt_insert_subscription. intros db db' Hok.
    case_decide; [|done]. unfold on_table. destruct (insert_checked _ _ _ _ _); [done|].
    intros [= <-]. by apply (sessions_ok_ext db).
  - apply preserves_append. intros db db' [Ei _]. apply sessions_ok_ext. by rewrite Ei.
Qed.

(** One operation of the program on the session table. *)
Inductive auth_step : World → World → Prop :=
  | step_request c input w : auth_step w (RequestAuthChallenge cfg c input w).2
  | step_solve c id sig w : auth_step w (SolveAuthChallenge cfg c id sig w).2
  | step_subscribe c id w : auth_step w (SubscribeToEvents cfg c id w).2
  | step_delete_expired c now w : auth_step w (DeleteExpiredSessions c now w).2
  | step_elsewhere w w' :
      auth_sessions (identity (w_db w')) = auth_sessions (identity (w_db w)) → auth_step w w'.

Lemma auth_step_sessions w w' : auth_step w w' → sessions_ok (w_db w) → sessions_ok (w_db w').
Proof.
  intros Hstep Hok. destruct Hstep as [c input w|c id sig w|c id w|c now w|w w' Es].
  - by apply RequestAuthChallenge_sessions.
  - by apply SolveAuthChallenge_sessions.
  - by apply SubscribeToEvents_sessions.
  - apply (preserves_wrap_error sessions_ok); [|done]. apply preserves_exec.
    intros db n db' [H1 H2 H3] [= _ <-]. constructor; simpl.
    + by apply NoDup_fmap_filter.
    + intros s [Hs _]%elem_of_sql_delete. by apply H2.
    + intros s [Hs _]%elem_of_sql_delete. by apply H3.
  - by apply (sessions_ok_ext (w_db w)).
Qed.

(** C14: In every state the program can reach from an empty session table,
    whichever statements failed on the way, a session that is marked
    authenticated has a 32-byte key, and somebody has produced a signature
    of its own challenge that this key verifies. *)
Theorem authenticated_sessions_are_proven w0 w s :
  auth_sessions (identity (w_db w0)) = [] → rtc auth_step w0 w →
  s ∈ auth_sessions (identity (w_db w)) → ses_IsAuthenticated s = true →
  length (ses_UserPublicKey s) = PublicKeySize ∧ proven s.
Proof.
  intros E0 Hrun Hs Ha. assert (sessions_ok (w_db w)) as Hok.
  { assert (sessions_ok (w_db w0)) as H0.
    { constructor; rewrite E0; [constructor|set_solver|set_solver]. }
    clear -Hrun H0 L. induction Hrun; [done|]. eauto using auth_step_sessions. }
  split; [by eapply so_key|by eapply so_auth].
Qed.

(** ** Solving a challenge *)

Lemma append_hoare (P Q : DB → Prop) c e :
  (∀ db db', P db → other_tables db db' →
     user_events (events db') = user_events (events db) ++ [ev_set_payload (json_payload (ev_Payload e)) e] → Q db') →
  hoare P (append_event c e) (λ _, Q) (λ _, True).
Proof.
  intros HQ w Hw. pose proof (append_frame c e w) as Hf.
  destruct (append_event c e w) as [[[]|er|m] w'] eqn:Er; [|done|done].
  apply (HQ (w_db w)); [done|done|]. by apply append_records in Er.
Qed.

(** What solving the challenge of session [s] at [now] does to the tables. *)
Definition solved (s : Session) (now : Time) (db db' : DB) : Prop :=
  auth_sessions (identity db')
    = sql_update (λ x, ses_SessionID x = ses_SessionID s) (ses_set_authenticated now) (auth_sessions (identity db))
  ∧ (∃ p, p ∈ profiles (identity db') ∧ p_public_key p = ses_UserPublicKey s ∧ p_last_seen_at p = now)
  ∧ social db' = social db ∧ rooms db' = rooms db
  ∧ ∃ e, user_events (events db') = user_events (events db) ++ [e]
         ∧ ev_UserPublicKey e = ses_UserPublicKey s ∧ ev_EventType e = "auth.sessionAuthenticated"%string.

Lemma touch_profile_in key at_ db db' :
  stmt_touch_profile key at_ db = inr db' →
  ∃ p, p ∈ profiles (identity db') ∧ p_public_key p = key ∧ p_last_seen_at p = at_.
Proof.
  intros [= <-]. simpl. unfold sql_upsert. case_decide as Hex.
  - apply Exists_exists in Hex as (p & Hp & Hk). exists (p_set_seen at_ p). split_and!; [|done|done].
    apply elem_of_sql_update. exists p. auto.
  - exists (new_profile key at_). split_and!; [|done|done]. apply elem_of_app. right. by constructor.
Qed.

Lemma solve_body_effect c s now db0 :
  hoare (λ db, db = db0 ∧ sessions_ok db ∧ s ∈ auth_sessions (identity db))
    (solve_tx cfg (ses_SessionID s) now c)
    (λ r db, r = ses_set_authenticated now s ∧ solved s now db0 db) (λ _, True).
Proof.
  unfold solve_tx. set (marked db := auth_sessions (identity db) = sql_update (λ x, ses_SessionID x = ses_SessionID s)
         (ses_set_authenticated now) (auth_sessions (identity db0))
       ∧ social db = social db0 ∧ rooms db = rooms db0 ∧ events db = events db0).
  apply (hoare_bind _ _ _ (λ r db, r = ses_set_authenticated now s ∧ marked db)).
  - unfold MarkAuthenticated.
    apply (hoare_bind _ _ _ (λ row db, row = Some (ses_set_authenticated now s) ∧ marked db)).
    + apply hoare_wrap_error, hoare_exec; [done|]. intros db row db' (-> & Hok & Hs) Heq.
      split; [|by injection Heq as _ <-]. injection Heq as <- _.
      set (t := sql_update _ _ _).
      assert (ses_set_authenticated now s ∈ t) as Hin by (apply elem_of_sql_update; exists s; auto).
      assert (NoDup (ses_SessionID <$> t)) as Hnd by (unfold t; rewrite fmap_sql_update; [apply Hok|done]).
      exact (sql_row_unique ses_SessionID t (ses_set_authenticated now s) Hnd Hin).
    + intros row w [-> Hm]. done.
  - intros r.
    apply (hoare_bind _ _ _ (λ _ db, r = ses_set_authenticated now s ∧ marked db ∧
      ∃ p, p ∈ profiles (identity db) ∧ p_public_key p = ses_UserPublicKey r ∧ p_last_seen_at p = now)).
    { apply hoare_wrap_error, hoare_exec_; [done|]. intros db db' [-> (Ha & Hb & Hc & Hd)] Heq.
      apply touch_profile_in in Heq as Hp. injection Heq as <-. by split_and!. }
    intros u. apply hoare_skip; [apply preserves_NewUUID|done|]. intros eid.
    apply (hoare_bind _ _ _ (λ _ db, r = ses_set_authenticated now s ∧ solved s now db0 db)); [|by intros v; apply hoare_ret].
    apply append_hoare. intros db db' (-> & (Ha & Hb & Hc & Hd) & Hp) (Ei & Es & Er) Hu.
    split; [done|]. unfold solved. rewrite Ei, Es, Er, Hu, Hd. split_and!; [done|done|done|done|].
    eexists. split_and!; [reflexivity|done|done].
Qed.

(** C15: A challenge is solved only for a stored session that has not
    expired and with a signature that the key of the session verifies; the
    answer names that key; the session is then marked, the profile of the
    user is touched and the event is recorded, all of it together.  On
    every other outcome no table has changed. *)
Theorem SolveAuthChallenge_outcome id sig w r w' :
  sessions_ok (w_db w) →
  SolveAuthChallenge cfg Background id sig w = (r, w') →
  let now := clock_at (w_clock w) in
  match r with
  | Ok out => ∃ s, s ∈ auth_sessions (identity (w_db w)) ∧ ses_SessionID s = id ∧ id ≠ uuid_Nil
      ∧ now ≤ ses_ExpiresAt s
      ∧ ed25519_verify (ses_UserPublicKey s) (ses_ChallengePayload s) sig = true
      ∧ out = mkSolveAuthChallengeOutput true (ses_UserPublicKey s) now
      ∧ solved s now (w_db w) (w_db w')
  | _ => w_db w' = w_db w
  end.
Proof.
  intros Hok Erun now. unfold SolveAuthChallenge in Erun. case_decide as Hnil; [by injection Erun as <- <-|].
  pose proof (GetSession_hoare (λ db, db = w_db w) Background id w eq_refl) as Hget.
  unfold bind at 1 in Erun.
  assert (w_clock (GetSession Background id w).2 = w_clock w) as Hclk.
  { unfold GetSession, bind, wrap_error, query. destruct (fault_at _); [done|].
    by destruct (sql_row _ _). }
  destruct (GetSession Background id w) as [[s|e|m] w1]; [|by injection Erun as <- <-|by injection Erun as <- <-].
  destruct Hget as (Edb & Hs & Hid). simpl in Hclk. unfold bind at 1, Now in Erun. rewrite Hclk in Erun. fold now in Erun.
  case_decide as Hexp; [by injection Erun as <- <-|].
  unfold bind at 1 in Erun. set (w2 := mkWorld _ _ _ _ _ _) in Erun.
  destruct (Verify_spec (ses_UserPublicKey s) (ses_ChallengePayload s) sig w2) as [[Ev _]|[Ev _]];
    rewrite Ev in Erun; [|by injection Erun as <- <-].
  destruct (ed25519_verify _ _ _) eqn:Hv; cbn [negb] in Erun; [|by injection Erun as <- <-].
  unfold bind at 1 in Erun.
  destruct (WithinTransaction Background (solve_tx cfg (ses_SessionID s) now) w2) as [[s'|e|m] w3] eqn:Etx.
  - injection Erun as <- <-.
    pose proof (hoare_WithinTransaction Background _ _ _ (λ _, True) (solve_body_effect InTx s now (w_db w)) ltac:(done) w2) as H.
    rewrite Etx in H. destruct H as [-> Hsolved]; [split_and!; simpl; [exact Edb|by rewrite Edb|exact Hs]|].
    exists s. split_and!; [by rewrite <- Edb|done|done|lia|done|done|done].
  - injection Erun as <- <-. rewrite (WithinTransaction_rollback _ _ _ _ Etx) by done. exact Edb.
  - injection Erun as <- <-. rewrite (WithinTransaction_rollback _ _ _ _ Etx) by done. exact Edb.
Qed.

(** ** Pulling events *)

(** At time [t] the event waits for its user: it is new, or was delivered
    more than a cooldown ago without being acknowledged. *)
Definition awaiting (user : Bytes) (t : Time) (e : Event) : Prop :=
  ev_pending user t (t - EventRedeliveryCooldown cfg) e.

(** [PullEvents] returns pending events of the user only, at most the
    configured batch, oldest first: a pending event that is left out is
    not older than any that is returned, and is left out only when the
    batch is full.  Everything returned is stamped, so that no pull within
    the redelivery cooldown sees it again, and no other event changes. *)
Lemma PullEvents_delivers user lim w evs w' :
  0 < EventBatchSize cfg → 0 < EventRedeliveryCooldown cfg →
  PullEvents cfg Background user lim w = (Ok evs, w') →
  let now := clock_at (w_clock w) in
  Z.of_nat (length evs) ≤ EventBatchSize cfg
  ∧ (∀ e, e ∈ evs → e ∈ user_events (events (w_db w)) ∧ awaiting user now e)
  ∧ (∀ e, e ∈ user_events (events (w_db w)) → awaiting user now e → e ∉ evs →
       Z.of_nat (length evs) = pull_limit cfg lim ∧ ∀ e', e' ∈ evs → ev_CreatedAt e' ≤ ev_CreatedAt e)
  ∧ (∀ e t, e ∈ user_events (events (w_db w')) → ev_EventID e ∈ ev_EventID <$> evs →
       t < now + EventRedeliveryCooldown cfg → ¬ awaiting user t e)
  ∧ (∀ e, ev_EventID e ∉ ev_EventID <$> evs →
       e ∈ user_events (events (w_db w')) ↔ e ∈ user_events (events (w_db w))).
Proof.
  intros Hb Hcool Erun now. unfold PullEvents in Erun. case_decide; [done|].
  unfold bind at 1, Now in Erun. fold now in Erun. set (w1 := mkWorld _ _ _ _ _ _) in Erun.
  unfold bind at 1, ListPending, wrap_error, query in Erun.
  destruct (fault_at _); [done|]. simpl w_db in Erun.
  set (l := limit _ _) in Erun.
  assert (0 < pull_limit cfg lim ≤ EventBatchSize cfg) as Hlim by (unfold pull_limit; case_decide; lia).
  assert (Z.of_nat (length l) ≤ EventBatchSize cfg) as Hlen.
  { etrans; [apply length_limit|]; lia. }
  assert (∀ e, e ∈ l → e ∈ user_events (events (w_db w)) ∧ awaiting user now e) as Hin.
  { intros e He%elem_of_limit%elem_of_order_by. by apply list_elem_of_filter in He as [? ?]. }
  assert (∀ e, e ∈ user_events (events (w_db w)) → awaiting user now e → e ∉ l →
       Z.of_nat (length l) = pull_limit cfg lim ∧ ∀ e', e' ∈ l → ev_CreatedAt e' ≤ ev_CreatedAt e) as Hout.
  { intros e He Hp Hne.
    destruct (limit_order_by ev_CreatedAt (pull_limit cfg lim)
      (sql_select (ev_pending user now (now - EventRedeliveryCooldown cfg)) (user_events (events (w_db w)))) e)
      as [?|[Hl Hle]]; [by apply list_elem_of_filter|done|]. split; [|exact Hle].
    fold now l in Hl. etrans; [exact Hl|]. lia. }
  clearbody l. destruct l as [|e0 l0] eqn:El.
  { injection Erun as <- <-. split_and!; [done|set_solver|done|set_solver|done]. }
  rewrite <- El in *. unfold bind in Erun.
  assert (ev_EventID <$> l ≠ []) as Hne by (by rewrite El).
  assert (evs = l ∧ w_db w' = set_user_events (sql_update (λ e, ev_EventID e ∈ ev_EventID <$> l)
            (ev_set_delivered now) (user_events (events (w_db w)))) (w_db w)) as [-> Edb].
  { simpl in Erun. destruct (fault_at _); [done|]. unfold MarkDelivered in Erun.
    destruct (ev_EventID <$> l) as [|i0 ids]; [done|].
    unfold wrap_error, exec_, exec in Erun. destruct (fault_at _); [done|]. simpl in Erun.
    destruct (fault_at _); [done|]. by injection Erun as <- <-. }
  rewrite Edb. simpl. split_and!; [done|done|done| |].
  - intros e t (e1 & He1 & [[Hid ->]|[Hn ->]])%elem_of_sql_update Hid' Ht (_ & Hd & _); [|done].
    simpl in Hd. destruct Hd as [Hd|Hd]; [done|]. lia.
  - intros e Hn. rewrite elem_of_sql_update. split.
    + intros (e1 & He1 & [[Hid ->]|[_ ->]]); [|done]. by destruct Hn.
    + intros He. exists e. split; [done|]. by right.
Qed.
End spec.
