(* ===== verification/ClientRepo.v ===== *)
(** * ClientRepo: internal/repository/postgres/client_repository.go, identities

    Profiles, bans, devices, key packages, statistics and usage counters.
    Friends and rooms are in [FriendRepo] and [RoomRepo]. *)

From Stdlib Require Import ZArith.
From S2P Require Import Prelude GoLib GoTime Domain Database Effects OutboxRepo AuthRepo.

Local Open Scope Z_scope.

(** [NULLIF($n, '')] and [COALESCE(column, '')]. *)
Definition NULLIF (s : string) : option string := if decide (s = "") then None else Some s.
Definition COALESCE (o : option string) : string := default ""%string o.

(** [POSITION(LOWER(sub) IN LOWER(s)) > 0]. *)
Definition sql_matches {E : Env} (s sub : string) : bool := Contains (sql_lower s) (sql_lower sub).

(** ** Profiles *)

Definition profile_record (p : ProfileRow) : ProfileRecord :=
  mkProfileRecord (p_public_key p) (COALESCE (p_username p)) (COALESCE (p_display_name p))
    (COALESCE (p_bio p)) (COALESCE (p_avatar_hash p)) (default [] (p_avatar_bytes p))
    (COALESCE (p_avatar_content_type p)) (p_last_seen_at p) (p_updated_at p) (p_deleted_at p).

Definition merge_profile (old new : ProfileRow) : ProfileRow :=
  mkProfileRow (p_public_key old) (p_username new) (p_display_name new) (p_bio new) (p_avatar_hash new)
    (p_avatar_bytes old) (p_avatar_content_type old) (p_last_seen_at old) (p_created_at old)
    (p_updated_at new) None.

(** The unique index on [LOWER(username)] over rows with a username: the
    username is held by another profile. *)
Definition username_taken {E : Env} (key : Bytes) (username : option string) (p : ProfileRow) : Prop :=
  p_public_key p ≠ key ∧ is_Some username ∧ sql_lower <$> p_username p = sql_lower <$> username.
#[export] Instance username_taken_dec {E : Env} key u p : Decision (username_taken key u p).
Proof. unfold username_taken. apply _. Defined.

Definition stmt_update_profile {E : Env} (new : ProfileRow) (db : DB) : error + DB :=
  let t := profiles (identity db) in
  if decide (Exists (username_taken (p_public_key new) (p_username new)) t)
  then inl (EDatabase "profiles_username_unique_not_null")
  else inr (set_profiles (sql_upsert same_profile merge_profile new t) db).

Definition p_set_deleted (at_ : Time) (p : ProfileRow) : ProfileRow :=
  mkProfileRow (p_public_key p) (p_username p) (p_display_name p) (p_bio p) (p_avatar_hash p)
    (p_avatar_bytes p) (p_avatar_content_type p) (p_last_seen_at p) (p_created_at p) at_ (Some at_).

(** ** Devices and key packages *)

Definition same_device (a b : DeviceRecord) : Prop :=
  dev_UserPublicKey a = dev_UserPublicKey b ∧ dev_DeviceID a = dev_DeviceID b.
#[export] Instance same_device_dec a b : Decision (same_device a b).
Proof. unfold same_device. apply _. Defined.

Definition merge_device (old new : DeviceRecord) : DeviceRecord :=
  mkDeviceRecord (dev_ID old) (dev_SessionID new) (dev_UserPublicKey old) (dev_DeviceID old)
    (dev_Platform new) (dev_PushToken new) (dev_IsEnabled new) (dev_UpdatedAt new).

(** [INSERT ... ON CONFLICT (user_public_key, device_id) DO UPDATE ... RETURNING]. *)
Definition stmt_upsert_device (d : DeviceRecord) (db : DB) : error + (option DeviceRecord * DB) :=
  let t := device_push_tokens (identity db) in
  match violated [(is_key (dev_UserPublicKey d), "device_push_tokens_user_public_key_length"%string);
                  (bool_decide (0 < dev_Platform d), "device_push_tokens_platform_positive"%string);
                  (bool_decide (dev_PushToken d ≠ ""%string), "device_push_tokens_push_token_non_empty"%string);
                  (bool_decide (dev_SessionID d ∈ None :: (Some <$> (ses_SessionID <$> auth_sessions (identity db)))),
                   "device_push_tokens_session_id_fkey"%string);
                  (bool_decide (Exists (same_device d) t ∨ ¬ Exists (λ x, dev_ID x = dev_ID d) t),
                   "device_push_tokens_pkey"%string)] with
  | Some name => inl (EDatabase name)
  | None => let t' := sql_upsert same_device merge_device d t in
            inr (sql_row (same_device d) t', set_device_push_tokens t' db)
  end.

Definition same_key_package (a b : KeyPackageRecord) : Prop := kp_ID a = kp_ID b.
#[export] Instance same_key_package_dec a b : Decision (same_key_package a b).
Proof. unfold same_key_package. apply _. Defined.

Definition stmt_insert_key_package (k : KeyPackageRecord) (db : DB) : error + DB :=
  on_table set_key_packages
    (insert_checked [(is_key (kp_UserPublicKey k), "key_packages_user_public_key_length"%string);
                     (non_empty (kp_KeyPackageBytes k), "key_packages_key_package_bytes_non_empty"%string)]
       same_key_package "key_packages_pkey" k (key_packages (identity db))) db.

(** ORDER BY user_public_key, device_id, is_last_resort ASC, created_at DESC. *)
Definition kp_le (a b : KeyPackageRecord) : Prop :=
  let cmp_bytes x y k := if decide (x = y) then k else bytes_leb x y in
  cmp_bytes (kp_UserPublicKey a) (kp_UserPublicKey b)
    (cmp_bytes (to_bytes (kp_DeviceID a)) (to_bytes (kp_DeviceID b))
      (match kp_IsLastResort a, kp_IsLastResort b with
       | false, true => true
       | true, false => false
       | _, _ => bool_decide (kp_CreatedAt b ≤ kp_CreatedAt a)
       end)) = true.
#[export] Instance kp_le_dec a b : Decision (kp_le a b).
Proof. unfold kp_le. apply _. Defined.

(** [DISTINCT ON (user_public_key, device_id)]: the first row of each run. *)
Fixpoint distinct_on {R K} `{!EqDecision K} (key : R → K) (seen : list K) (l : list R) : list R :=
  match l with
  | [] => []
  | r :: l => if decide (key r ∈ seen) then distinct_on key seen l
              else r :: distinct_on key (key r :: seen) l
  end.

Definition select_key_packages (keys : list Bytes) (now : Time) (db : DB) : list KeyPackageRecord :=
  distinct_on (λ k, (kp_UserPublicKey k, kp_DeviceID k)) []
    (order_by kp_le (sql_select (λ k, kp_UserPublicKey k ∈ keys ∧ now < kp_ExpiresAt k)
                       (key_packages (identity db)))).

(** ** Usage counters *)

Record UsageStat : Type := mkUsageStat { stat_Requests : Z; stat_BytesIn : Z; stat_BytesOut : Z }.
Record UsageStats : Type := mkUsageStats {
  stats_Minute : UsageStat; stats_Hour : UsageStat; stats_Day : UsageStat; stats_Week : UsageStat;
  stats_Month : UsageStat; stats_AllTime : UsageStat }.

(** [date_trunc] in UTC: weeks begin on Monday (1970-01-01 is a Thursday). *)
Definition date_trunc (kind : string) (now : Time) : Time :=
  let day := now / Day in
  if decide (kind = "minute"%string) then now / Minute * Minute else
  if decide (kind = "hour"%string) then now / Hour * Hour else
  if decide (kind = "day"%string) then day * Day else
  if decide (kind = "week"%string) then (day - (day + 3) `mod` 7) * Day else
  if decide (kind = "month"%string) then (let '(_, _, d) := civil_from_days day in (day - d + 1) * Day)
  else (* allTime *) 0.

Definition usage_kinds : list string := ["minute"; "hour"; "day"; "week"; "month"; "allTime"]%string.

Definition same_usage (a b : UsageRow) : Prop :=
  u_user_public_key a = u_user_public_key b ∧ u_kind a = u_kind b ∧ u_bucket_start a = u_bucket_start b.
#[export] Instance same_usage_dec a b : Decision (same_usage a b).
Proof. unfold same_usage. apply _. Defined.

Definition merge_usage (old new : UsageRow) : UsageRow :=
  mkUsageRow (u_user_public_key old) (u_kind old) (u_bucket_start old) (u_requests old + u_requests new)
    (u_bytes_in old + u_bytes_in new) (u_bytes_out old + u_bytes_out new) (u_updated_at new).

(** BIGINT columns with the CHECK that they are not negative; PostgreSQL
    tests the row that is proposed, and the row that a conflict makes of
    it. *)
Definition usage_valid (u : UsageRow) : Prop :=
  0 ≤ u_requests u < 2 ^ 63 ∧ 0 ≤ u_bytes_in u < 2 ^ 63 ∧ 0 ≤ u_bytes_out u < 2 ^ 63.
#[export] Instance usage_valid_dec u : Decision (usage_valid u).
Proof. unfold usage_valid. apply _. Defined.

Definition stmt_record_usage (key : Bytes) (now : Time) (requests bytesIn bytesOut : Z) (db : DB) : error + DB :=
  let row kind := mkUsageRow key kind (date_trunc kind now) requests bytesIn bytesOut now in
  if decide (¬ Exists (λ p, p_public_key p = key) (profiles (identity db)))
  then inl (EDatabase "user_usage_stats_user_public_key_fkey") else
  if decide (length key ≠ PublicKeySize) then inl (EDatabase "user_usage_stats_user_public_key_length") else
  let t := foldl (λ t kind, sql_upsert same_usage merge_usage (row kind) t)
             (user_usage_stats (identity db)) usage_kinds in
  if decide (Forall (λ kind, usage_valid (row kind)) usage_kinds ∧ Forall usage_valid t) then inr (set_user_usage_stats t db)
  else inl (EDatabase "user_usage_stats_non_negative").

(** The counter of a user for the bucket that [now] falls into. *)
Definition usage_stat (key : Bytes) (now : Time) (kind : string) (db : DB) : UsageStat :=
  match sql_row (λ u, u_user_public_key u = key ∧ u_kind u = kind ∧ u_bucket_start u = date_trunc kind now)
          (user_usage_stats (identity db)) with
  | Some u => mkUsageStat (u_requests u) (u_bytes_in u) (u_bytes_out u)
  | None => mkUsageStat 0 0 0
  end.

(** ** Methods *)

Section client_repo.
Context {E : Env}.

Definition GetProfile (c : Ctx) (publicKey : Bytes) : M ProfileRecord :=
  let* row := wrap_error "get profile" (query c (λ db,
    sql_row (λ p, p_public_key p = publicKey) (profiles (identity db)))) in
  of_option ErrNotFound (profile_record <$> row).

Definition GetActiveBanStatus (c : Ctx) (publicKey : Bytes) (now : Time) : M (option BanStatusRecord) :=
  wrap_error "get active ban status" (query c (λ db,
    (λ b, mkBanStatusRecord (b_is_banned b) (COALESCE (b_reason b)) (b_banned_at b) (b_expires_at b)) <$>
    sql_row (λ b, b_public_key b = publicKey ∧ b_is_banned b = true
                  ∧ (b_expires_at b = None ∨ opt_gt (b_expires_at b) now)) (ban_statuses (identity db)))).

Definition UpdateProfile (c : Ctx) (publicKey : Bytes) (username displayName avatarHash bio : string)
  (updatedAt : Time) : M unit :=
  wrap_error "update profile" (exec_ c (stmt_update_profile
    (mkProfileRow publicKey (NULLIF username) (NULLIF displayName) (NULLIF bio) (NULLIF avatarHash)
       None None updatedAt updatedAt updatedAt None))).

Definition SearchProfiles (c : Ctx) (q : string) (lim offset : Z) : M (list ProfileRecord) :=
  wrap_error "search profiles" (query c (λ db,
    profile_record <$> limit_offset lim offset (order_by (desc p_updated_at)
      (sql_select (λ p, p_deleted_at p = None
                        ∧ (sql_matches (COALESCE (p_username p)) q = true
                           ∨ sql_matches (COALESCE (p_display_name p)) q = true)) (profiles (identity db)))))).

Definition mem_set_left (at_ : Time) (m : ChatMemberRecord) : ChatMemberRecord :=
  mkMember (mem_RoomID m) (mem_UserPublicKey m) (mem_Role m) (mem_NotificationLevel m) (mem_JoinedAt m) (Some at_).

(** The statements of [DeleteAccount], in order. *)
Definition delete_account_statements (k : Bytes) (at_ : Time) : list (DB → DB) :=
  [ (λ db, set_profiles (sql_update (λ p, p_public_key p = k) (p_set_deleted at_) (profiles (identity db))) db);
    (λ db, set_device_push_tokens (sql_delete (λ d, dev_UserPublicKey d = k) (device_push_tokens (identity db))) db);
    (λ db, set_key_packages (sql_delete (λ p, kp_UserPublicKey p = k) (key_packages (identity db))) db);
    (λ db, set_friends (sql_delete (λ f, fr_UserPublicKey f = k ∨ fr_FriendPublicKey f = k) (friends (social db))) db);
    (λ db, set_friend_requests (sql_delete (λ f, freq_SenderPublicKey f = k ∨ freq_ReceiverPublicKey f = k)
             (friend_requests (social db))) db);
    (λ db, set_chat_members (sql_update (λ m, mem_UserPublicKey m = k ∧ mem_LeftAt m = None) (mem_set_left at_)
             (chat_members (rooms db))) db);
    (λ db, set_chat_member_permissions (sql_delete (λ p, perm_UserPublicKey p = k)
             (chat_member_permissions (rooms db))) db);
    (λ db, set_chat_invitations (sql_delete (λ i, inv_InviterPublicKey i = k ∨ inv_InviteePublicKey i = k)
             (chat_invitations (rooms db))) db) ].

Definition RepoDeleteAccount (c : Ctx) (publicKey : Bytes) (deletedAt : Time) : M unit :=
  for_each (delete_account_statements publicKey deletedAt) (λ f, exec_ c (λ db, inr (f db))).

Definition GetProfileAvatar (c : Ctx) (publicKey : Bytes) : M AvatarRecord :=
  let* row := query c (λ db, sql_row (λ p, p_public_key p = publicKey) (profiles (identity db))) in
  of_option ErrNotFound
    ((λ p, mkAvatarRecord (default [] (p_avatar_bytes p)) (COALESCE (p_avatar_content_type p))) <$> row).

Definition RepoListDevices (c : Ctx) (userPublicKey : Bytes) : M (list DeviceRecord) :=
  query c (λ db, order_by (desc dev_UpdatedAt)
    (sql_select (λ d, dev_UserPublicKey d = userPublicKey) (device_push_tokens (identity db)))).

Definition UpsertDevice (c : Ctx) (device : DeviceRecord) : M DeviceRecord :=
  let* row := exec c (stmt_upsert_device device) in
  of_option ErrNoRows row.

Definition DeleteKeyPackagesByUserDevice (c : Ctx) (userPublicKey : Bytes) (deviceID : string) : M unit :=
  exec_ c (λ db, inr (set_key_packages
    (sql_delete (λ k, kp_UserPublicKey k = userPublicKey ∧ kp_DeviceID k = deviceID) (key_packages (identity db))) db)).

Definition lookupDeviceIdentifier (c : Ctx) (userPublicKey : Bytes) (deviceID : UUID) : M string :=
  let* row := query c (λ db, sql_row (λ d, dev_ID d = deviceID ∧ dev_UserPublicKey d = userPublicKey)
    (device_push_tokens (identity db))) in
  of_option ErrNotFound (dev_DeviceID <$> row).

Definition RepoRemoveDevice (c : Ctx) (userPublicKey : Bytes) (deviceID : UUID) (removedAt : Time) : M unit :=
  let* deviceIdentifier := lookupDeviceIdentifier c userPublicKey deviceID in
  exec_ c (λ db, inr (set_device_push_tokens
    (sql_delete (λ d, dev_ID d = deviceID ∧ dev_UserPublicKey d = userPublicKey)
       (device_push_tokens (identity db))) db)) ;;;
  DeleteKeyPackagesByUserDevice c userPublicKey deviceIdentifier.

(** [apppush.TargetDevice], [None] when [Found] is false. *)
Definition LookupDevice (c : Ctx) (deviceID : string) : M (option DeviceRecord) :=
  query c (λ db, head (limit 1 (order_by (desc dev_UpdatedAt)
    (sql_select (λ d, dev_DeviceID d = deviceID) (device_push_tokens (identity db)))))).

Definition LookupProfileName (c : Ctx) (publicKey : Bytes) : M string :=
  let* r := attempt (GetProfile c publicKey) in
  match r with
  | inl e => if Is e ErrNotFound then ret ""%string else raise e
  | inr profile =>
      if decide (pr_DisplayName profile ≠ ""%string) then ret (pr_DisplayName profile)
      else if decide (pr_Username profile ≠ ""%string) then ret (pr_Username profile)
      else ret ""%string
  end.

Definition InsertKeyPackages (c : Ctx) (keyPackages : list KeyPackageRecord) : M Z :=
  for_each keyPackages (λ item, exec_ c (stmt_insert_key_package item)) ;;;
  ret (Z.of_nat (length keyPackages)).

Definition RepoFetchKeyPackages (c : Ctx) (userPublicKeys : list Bytes) (now : Time) : M (list KeyPackageRecord) :=
  query c (select_key_packages userPublicKeys now).

Definition CountServerStats (c : Ctx) : M ServerStats :=
  let* p := query c (λ db, sql_count (λ p, p_deleted_at p = None) (profiles (identity db))) in
  let* d := query c (λ db, Z.of_nat (length (device_push_tokens (identity db)))) in
  let* f := query c (λ db, Z.of_nat (length (friends (social db)))) in
  let* r := query c (λ db, sql_count (λ r, r_deleted_at r = None) (chat_rooms (rooms db))) in
  ret (mkServerStats p d f r).

Definition CountUserStats (c : Ctx) (k : Bytes) : M UserStats :=
  let* d := query c (λ db, sql_count (λ d, dev_UserPublicKey d = k) (device_push_tokens (identity db))) in
  let* p := query c (λ db, sql_count (λ p, kp_UserPublicKey p = k) (key_packages (identity db))) in
  let* f := query c (λ db, sql_count (λ f, fr_UserPublicKey f = k) (friends (social db))) in
  let* q := query c (λ db, sql_count (λ q, freq_SenderPublicKey q = k ∧ freq_State q = 1) (friend_requests (social db))) in
  let* r := query c (λ db, sql_count (λ m, mem_UserPublicKey m = k ∧ mem_LeftAt m = None) (chat_members (rooms db))) in
  ret (mkUserStats d p f q r).

Definition CountGroupStats (c : Ctx) (roomID : UUID) : M GroupStats :=
  let* m := query c (λ db, sql_count (λ m, mem_RoomID m = roomID ∧ mem_LeftAt m = None) (chat_members (rooms db))) in
  let* i := query c (λ db, sql_count (λ i, inv_RoomID i = roomID) (chat_invitations (rooms db))) in
  ret (mkGroupStats m i).

Definition RepoRecordUserUsage (c : Ctx) (key : Bytes) (now : Time) (requests bytesIn bytesOut : Z) : M unit :=
  if decide (requests = 0 ∧ bytesIn = 0 ∧ bytesOut = 0) then ret tt else
  wrap_error "record user usage" (exec_ c (stmt_record_usage key now requests bytesIn bytesOut)).

Definition GetUserUsageStats (c : Ctx) (key : Bytes) (now : Time) : M UsageStats :=
  wrap_error "get user usage stats" (query c (λ db,
    let stat kind := usage_stat key now kind db in
    mkUsageStats (stat "minute"%string) (stat "hour"%string) (stat "day"%string) (stat "week"%string)
      (stat "month"%string) (stat "allTime"%string))).
End client_repo.
