(* ===== verification/FriendRepo.v ===== *)
(** * FriendRepo: internal/repository/postgres/client_repository.go, friends

    The tables [friends] and [friend_requests]. *)

From Stdlib Require Import ZArith.
From S2P Require Import Prelude GoLib GoTime Domain Database Effects AuthRepo ClientRepo.

Local Open Scope Z_scope.

(** client_repository_helpers.go *)
Definition containsState (values : list Z) (target : Z) : bool := existsb (Z.eqb target) values.

Definition same_friend_request (a b : FriendRequestRecord) : Prop := freq_RequestID a = freq_RequestID b.
#[export] Instance same_friend_request_dec a b : Decision (same_friend_request a b).
Proof. unfold same_friend_request. apply _. Defined.

(** The unique index on (user_public_key, friend_public_key). *)
Definition same_friend (a b : FriendRecord) : Prop :=
  fr_UserPublicKey a = fr_UserPublicKey b ∧ fr_FriendPublicKey a = fr_FriendPublicKey b.
#[export] Instance same_friend_dec a b : Decision (same_friend a b).
Proof. unfold same_friend. apply _. Defined.

Definition freq_set_state (state : Z) (at_ : Time) (r : FriendRequestRecord) : FriendRequestRecord :=
  mkFriendRequest (freq_RequestID r) (freq_SenderPublicKey r) (freq_ReceiverPublicKey r) state
    (freq_CreatedAt r) at_.

Definition stmt_insert_friend_request (r : FriendRequestRecord) (db : DB) : error + DB :=
  on_table set_friend_requests
    (insert_checked [(is_key (freq_SenderPublicKey r), "friend_requests_sender_public_key_length"%string);
                     (is_key (freq_ReceiverPublicKey r), "friend_requests_receiver_public_key_length"%string);
                     (bool_decide (0 < freq_State r), "friend_requests_state_positive"%string)]
       same_friend_request "friend_requests_pkey" r (friend_requests (social db))) db.

(** [UPDATE friend_requests SET state = $2 ... WHERE request_id = $1 RETURNING ...]. *)
Definition stmt_set_friend_request_state (id : UUID) (state : Z) (at_ : Time) (db : DB)
  : error + (option FriendRequestRecord * DB) :=
  if decide (0 < state) then
    let t := sql_update (λ r, freq_RequestID r = id) (freq_set_state state at_) (friend_requests (social db)) in
    inr (sql_row (λ r, freq_RequestID r = id) t, set_friend_requests t db)
  else inl (EDatabase "friend_requests_state_positive").

(** [INSERT INTO friends ... ON CONFLICT (user_public_key, friend_public_key) DO NOTHING]. *)
Definition stmt_insert_friend (f : FriendRecord) (db : DB) : error + DB :=
  let t := friends (social db) in
  match violated [(is_key (fr_UserPublicKey f), "friends_user_public_key_length"%string);
                  (is_key (fr_FriendPublicKey f), "friends_friend_public_key_length"%string);
                  (bool_decide (Exists (same_friend f) t ∨ ¬ Exists (λ x, fr_ID x = fr_ID f) t),
                   "friends_pkey"%string)] with
  | Some name => inl (EDatabase name)
  | None => inr (set_friends (sql_insert_ignore same_friend f t) db)
  end.

Definition stmt_delete_friends (a b : Bytes) (db : DB) : error + DB :=
  inr (set_friends (sql_delete (λ f, (fr_UserPublicKey f = a ∧ fr_FriendPublicKey f = b)
                                     ∨ (fr_UserPublicKey f = b ∧ fr_FriendPublicKey f = a))
                      (friends (social db))) db).

(** [b] is in the list of [a]. *)
Definition lists_friend (a b : Bytes) (f : FriendRecord) : Prop :=
  fr_UserPublicKey f = a ∧ fr_FriendPublicKey f = b.
#[export] Instance lists_friend_dec a b f : Decision (lists_friend a b f).
Proof. unfold lists_friend. apply _. Defined.

(** The join of [AreFriends]: both rows are there. *)
Definition are_friends (a b : Bytes) (db : DB) : Prop :=
  Exists (lists_friend a b) (friends (social db)) ∧ Exists (lists_friend b a) (friends (social db)).
#[export] Instance are_friends_dec a b db : Decision (are_friends a b db).
Proof. unfold are_friends. apply _. Defined.

Section friend_repo.
Context {E : Env}.

Definition AreFriends (c : Ctx) (left right : Bytes) : M bool :=
  query c (λ db, bool_decide (are_friends left right db)).

Definition RepoListFriends (c : Ctx) (k : Bytes) (lim offset : Z) : M (list FriendRecord) :=
  query c (λ db, limit_offset lim offset (order_by (desc2 fr_AcceptedAt (λ f, Z.of_N (fr_ID f)))
    (sql_select (λ f, fr_UserPublicKey f = k) (friends (social db))))).

Definition CountFriends (c : Ctx) (k : Bytes) : M Z :=
  query c (λ db, sql_count (λ f, fr_UserPublicKey f = k) (friends (social db))).

Definition RepoRemoveFriend (c : Ctx) (a b : Bytes) (removedAt : Time) : M unit :=
  exec_ c (stmt_delete_friends a b).

Definition CreateFriendRequest (c : Ctx) (request : FriendRequestRecord) : M unit :=
  exec_ c (stmt_insert_friend_request request).

Definition GetFriendRequest (c : Ctx) (requestID : UUID) : M FriendRequestRecord :=
  let* row := query c (λ db, sql_row (λ r, freq_RequestID r = requestID) (friend_requests (social db))) in
  of_option ErrNotFound row.

Definition UpdateFriendRequestState (c : Ctx) (requestID : UUID) (actor : Bytes)
  (allowedFromStates : list Z) (targetState : Z) (updatedAt : Time) : M FriendRequestRecord :=
  let* record := GetFriendRequest c requestID in
  if decide (actor ≠ freq_SenderPublicKey record ∧ actor ≠ freq_ReceiverPublicKey record)
  then raise ErrForbidden else
  if negb (containsState allowedFromStates (freq_State record)) then raise ErrConflict else
  let* row := exec c (stmt_set_friend_request_state requestID targetState updatedAt) in
  of_option ErrNoRows row.

Definition RepoListFriendRequests (c : Ctx) (k : Bytes) (direction : string) (lim offset : Z)
  : M (list FriendRequestRecord) :=
  query c (λ db, limit_offset lim offset (order_by (desc2 freq_CreatedAt (λ r, Z.of_N (freq_RequestID r)))
    (if decide (direction = "incoming"%string)
     then sql_select (λ r, freq_ReceiverPublicKey r = k) (friend_requests (social db))
     else if decide (direction = "outgoing"%string)
     then sql_select (λ r, freq_SenderPublicKey r = k) (friend_requests (social db))
     else sql_select (λ r, freq_SenderPublicKey r = k ∨ freq_ReceiverPublicKey r = k)
            (friend_requests (social db))))).

Definition CreateFriendPair (c : Ctx) (left right : FriendRecord) : M unit :=
  for_each [left; right] (λ item, exec_ c (stmt_insert_friend item)).
End friend_repo.
