(* ===== verification/RoomRepo.v ===== *)
(** * RoomRepo: internal/repository/postgres/client_repository.go, rooms

    Rooms, their members, states, permissions, invitations, direct rooms,
    group infos and welcomes. *)

From Stdlib Require Import ZArith.
From S2P Require Import Prelude GoLib GoTime Domain Database Effects OutboxRepo AuthRepo ClientRepo.
From S2P Require Import FriendRepo.

Local Open Scope Z_scope.

(** ** Rows *)

Definition room_record (r : RoomRow) : ChatRoomRecord :=
  mkRoom (r_room_id r) (r_owner_public_key r) (r_title r) (COALESCE (r_description r)) (r_visibility r)
    (COALESCE (r_avatar_hash r)) (default [] (r_avatar_bytes r)) (COALESCE (r_avatar_content_type r))
    (r_state_id r) (r_created_at r) (r_updated_at r) (r_deleted_at r).

(** The row that [CreateRoom] inserts. *)
Definition room_row (room : ChatRoomRecord) : RoomRow :=
  mkRoomRow (room_RoomID room) (room_OwnerPublicKey room) (room_Title room) (NULLIF (room_Description room))
    (room_Visibility room) (NULLIF (room_AvatarHash room)) (Some (room_AvatarBytes room))
    (Some (room_AvatarContentType room)) (room_StateID room) (room_CreatedAt room) (room_UpdatedAt room) None.

Definition same_room (a b : RoomRow) : Prop := r_room_id a = r_room_id b.
#[export] Instance same_room_dec a b : Decision (same_room a b).
Proof. unfold same_room. apply _. Defined.
Definition same_member (a b : ChatMemberRecord) : Prop :=
  mem_RoomID a = mem_RoomID b ∧ mem_UserPublicKey a = mem_UserPublicKey b.
#[export] Instance same_member_dec a b : Decision (same_member a b).
Proof. unfold same_member. apply _. Defined.
Definition same_room_state (a b : ChatRoomStateRecord) : Prop :=
  rs_ID a = rs_ID b ∨ (rs_RoomID a = rs_RoomID b ∧ rs_Epoch a = rs_Epoch b).
#[export] Instance same_room_state_dec a b : Decision (same_room_state a b).
Proof. unfold same_room_state. apply _. Defined.
Definition same_permission (a b : ChatMemberPermissionRecord) : Prop :=
  perm_RoomID a = perm_RoomID b ∧ perm_UserPublicKey a = perm_UserPublicKey b
  ∧ perm_PermissionKey a = perm_PermissionKey b.
#[export] Instance same_permission_dec a b : Decision (same_permission a b).
Proof. unfold same_permission. apply _. Defined.
Definition same_invitation (a b : ChatInvitationRecord) : Prop := inv_InvitationID a = inv_InvitationID b.
#[export] Instance same_invitation_dec a b : Decision (same_invitation a b).
Proof. unfold same_invitation. apply _. Defined.
Definition same_group_info (a b : ChatRoomGroupInfoRecord) : Prop := gi_RoomID a = gi_RoomID b.
#[export] Instance same_group_info_dec a b : Decision (same_group_info a b).
Proof. unfold same_group_info. apply _. Defined.
Definition same_welcome (a b : ChatRoomWelcomeRecord) : Prop :=
  wel_RoomID a = wel_RoomID b ∧ wel_TargetUserPublicKey a = wel_TargetUserPublicKey b.
#[export] Instance same_welcome_dec a b : Decision (same_welcome a b).
Proof. unfold same_welcome. apply _. Defined.
(** The primary key on the room, and the unique index on the pair. *)
Definition same_direct_room (a b : DirectRoomRecord) : Prop :=
  dr_RoomID a = dr_RoomID b
  ∨ (dr_LeftUserPublicKey a = dr_LeftUserPublicKey b ∧ dr_RightUserPublicKey a = dr_RightUserPublicKey b).
#[export] Instance same_direct_room_dec a b : Decision (same_direct_room a b).
Proof. unfold same_direct_room. apply _. Defined.

(** Foreign keys to [chat_rooms]. *)
Definition room_exists (id : UUID) (db : DB) : Prop := Exists (λ r, r_room_id r = id) (chat_rooms (rooms db)).
#[export] Instance room_exists_dec id db : Decision (room_exists id db).
Proof. unfold room_exists. apply _. Defined.

(** An active membership: [left_at IS NULL]. *)
Definition member_in (room : UUID) (user : Bytes) (m : ChatMemberRecord) : Prop :=
  mem_RoomID m = room ∧ mem_UserPublicKey m = user ∧ mem_LeftAt m = None.
#[export] Instance member_in_dec room user m : Decision (member_in room user m).
Proof. unfold member_in. apply _. Defined.
Definition active_in (room : UUID) (m : ChatMemberRecord) : Prop := mem_RoomID m = room ∧ mem_LeftAt m = None.
#[export] Instance active_in_dec room m : Decision (active_in room m).
Proof. unfold active_in. apply _. Defined.

Definition live_room (id : UUID) (r : RoomRow) : Prop := r_room_id r = id ∧ r_deleted_at r = None.
#[export] Instance live_room_dec id r : Decision (live_room id r).
Proof. unfold live_room. apply _. Defined.

Definition mem_set_role (role : Z) (m : ChatMemberRecord) : ChatMemberRecord :=
  mkMember (mem_RoomID m) (mem_UserPublicKey m) role (mem_NotificationLevel m) (mem_JoinedAt m) (mem_LeftAt m).

(** [ON CONFLICT (room_id, user_public_key) DO UPDATE SET left_at = NULL, role, notification_level]. *)
Definition merge_member (old new : ChatMemberRecord) : ChatMemberRecord :=
  mkMember (mem_RoomID old) (mem_UserPublicKey old) (mem_Role new) (mem_NotificationLevel new)
    (mem_JoinedAt old) None.

Definition r_set_info (title description avatarHash : string) (at_ : Time) (r : RoomRow) : RoomRow :=
  let keep n old := match NULLIF n with Some s => Some s | None => old end in
  mkRoomRow (r_room_id r) (r_owner_public_key r) (default (r_title r) (NULLIF title))
    (keep description (r_description r)) (r_visibility r) (keep avatarHash (r_avatar_hash r))
    (r_avatar_bytes r) (r_avatar_content_type r) (r_state_id r) (r_created_at r) at_ (r_deleted_at r).
Definition r_set_deleted (at_ : Time) (r : RoomRow) : RoomRow :=
  mkRoomRow (r_room_id r) (r_owner_public_key r) (r_title r) (r_description r) (r_visibility r)
    (r_avatar_hash r) (r_avatar_bytes r) (r_avatar_content_type r) (r_state_id r) (r_created_at r) at_ (Some at_).
Definition r_set_state (state : UUID) (at_ : Time) (r : RoomRow) : RoomRow :=
  mkRoomRow (r_room_id r) (r_owner_public_key r) (r_title r) (r_description r) (r_visibility r)
    (r_avatar_hash r) (r_avatar_bytes r) (r_avatar_content_type r) (Some state) (r_created_at r) at_ (r_deleted_at r).
Definition perm_set_allowed (allowed : bool) (at_ : Time) (p : ChatMemberPermissionRecord) : ChatMemberPermissionRecord :=
  mkPermission (perm_PermissionID p) (perm_RoomID p) (perm_UserPublicKey p) (perm_PermissionKey p) allowed
    (perm_CreatedAt p) at_.
Definition inv_set_state (state : Z) (at_ : Time) (i : ChatInvitationRecord) : ChatInvitationRecord :=
  mkInvitation (inv_InvitationID i) (inv_RoomID i) (inv_InviterPublicKey i) (inv_InviteePublicKey i)
    (inv_ExpiresAt i) (inv_InviteToken i) (inv_InviteTokenSignature i) state (inv_CreatedAt i) at_.
Definition merge_group_info (old new : ChatRoomGroupInfoRecord) : ChatRoomGroupInfoRecord :=
  mkGroupInfo (gi_RoomID old) (gi_UploaderPublicKey new) (gi_GroupInfoBytes new) (gi_CreatedAt old) (gi_UpdatedAt new).
Definition merge_welcome (old new : ChatRoomWelcomeRecord) : ChatRoomWelcomeRecord :=
  mkWelcome (wel_RoomID old) (wel_TargetUserPublicKey old) (wel_SenderPublicKey new) (wel_WelcomeBytes new)
    (wel_CreatedAt old) (wel_UpdatedAt new).

(** ** Statements *)

Definition stmt_insert_room (room : ChatRoomRecord) (db : DB) : error + DB :=
  on_table set_chat_rooms
    (insert_checked [(is_key (room_OwnerPublicKey room), "chat_rooms_owner_public_key_length"%string);
                     (bool_decide (0 < room_Visibility room), "chat_rooms_visibility_positive"%string);
                     (bool_decide (room_Title room ≠ ""%string), "chat_rooms_title_non_empty"%string)]
       same_room "chat_rooms_pkey" (room_row room) (chat_rooms (rooms db))) db.

Definition member_checks (m : ChatMemberRecord) (db : DB) : list (bool * string) :=
  [(is_key (mem_UserPublicKey m), "chat_members_user_public_key_length"%string);
   (bool_decide (0 < mem_Role m), "chat_members_role_positive"%string);
   (bool_decide (0 < mem_NotificationLevel m), "chat_members_notification_level_positive"%string);
   (bool_decide (room_exists (mem_RoomID m) db), "chat_members_room_id_fkey"%string)].

Definition stmt_insert_member (m : ChatMemberRecord) (db : DB) : error + DB :=
  on_table set_chat_members
    (insert_checked (member_checks m db) same_member "chat_members_pkey" m (chat_members (rooms db))) db.

(** Upsert of a membership that is active again. *)
Definition stmt_upsert_member (m : ChatMemberRecord) (db : DB) : error + DB :=
  match violated (member_checks m db) with
  | Some name => inl (EDatabase name)
  | None => inr (set_chat_members (sql_upsert same_member merge_member m (chat_members (rooms db))) db)
  end.

Definition stmt_leave (room : UUID) (user : Bytes) (at_ : Time) (db : DB) : error + (Z * DB) :=
  let t := chat_members (rooms db) in
  inr (sql_count (member_in room user) t, set_chat_members (sql_update (member_in room user) (mem_set_left at_) t) db).

Definition stmt_set_role (room : UUID) (user : Bytes) (role : Z) (db : DB) : error + DB :=
  let t := chat_members (rooms db) in
  if decide (0 < role ∨ ¬ Exists (member_in room user) t)
  then inr (set_chat_members (sql_update (member_in room user) (mem_set_role role) t) db)
  else inl (EDatabase "chat_members_role_positive").

Definition stmt_insert_direct_room (d : DirectRoomRecord) (db : DB) : error + DB :=
  on_table set_direct_rooms
    (insert_checked [(is_key (dr_LeftUserPublicKey d), "direct_rooms_left_user_public_key_length"%string);
                     (is_key (dr_RightUserPublicKey d), "direct_rooms_right_user_public_key_length"%string);
                     (bool_decide (dr_LeftUserPublicKey d ≠ dr_RightUserPublicKey d), "direct_rooms_distinct_users"%string);
                     (bool_decide (room_exists (dr_RoomID d) db), "direct_rooms_room_id_fkey"%string)]
       same_direct_room "direct_rooms_left_user_public_key_right_user_public_key_key" d (direct_rooms (rooms db))) db.

Definition stmt_insert_room_state (s : ChatRoomStateRecord) (db : DB) : error + DB :=
  on_table set_chat_room_states
    (insert_checked [(bool_decide (is_Some (rs_TreeBytes s)), "chat_room_states_tree_bytes_not_null"%string);
                     (bool_decide (is_Some (rs_TreeHash s)), "chat_room_states_tree_hash_not_null"%string);
                     (bool_decide (room_exists (rs_RoomID s) db), "chat_room_states_room_id_fkey"%string)]
       same_room_state "chat_room_states_room_id_epoch_key" s (chat_room_states (rooms db))) db.

Definition stmt_upsert_permission (p : ChatMemberPermissionRecord) (db : DB) : error + DB :=
  let t := chat_member_permissions (rooms db) in
  match violated [(is_key (perm_UserPublicKey p), "chat_member_permissions_user_public_key_length"%string);
                  (bool_decide (room_exists (perm_RoomID p) db), "chat_member_permissions_room_id_fkey"%string);
                  (bool_decide (Exists (same_permission p) t ∨ ¬ Exists (λ x, perm_PermissionID x = perm_PermissionID p) t),
                   "chat_member_permissions_pkey"%string)] with
  | Some name => inl (EDatabase name)
  | None => inr (set_chat_member_permissions
                   (sql_upsert same_permission (λ old new, perm_set_allowed (perm_IsAllowed new) (perm_UpdatedAt new) old) p t) db)
  end.

Definition stmt_insert_invitation (i : ChatInvitationRecord) (db : DB) : error + DB :=
  on_table set_chat_invitations
    (insert_checked [(is_key (inv_InviterPublicKey i), "chat_invitations_inviter_public_key_length"%string);
                     (is_key (inv_InviteePublicKey i), "chat_invitations_invitee_public_key_length"%string);
                     (bool_decide (0 < inv_State i), "chat_invitations_state_positive"%string);
                     (bool_decide (room_exists (inv_RoomID i) db), "chat_invitations_room_id_fkey"%string)]
       same_invitation "chat_invitations_pkey" i (chat_invitations (rooms db))) db.

Definition stmt_set_invitation_state (id : UUID) (state : Z) (at_ : Time) (db : DB)
  : error + (option ChatInvitationRecord * DB) :=
  if decide (0 < state) then
    let t := sql_update (λ i, inv_InvitationID i = id) (inv_set_state state at_) (chat_invitations (rooms db)) in
    inr (sql_row (λ i, inv_InvitationID i = id) t, set_chat_invitations t db)
  else inl (EDatabase "chat_invitations_state_positive").

Definition stmt_upsert_group_info (g : ChatRoomGroupInfoRecord) (db : DB) : error + DB :=
  match violated [(is_key (gi_UploaderPublicKey g), "chat_room_group_infos_uploader_public_key_length"%string);
                  (non_empty (gi_GroupInfoBytes g), "chat_room_group_infos_group_info_bytes_non_empty"%string);
                  (bool_decide (room_exists (gi_RoomID g) db), "chat_room_group_infos_room_id_fkey"%string)] with
  | Some name => inl (EDatabase name)
  | None => inr (set_chat_room_group_infos (sql_upsert same_group_info merge_group_info g (chat_room_group_infos (rooms db))) db)
  end.

Definition stmt_upsert_welcome (w : ChatRoomWelcomeRecord) (db : DB) : error + DB :=
  match violated [(is_key (wel_TargetUserPublicKey w), "chat_room_welcomes_target_user_public_key_length"%string);
                  (is_key (wel_SenderPublicKey w), "chat_room_welcomes_sender_public_key_length"%string);
                  (non_empty (wel_WelcomeBytes w), "chat_room_welcomes_welcome_bytes_non_empty"%string);
                  (bool_decide (room_exists (wel_RoomID w) db), "chat_room_welcomes_room_id_fkey"%string)] with
  | Some name => inl (EDatabase name)
  | None => inr (set_chat_room_welcomes (sql_upsert same_welcome merge_welcome w (chat_room_welcomes (rooms db))) db)
  end.

(** [bytes.Compare(left, right) <= 0]. *)
Definition orderedPublicKeyPair (left right : Bytes) : Bytes * Bytes :=
  if bytes_leb left right then (left, right) else (right, left).

(** The live direct room of a pair of keys in index order. *)
Definition select_direct_room (left right : Bytes) (db : DB) : option UUID :=
  dr_RoomID <$> sql_row (λ d, dr_LeftUserPublicKey d = left ∧ dr_RightUserPublicKey d = right
                              ∧ Exists (live_room (dr_RoomID d)) (chat_rooms (rooms db)))
                  (direct_rooms (rooms db)).

(** ** Methods *)

Section room_repo.
Context {E : Env}.

Definition ensureMember (c : Ctx) (roomID : UUID) (user : Bytes) : M ChatMemberRecord :=
  let* row := query c (λ db, sql_row (member_in roomID user) (chat_members (rooms db))) in
  of_option ErrForbidden row.

Definition ensureRoomAdmin (c : Ctx) (roomID : UUID) (user : Bytes) : M unit :=
  let* member := ensureMember c roomID user in
  if decide (mem_Role member < RoleAdmin) then raise ErrForbidden else ret tt.

Definition UpsertRoomGroupInfo (c : Ctx) (user : Bytes) (groupInfo : ChatRoomGroupInfoRecord) : M unit :=
  ensureMember c (gi_RoomID groupInfo) user ;;;
  exec_ c (stmt_upsert_group_info groupInfo).

Definition GetRoomGroupInfo (c : Ctx) (roomID : UUID) : M ChatRoomGroupInfoRecord :=
  let* row := query c (λ db, sql_row (λ g, gi_RoomID g = roomID) (chat_room_group_infos (rooms db))) in
  of_option ErrNotFound row.

Definition FindDirectRoomIDByUsers (c : Ctx) (leftUser rightUser : Bytes) : M (option UUID) :=
  let '(lo, hi) := orderedPublicKeyPair leftUser rightUser in
  query c (select_direct_room lo hi).

Definition RepoCreateRoom (c : Ctx) (room : ChatRoomRecord) (owner : ChatMemberRecord) : M unit :=
  exec_ c (stmt_insert_room room) ;;;
  exec_ c (stmt_insert_member owner).

Definition CreateDirectRoom (c : Ctx) (room : ChatRoomRecord) (left right : ChatMemberRecord)
  (direct : DirectRoomRecord) : M unit :=
  RepoCreateRoom c room left ;;;
  exec_ c (stmt_insert_direct_room direct) ;;;
  exec_ c (stmt_insert_member right).

Definition is_direct_room (roomID : UUID) (db : DB) : Prop :=
  Exists (λ d, dr_RoomID d = roomID) (direct_rooms (rooms db)) ∧ Exists (live_room roomID) (chat_rooms (rooms db)).
#[export] Instance is_direct_room_dec roomID db : Decision (is_direct_room roomID db).
Proof. unfold is_direct_room. apply _. Defined.

Definition IsDirectRoom (c : Ctx) (roomID : UUID) : M bool :=
  query c (λ db, bool_decide (is_direct_room roomID db)).

Definition UpsertRoomWelcome (c : Ctx) (welcome : ChatRoomWelcomeRecord) : M unit :=
  exec_ c (stmt_upsert_welcome welcome).

Definition GetRoomWelcome (c : Ctx) (roomID : UUID) (target : Bytes) : M ChatRoomWelcomeRecord :=
  ensureMember c roomID target ;;;
  let* direct := IsDirectRoom c roomID in
  if negb direct then raise ErrForbidden else
  let* activeMembers := query c (λ db, sql_count (active_in roomID) (chat_members (rooms db))) in
  if decide (activeMembers ≠ 2) then raise ErrForbidden else
  let* row := query c (λ db, sql_row (λ w, wel_RoomID w = roomID ∧ wel_TargetUserPublicKey w = target)
                         (chat_room_welcomes (rooms db))) in
  of_option ErrNotFound row.

Definition DeleteRoomWelcomesByTargetUser (c : Ctx) (target : Bytes) : M unit :=
  exec_ c (λ db, inr (set_chat_room_welcomes
    (sql_delete (λ w, wel_TargetUserPublicKey w = target) (chat_room_welcomes (rooms db))) db)).

Definition RepoListRooms (c : Ctx) (user : Bytes) (lim offset : Z) : M (list ChatRoomRecord) :=
  query c (λ db, room_record <$> limit_offset lim offset
    (order_by (desc2 r_updated_at (λ r, Z.of_N (r_room_id r)))
      (sql_select (λ r, Exists (member_in (r_room_id r) user) (chat_members (rooms db)) ∧ r_deleted_at r = None)
         (chat_rooms (rooms db))))).

Definition GetRoom (c : Ctx) (roomID : UUID) : M ChatRoomRecord :=
  let* row := query c (λ db, sql_row (live_room roomID) (chat_rooms (rooms db))) in
  of_option ErrNotFound (room_record <$> row).

Definition RepoSearchRooms (c : Ctx) (q : string) (lim offset : Z) : M (list ChatRoomRecord) :=
  query c (λ db, room_record <$> limit_offset lim offset
    (order_by (desc2 r_updated_at (λ r, Z.of_N (r_room_id r)))
      (sql_select (λ r, r_deleted_at r = None ∧ r_visibility r = VisibilityPublic
                        ∧ sql_matches (r_title r) q = true) (chat_rooms (rooms db))))).

Definition RepoUpdateRoom (c : Ctx) (user : Bytes) (roomID : UUID) (title description avatarHash : string)
  (updatedAt : Time) : M unit :=
  let* room := GetRoom c roomID in
  if decide (room_OwnerPublicKey room ≠ user) then raise ErrForbidden else
  exec_ c (λ db, inr (set_chat_rooms
    (sql_update (λ r, r_room_id r = roomID) (r_set_info title description avatarHash updatedAt)
       (chat_rooms (rooms db))) db)).

Definition RepoDeleteRoom (c : Ctx) (user : Bytes) (roomID : UUID) (deletedAt : Time) : M unit :=
  let* room := GetRoom c roomID in
  if decide (room_OwnerPublicKey room ≠ user) then raise ErrForbidden else
  exec_ c (λ db, inr (set_chat_rooms
    (sql_update (λ r, r_room_id r = roomID) (r_set_deleted deletedAt) (chat_rooms (rooms db))) db)).

Definition GetRoomAvatar (c : Ctx) (roomID : UUID) : M AvatarRecord :=
  let* row := query c (λ db, sql_row (live_room roomID) (chat_rooms (rooms db))) in
  of_option ErrNotFound
    ((λ r, mkAvatarRecord (default [] (r_avatar_bytes r)) (COALESCE (r_avatar_content_type r))) <$> row).

Definition AddRoomState (c : Ctx) (user : Bytes) (state : ChatRoomStateRecord) : M unit :=
  ensureMember c (rs_RoomID state) user ;;;
  exec_ c (stmt_insert_room_state state) ;;;
  exec_ c (λ db, inr (set_chat_rooms
    (sql_update (λ r, r_room_id r = rs_RoomID state) (r_set_state (rs_ID state) (rs_CreatedAt state))
       (chat_rooms (rooms db))) db)).

Definition FetchRoomState (c : Ctx) (user : Bytes) (roomID : UUID) (epoch : Z) : M ChatRoomStateRecord :=
  ensureMember c roomID user ;;;
  let* row := query c (λ db, sql_row (λ s, rs_RoomID s = roomID ∧ rs_Epoch s = epoch)
                         (chat_room_states (rooms db))) in
  of_option ErrNotFound row.

Definition RepoJoinRoom (c : Ctx) (member : ChatMemberRecord) : M unit :=
  let* room := GetRoom c (mem_RoomID member) in
  if decide (room_Visibility room = VisibilityPrivate) then raise ErrForbidden else
  exec_ c (stmt_upsert_member member).

Definition UpsertRoomMembership (c : Ctx) (member : ChatMemberRecord) : M unit :=
  GetRoom c (mem_RoomID member) ;;;
  exec_ c (stmt_upsert_member member).

Definition RepoLeaveRoom (c : Ctx) (roomID : UUID) (user : Bytes) (leftAt : Time) : M unit :=
  let* rows := exec c (stmt_leave roomID user leftAt) in
  if decide (rows = 0) then raise ErrNotFound else ret tt.

Definition KickMember (c : Ctx) (actor : Bytes) (roomID : UUID) (target : Bytes) (kickedAt : Time) : M unit :=
  ensureRoomAdmin c roomID actor ;;;
  exec c (stmt_leave roomID target kickedAt) ;;;
  ret tt.

Definition ListMembers (c : Ctx) (roomID : UUID) (lim offset : Z) : M (list ChatMemberRecord) :=
  query c (λ db, limit_offset lim offset (order_by (asc_bytes mem_JoinedAt mem_UserPublicKey)
    (sql_select (active_in roomID) (chat_members (rooms db))))).

Definition UpdateMemberRole (c : Ctx) (actor : Bytes) (roomID : UUID) (target : Bytes) (role : Z)
  (updatedAt : Time) : M unit :=
  ensureRoomAdmin c roomID actor ;;;
  exec_ c (stmt_set_role roomID target role).

Definition CreateMemberPermission (c : Ctx) (actor : Bytes) (permission : ChatMemberPermissionRecord) : M unit :=
  ensureRoomAdmin c (perm_RoomID permission) actor ;;;
  exec_ c (stmt_upsert_permission permission).

Definition RepoListMemberPermissions (c : Ctx) (roomID : UUID) (user : Bytes) (lim offset : Z)
  : M (list ChatMemberPermissionRecord) :=
  query c (λ db, limit_offset lim offset (order_by (desc2 perm_CreatedAt (λ p, Z.of_N (perm_PermissionID p)))
    (if decide (length user = 32%nat)
     then sql_select (λ p, perm_RoomID p = roomID ∧ perm_UserPublicKey p = user) (chat_member_permissions (rooms db))
     else sql_select (λ p, perm_RoomID p = roomID) (chat_member_permissions (rooms db))))).

Definition lookupPermissionRoom (c : Ctx) (permissionID : UUID) : M UUID :=
  let* row := query c (λ db, sql_row (λ p, perm_PermissionID p = permissionID) (chat_member_permissions (rooms db))) in
  of_option ErrNotFound (perm_RoomID <$> row).

Definition UpdateMemberPermission (c : Ctx) (actor : Bytes) (permissionID : UUID) (isAllowed : bool)
  (updatedAt : Time) : M unit :=
  let* roomID := lookupPermissionRoom c permissionID in
  ensureRoomAdmin c roomID actor ;;;
  exec_ c (λ db, inr (set_chat_member_permissions
    (sql_update (λ p, perm_PermissionID p = permissionID) (perm_set_allowed isAllowed updatedAt)
       (chat_member_permissions (rooms db))) db)).

Definition DeleteMemberPermission (c : Ctx) (actor : Bytes) (permissionID : UUID) (deletedAt : Time) : M unit :=
  let* roomID := lookupPermissionRoom c permissionID in
  ensureRoomAdmin c roomID actor ;;;
  exec_ c (λ db, inr (set_chat_member_permissions
    (sql_delete (λ p, perm_PermissionID p = permissionID) (chat_member_permissions (rooms db))) db)).

Definition CreateInvitation (c : Ctx) (invitation : ChatInvitationRecord) : M unit :=
  ensureRoomAdmin c (inv_RoomID invitation) (inv_InviterPublicKey invitation) ;;;
  exec_ c (stmt_insert_invitation invitation).

Definition GetInvitation (c : Ctx) (invitationID : UUID) : M ChatInvitationRecord :=
  let* row := query c (λ db, sql_row (λ i, inv_InvitationID i = invitationID) (chat_invitations (rooms db))) in
  of_option ErrNotFound row.

Definition RepoListSentInvitations (c : Ctx) (inviter : Bytes) (roomID : option UUID) (lim offset : Z)
  : M (list ChatInvitationRecord) :=
  query c (λ db, limit_offset lim offset (order_by (desc2 inv_CreatedAt (λ i, Z.of_N (inv_InvitationID i)))
    (match roomID with
     | None => sql_select (λ i, inv_InviterPublicKey i = inviter) (chat_invitations (rooms db))
     | Some id => sql_select (λ i, inv_InviterPublicKey i = inviter ∧ inv_RoomID i = id) (chat_invitations (rooms db))
     end))).

Definition RepoListIncomingInvitations (c : Ctx) (invitee : Bytes) (lim offset : Z) : M (list ChatInvitationRecord) :=
  query c (λ db, limit_offset lim offset (order_by (desc2 inv_CreatedAt (λ i, Z.of_N (inv_InvitationID i)))
    (sql_select (λ i, inv_InviteePublicKey i = invitee) (chat_invitations (rooms db))))).

Definition UpdateInvitationState (c : Ctx) (invitationID : UUID) (actor : Bytes) (targetState : Z)
  (updatedAt : Time) (allowedCurrentStates : list Z) : M ChatInvitationRecord :=
  let* record := GetInvitation c invitationID in
  if decide (actor ≠ inv_InviterPublicKey record ∧ actor ≠ inv_InviteePublicKey record)
  then raise ErrForbidden else
  if negb (containsState allowedCurrentStates (inv_State record)) then raise ErrConflict else
  let* row := exec c (stmt_set_invitation_state invitationID targetState updatedAt) in
  of_option ErrNoRows row.

Definition FindPendingInvitation (c : Ctx) (roomID : UUID) (invitee : Bytes) : M (option ChatInvitationRecord) :=
  query c (λ db, head (limit 1 (order_by (desc inv_CreatedAt)
    (sql_select (λ i, inv_RoomID i = roomID ∧ inv_InviteePublicKey i = invitee ∧ inv_State i = InvitationPending)
       (chat_invitations (rooms db)))))).

Definition ListActiveRoomMemberPublicKeys (c : Ctx) (roomID : UUID) : M (list Bytes) :=
  query c (λ db, mem_UserPublicKey <$> sql_select (active_in roomID) (chat_members (rooms db))).
End room_repo.
