(* ===== verification/ClientService.v ===== *)
(** * ClientService: internal/application/clientapi, identities and friends

    The operations of the client API on profiles, devices, key packages,
    friends, statistics and usage, with the mappers of their results.  A
    result is the [map[string]any] the handler encodes.  The operations on
    rooms and messages are in [RoomService]. *)

From Stdlib Require Import ZArith.
From S2P Require Import Prelude GoLib GoTime Domain Database Effects Pagination AuthRepo AuthService.
From S2P Require Import ClientRepo FriendRepo RoomRepo.

Local Open Scope Z_scope.

Record ClientConfig : Type := mkClientConfig {
  cfg_AppName : string; cfg_Version : string; cfg_SessionChallengeTTL : Duration;
  cfg_EventRetention : Duration; cfg_EventBatchSize : Z }.

(** [NewService]: [deps] tells whether every dependency is not nil. *)
Definition NewClientService (cfg : ClientConfig) (deps : bool) : error + ClientConfig :=
  if negb deps then inl (EText "all dependencies are required") else
  inr (mkClientConfig (cfg_AppName cfg)
    (if decide (cfg_Version cfg = ""%string) then "2"%string else cfg_Version cfg)
    (cfg_SessionChallengeTTL cfg)
    (if decide (cfg_EventRetention cfg ≤ 0) then 24 * Hour else cfg_EventRetention cfg)
    (if decide (cfg_EventBatchSize cfg ≤ 0) then 100 else cfg_EventBatchSize cfg)).

(** The session lookup the service depends on: [auth.Service.LookupSession]
    in the program. *)
Class SessionLookup {E : Env} : Type := lookup_session : Ctx → UUID → M Session.

(** ** mappers.go *)

Definition nullableString (value : string) : any :=
  if decide (TrimSpace value = ""%string) then ANil else AString value.

Definition fallbackContentType (value : string) : string :=
  if decide (TrimSpace value = ""%string) then "application/octet-stream"%string else value.

Definition profileToMap (record : ProfileRecord) : GoMap :=
  [("publicKey", ABytes (pr_PublicKey record)); ("username", AString (pr_Username record));
   ("displayName", nullableString (pr_DisplayName record)); ("bio", nullableString (pr_Bio record));
   ("lastSeenAt", AFormatted (pr_LastSeenAt record))]%string.

Definition roomToMap (record : ChatRoomRecord) : GoMap :=
  [("roomId", AUUID (room_RoomID record)); ("ownerPublicKey", ABytes (room_OwnerPublicKey record));
   ("title", AString (room_Title record)); ("description", nullableString (room_Description record));
   ("visibility", AInt KInt (room_Visibility record));
   ("stateId", match room_StateID record with Some id => AUUID id | None => ANil end)]%string.

Definition invitationToMap (record : ChatInvitationRecord) : any :=
  AMap [("invitationId", AUUID (inv_InvitationID record)); ("roomId", AUUID (inv_RoomID record));
   ("inviterPublicKey", ABytes (inv_InviterPublicKey record));
   ("inviteePublicKey", ABytes (inv_InviteePublicKey record));
   ("expiresAt", match inv_ExpiresAt record with Some t => AFormatted t | None => ANil end);
   ("inviteToken", ABytes (inv_InviteToken record));
   ("inviteTokenSignature", ABytes (inv_InviteTokenSignature record));
   ("state", AInt KInt (inv_State record)); ("createdAt", AFormatted (inv_CreatedAt record))]%string.

Definition invitationRecordsToMaps (records : list ChatInvitationRecord) : any :=
  AList (invitationToMap <$> records).

(** Integers are microseconds; unsigned ones are converted to [int64]. *)
Definition parseTimeValue (value : any) : error + Time :=
  match value with
  | ATime t => inr t
  | AString s => match ParseRFC3339Nano s with
                 | Some t => inr t
                 | None => inl (EText "parsing time: cannot parse")
                 end
  | AInt (KInt64 | KInt | KInt32) z => inr z
  | AInt (KUint64 | KUint32 | KUint) z => inr (int64 z)
  | _ => inl (EText "invalid time value")
  end.

Definition usageStatToMap (stat : UsageStat) : any :=
  AMap [("requests", AInt KInt64 (stat_Requests stat)); ("bytesIn", AInt KInt64 (stat_BytesIn stat));
        ("bytesOut", AInt KInt64 (stat_BytesOut stat))]%string.

Definition of_sum {A} (r : error + A) : M A := match r with inl e => raise e | inr a => ret a end.

Section service.
Context {E : Env} {App : EventAppender} {Lk : SessionLookup} (cfg : ClientConfig).

(** [service.appendEvent]: keys of the wrong size get no event. *)
Definition appendEvent (c : Ctx) (user : Bytes) (eventType : string) (payload : GoMap) : M unit :=
  if decide (length user ≠ PublicKeySize) then ret tt else
  let* now := Now in
  let* eventID := NewUUID in
  append_event c (mkEvent eventID user None eventType payload now (now + cfg_EventRetention cfg) None now).

(** [_ = s.appendEvent(...)] for each user. *)
Definition appendEvents (c : Ctx) (users : list Bytes) (eventType : string) (payload : GoMap) : M unit :=
  for_each users (λ user, ignore_error (appendEvent c user eventType payload)).

(** ** Profiles *)

Definition SvcGetProfile (c : Ctx) (target : Bytes) : M GoMap :=
  if decide (length target ≠ PublicKeySize) then raise ErrInvalidPublicKey else
  let* record := GetProfile c target in
  let* now := Now in
  let* banStatus := GetActiveBanStatus c target now in
  let banStatusValue := match banStatus with
    | Some b => AMap [("isBanned", ABool (ban_IsBanned b)); ("reason", nullableString (ban_Reason b))]%string
    | None => ANil
    end in
  ret [("profile", AMap (profileToMap record)); ("banStatus", banStatusValue)]%string.

(** The loop of [UpdateProfile] over the pages of the friend list; [fuel]
    bounds the number of pages. *)
Fixpoint notify_friends (fuel : nat) (c : Ctx) (user : Bytes) (payload : GoMap) (offset : Z) : M unit :=
  match fuel with
  | O => panic "notify_friends: out of fuel"
  | S fuel =>
      let limit := cfg_EventBatchSize cfg in
      let* friends := RepoListFriends c user limit offset in
      appendEvents c (fr_FriendPublicKey <$> friends) "profile.updated" payload ;;;
      if decide (Z.of_nat (length friends) < limit) then ret tt
      else notify_friends fuel c user payload (offset + limit)
  end.

(** Enough fuel: one page per friend row, and the last, short one. *)
Definition friend_fuel (w : World) : nat := S (length (friends (social (w_db w)))).

Definition SvcUpdateProfile (c : Ctx) (user : Bytes) (username displayName avatarHash bio : string) : M GoMap :=
  let* now := Now in
  UpdateProfile c user username displayName avatarHash bio now ;;;
  (λ w, notify_friends (friend_fuel w) c user
     [("userPublicKey", ABytes user); ("username", AString username); ("displayName", AString displayName);
      ("avatarHash", AString avatarHash); ("bio", AString bio); ("updatedAt", AFormatted now)]%string 0 w) ;;;
  ret [("updatedAt"%string, AFormatted now)].

Definition SvcSearchProfiles (c : Ctx) (q : string) (lim : Z) (cursor : string) : M GoMap :=
  let limit := normalizeLimit lim 20 in
  let* offset := of_sum (decodeOffsetCursor cursor) in
  let* records := SearchProfiles c q (limit + 1) offset in
  let '(records, nextCursor) := paginateSlice records limit offset in
  ret [("items", AList ((λ r, AMap [("publicKey", ABytes (pr_PublicKey r)); ("username", AString (pr_Username r));
                                    ("displayName", nullableString (pr_DisplayName r))]) <$> records));
       ("nextCursor", nextCursor)]%string.

Definition SvcDeleteAccount (c : Ctx) (user : Bytes) : M GoMap :=
  let* now := Now in
  WithinTransaction c (λ txCtx, RepoDeleteAccount txCtx user now) ;;;
  ret [("deletedAt"%string, AFormatted now)].

Definition SvcGetProfileAvatar (c : Ctx) (user : Bytes) : M GoMap :=
  let* avatar := GetProfileAvatar c user in
  ret [("avatarBytes", ABytes (av_Bytes avatar));
       ("contentType", AString (fallbackContentType (av_ContentType avatar)))]%string.

(** ** Devices and key packages *)

Definition SvcListDevices (c : Ctx) (user : Bytes) : M GoMap :=
  let* devices := RepoListDevices c user in
  ret [("items"%string, AList ((λ d, AMap [("deviceId", AUUID (dev_ID d)); ("platform", AInt KInt (dev_Platform d));
         ("pushToken", AString (dev_PushToken d)); ("isEnabled", ABool (dev_IsEnabled d));
         ("updatedAt", AFormatted (dev_UpdatedAt d))]%string) <$> devices))].

Definition RegisterDevicePushToken (c : Ctx) (sessionID : UUID) (user : Bytes) (platform : Z)
  (pushToken : string) (isEnabled : bool) : M GoMap :=
  let* session := lookup_session c sessionID in
  let* now := Now in
  let* id := NewUUID in
  let* device := UpsertDevice c (mkDeviceRecord id (Some sessionID) user (ses_DeviceID session) platform
                                   pushToken isEnabled now) in
  ret [("id", AUUID (dev_ID device)); ("updatedAt", AFormatted now)]%string.

Definition SvcRemoveDevice (c : Ctx) (user : Bytes) (deviceID : UUID) : M GoMap :=
  let* now := Now in
  RepoRemoveDevice c user deviceID now ;;;
  ret [("removedAt"%string, AFormatted now)].

Definition key_package_of (session : Session) (user : Bytes) (now : Time) (item : GoMap) : M KeyPackageRecord :=
  let* expiresAt := of_sum (parseTimeValue (default ANil (map_get item "expiresAt"))) in
  let* bytesValue := of_option (EText "keyPackageBytes is required") (get_bytes item "keyPackageBytes") in
  let isLastResort := match map_get item "isLastResort" with Some (ABool b) => b | _ => false end in
  let* id := NewUUID in
  ret (mkKeyPackageRecord id user (ses_DeviceID session) bytesValue isLastResort now expiresAt).

Definition UploadKeyPackages (c : Ctx) (sessionID : UUID) (user : Bytes) (packages : list GoMap) : M GoMap :=
  let* session := lookup_session c sessionID in
  let* now := Now in
  let* records := map_each packages (key_package_of session user now) in
  (match records with
   | [] => ret tt
   | _ => DeleteKeyPackagesByUserDevice c user (ses_DeviceID session)
   end) ;;;
  let* recordedCount := InsertKeyPackages c records in
  ret [("recordedCount"%string, AInt KInt recordedCount)].

Definition SvcFetchKeyPackages (c : Ctx) (userPublicKeys : list Bytes) : M GoMap :=
  let* now := Now in
  let* records := RepoFetchKeyPackages c userPublicKeys now in
  ret [("items"%string, AList ((λ r, AMap [("userPublicKey", ABytes (kp_UserPublicKey r));
         ("deviceId", AString (kp_DeviceID r)); ("keyPackageBytes", ABytes (kp_KeyPackageBytes r))]%string) <$> records))].

(** ** Friends *)

Definition SvcListFriends (c : Ctx) (user : Bytes) (lim : Z) (cursor : string) : M GoMap :=
  let limit := normalizeLimit lim 50 in
  let* offset := of_sum (decodeOffsetCursor cursor) in
  let* friends := RepoListFriends c user (limit + 1) offset in
  let* totalCount := CountFriends c user in
  let '(friends, nextCursor) := paginateSlice friends limit offset in
  ret [("items", AList ((λ f, AMap [("id", AUUID (fr_ID f)); ("friendId", ABytes (fr_FriendPublicKey f));
                                    ("acceptedAt", AFormatted (fr_AcceptedAt f))]) <$> friends));
       ("nextCursor", nextCursor); ("totalCount", AInt KInt64 totalCount)]%string.

Definition SvcRemoveFriend (c : Ctx) (user friendPublicKey : Bytes) : M GoMap :=
  let* now := Now in
  RepoRemoveFriend c user friendPublicKey now ;;;
  ignore_error (appendEvent c friendPublicKey "friend.removed" [("userPublicKey"%string, ABytes user)]) ;;;
  ret [("removedAt"%string, AFormatted now)].

Definition SendFriendRequest (c : Ctx) (user receiver : Bytes) : M GoMap :=
  if decide (length receiver ≠ PublicKeySize) then raise ErrInvalidPublicKey else
  let* now := Now in
  let* requestID := NewUUID in
  let record := mkFriendRequest requestID user receiver FriendRequestPending now now in
  CreateFriendRequest c record ;;;
  ignore_error (appendEvent c receiver "friend.requestReceived"
    [("requestId", AString (uuid_String requestID)); ("senderPublicKey", ABytes user)]%string) ;;;
  ret [("requestId", AUUID requestID); ("state", AInt KInt (freq_State record)); ("createdAt", AFormatted now)]%string.

Definition accept_friend_tx (user : Bytes) (requestID friendID : UUID) (now : Time) (txCtx : Ctx) : M unit :=
  let* record := UpdateFriendRequestState txCtx requestID user [FriendRequestPending] FriendRequestAccepted now in
  let* otherID := NewUUID in
  CreateFriendPair txCtx
    (mkFriend friendID (freq_SenderPublicKey record) (freq_ReceiverPublicKey record) now)
    (mkFriend otherID (freq_ReceiverPublicKey record) (freq_SenderPublicKey record) now) ;;;
  appendEvent txCtx (freq_SenderPublicKey record) "friend.requestAccepted"
    [("requestId", AString (uuid_String requestID)); ("friendPublicKey", ABytes user)]%string.

Definition AcceptFriendRequest (c : Ctx) (user : Bytes) (requestID : UUID) : M GoMap :=
  let* now := Now in
  let* friendID := NewUUID in
  WithinTransaction c (accept_friend_tx user requestID friendID now) ;;;
  ret [("friendId", AUUID friendID); ("acceptedAt", AFormatted now)]%string.

Definition DeclineFriendRequest (c : Ctx) (user : Bytes) (requestID : UUID) : M GoMap :=
  let* now := Now in
  let* record := UpdateFriendRequestState c requestID user [FriendRequestPending] FriendRequestDeclined now in
  ignore_error (appendEvent c (freq_SenderPublicKey record) "friend.requestDeclined"
    [("requestId"%string, AString (uuid_String requestID))]) ;;;
  ret [("requestId", AUUID requestID); ("declinedAt", AFormatted now)]%string.

Definition CancelFriendRequest (c : Ctx) (user : Bytes) (requestID : UUID) : M GoMap :=
  let* now := Now in
  let* record := UpdateFriendRequestState c requestID user [FriendRequestPending] FriendRequestCanceled now in
  ignore_error (appendEvent c (freq_ReceiverPublicKey record) "friend.requestCanceled"
    [("requestId"%string, AString (uuid_String requestID))]) ;;;
  ret [("canceledAt"%string, AFormatted now)].

Definition SvcListFriendRequests (c : Ctx) (user : Bytes) (direction : string) (lim : Z) (cursor : string) : M GoMap :=
  let limit := normalizeLimit lim 50 in
  let* offset := of_sum (decodeOffsetCursor cursor) in
  let* records := RepoListFriendRequests c user direction (limit + 1) offset in
  let '(records, nextCursor) := paginateSlice records limit offset in
  ret [("items", AList ((λ r, AMap [("requestId", AUUID (freq_RequestID r));
          ("senderPublicKey", ABytes (freq_SenderPublicKey r));
          ("receiverPublicKey", ABytes (freq_ReceiverPublicKey r)); ("state", AInt KInt (freq_State r))]) <$> records));
       ("nextCursor", nextCursor)]%string.

(** ** Limits and usage *)

Definition GetServerLimits (c : Ctx) : M GoMap :=
  let* stats := CountServerStats c in
  ret [("limits", AMap [("eventBatchSize", AInt KInt (cfg_EventBatchSize cfg));
                        ("challengeTTLSeconds", AInt KInt64 (Z.quot (cfg_SessionChallengeTTL cfg) Second))]);
       ("spent", AMap [("profiles", AInt KInt64 (ss_Profiles stats)); ("devices", AInt KInt64 (ss_Devices stats));
                       ("friends", AInt KInt64 (ss_Friends stats)); ("rooms", AInt KInt64 (ss_Rooms stats))])]%string.

Definition GetUserLimits (c : Ctx) (user : Bytes) : M GoMap :=
  let* stats := CountUserStats c user in
  ret [("limits", AMap [("devices", AInt KInt 10); ("keyPackages", AInt KInt 1000); ("rooms", AInt KInt 100)]);
       ("spent", AMap [("devices", AInt KInt64 (us_Devices stats)); ("keyPackages", AInt KInt64 (us_KeyPackages stats));
                       ("friends", AInt KInt64 (us_Friends stats));
                       ("outgoingFriendRequests", AInt KInt64 (us_OutgoingFriendRequests stats));
                       ("rooms", AInt KInt64 (us_Rooms stats))])]%string.

Definition GetGroupLimits (c : Ctx) (roomID : UUID) : M GoMap :=
  let* stats := CountGroupStats c roomID in
  ret [("limits", AMap [("members", AInt KInt 1000); ("invites", AInt KInt 10000)]);
       ("spent", AMap [("members", AInt KInt64 (gs_Members stats)); ("invites", AInt KInt64 (gs_Invites stats))])]%string.

Definition GetServerConfig : M GoMap :=
  let* now := Now in
  ret [("config", AMap [("updatedAt", AFormatted now); ("version", AString (cfg_Version cfg))])]%string.

Definition RecordUserUsage (c : Ctx) (user : Bytes) (requests bytesIn bytesOut : Z) : M unit :=
  if decide (length user ≠ PublicKeySize) then ret tt else
  let* now := Now in
  RepoRecordUserUsage c user now requests bytesIn bytesOut.

Definition GetMyUsageStats (c : Ctx) (user : Bytes) : M GoMap :=
  if decide (length user ≠ PublicKeySize) then raise ErrInvalidPublicKey else
  let* now := Now in
  let* stats := GetUserUsageStats c user now in
  ret [("minute", usageStatToMap (stats_Minute stats)); ("hour", usageStatToMap (stats_Hour stats));
       ("day", usageStatToMap (stats_Day stats)); ("week", usageStatToMap (stats_Week stats));
       ("month", usageStatToMap (stats_Month stats)); ("allTime", usageStatToMap (stats_AllTime stats))]%string.
End service.
