(* ===== verification/RoomService.v ===== *)
(** * RoomService: internal/application/clientapi, rooms and messages

    The operations of the client API on rooms, members, permissions,
    invitations, direct rooms and MLS messages. *)

From Stdlib Require Import ZArith.
From S2P Require Import Prelude GoLib GoTime Domain Database Effects Pagination AuthRepo AuthService.
From S2P Require Import ClientRepo FriendRepo RoomRepo ClientService.

Local Open Scope Z_scope.

Section service.
Context {E : Env} {App : EventAppender} (cfg : ClientConfig).

Definition new_member (roomID : UUID) (user : Bytes) (role : Z) (now : Time) : ChatMemberRecord :=
  mkMember roomID user role NotificationAll now None.

(** [members, _ := s.store.ListActiveRoomMemberPublicKeys(...)] *)
Definition members_or_nil (c : Ctx) (roomID : UUID) : M (list Bytes) :=
  let* r := attempt (ListActiveRoomMemberPublicKeys c roomID) in
  ret (match r with inl _ => [] | inr l => l end).

Definition others (user : Bytes) (members : list Bytes) : list Bytes := filter (λ m, m ≠ user) members.

(** ** MLS *)

Definition SendCommit (c : Ctx) (user : Bytes) (roomID : UUID) (commitBytes : Bytes) : M GoMap :=
  let* now := Now in
  let* members := ListActiveRoomMemberPublicKeys c roomID in
  appendEvents cfg c (others user members) "mlsCommitReceived"
    [("roomId", AString (uuid_String roomID)); ("commitBytes", ABytes commitBytes)]%string ;;;
  ret [("acceptedAt"%string, AFormatted now)].

Definition SendWelcome (c : Ctx) (user : Bytes) (requestedRoomID : option UUID) (target welcomeBytes : Bytes)
  : M GoMap :=
  let* now := Now in
  let* room :=
    match requestedRoomID with
    | Some id =>
        if decide (id ≠ uuid_Nil) then
          let* direct := IsDirectRoom c id in ret (if direct then Some id else None)
        else FindDirectRoomIDByUsers c user target
    | None => FindDirectRoomIDByUsers c user target
    end in
  (match room with
   | Some roomID => UpsertRoomWelcome c (mkWelcome roomID target user welcomeBytes now now)
   | None => ret tt
   end) ;;;
  appendEvent cfg c target "mlsWelcomeReceived"
    [("targetUserPublicKey", ABytes target); ("welcomeBytes", ABytes welcomeBytes)]%string ;;;
  ret [("acceptedAt"%string, AFormatted now)].

Definition UploadGroupInfo (c : Ctx) (user : Bytes) (roomID : UUID) (groupInfoBytes : Bytes) : M GoMap :=
  let* now := Now in
  UpsertRoomGroupInfo c user (mkGroupInfo roomID user groupInfoBytes now now) ;;;
  ret [("acceptedAt"%string, AFormatted now)].

Definition FetchGroupInfo (c : Ctx) (roomID : UUID) : M GoMap :=
  let* room := GetRoom c roomID in
  if decide (room_Visibility room ≠ VisibilityPublic) then raise ErrForbidden else
  let* record := GetRoomGroupInfo c roomID in
  ret [("groupInfoBytes"%string, ABytes (gi_GroupInfoBytes record))].

Definition external_commit_payload (roomID : UUID) (commitBytes user : Bytes) : GoMap :=
  [("roomId", AString (uuid_String roomID)); ("commitBytes", ABytes commitBytes);
   ("joinerPublicKey", ABytes user)]%string.

Definition SendExternalCommit (c : Ctx) (user : Bytes) (roomID : UUID) (commitBytes : Bytes) : M GoMap :=
  let* now := Now in
  let* room := GetRoom c roomID in
  if decide (room_Visibility room ≠ VisibilityPublic) then raise ErrForbidden else
  GetRoomGroupInfo c roomID ;;;
  let* existingMembers := ListActiveRoomMemberPublicKeys c roomID in
  WithinTransaction c (λ txCtx, UpsertRoomMembership txCtx (new_member roomID user RoleMember now)) ;;;
  appendEvents cfg c (others user existingMembers) "mlsExternalCommitReceived"
    (external_commit_payload roomID commitBytes user) ;;;
  ret [("acceptedAt"%string, AFormatted now)].

Definition FetchWelcome (c : Ctx) (user : Bytes) (roomID : UUID) : M GoMap :=
  let* direct := IsDirectRoom c roomID in
  if negb direct then raise ErrForbidden else
  let* record := GetRoomWelcome c roomID user in
  ret [("welcomeBytes"%string, ABytes (wel_WelcomeBytes record))].

(** ** Rooms *)

Definition CreateChatRoom (c : Ctx) (user : Bytes) (title description : string) (visibility : Z) : M GoMap :=
  let* now := Now in
  let* roomID := NewUUID in
  WithinTransaction c (λ txCtx, RepoCreateRoom txCtx
    (mkRoom roomID user title description visibility "" [] "" None now now None)
    (new_member roomID user RoleOwner now)) ;;;
  ret [("roomId", AUUID roomID); ("createdAt", AFormatted now)]%string.

Definition existing_direct_room (roomID : UUID) : GoMap :=
  [("roomId", AUUID roomID); ("alreadyExisted", ABool true); ("createdAt", ANil)]%string.

(** The transaction of [CreateDirectRoom]: it assigns [room.RoomID] when
    another transaction has created the room meanwhile. *)
Definition direct_room_tx (user target : Bytes) (roomID : UUID) (now : Time) (txCtx : Ctx)
  : M (UUID * option error) :=
  let* found := FindDirectRoomIDByUsers txCtx user target in
  match found with
  | Some id => ret (id, Some ErrConflict)
  | None =>
      let '(leftKey, rightKey) := orderedPublicKeyPair user target in
      let* r := attempt (CreateDirectRoom txCtx
        (mkRoom roomID user "Direct" "" VisibilityPrivate "" [] "" None now now None)
        (new_member roomID user RoleOwner now) (new_member roomID target RoleMember now)
        (mkDirectRoom roomID leftKey rightKey now)) in
      ret (roomID, match r with inl e => Some e | inr _ => None end)
  end.

Definition SvcCreateDirectRoom (c : Ctx) (user target : Bytes) : M GoMap :=
  if decide (length target ≠ PublicKeySize) then raise ErrInvalidPublicKey else
  if decide (user = target) then raise ErrForbidden else
  let* friends := AreFriends c user target in
  if negb friends then raise ErrForbidden else
  let* found := FindDirectRoomIDByUsers c user target in
  match found with
  | Some roomID => ret (existing_direct_room roomID)
  | None =>
      let* now := Now in
      let* roomID := NewUUID in
      let* r := WithinTransactionCapturing c (direct_room_tx user target roomID now) in
      match r with
      | (_, None) => ret [("roomId", AUUID roomID); ("alreadyExisted", ABool false); ("createdAt", AFormatted now)]%string
      | (id, Some e) => if Is e ErrConflict then ret (existing_direct_room id) else raise e
      end
  end.

Definition room_item (room : ChatRoomRecord) : any :=
  AMap [("roomId", AUUID (room_RoomID room)); ("title", AString (room_Title room));
        ("updatedAt", AFormatted (room_UpdatedAt room))]%string.

Definition SvcListRooms (c : Ctx) (user : Bytes) (lim : Z) (cursor : string) : M GoMap :=
  let limit := normalizeLimit lim 50 in
  let* offset := of_sum (decodeOffsetCursor cursor) in
  let* rooms := RepoListRooms c user (limit + 1) offset in
  let '(rooms, nextCursor) := paginateSlice rooms limit offset in
  ret [("items", AList (room_item <$> rooms)); ("nextCursor", nextCursor)]%string.

Definition GetChatRoom (c : Ctx) (roomID : UUID) : M GoMap :=
  let* room := GetRoom c roomID in
  ret [("room"%string, AMap (roomToMap room))].

Definition SvcSearchRooms (c : Ctx) (q : string) (lim : Z) (cursor : string) : M GoMap :=
  let limit := normalizeLimit lim 50 in
  let* offset := of_sum (decodeOffsetCursor cursor) in
  let* rooms := RepoSearchRooms c q (limit + 1) offset in
  let '(rooms, nextCursor) := paginateSlice rooms limit offset in
  ret [("items", AList (room_item <$> rooms)); ("nextCursor", nextCursor)]%string.

Definition SyncChatRoom (c : Ctx) (roomID : UUID) : M GoMap :=
  let* room := GetRoom c roomID in
  let* now := Now in
  ret [("room", AMap (roomToMap room)); ("syncedAt", AFormatted now)]%string.

Definition UpdateChatRoom (c : Ctx) (user : Bytes) (roomID : UUID) (title description avatarHash : string) : M GoMap :=
  let* now := Now in
  RepoUpdateRoom c user roomID title description avatarHash now ;;;
  ret [("updatedAt"%string, AFormatted now)].

Definition UpdateChatRoomState (c : Ctx) (user : Bytes) (roomID groupID : UUID) (epoch : Z)
  (treeBytes treeHash : option Bytes) : M GoMap :=
  let* now := Now in
  let* id := NewUUID in
  WithinTransaction c (λ txCtx, AddRoomState txCtx user (mkRoomState id roomID groupID epoch treeBytes treeHash now)) ;;;
  ret [("acceptedAt"%string, AFormatted now)].

Definition FetchChatRoomState (c : Ctx) (user : Bytes) (roomID : UUID) (epoch : Z) : M GoMap :=
  let* state := FetchRoomState c user roomID epoch in
  let bytes o := match o with Some b => ABytes b | None => ANil end in
  ret [("groupId", AUUID (rs_GroupID state)); ("epoch", AInt KInt64 (rs_Epoch state));
       ("treeBytes", bytes (rs_TreeBytes state)); ("treeHash", bytes (rs_TreeHash state))]%string.

Definition DeleteChatRoom (c : Ctx) (user : Bytes) (roomID : UUID) : M GoMap :=
  let* now := Now in
  let* members := members_or_nil c roomID in
  RepoDeleteRoom c user roomID now ;;;
  appendEvents cfg c members "room.deleted" [("roomId"%string, AString (uuid_String roomID))] ;;;
  ret [("deletedAt"%string, AFormatted now)].

Definition GetChatRoomAvatar (c : Ctx) (roomID : UUID) : M GoMap :=
  let* avatar := GetRoomAvatar c roomID in
  ret [("avatarBytes", ABytes (av_Bytes avatar));
       ("contentType", AString (fallbackContentType (av_ContentType avatar)))]%string.

(** ** Members *)

Definition member_payload (roomID : UUID) (user : Bytes) : GoMap :=
  [("roomId", AString (uuid_String roomID)); ("userPublicKey", ABytes user)]%string.

Definition JoinChatRoom (c : Ctx) (user : Bytes) (roomID : UUID) : M GoMap :=
  let* now := Now in
  RepoJoinRoom c (new_member roomID user RoleMember now) ;;;
  let* members := members_or_nil c roomID in
  appendEvents cfg c members "room.memberJoined" (member_payload roomID user) ;;;
  ret [("joinedAt"%string, AFormatted now)].

Definition LeaveChatRoom (c : Ctx) (user : Bytes) (roomID : UUID) : M GoMap :=
  let* now := Now in
  RepoLeaveRoom c roomID user now ;;;
  let* members := members_or_nil c roomID in
  appendEvents cfg c members "room.memberLeft" (member_payload roomID user) ;;;
  ret [("leftAt"%string, AFormatted now)].

Definition KickChatMember (c : Ctx) (user : Bytes) (roomID : UUID) (target : Bytes) : M GoMap :=
  let* now := Now in
  KickMember c user roomID target now ;;;
  ignore_error (appendEvent cfg c target "room.memberKicked" [("roomId"%string, AString (uuid_String roomID))]) ;;;
  ret [("kickedAt"%string, AFormatted now)].

Definition ListChatMembers (c : Ctx) (roomID : UUID) (lim : Z) (cursor : string) : M GoMap :=
  let limit := normalizeLimit lim 100 in
  let* offset := of_sum (decodeOffsetCursor cursor) in
  let* members := ListMembers c roomID (limit + 1) offset in
  let '(members, nextCursor) := paginateSlice members limit offset in
  ret [("items", AList ((λ m, AMap [("userPublicKey", ABytes (mem_UserPublicKey m)); ("role", AInt KInt (mem_Role m));
                                    ("joinedAt", AFormatted (mem_JoinedAt m))]) <$> members));
       ("nextCursor", nextCursor); ("totalCount", ANil)]%string.

Definition UpdateChatMemberRole (c : Ctx) (user : Bytes) (roomID : UUID) (target : Bytes) (role : Z) : M GoMap :=
  let* now := Now in
  UpdateMemberRole c user roomID target role now ;;;
  ignore_error (appendEvent cfg c target "room.memberRoleUpdated"
    [("roomId", AString (uuid_String roomID)); ("role", AInt KInt role)]%string) ;;;
  ret [("updatedAt"%string, AFormatted now)].

(** ** Permissions *)

Definition CreateChatMemberPermission (c : Ctx) (user : Bytes) (roomID : UUID) (target : Bytes)
  (permissionKey : string) (isAllowed : bool) : M GoMap :=
  let* now := Now in
  let* id := NewUUID in
  CreateMemberPermission c user (mkPermission id roomID target permissionKey isAllowed now now) ;;;
  ret [("id", AUUID id); ("createdAt", AFormatted now)]%string.

Definition ListChatMemberPermissions (c : Ctx) (roomID : UUID) (target : Bytes) (lim : Z) (cursor : string) : M GoMap :=
  let limit := normalizeLimit lim 100 in
  let* offset := of_sum (decodeOffsetCursor cursor) in
  let* records := RepoListMemberPermissions c roomID target (limit + 1) offset in
  let '(records, nextCursor) := paginateSlice records limit offset in
  ret [("items", AList ((λ p, AMap [("id", AUUID (perm_PermissionID p)); ("roomId", AUUID (perm_RoomID p));
          ("userPublicKey", ABytes (perm_UserPublicKey p)); ("permissionKey", AString (perm_PermissionKey p));
          ("isAllowed", ABool (perm_IsAllowed p)); ("createdAt", AFormatted (perm_CreatedAt p))]) <$> records));
       ("nextCursor", nextCursor)]%string.

Definition UpdateChatMemberPermission (c : Ctx) (user : Bytes) (permissionID : UUID) (isAllowed : bool) : M GoMap :=
  let* now := Now in
  UpdateMemberPermission c user permissionID isAllowed now ;;;
  ret [("updatedAt"%string, AFormatted now)].

Definition DeleteChatMemberPermission (c : Ctx) (user : Bytes) (permissionID : UUID) : M GoMap :=
  let* now := Now in
  DeleteMemberPermission c user permissionID now ;;;
  ret [("deletedAt"%string, AFormatted now)].

(** ** Invitations *)

Definition SendChatInvitation (c : Ctx) (user : Bytes) (roomID : UUID) (invitee : Bytes)
  (expiresAt : option Time) (inviteToken inviteTokenSignature : Bytes) : M GoMap :=
  let* now := Now in
  let* id := NewUUID in
  CreateInvitation c (mkInvitation id roomID user invitee expiresAt inviteToken inviteTokenSignature
                        InvitationPending now now) ;;;
  ignore_error (appendEvent cfg c invitee "room.invitationReceived"
    [("invitationId", AString (uuid_String id)); ("roomId", AString (uuid_String roomID))]%string) ;;;
  ret [("invitationId", AUUID id); ("createdAt", AFormatted now)]%string.

Definition invitation_payload (invitationID : UUID) : GoMap :=
  [("invitationId"%string, AString (uuid_String invitationID))].

Definition RevokeChatInvitation (c : Ctx) (user : Bytes) (invitationID : UUID) : M GoMap :=
  let* now := Now in
  let* record := UpdateInvitationState c invitationID user InvitationRevoked now [InvitationPending] in
  ignore_error (appendEvent cfg c (inv_InviteePublicKey record) "room.invitationRevoked" (invitation_payload invitationID)) ;;;
  ret [("revokedAt"%string, AFormatted now)].

Definition ListSentChatInvitations (c : Ctx) (user : Bytes) (roomID : option UUID) (lim : Z) (cursor : string) : M GoMap :=
  let limit := normalizeLimit lim 50 in
  let* offset := of_sum (decodeOffsetCursor cursor) in
  let* records := RepoListSentInvitations c user roomID (limit + 1) offset in
  let '(records, nextCursor) := paginateSlice records limit offset in
  ret [("items", invitationRecordsToMaps records); ("nextCursor", nextCursor)]%string.

Definition ListIncomingChatInvitations (c : Ctx) (user : Bytes) (lim : Z) (cursor : string) : M GoMap :=
  let limit := normalizeLimit lim 50 in
  let* offset := of_sum (decodeOffsetCursor cursor) in
  let* records := RepoListIncomingInvitations c user (limit + 1) offset in
  let '(records, nextCursor) := paginateSlice records limit offset in
  ret [("items", invitationRecordsToMaps records); ("nextCursor", nextCursor)]%string.

Definition accept_invitation_tx (user : Bytes) (invitationID : UUID) (now : Time) (txCtx : Ctx) : M ChatInvitationRecord :=
  let* record := UpdateInvitationState txCtx invitationID user InvitationAccepted now [InvitationPending] in
  UpsertRoomMembership txCtx (new_member (inv_RoomID record) user RoleMember now) ;;;
  appendEvent cfg txCtx (inv_InviterPublicKey record) "room.invitationAccepted"
    [("invitationId", AString (uuid_String invitationID)); ("roomId", AString (uuid_String (inv_RoomID record)))]%string ;;;
  ret record.

Definition AcceptChatInvitation (c : Ctx) (user : Bytes) (invitationID : UUID) (commitBytes : Bytes) : M GoMap :=
  let* now := Now in
  let* existingMembers :=
    (if decide (commitBytes ≠ []) then
       let* invitation := GetInvitation c invitationID in
       ListActiveRoomMemberPublicKeys c (inv_RoomID invitation)
     else ret []) in
  let* record := WithinTransaction c (accept_invitation_tx user invitationID now) in
  appendEvents cfg c (others user existingMembers) "mlsExternalCommitReceived"
    (external_commit_payload (inv_RoomID record) commitBytes user) ;;;
  ret [("roomId", AUUID (inv_RoomID record)); ("acceptedAt", AFormatted now)]%string.

Definition DeclineChatInvitation (c : Ctx) (user : Bytes) (invitationID : UUID) : M GoMap :=
  let* now := Now in
  let* record := UpdateInvitationState c invitationID user InvitationDeclined now [InvitationPending] in
  ignore_error (appendEvent cfg c (inv_InviterPublicKey record) "room.invitationDeclined" (invitation_payload invitationID)) ;;;
  ret [("declinedAt"%string, AFormatted now)].

(** ** Messages *)

(** The guards of [SendMessage]: the members that receive the message. *)
Definition message_recipients (c : Ctx) (user : Bytes) (roomID : UUID) : M (list Bytes) :=
  let* members := ListActiveRoomMemberPublicKeys c roomID in
  if decide (user ∉ members) then raise ErrForbidden else
  let* direct := IsDirectRoom c roomID in
  if direct then
    if decide (length members ≠ 2%nat) then raise ErrForbidden else
    match others user members with
    | [] => raise ErrForbidden
    | peer :: _ =>
        if decide (peer = []) then raise ErrForbidden else
        let* friends := AreFriends c user peer in
        if negb friends then raise ErrForbidden else ret members
    end
  else ret members.

Definition message_payload (roomID messageID clientMsgID : UUID) (user : Bytes) (body : list Bytes) : GoMap :=
  [("roomId", AString (uuid_String roomID)); ("messageId", AString (uuid_String messageID));
   ("clientMsgId", AString (uuid_String clientMsgID)); ("senderPublicKey", ABytes user);
   ("body", AList (ABytes <$> body))]%string.

Definition SendMessage (c : Ctx) (user : Bytes) (roomID clientMsgID : UUID) (body : list Bytes) : M GoMap :=
  let* now := Now in
  let* members := message_recipients c user roomID in
  let* messageID := NewUUID in
  for_each members (λ member,
    appendEvent cfg c member "mlsMessageReceived" (message_payload roomID messageID clientMsgID user body)) ;;;
  ret [("messageId", AUUID messageID); ("createdAt", AFormatted now)]%string.
End service.
