(* ===== verification/EventBus.v ===== *)
(** * EventBus: internal/platform/eventbus/bus.go

    The in-process bus that wakes up connections: subscriptions are channels
    with room for one token, a notification copies the channels of a key
    under the lock and sends to them after it has released the lock.  The
    operations are functions on the state of the bus; their interleaving is
    the step relation [bus_step], in which the sends of a notification are
    steps of their own. *)

From Stdlib Require Import ZArith Permutation.
From stdpp Require Import gmap strings.
From S2P Require Import Prelude GoLib Domain.

Local Open Scope Z_scope.

(** [make(chan struct{}, 1)]. *)
Record Channel : Type := mkChannel { ch_full : bool; ch_closed : bool }.

(** [subs] holds, for every key, the channels by subscription identifier;
    [chans] is the heap of channels, addressed by position. *)
Record Bus : Type := mkBus {
  subs : gmap string (gmap N nat); next : Z; chans : list Channel }.

(** [New()]. *)
Definition new_bus : Bus := mkBus ∅ 0 [].

Definition listeners (key : string) (b : Bus) : gmap N nat := default ∅ (subs b !! key).

(** The result of an operation on a channel that may be closed. *)
Inductive chan_result : Type :=
  | Done (b : Bus)
  | Panics (msg : string).

(** [SubscribeKey]: the channel and the identifier that its cancellation
    closes over. *)
Definition SubscribeKey (key : string) (b : Bus) : nat * N * Bus :=
  let ch := length (chans b) in
  let next := wrap_unsigned 64 (next b + 1) in
  let id := Z.to_N next in
  (ch, id, mkBus (<[key := <[id := ch]> (listeners key b)]> (subs b)) next (chans b ++ [mkChannel false false])).

Definition set_chan (ch : nat) (c : Channel) (b : Bus) : Bus := mkBus (subs b) (next b) (<[ch := c]> (chans b)).

(** [close(c)]. *)
Definition close_chan (ch : nat) (b : Bus) : chan_result :=
  match chans b !! ch with
  | Some c => if ch_closed c then Panics "close of closed channel" else Done (set_chan ch (mkChannel (ch_full c) true) b)
  | None => Panics "close of nil channel"
  end.

(** The function [SubscribeKey] returns. *)
Definition Unsubscribe (key : string) (id : N) (b : Bus) : chan_result :=
  match subs b !! key with
  | None => Done b
  | Some m =>
      let m' := delete id m in
      let subs' := if decide (m' = ∅) then delete key (subs b) else <[key := m']> (subs b) in
      match m !! id with
      | Some ch => close_chan ch (mkBus subs' (next b) (chans b))
      | None => Done (mkBus subs' (next b) (chans b))
      end
  end.

(** [select { case ch <- struct{}{}: default: }]. *)
Definition send_chan (ch : nat) (b : Bus) : chan_result :=
  match chans b !! ch with
  | Some c => if ch_closed c then Panics "send on closed channel"
              else Done (set_chan ch (mkChannel true false) b)
  | None => Done b
  end.

(** [<-ch]: whether a token, or the end of the channel, is there to be read. *)
Definition receive_chan (ch : nat) (b : Bus) : option Bus :=
  match chans b !! ch with
  | Some c => if ch_full c then Some (set_chan ch (mkChannel false (ch_closed c)) b)
              else if ch_closed c then Some b else None
  | None => None
  end.

(** [NotifyKey] when nothing runs beside it: the copy, then the sends. *)
Fixpoint send_all (chs : list nat) (b : Bus) : chan_result :=
  match chs with
  | [] => Done b
  | ch :: chs => match send_chan ch b with Done b => send_all chs b | Panics msg => Panics msg end
  end.

Definition copy_chans (key : string) (b : Bus) : list nat := (map_to_list (listeners key b)).*2.
Definition BusNotifyKey (key : string) (b : Bus) : chan_result := send_all (copy_chans key b) b.

(** [Subscribe], [Notify]: by the key of a user.  [keyString] of the empty
    key is the empty string, which is its hexadecimal form. *)
Definition Subscribe (userPublicKey : Bytes) (b : Bus) : nat * N * Bus := SubscribeKey (HexEncodeToString userPublicKey) b.
Definition Notify (userPublicKey : Bytes) (b : Bus) : chan_result := BusNotifyKey (HexEncodeToString userPublicKey) b.

(** ** Interleaving *)

(** The bus and the goroutines inside [NotifyKey], with the channels they
    have copied and not sent to yet. *)
Inductive config : Type :=
  | Running (b : Bus) (pending : gmap nat (list nat))
  | Crashed (msg : string).

Inductive label : Type :=
  | LSubscribe (key : string)
  | LUnsubscribe (key : string) (id : N)
  | LCopy (key : string) (thread : nat)
  | LSend (thread : nat) (ch : nat)
  | LReturn (thread : nat)
  | LReceive (ch : nat).

Definition resume (r : chan_result) (pending : gmap nat (list nat)) : config :=
  match r with Done b => Running b pending | Panics msg => Crashed msg end.

(** One atomic step.  The copy may list the channels in any order. *)
Inductive bus_step : label → config → config → Prop :=
  | step_subscribe key b p :
      bus_step (LSubscribe key) (Running b p) (Running (SubscribeKey key b).2 p)
  | step_unsubscribe key id b p :
      bus_step (LUnsubscribe key id) (Running b p) (resume (Unsubscribe key id b) p)
  | step_copy key thread chs b p :
      p !! thread = None → chs ≡ₚ copy_chans key b →
      bus_step (LCopy key thread) (Running b p) (Running b (<[thread := chs]> p))
  | step_send thread ch chs b p :
      p !! thread = Some (ch :: chs) →
      bus_step (LSend thread ch) (Running b p) (resume (send_chan ch b) (<[thread := chs]> p))
  | step_return thread b p :
      p !! thread = Some [] → bus_step (LReturn thread) (Running b p) (Running b (delete thread p))
  | step_receive ch b b' p :
      receive_chan ch b = Some b' → bus_step (LReceive ch) (Running b p) (Running b' p).

Inductive bus_run : list label → config → config → Prop :=
  | run_nil c : bus_run [] c c
  | run_cons l ls c c1 c2 : bus_step l c c1 → bus_run ls c1 c2 → bus_run (l :: ls) c c2.

Definition initial : config := Running new_bus ∅.

(** ** Invariant *)

(** What is registered is open and registered once, an open channel is
    registered, no key is left without channels, and copied channels exist.
    Identifiers do not wrap around before 2^64 subscriptions. *)
Record bus_ok (b : Bus) : Prop := {
  bo_next : next b = Z.of_nat (length (chans b)) ∧ next b < 2 ^ 64;
  bo_ids : ∀ key m id ch, subs b !! key = Some m → m !! id = Some ch → (Z.of_N id = Z.of_nat ch + 1 ∧ (ch < length (chans b))%nat);
  bo_nonempty : ∀ key m, subs b !! key = Some m → m ≠ ∅;
  bo_once : ∀ key key' m m' id, subs b !! key = Some m → subs b !! key' = Some m' →
    is_Some (m !! id) → is_Some (m' !! id) → key = key';
  bo_open : ∀ ch c, chans b !! ch = Some c →
    (ch_closed c = false ↔ ∃ key m id, subs b !! key = Some m ∧ m !! id = Some ch) }.

Lemma bus_ok_new : bus_ok new_bus.
Proof. by constructor. Qed.

Lemma listeners_lookup key b id ch :
  listeners key b !! id = Some ch ↔ ∃ m, subs b !! key = Some m ∧ m !! id = Some ch.
Proof.
  unfold listeners. destruct (subs b !! key) as [m|]; simpl.
  - split; [by exists m|]. by intros (? & [= <-] & ?).
  - rewrite lookup_empty. split; [done|]. by intros (? & ? & _).
Qed.

Lemma set_chan_ok ch c c' b :
  bus_ok b → chans b !! ch = Some c → ch_closed c' = ch_closed c → bus_ok (set_chan ch c' b).
Proof.
  intros [H1 H2 H3 H4 H5] Hc Ecl. constructor; simpl; [by rewrite length_insert|by intros; rewrite length_insert; eauto|done|done|].
  intros ch' c'' [(-> & <- & _)|[_ Hl]]%list_lookup_insert_Some; [|by apply H5]. rewrite Ecl. by apply H5.
Qed.

Lemma SubscribeKey_ok key b :
  bus_ok b → Z.of_nat (length (chans b)) + 1 < 2 ^ 64 → bus_ok (SubscribeKey key b).2.
Proof.
  intros [[H1 H1'] H2 H3 H4 H5] Hb. unfold SubscribeKey. rewrite wrap_unsigned_id by lia.
  set (ch := length (chans b)) in *. set (id := Z.to_N (next b + 1)).
  assert (Z.of_N id = Z.of_nat ch + 1) as Hid by (unfold id; lia).
  assert (∀ key' m, subs b !! key' = Some m → m !! id = None) as Hfresh.
  { intros key' m Hm. destruct (m !! id) as [ch'|] eqn:El; [|done]. destruct (H2 _ _ _ _ Hm El). unfold ch in *. lia. }
  assert (∀ key' m id' ch', <[key:=<[id:=ch]> (listeners key b)]> (subs b) !! key' = Some m → m !! id' = Some ch' →
    (key' = key ∧ id' = id ∧ ch' = ch) ∨ (id' ≠ id ∧ ∃ m0, subs b !! key' = Some m0 ∧ m0 !! id' = Some ch')) as Hcase.
  { intros key' m id' ch' [(-> & <-)|[Hne Hm]]%lookup_insert_Some.
    - intros [(-> & <-)|[Hne Hl]]%lookup_insert_Some; [by left|right]. split; [done|]. by apply listeners_lookup in Hl.
    - intros Hl. right. split; [|eauto]. intros ->. by rewrite (Hfresh _ _ Hm) in Hl. }
  constructor; simpl.
  - rewrite length_app. simpl. unfold ch in *. lia.
  - intros key' m id' ch' Hm Hl. rewrite length_app. simpl.
    destruct (Hcase _ _ _ _ Hm Hl) as [(-> & -> & ->)|(_ & m0 & Hm0 & Hl0)]; [unfold ch in *; lia|].
    destruct (H2 _ _ _ _ Hm0 Hl0). lia.
  - intros key' m [(-> & <-)|[_ Hm]]%lookup_insert_Some; [apply insert_non_empty|by eapply H3].
  - intros key1 key2 m1 m2 id' Hm1 Hm2 [c1 Hl1] [c2 Hl2].
    destruct (Hcase _ _ _ _ Hm1 Hl1) as [(-> & -> & ->)|(Hn & n1 & Hn1 & Hk1)],
      (Hcase _ _ _ _ Hm2 Hl2) as [(? & ? & ?)|(? & n2 & Hn2 & Hk2)]; [congruence|congruence|congruence|].
    apply (H4 _ _ _ _ id' Hn1 Hn2); by eexists.
  - intros ch' c Hl. rewrite lookup_app in Hl. destruct (chans b !! ch') as [c'|] eqn:Ec.
    + injection Hl as ->. rewrite (H5 _ _ Ec). split; intros (key' & m & id' & Hm & Hl).
      * destruct (decide (key' = key)) as [->|Hne].
        -- exists key, (<[id:=ch]> (listeners key b)), id'. split; [apply lookup_insert_eq|].
           rewrite lookup_insert_ne; [apply listeners_lookup; eauto|]. intros <-. by rewrite (Hfresh _ _ Hm) in Hl.
        -- exists key', m, id'. by rewrite lookup_insert_ne.
      * destruct (Hcase _ _ _ _ Hm Hl) as [(-> & -> & ->)|(_ & m0 & Hm0 & Hl0)]; [|by eauto].
        apply lookup_lt_Some in Ec. unfold ch in Ec. lia.
    + apply lookup_ge_None in Ec. destruct (decide (ch' = ch)) as [->|Hne].
      * replace (ch - length (chans b))%nat with 0%nat in Hl by (unfold ch; lia). injection Hl as <-.
        split; [|done]. intros _. exists key, (<[id:=ch]> (listeners key b)), id. by rewrite !lookup_insert_eq.
      * destruct (ch' - length (chans b))%nat as [|n] eqn:En; [unfold ch in Hne; lia|done].
Qed.

(** Taking an identifier out of the subscriptions of a key. *)
Definition drop_sub (key : string) (m : gmap N nat) (id : N) (b : Bus) : gmap string (gmap N nat) :=
  if decide (delete id m = ∅) then delete key (subs b) else <[key := delete id m]> (subs b).

Lemma drop_sub_lookup key m id b key' m' :
  subs b !! key = Some m → drop_sub key m id b !! key' = Some m' →
  (key' ≠ key ∧ subs b !! key' = Some m') ∨ (key' = key ∧ m' = delete id m ∧ m' ≠ ∅).
Proof.
  intros Hm. unfold drop_sub. case_decide as Hd.
  - intros [Hne Hl]%lookup_delete_Some. left. by split; [apply not_eq_sym|].
  - intros [(-> & <-)|[Hne Hl]]%lookup_insert_Some; [by right|left; by split; [apply not_eq_sym|]].
Qed.

(** What is left was there before, and is not what was taken out. *)
Lemma drop_sub_from key m id b key' m' :
  subs b !! key = Some m → drop_sub key m id b !! key' = Some m' →
  ∃ m0, subs b !! key' = Some m0 ∧ ∀ id' ch', m' !! id' = Some ch' → m0 !! id' = Some ch' ∧ (key', id') ≠ (key, id).
Proof.
  intros Hm [[Hk Hm']|(-> & -> & _)]%drop_sub_lookup; [| |done].
  - exists m'. split; [done|]. intros id' ch' Hl. split; [done|congruence].
  - exists m. split; [done|]. intros id' ch' [Hne Hl]%lookup_delete_Some. split; [done|congruence].
Qed.

Lemma drop_sub_keeps key m id b key' m' id' ch :
  subs b !! key = Some m → subs b !! key' = Some m' → m' !! id' = Some ch → (key', id') ≠ (key, id) →
  ∃ m'', drop_sub key m id b !! key' = Some m'' ∧ m'' !! id' = Some ch.
Proof.
  intros Hm Hm' Hl Hne. unfold drop_sub. destruct (decide (key' = key)) as [->|Hk].
  - rewrite Hm in Hm'. injection Hm' as <-. assert (delete id m !! id' = Some ch) as Hd.
    { rewrite lookup_delete_ne; [done|congruence]. }
    case_decide as He; [by rewrite He in Hd|]. exists (delete id m). by rewrite lookup_insert_eq.
  - exists m'. case_decide; by rewrite ?lookup_delete_ne, ?lookup_insert_ne by done.
Qed.

(** Taking out a subscription and closing its channel keeps the invariant. *)
Lemma drop_sub_ok key m id ch c full b :
  bus_ok b → subs b !! key = Some m → m !! id = Some ch → chans b !! ch = Some c →
  bus_ok (mkBus (drop_sub key m id b) (next b) (<[ch := mkChannel full true]> (chans b))).
Proof.
  intros [H1 H2 H3 H4 H5] Em El Hc. destruct (H2 _ _ _ _ Em El) as [Hid _]. constructor; simpl.
  - by rewrite length_insert.
  - intros key' m' id' ch' (m0 & Hm0 & Hsub)%(drop_sub_from _ _ _ _ _ _ Em) Hl. rewrite length_insert.
    destruct (Hsub _ _ Hl) as [Hl0 _]. by eapply H2.
  - intros key' m' [[_ Hm']|(_ & _ & ?)]%(drop_sub_lookup _ _ _ _ _ _ Em); [by eapply H3|done].
  - intros k1 k2 m1 m2 id' (n1 & Hn1 & S1)%(drop_sub_from _ _ _ _ _ _ Em) (n2 & Hn2 & S2)%(drop_sub_from _ _ _ _ _ _ Em)
      [c1 [Hl1 _]%S1] [c2 [Hl2 _]%S2].
    by apply (H4 _ _ _ _ id' Hn1 Hn2); eexists.
  - intros ch' c' [(-> & <- & _)|[Hne Hl]]%list_lookup_insert_Some; simpl.
    + split; [done|]. intros (key' & m' & id' & (m0 & Hm0 & Hsub)%(drop_sub_from _ _ _ _ _ _ Em) & Hl').
      destruct (Hsub _ _ Hl') as [Hl0 Hneq]. destruct (H2 _ _ _ _ Hm0 Hl0) as [Hid' _]. destruct Hneq.
      assert (id' = id) as -> by lia. f_equal. by apply (H4 _ _ _ _ id Hm0 Em); eexists.
    + rewrite (H5 _ _ Hl). split.
      * intros (key' & m' & id' & Hm' & Hl'). destruct (drop_sub_keeps _ _ id _ _ _ id' ch' Em Hm' Hl') as (m'' & ? & ?); [|by eauto].
        intros [= -> ->]. rewrite Em in Hm'. injection Hm' as <-. by simplify_eq.
      * intros (key' & m' & id' & (m0 & Hm0 & Hsub)%(drop_sub_from _ _ _ _ _ _ Em) & Hl').
        destruct (Hsub _ _ Hl') as [Hl0 _]. eauto.
Qed.

(** Cancelling a subscription never closes a channel twice, and takes no
    token away. *)
Lemma Unsubscribe_ok key id b :
  bus_ok b → ∃ b', Unsubscribe key id b = Done b' ∧ bus_ok b' ∧ length (chans b') = length (chans b)
    ∧ ∀ ch c, chans b !! ch = Some c → ∃ c', chans b' !! ch = Some c' ∧ ch_full c' = ch_full c.
Proof.
  intros Hok. unfold Unsubscribe. destruct (subs b !! key) as [m|] eqn:Em; [|by exists b; split_and!; eauto].
  fold (drop_sub key m id b). pose proof Hok as [H1 H2 H3 H4 H5]. destruct (m !! id) as [ch|] eqn:El.
  - destruct (H2 _ _ _ _ Em El) as [Hid Hlt]. apply lookup_lt_is_Some in Hlt as [c Hc].
    assert (ch_closed c = false) as Hopen by (apply (H5 _ _ Hc); eauto).
    unfold close_chan. simpl. rewrite Hc, Hopen. eexists. split; [done|]. unfold set_chan. simpl.
    split_and!; [by eapply drop_sub_ok|by rewrite length_insert|]. intros ch' c' Hc'.
    destruct (decide (ch' = ch)) as [->|Hne].
    + rewrite list_lookup_insert_eq by by eapply lookup_lt_Some. rewrite Hc in Hc'. injection Hc' as <-. by eexists.
    + rewrite list_lookup_insert_ne by by apply not_eq_sym. eauto.
  - eexists. split; [done|]. simpl. split_and!; [|done|eauto].
    assert (drop_sub key m id b = subs b) as ->; [|by destruct b].
    unfold drop_sub. rewrite delete_id by done. case_decide as He; [by destruct (H3 _ _ Em)|]. by apply insert_id.
Qed.

Lemma copied_open key b ch :
  bus_ok b → ch ∈ copy_chans key b → ∃ c, chans b !! ch = Some c ∧ ch_closed c = false.
Proof.
  intros [H1 H2 H3 H4 H5] ([id ch'] & -> & Hin)%list_elem_of_fmap. apply elem_of_map_to_list in Hin.
  apply listeners_lookup in Hin as (m & Hm & Hl). simpl. destruct (H2 _ _ _ _ Hm Hl) as [_ Hlt].
  apply lookup_lt_is_Some in Hlt as [c Hc]. exists c. split; [done|]. apply (H5 _ _ Hc). eauto.
Qed.

(** Sends and receives open and close nothing. *)
Definition same_ends (b b' : Bus) : Prop :=
  length (chans b') = length (chans b)
  ∧ ∀ ch c, chans b !! ch = Some c → ∃ c', chans b' !! ch = Some c' ∧ ch_closed c' = ch_closed c.

Lemma set_chan_ends ch c c' b :
  chans b !! ch = Some c → ch_closed c' = ch_closed c → same_ends b (set_chan ch c' b).
Proof.
  intros Hc Ecl. split; [apply length_insert|]. intros ch' c0 Hc0. simpl. destruct (decide (ch' = ch)) as [->|Hne].
  - rewrite list_lookup_insert_eq by by eapply lookup_lt_Some. rewrite Hc in Hc0. injection Hc0 as <-. eauto.
  - rewrite list_lookup_insert_ne by by apply not_eq_sym. eauto.
Qed.

Lemma send_chan_ok ch b b' : bus_ok b → send_chan ch b = Done b' → bus_ok b' ∧ same_ends b b'.
Proof.
  unfold send_chan. intros Hok. destruct (chans b !! ch) as [c|] eqn:Hc; [|intros [= <-]; split; [done|split; eauto]].
  destruct (ch_closed c) eqn:Ecl; [done|]. intros [= <-]. split; [by eapply set_chan_ok|by eapply set_chan_ends].
Qed.

Lemma receive_chan_ok ch b b' : bus_ok b → receive_chan ch b = Some b' → bus_ok b' ∧ same_ends b b'.
Proof.
  unfold receive_chan. intros Hok. destruct (chans b !! ch) as [c|] eqn:Hc; [|done].
  destruct (ch_full c); [|destruct (ch_closed c); [intros [= <-]; split; [done|split; eauto]|done]].
  intros [= <-]. split; [by eapply set_chan_ok|by eapply set_chan_ends].
Qed.

(** ** Runs *)

(** The channels a goroutine holds: it copied them in the past, and one that
    is closed by now was cancelled since. *)
Definition held_since (ls : list label) (b : Bus) (thread ch : nat) : Prop :=
  ∃ l1 l2 key c, ls = l1 ++ LCopy key thread :: l2 ∧ chans b !! ch = Some c
    ∧ (ch_closed c = true → ∃ key' id, LUnsubscribe key' id ∈ l2).

Record run_ok (ls : list label) (b : Bus) (p : gmap nat (list nat)) : Prop := {
  ro_bus : bus_ok b;
  ro_size : (length (chans b) ≤ length ls)%nat;
  ro_held : ∀ thread chs ch, p !! thread = Some chs → ch ∈ chs → held_since ls b thread ch }.

(** A step that closes nothing, or is a cancellation, keeps what is held. *)
Lemma held_since_step ls l b b' thread ch :
  held_since ls b thread ch →
  (∀ c, chans b !! ch = Some c → ∃ c', chans b' !! ch = Some c'
     ∧ (ch_closed c' = true → ch_closed c = true ∨ ∃ key id, l = LUnsubscribe key id)) →
  held_since (ls ++ [l]) b' thread ch.
Proof.
  intros (l1 & l2 & key & c & -> & Hc & Hcl) Hstep. destruct (Hstep c Hc) as (c' & Hc' & Hcl').
  exists l1, (l2 ++ [l]), key, c'. split_and!; [by rewrite <- app_assoc|done|].
  intros [(key' & id & Hin)%Hcl|(key' & id & ->)]%Hcl'; exists key', id; apply elem_of_app; [by left|right; by left].
Qed.

Lemma step_run_ok ls l b p b' p' :
  run_ok ls b p → Z.of_nat (length ls) + 1 < 2 ^ 64 → bus_step l (Running b p) (Running b' p') →
  run_ok (ls ++ [l]) b' p'.
Proof.
  intros [Hok Hsz Hheld] Hb Hstep.
  assert (∀ b1, bus_ok b1 → (length (chans b1) ≤ S (length (chans b)))%nat →
    (∀ ch c, chans b !! ch = Some c → ∃ c', chans b1 !! ch = Some c'
       ∧ (ch_closed c' = true → ch_closed c = true ∨ ∃ key id, l = LUnsubscribe key id)) →
    (∀ thread chs ch, p' !! thread = Some chs → ch ∈ chs → (∃ chs0, p !! thread = Some chs0 ∧ ch ∈ chs0)
       ∨ held_since (ls ++ [l]) b1 thread ch) →
    run_ok (ls ++ [l]) b1 p') as Hgo.
  { intros b1 Hok1 Hsz1 Hch Hp. constructor; [done|rewrite length_app; simpl; lia|]. intros thread chs ch Hl Hin.
    destruct (Hp _ _ _ Hl Hin) as [(chs0 & Hl0 & Hin0)|?]; [|done].
    eapply held_since_step; [by eapply Hheld|by apply Hch]. }
  inversion Hstep as [|key id|key thread chs ? ? _ Hperm|thread ch chs ? ? Hth Hr| |ch ? ? ? Hr]; subst; clear Hstep.
  - apply Hgo; [apply SubscribeKey_ok; [done|lia]|simpl; rewrite length_app; simpl; lia| |eauto].
    intros ch c Hc. exists c. split; [by apply lookup_app_l_Some|by left].
  - destruct (Unsubscribe_ok key id b Hok) as (b2 & Eu & Hok2 & Hl2 & Hk2). rewrite Eu in *. simplify_eq/=.
    apply Hgo; [done|lia| |eauto]. intros ch c (c' & Hc' & _)%Hk2. exists c'. split; [done|]. right. eauto.
  - apply Hgo; [done|lia|eauto|]. intros th chs' ch [(-> & <-)|[_ Hl]]%lookup_insert_Some Hin; [right|eauto].
    rewrite Hperm in Hin. destruct (copied_open _ _ _ Hok Hin) as (c & Hc & Ho).
    exists ls, [], key, c. split_and!; [done|done|congruence].
  - destruct (send_chan ch b) as [b2|msg] eqn:Es; [|done]. simplify_eq/=.
    destruct (send_chan_ok _ _ _ Hok Es) as (Hok2 & Hl2 & He). apply Hgo; [done|lia| |].
    + intros ch' c (c' & ? & <-)%He. eauto.
    + intros th chs' ch' [(-> & <-)|[_ Hl]]%lookup_insert_Some Hin; left; [|eauto]. eexists. split; [done|]. by right.
  - apply Hgo; [done|lia|eauto|]. intros th chs' ch [_ Hl]%lookup_delete_Some Hin. eauto.
  - destruct (receive_chan_ok _ _ _ Hok Hr) as (Hok2 & Hl2 & He). apply Hgo; [done|lia| |eauto].
    intros ch' c (c' & ? & <-)%He. eauto.
Qed.

Lemma run_run_ok ls0 b0 p0 ls b p :
  run_ok ls0 b0 p0 → Z.of_nat (length (ls0 ++ ls)) < 2 ^ 64 → bus_run ls (Running b0 p0) (Running b p) →
  run_ok (ls0 ++ ls) b p.
Proof.
  revert ls0 b0 p0. induction ls as [|l ls IH]; intros ls0 b0 p0 Hok Hb Hrun; inversion Hrun as [|? ? ? c1 ? Hs Hr]; subst.
  { by rewrite app_nil_r. }
  rewrite cons_middle, app_assoc in Hb |- *. rewrite length_app in Hb.
  destruct c1 as [b1 p1|msg]; [|by inversion Hr as [|? ? ? ? ? Hs']; inversion Hs'].
  eapply IH; [|by rewrite length_app|exact Hr]. eapply step_run_ok; [exact Hok| |exact Hs].
  rewrite length_app in Hb. simpl in Hb. lia.
Qed.

Lemma run_ok_initial : run_ok [] new_bus ∅.
Proof. constructor; [apply bus_ok_new|simpl; lia|]. intros thread chs ch Hl. by rewrite lookup_empty in Hl. Qed.

Lemma run_crash_last ls b0 p0 msg :
  bus_run ls (Running b0 p0) (Crashed msg) →
  ∃ ls' l b p, ls = ls' ++ [l] ∧ bus_run ls' (Running b0 p0) (Running b p) ∧ bus_step l (Running b p) (Crashed msg).
Proof.
  revert b0 p0. induction ls as [|l ls IH]; intros b0 p0 Hrun; inversion Hrun as [|? ? ? c1 ? Hs Hr]; subst.
  destruct c1 as [b1 p1|msg1].
  - destruct (IH _ _ Hr) as (ls' & l' & b & p & -> & Hr' & Hs'). exists (l :: ls'), l', b, p.
    split_and!; [done|by econstructor|done].
  - inversion Hr as [|? ? ? ? ? Hs']; subst; [|by inversion Hs']. exists [], l, b0, p0. by split_and!; [|constructor|].
Qed.

(** The only way the bus crashes, in a run of fewer than 2^64 steps, is
    the race of a notification with a cancellation: a goroutine copies the
    channels of a key, a subscription is cancelled, and the goroutine sends
    on the channel that the cancellation closed.  No channel is ever closed
    twice. *)
Lemma crash_is_a_race ls msg :
  bus_run ls initial (Crashed msg) → Z.of_nat (length ls) < 2 ^ 64 →
  msg = "send on closed channel"%string
  ∧ ∃ l1 l2 l3 thread ch key key' id,
      ls = l1 ++ LCopy key thread :: l2 ++ LUnsubscribe key' id :: l3 ++ [LSend thread ch].
Proof.
  intros (ls' & l & b & p & -> & Hrun & Hs)%run_crash_last Hb. rewrite length_app in Hb. simpl in Hb.
  destruct (run_run_ok [] _ _ ls' b p run_ok_initial) as [Hok _ Hheld]; [simpl; lia|exact Hrun|]. simpl in Hheld.
  inversion Hs as [|key id ? ? E1|  |thread ch chs ? ? Hth E1| |]; subst.
  - destruct (Unsubscribe_ok key id b Hok) as (b2 & Eu & _). by rewrite Eu in *.
  - destruct (Hheld thread (ch :: chs) ch Hth) as (l1 & l2 & key & c & -> & Hc & Hcl); [by left|].
    unfold send_chan in *. rewrite Hc in *. destruct (ch_closed c) eqn:Ecl; [|done]. simplify_eq/=. split; [done|].
    destruct Hcl as (key' & id & (l3 & l4 & ->)%list_elem_of_split); [done|].
    exists l1, l3, l4, thread, ch, key, key', id. by rewrite <- app_assoc, <- app_comm_cons, <- app_assoc.
Qed.

(** The race is there: a subscription that is cancelled between the copy
    and the send brings the process down. *)
Lemma cancellation_can_crash key :
  ∃ ls b p, bus_run ls initial (Running b p) ∧ Forall (λ l, l ≠ LUnsubscribe key 1%N) ls
    ∧ bus_run [LUnsubscribe key 1%N; LSend 0 0] (Running b p) (Crashed "send on closed channel").
Proof.
  set (b := (SubscribeKey key new_bus).2). assert (copy_chans key b = [0%nat]) as Ecopy.
  { unfold copy_chans, b, SubscribeKey, listeners. simpl. rewrite lookup_insert_eq, lookup_empty. simpl.
    by rewrite insert_empty, map_to_list_singleton. }
  exists [LSubscribe key; LCopy key 0], b, {[0%nat := [0%nat]]}. split_and!.
  - eapply run_cons; [apply step_subscribe|]. eapply run_cons; [|apply run_nil]. fold b.
    rewrite <- insert_empty. apply step_copy; [apply lookup_empty|by rewrite Ecopy].
  - by repeat constructor.
  - eapply run_cons; [apply step_unsubscribe|].
    assert (∃ subs', Unsubscribe key 1%N b = Done (mkBus subs' 1 [mkChannel false true])) as [subs' ->].
    { unfold Unsubscribe, b, SubscribeKey, listeners. simpl. rewrite lookup_insert_eq, lookup_empty. simpl.
      rewrite lookup_insert_eq. unfold close_chan. simpl. by eexists. }
    simpl. eapply run_cons; [|apply run_nil].
    change (Crashed "send on closed channel") with
      (resume (send_chan 0 (mkBus subs' 1 [mkChannel false true])) (<[0%nat := []]> {[0%nat := [0%nat]]})).
    apply step_send, lookup_singleton_eq.
Qed.

(** ** Wake-ups *)

(** The goroutine still has the channel to send to, or the token is there. *)
Definition notified (thread ch : nat) (b : Bus) (p : gmap nat (list nat)) : Prop :=
  (∃ chs, p !! thread = Some chs ∧ ch ∈ chs) ∨ ∃ c, chans b !! ch = Some c ∧ ch_full c = true.

Lemma send_chan_fills ch b b' c :
  send_chan ch b = Done b' → chans b !! ch = Some c → ∃ c', chans b' !! ch = Some c' ∧ ch_full c' = true.
Proof.
  unfold send_chan. intros Hs Hc. rewrite Hc in Hs. destruct (ch_closed c); [done|]. injection Hs as <-.
  eexists. simpl. rewrite list_lookup_insert_eq by by eapply lookup_lt_Some. done.
Qed.

Lemma send_chan_keeps_full ch b b' ch' c :
  send_chan ch b = Done b' → chans b !! ch' = Some c → ch_full c = true →
  ∃ c', chans b' !! ch' = Some c' ∧ ch_full c' = true.
Proof.
  intros Hs Hc Hf. destruct (decide (ch' = ch)) as [->|Hne]; [by eapply send_chan_fills|].
  unfold send_chan in Hs. destruct (chans b !! ch) as [c0|]; [|simplify_eq; eauto].
  destruct (ch_closed c0); [done|]. simplify_eq/=. exists c. by rewrite list_lookup_insert_ne by by apply not_eq_sym.
Qed.

Lemma notified_step l b p b' p' thread ch :
  bus_ok b → Z.of_nat (length (chans b)) + 1 < 2 ^ 64 → (ch < length (chans b))%nat → l ≠ LReceive ch →
  bus_step l (Running b p) (Running b' p') → notified thread ch b p → notified thread ch b' p'.
Proof.
  intros Hok Hb Hlt Hl Hstep Hn. apply lookup_lt_is_Some in Hlt as [c0 Hc0].
  inversion Hstep as [|key id|key th chs ? ? Hnone Hperm|th ch' chs ? ? Hth Hr|th ? ? Hth|ch' ? ? ? Hr]; subst; clear Hstep.
  - destruct Hn as [Hp|(c & Hc & Hf)]; [by left|right]. exists c. split; [by apply lookup_app_l_Some|done].
  - destruct (Unsubscribe_ok key id b Hok) as (b2 & Eu & _ & _ & Hk). rewrite Eu in *. simplify_eq/=.
    destruct Hn as [Hp|(c & (c' & Hc' & Hf')%Hk & Hf)]; [by left|right]. exists c'. by rewrite Hf'.
  - destruct Hn as [(chs0 & Hp & Hin)|Hf]; [left|by right]. exists chs0. split; [|done].
    rewrite lookup_insert_ne; [done|]. intros ->. by rewrite Hnone in Hp.
  - destruct (send_chan ch' b) as [b2|] eqn:Es; [|done]. simplify_eq/=.
    destruct Hn as [(chs0 & Hp & Hin)|(c & Hc & Hf)]; [|right; by eapply send_chan_keeps_full].
    destruct (decide (th = thread)) as [->|Hne].
    + rewrite Hth in Hp. injection Hp as <-. apply elem_of_cons in Hin as [->|Hin].
      * right. by eapply send_chan_fills.
      * left. exists chs. by rewrite lookup_insert_eq.
    + left. exists chs0. by rewrite lookup_insert_ne.
  - destruct Hn as [(chs0 & Hp & Hin)|Hf]; [left|by right]. exists chs0. split; [|done].
    rewrite lookup_delete_ne; [done|]. intros ->. rewrite Hth in Hp. injection Hp as <-. by apply not_elem_of_nil in Hin.
  - destruct Hn as [Hp|(c & Hc & Hf)]; [by left|right]. exists c. split; [|done].
    unfold receive_chan in Hr. destruct (chans b !! ch') as [c1|]; [|done].
    destruct (ch_full c1); [|destruct (ch_closed c1); [|done]]; simplify_eq/=; [|done].
    rewrite list_lookup_insert_ne; [done|]. by intros ->.
Qed.

Lemma notified_run ls0 ls b0 p0 b p thread ch :
  run_ok ls0 b0 p0 → Z.of_nat (length (ls0 ++ ls)) < 2 ^ 64 → (ch < length (chans b0))%nat →
  LReceive ch ∉ ls → bus_run ls (Running b0 p0) (Running b p) → notified thread ch b0 p0 → notified thread ch b p.
Proof.
  revert ls0 b0 p0. induction ls as [|l ls IH]; intros ls0 b0 p0 Hok Hb Hlt Hn Hrun; inversion Hrun as [|? ? ? c1 ? Hs Hr]; subst; [done|].
  apply not_elem_of_cons in Hn as [Hl Hn].
  destruct c1 as [b1 p1|msg]; [|by inversion Hr as [|? ? ? ? ? Hs']; inversion Hs'].
  assert (Z.of_nat (length ls0) + 1 < 2 ^ 64) as Hb0 by (rewrite length_app in Hb; simpl in Hb; lia).
  pose proof (step_run_ok _ _ _ _ _ _ Hok Hb0 Hs) as Hok1. intros Hnt.
  eapply (IH (ls0 ++ [l])); [exact Hok1|by rewrite <- app_assoc| |done|exact Hr|].
  - eapply Nat.lt_le_trans; [exact Hlt|]. clear -Hok Hs.
    inversion Hs as [|key id| |th ch' chs ? ? ? E1| |]; subst; simpl; try lia.
    + rewrite length_app. lia.
    + destruct (Unsubscribe_ok key id b0 (ro_bus _ _ _ Hok)) as (b2 & Eu & _ & Hl & _). rewrite Eu in *. simplify_eq/=. lia.
    + destruct (send_chan ch' b0) eqn:Es; simplify_eq/=. apply send_chan_ok in Es as (_ & -> & _); [done|apply Hok].
    + match goal with H : receive_chan _ _ = Some _ |- _ => apply receive_chan_ok in H as (_ & -> & _) end; [done|apply Hok].
  - eapply notified_step; [apply Hok| |exact Hlt|by apply not_eq_sym|exact Hs|exact Hnt].
    destruct Hok as [_ Hsz _]. lia.
Qed.

(** C29: No wake-up is lost.  When a notification starts while a channel is
    subscribed to its key, and the goroutine has returned, then the channel
    holds a token unless somebody has received from it in the meantime,
    whatever else subscribes, cancels or notifies beside it. *)
Theorem no_lost_wakeup ls0 ls b0 p0 b p key thread ch :
  bus_run ls0 initial (Running b0 p0) → bus_run (LCopy key thread :: ls) (Running b0 p0) (Running b p) →
  Z.of_nat (length (ls0 ++ LCopy key thread :: ls)) < 2 ^ 64 →
  ch ∈ copy_chans key b0 → p !! thread = None → LReceive ch ∉ ls →
  ∃ c, chans b !! ch = Some c ∧ ch_full c = true.
Proof.
  intros Hr0 Hr Hb Hin Hret Hn. inversion Hr as [|? ? ? c1 ? Hs Hr1]; subst.
  rewrite length_app in Hb. simpl in Hb.
  assert (run_ok ls0 b0 p0) as Hok0 by (apply (run_run_ok [] _ _ _ _ _ run_ok_initial) in Hr0; [done|simpl; lia]).
  destruct (copied_open key b0 ch (ro_bus _ _ _ Hok0) Hin) as (c0 & Hc0 & _).
  destruct c1 as [b1 p1|msg]; [|by inversion Hs].
  pose proof (step_run_ok _ _ _ _ _ _ Hok0 ltac:(lia) Hs) as Hok1.
  assert (notified thread ch b1 p1 ∧ b1 = b0) as [Hnt ->].
  { inversion Hs as [| |? ? chs ? ? Hnone Hperm| | |]; subst. split; [|done]. left. exists chs.
    split; [apply lookup_insert_eq|by rewrite Hperm]. }
  eapply notified_run in Hnt as [(chs & Hp & _)|Hf]; [by rewrite Hret in Hp|exact Hf|exact Hok1| |by eapply lookup_lt_Some|exact Hn|exact Hr1].
  rewrite !length_app. simpl. lia.
Qed.

(** ** A notification on its own *)

Lemma send_all_spec chs : ∀ b, bus_ok b → (∀ ch, ch ∈ chs → ∃ c, chans b !! ch = Some c ∧ ch_closed c = false) →
  ∃ b', send_all chs b = Done b' ∧ bus_ok b' ∧ subs b' = subs b
    ∧ ∀ ch c, chans b !! ch = Some c → chans b' !! ch = Some (mkChannel (ch_full c || bool_decide (ch ∈ chs)) (ch_closed c)).
Proof.
  induction chs as [|ch chs IH]; intros b Hok Hopen; cbn [send_all].
  { exists b. split_and!; [done..|]. intros ch c Hc. assert (bool_decide (ch ∈ @nil nat) = false) as -> by by apply bool_decide_eq_false, not_elem_of_nil.
    rewrite orb_false_r. by destruct c. }
  destruct (Hopen ch) as (c0 & Hc0 & Ho); [left|].
  assert (send_chan ch b = Done (set_chan ch (mkChannel true false) b)) as Es by (unfold send_chan; by rewrite Hc0, Ho).
  rewrite Es. destruct (send_chan_ok _ _ _ Hok Es) as (Hok1 & _ & He).
  destruct (IH _ Hok1) as (b' & Ea & Hok' & Esub & Hch).
  { intros ch' Hin. destruct (Hopen ch') as (c & Hc & Hco); [by right|]. destruct (He _ _ Hc) as (c' & Hc' & Ecl).
    exists c'. split; [done|congruence]. }
  exists b'. split_and!; [done|done|by rewrite Esub|]. intros ch' c Hc. destruct (decide (ch' = ch)) as [->|Hne].
  - rewrite Hc0 in Hc. injection Hc as <-. assert (bool_decide (ch ∈ ch :: chs) = true) as -> by (apply bool_decide_eq_true; left).
    rewrite (Hch ch (mkChannel true false)); [by rewrite Ho, orb_true_r|].
    simpl. by rewrite list_lookup_insert_eq by by eapply lookup_lt_Some.
  - rewrite (Hch ch' c); [|simpl; by rewrite list_lookup_insert_ne by by apply not_eq_sym].
    do 3 f_equal. apply bool_decide_ext. rewrite elem_of_cons.
    split; [by right|by intros [?|?]].
Qed.

(** [NotifyKey] on its own returns, leaves the subscriptions as they
    were, puts a token into the channel of every listener of the key and
    touches no other channel; a token that nobody has read yet is not
    doubled. *)
Lemma NotifyKey_wakes key b :
  bus_ok b → ∃ b', BusNotifyKey key b = Done b' ∧ bus_ok b' ∧ subs b' = subs b
    ∧ ∀ ch c, chans b !! ch = Some c →
        chans b' !! ch = Some (mkChannel (ch_full c || bool_decide (ch ∈ copy_chans key b)) (ch_closed c)).
Proof. intros Hok. apply send_all_spec; [done|]. intros ch Hin. by eapply copied_open. Qed.
