(* ===== verification/Push.v ===== *)
(** * Push: internal/application/push and internal/integrations/push/fcm

    The notifier that turns outbox events into push notifications: a queue
    that drops what does not fit, the mapping of an event to an envelope,
    the lookup of the device, and the message that is sent to Firebase. *)

From Stdlib Require Import ZArith.
From stdpp Require Import gmap strings.
From S2P Require Import Prelude GoLib GoTime Domain Database Effects OutboxRepo OutboxService ClientRepo.

Local Open Scope Z_scope.

(** ** types.go *)

Definition KindMessage : string := "message".
Definition KindFriendRequest : string := "friendRequest".

Record SafePayload : Type := mkSafePayload {
  sp_Title : string; sp_Subtitle : string; sp_SenderID : string; sp_SenderName : string;
  sp_PeerID : string; sp_DisplayName : string; sp_MessageCount : Z }.

Record Envelope : Type := mkEnvelope {
  en_EventID : string; en_EventType : string; en_Kind : string; en_DeviceID : string;
  en_SegmentID : string; en_RoomID : string; en_CreatedAt : Time; en_SafePayload : SafePayload }.

(** [time.Time{}], the first of January of the year 1. *)
Definition zero_time : Time := - 62135596800 * Second.

Definition ErrDisabled : error := EText "push sender disabled".

(** ** mapper.go *)

Section mapper.
Context {E : Env}.

(** [resolveProfileName]. *)
Variable resolveProfileName : Bytes → M string.

Definition fallbackString (value fallback : string) : string :=
  if decide (value = ""%string) then fallback else value.

Definition fallbackTime (value : Time) : M Time :=
  if decide (value = zero_time) then Now else ret value.

(** The name to show for a key, or a neutral text. *)
Definition shown_name (publicKey : Bytes) (neutral : string) : M string :=
  let* resolved := resolveProfileName publicKey in
  ret (fallbackString resolved neutral).

Definition mapMessageEvent (event : OutboxEvent) : M (option Envelope) :=
  let roomID := default ""%string (get_string (oe_Payload event) "roomId") in
  let messageID := default ""%string (get_string (oe_Payload event) "messageId") in
  let senderPublicKey := default [] (get_bytes (oe_Payload event) "senderPublicKey") in
  if decide (roomID = ""%string ∨ messageID = ""%string) then ret None else
  let* senderName := (if decide (senderPublicKey = []) then ret "New message"%string
                      else shown_name senderPublicKey "New message") in
  let* createdAt := fallbackTime (oe_CreatedAt event) in
  ret (Some (mkEnvelope (uuid_String (oe_EventID event)) (oe_EventType event) KindMessage (oe_DeviceID event)
    (fallbackString (oe_SegmentID event) roomID) roomID createdAt
    (mkSafePayload senderName "1 new message" (HexEncodeToString senderPublicKey) senderName "" "" 1))).

Definition mapFriendRequestEvent (event : OutboxEvent) : M (option Envelope) :=
  let senderPublicKey := default [] (get_bytes (oe_Payload event) "senderPublicKey") in
  if decide (senderPublicKey = []) then ret None else
  let peerID := HexEncodeToString senderPublicKey in
  let* displayName := shown_name senderPublicKey "New activity" in
  let* createdAt := fallbackTime (oe_CreatedAt event) in
  ret (Some (mkEnvelope (uuid_String (oe_EventID event)) (oe_EventType event) KindFriendRequest (oe_DeviceID event)
    (fallbackString (oe_SegmentID event) peerID) "" createdAt
    (mkSafePayload displayName "Sent you a friend request" "" "" peerID displayName 0))).

Definition MapOutboxEvent (event : OutboxEvent) : M (option Envelope) :=
  if decide (oe_EventType event = "mlsMessageReceived"%string) then mapMessageEvent event else
  if decide (oe_EventType event = "friend.requestReceived"%string) then mapFriendRequestEvent event else
  ret None.
End mapper.

Definition insert_unless_empty (key value : string) (data : gmap string string) : gmap string string :=
  if decide (value = ""%string) then data else <[key := value]> data.

Definition EnvelopeData (e : Envelope) : gmap string string :=
  let p := en_SafePayload e in
  let data : gmap string string := list_to_map
    [("eventId", en_EventID e); ("eventType", en_EventType e); ("kind", en_Kind e); ("deviceId", en_DeviceID e);
     ("segmentId", en_SegmentID e); ("createdAt", FormatRFC3339Nano (en_CreatedAt e));
     ("title", sp_Title p); ("subtitle", sp_Subtitle p)]%string in
  let data := insert_unless_empty "roomId" (en_RoomID e) data in
  let data := insert_unless_empty "senderId" (sp_SenderID p) data in
  let data := insert_unless_empty "senderName" (sp_SenderName p) data in
  let data := insert_unless_empty "peerId" (sp_PeerID p) data in
  let data := insert_unless_empty "displayName" (sp_DisplayName p) data in
  if decide (0 < sp_MessageCount p) then <["messageCount"%string := Itoa (sp_MessageCount p)]> data else data.

(** ** notifier.go *)

(** [Sender]. *)
Class Sender {E : Env} : Type := Send : string → Envelope → M unit.

Section notifier.
Context {E : Env} {S : Sender}.

(** The name of a profile; an error is the empty name. *)
Definition resolve_name (c : Ctx) (publicKey : Bytes) : M string :=
  let* r := attempt (LookupProfileName c publicKey) in
  ret (match r with inl _ => ""%string | inr name => name end).

(** [process] returns nothing; every other way out is logged. *)
Definition process (c : Ctx) (event : OutboxEvent) : M unit :=
  if decide (1 < oe_Attempts event) then ret tt else
  let* mapped := MapOutboxEvent (resolve_name c) event in
  match mapped with
  | None => ret tt
  | Some envelope =>
      let* r := attempt (LookupDevice c (oe_DeviceID event)) in
      match r with
      | inl _ => ret tt
      | inr None => ret tt
      | inr (Some device) =>
          if negb (dev_IsEnabled device) then ret tt else
          if decide (dev_PushToken device = ""%string) then ret tt else
          if decide (dev_Platform device ≠ 2) then ret tt else
          ignore_error (Send (dev_PushToken device) envelope)
      end
  end.

(** The buffered channel of the notifier. *)
Record Queue : Type := mkQueue { q_capacity : Z; q_events : list OutboxEvent }.

(** [NewNotifier]. *)
Definition NewNotifier (queueSize : Z) : Queue :=
  mkQueue (if decide (queueSize ≤ 0) then 64 else queueSize) [].

(** [NotifyOutboxEvent]: an event that does not fit is dropped. *)
Definition NotifyPush (event : OutboxEvent) (q : Queue) : Queue :=
  if decide (Z.of_nat (length (q_events q)) < q_capacity q)
  then mkQueue (q_capacity q) (q_events q ++ [event]) else q.

(** [case event := <-n.queue], when there is one. *)
Definition take_event (q : Queue) : option (OutboxEvent * Queue) :=
  match q_events q with [] => None | event :: events => Some (event, mkQueue (q_capacity q) events) end.

(** [Run] between two arrivals: every event in the queue is processed, and
    the loop waits on an empty queue. *)
Fixpoint drain (c : Ctx) (events : list OutboxEvent) : M unit :=
  match events with [] => ret tt | event :: events => process c event ;;; drain c events end.

Definition Run (c : Ctx) (q : Queue) : M Queue := drain c (q_events q) ;;; ret (mkQueue (q_capacity q) []).
End notifier.

(** ** fcm/client.go *)

(** [strings.TrimRight(s, "/")]. *)
Fixpoint drop_slashes (b : Bytes) : Bytes := match b with x2f :: b => drop_slashes b | _ => b end.
Definition trim_slashes (s : string) : string := of_bytes (reverse (drop_slashes (reverse (to_bytes s)))).

Record PushFCMConfiguration : Type := mkPushFCM {
  fcm_Enabled : bool; fcm_CredentialsFile : string; fcm_ProjectID : string; fcm_Endpoint : string; fcm_Timeout : Duration }.

(** [httpClient.Timeout] is kept with the client. *)
Record Client : Type := mkClient {
  cl_enabled : bool; cl_endpoint : string; cl_projectID : string; cl_timeout : Duration }.

Definition defaultEndpoint : string := "https://fcm.googleapis.com".

(** [credentials] stands for the file system and the OAuth library: the
    project of the credentials in a file, or the error of reading it. *)
Definition NewClient (credentials : string → error + string) (cfg : PushFCMConfiguration) : error + Client :=
  if negb (fcm_Enabled cfg) then inr (mkClient false "" "" 0) else
  let credentialsFile := TrimSpace (fcm_CredentialsFile cfg) in
  if decide (credentialsFile = ""%string)
  then inl (EText "push.fcm.credentials_file is required when enabled") else
  match credentials credentialsFile with
  | inl e => inl e
  | inr project =>
      let projectID := TrimSpace (fcm_ProjectID cfg) in
      let projectID := if decide (projectID = ""%string) then TrimSpace project else projectID in
      if decide (projectID = ""%string)
      then inl (EText "push.fcm.project_id is required when not present in credentials") else
      let timeout := if decide (fcm_Timeout cfg ≤ 0) then 10 * Second else fcm_Timeout cfg in
      let endpoint := trim_slashes (TrimSpace (fcm_Endpoint cfg)) in
      let endpoint := if decide (endpoint = ""%string) then defaultEndpoint else endpoint in
      inr (mkClient true endpoint projectID timeout)
  end.

Definition notificationTitle (e : Envelope) : string :=
  let title := TrimSpace (sp_Title (en_SafePayload e)) in
  if decide (title ≠ ""%string) then title else
  if decide (en_Kind e = KindMessage) then "New message" else
  if decide (en_Kind e = KindFriendRequest) then "New activity" else "SGTP".

Definition notificationBody (e : Envelope) : string :=
  let body := TrimSpace (sp_Subtitle (en_SafePayload e)) in
  if decide (body ≠ ""%string) then body else
  if decide (en_Kind e = KindMessage) then "1 new message" else
  if decide (en_Kind e = KindFriendRequest) then "Sent you a friend request" else "New notification".

Definition string_map (m : gmap string string) : any := AMap (prod_map id AString <$> map_to_list m).

Definition fcm_message (token : string) (e : Envelope) : any :=
  AMap [("message", AMap
    [("token", AString token);
     ("notification", AMap [("title", AString (notificationTitle e)); ("body", AString (notificationBody e))]);
     ("data", string_map (EnvelopeData e));
     ("android", AMap
       [("priority", AString "high"); ("ttl", AString "2419200s");
        ("notification", AMap
          [("channel_id", AString "sgtp_app_notifications"); ("icon", AString "ic_stat_sgtp_notification");
           ("sound", AString "default"); ("default_sound", ABool true); ("default_vibrate_timings", ABool true);
           ("notification_priority", AString "PRIORITY_HIGH"); ("visibility", AString "PUBLIC")])])])]%string.

(** [ClientSend]: [http_post] stands for the encoding of the body, the
    request and the status code of its answer. *)
Definition ClientSend {E : Env} (http_post : string → any → M Z) (client : Client) (token : string) (e : Envelope) : M unit :=
  if negb (cl_enabled client) then raise ErrDisabled else
  let* status := wrap_error "send fcm request"
    (http_post (cl_endpoint client +:+ "/v1/projects/" +:+ cl_projectID client +:+ "/messages:send") (fcm_message token e)) in
  if decide (200 ≤ status < 300) then ret tt else raise (EText "fcm send failed").
