(* ===== verification/Config.v ===== *)
(** * Config: internal/config and the wiring of cmd/server

    The configuration, the overrides from the environment, validation, and
    the constructors [main] calls with it.  Durations are nanoseconds, as in
    Go; the services of the other files count microseconds. *)

From Stdlib Require Import ZArith.
From stdpp Require Import strings.
From S2P Require Import Prelude GoLib GoTime GoDuration Domain Database Effects OutboxRepo OutboxService AuthRepo.
From S2P Require Import AuthService ClientRepo FriendRepo RoomRepo ClientService Push.

Local Open Scope Z_scope.

(** ** Structures *)

Record AppPortsConfiguration : Type := mkPorts {
  TCPPort : Z; TCPTLSPort : Z; HTTPPort : Z; HTTPSPort : Z; WSPort : Z; WSSPort : Z }.

Record AppTLSConfiguration : Type := mkTLS { CertFile : string; KeyFile : string }.

Record AppConfiguration : Type := mkApp {
  app_Name : string; app_Host : string; app_Ports : AppPortsConfiguration; app_OutputPorts : AppPortsConfiguration;
  app_SessionChallengeTTL : Z; app_EventRetention : Z; app_EventBatchSize : Z; app_EventRedeliveryCooldown : Z;
  app_OutboxPollInterval : Z; app_OutboxBatchSizeSegments : Z; app_OutboxAckTimeout : Z; app_OutboxMaxAttempts : Z;
  app_OutboxJanitorInterval : Z; app_OutboxAckRetention : Z; app_OutboxDropRetention : Z;
  app_TLS : AppTLSConfiguration }.

Record LoggerConfig : Type := mkLogger { log_Level : string; log_HumanReadable : bool }.

Record PostgresConfig : Type := mkPostgres {
  pg_Host : string; pg_Port : Z; pg_Database : string; pg_Username : string; pg_Password : string;
  pg_SSLMode : string; pg_ConnectTimeoutS : Z }.

Record RedisConfig : Type := mkRedis { rd_Host : string; rd_Port : Z; rd_Database : Z; rd_Password : string }.

(** [PushConfiguration] has the one field [FCM]. *)
Record Config : Type := mkConfig {
  cf_App : AppConfiguration; cf_Push : PushFCMConfiguration; cf_Logger : LoggerConfig;
  cf_Postgres : PostgresConfig; cf_Redis : RedisConfig }.

(** ** Validation

    [None] is a nil error. *)

Definition blank (s : string) : bool := bool_decide (TrimSpace s = ""%string).

(** The first check that fails, with its message. *)
Fixpoint first_failure (checks : list (bool * string)) : option error :=
  match checks with
  | [] => None
  | (failed, message) :: checks => if failed then Some (EText message) else first_failure checks
  end.

Definition or_else (first second : option error) : option error :=
  match first with Some e => Some e | None => second end.

Definition isAllowedDuplicate (names : list string) (first second : string) : bool :=
  bool_decide (names = [first; second]) || bool_decide (names = [second; first]).

(** [duplicates[port] = append(duplicates[port], name)]. *)
Fixpoint register (port : Z) (name : string) (duplicates : list (Z * list string)) : list (Z * list string) :=
  match duplicates with
  | [] => [(port, [name])]
  | (p, names) :: rest => if decide (p = port) then (p, names ++ [name]) :: rest
                          else (p, names) :: register port name rest
  end.

Definition registered_ports (p : AppPortsConfiguration) : list (Z * list string) :=
  register (WSPort p) "ws_port" (register (HTTPPort p) "http_port" (register (TCPPort p) "tcp_port" [])).

(** Ports in use twice, except by HTTP and WebSocket together. *)
Definition refused_duplicate (entry : Z * list string) : bool :=
  bool_decide (2 ≤ length entry.2)%nat && negb (isAllowedDuplicate entry.2 "http_port" "ws_port").

(** [strings.Join(names, ", ")]. *)
Fixpoint Join (names : list string) (sep : string) : string :=
  match names with
  | [] => ""
  | [name] => name
  | name :: names => name +:+ sep +:+ Join names sep
  end.

Definition ValidateInternal (section : string) (p : AppPortsConfiguration) : option error :=
  let section := if blank section then "app.ports"%string else section in
  or_else (first_failure
    [((TCPPort p <=? 0)%Z, section +:+ ".tcp_port must be > 0");
     ((HTTPPort p <=? 0)%Z, section +:+ ".http_port must be > 0");
     ((WSPort p <=? 0)%Z, section +:+ ".ws_port must be > 0")]%string)
  (match List.find refused_duplicate (registered_ports p) with
   | Some (port, names) => Some (EText ("port " +:+ Itoa port +:+ " is reused by unsupported combination: " +:+ Join names ", "))
   | None => None
   end).

Definition ValidatePublic (section : string) (p : AppPortsConfiguration) : option error :=
  let section := if blank section then "app.output_ports"%string else section in
  first_failure
    [((TCPPort p <=? 0)%Z, section +:+ ".tcp_port must be > 0"); ((TCPTLSPort p <=? 0)%Z, section +:+ ".tcp_tls_port must be > 0");
     ((HTTPPort p <=? 0)%Z, section +:+ ".http_port must be > 0"); ((HTTPSPort p <=? 0)%Z, section +:+ ".https_port must be > 0");
     ((WSPort p <=? 0)%Z, section +:+ ".ws_port must be > 0"); ((WSSPort p <=? 0)%Z, section +:+ ".wss_port must be > 0")]%string.

Definition ValidateApp (a : AppConfiguration) : option error :=
  or_else (first_failure [(blank (app_Name a), "app.name is required"); (blank (app_Host a), "app.host is required")]%string)
  (or_else (ValidateInternal "app.ports" (app_Ports a))
  (or_else (ValidatePublic "app.output_ports" (app_OutputPorts a))
  (first_failure
    [((app_SessionChallengeTTL a <=? 0)%Z, "app.session_challenge_ttl must be > 0");
     ((app_EventRetention a <=? 0)%Z, "app.event_retention must be > 0");
     ((app_EventBatchSize a <=? 0)%Z, "app.event_batch_size must be > 0");
     ((app_EventRedeliveryCooldown a <? 0)%Z, "app.event_redelivery_cooldown must be >= 0");
     ((app_OutboxPollInterval a <? 0)%Z, "app.outbox_poll_interval must be >= 0");
     ((app_OutboxBatchSizeSegments a <? 0)%Z, "app.outbox_batch_size_segments must be >= 0");
     ((app_OutboxAckTimeout a <? 0)%Z, "app.outbox_ack_timeout must be >= 0");
     ((app_OutboxMaxAttempts a <? 0)%Z, "app.outbox_max_attempts must be >= 0");
     ((app_OutboxJanitorInterval a <? 0)%Z, "app.outbox_janitor_interval must be >= 0");
     ((app_OutboxAckRetention a <? 0)%Z, "app.outbox_ack_retention must be >= 0");
     ((app_OutboxDropRetention a <? 0)%Z, "app.outbox_drop_retention must be >= 0")]%string))).

Definition ValidatePush (p : PushFCMConfiguration) : option error :=
  first_failure [(fcm_Enabled p && blank (fcm_CredentialsFile p),
    "push.fcm.credentials_file is required when push.fcm.enabled = true"%string)].

Definition ValidateLogger (l : LoggerConfig) : option error :=
  first_failure [(blank (log_Level l), "logger.level is required"%string)].

Definition ValidatePostgres (p : PostgresConfig) : option error :=
  first_failure
    [(blank (pg_Host p), "postgres.host is required"); ((pg_Port p <=? 0)%Z, "postgres.port must be > 0");
     (blank (pg_Database p), "postgres.database is required"); (blank (pg_Username p), "postgres.username is required")]%string.

Definition ValidateRedis (r : RedisConfig) : option error :=
  first_failure
    [(blank (rd_Host r), "redis.host is required"); ((rd_Port r <=? 0)%Z, "redis.port must be > 0");
     ((rd_Database r <? 0)%Z, "redis.database must be >= 0")]%string.

Definition validate (c : Config) : option error :=
  or_else (ValidateApp (cf_App c)) (or_else (ValidatePush (cf_Push c)) (or_else (ValidateLogger (cf_Logger c))
    (or_else (ValidatePostgres (cf_Postgres c)) (ValidateRedis (cf_Redis c))))).

(** ** Overrides from the environment *)

(** [strings.EqualFold(s, t)] for a [t] of ASCII letters without [k] and
    [s]: no other character folds to those. *)
Definition lower_ascii (b : byte) : byte :=
  let v := byte_val b in if decide (65 ≤ v ≤ 90) then byte_of (v + 32) else b.
Definition EqualFold (s t : string) : bool :=
  bool_decide (lower_ascii <$> to_bytes s = lower_ascii <$> to_bytes t).

Section environment.
(** [os.Getenv]. *)
Variable getenv : string → string.

Definition env_value (name : string) : option string :=
  let value := TrimSpace (getenv name) in if decide (value = ""%string) then None else Some value.

(** A value that does not parse is ignored. *)
Definition env_duration (name : string) (current : Z) : Z := default current (env_value name ≫= ParseDuration).
Definition env_int (name : string) (current : Z) : Z := default current (env_value name ≫= Atoi).
Definition env_string (name current : string) : string := default current (env_value name).
Definition env_flag (name : string) (current : bool) : bool :=
  match env_value name with
  | Some value => bool_decide (value = "1"%string) || EqualFold value "true"
  | None => current
  end.

Definition override_app (a : AppConfiguration) : AppConfiguration :=
  mkApp (app_Name a) (app_Host a) (app_Ports a) (app_OutputPorts a)
    (env_duration "APP_SESSION_CHALLENGE_TTL" (app_SessionChallengeTTL a))
    (env_duration "APP_EVENT_RETENTION" (app_EventRetention a))
    (env_int "APP_EVENT_BATCH_SIZE" (app_EventBatchSize a))
    (env_duration "APP_EVENT_REDELIVERY_COOLDOWN" (app_EventRedeliveryCooldown a))
    (env_duration "APP_OUTBOX_POLL_INTERVAL" (app_OutboxPollInterval a))
    (env_int "APP_OUTBOX_BATCH_SIZE_SEGMENTS" (app_OutboxBatchSizeSegments a))
    (env_duration "APP_OUTBOX_ACK_TIMEOUT" (app_OutboxAckTimeout a))
    (env_int "APP_OUTBOX_MAX_ATTEMPTS" (app_OutboxMaxAttempts a))
    (env_duration "APP_OUTBOX_JANITOR_INTERVAL" (app_OutboxJanitorInterval a))
    (env_duration "APP_OUTBOX_ACK_RETENTION" (app_OutboxAckRetention a))
    (env_duration "APP_OUTBOX_DROP_RETENTION" (app_OutboxDropRetention a)) (app_TLS a).

Definition override_push (p : PushFCMConfiguration) : PushFCMConfiguration :=
  mkPushFCM (env_flag "PUSH_FCM_ENABLED" (fcm_Enabled p))
    (env_string "PUSH_FCM_CREDENTIALS_FILE" (fcm_CredentialsFile p))
    (env_string "PUSH_FCM_PROJECT_ID" (fcm_ProjectID p)) (env_string "PUSH_FCM_ENDPOINT" (fcm_Endpoint p))
    (env_duration "PUSH_FCM_TIMEOUT" (fcm_Timeout p)).

Definition applyEnvOverrides (c : Config) : Config :=
  mkConfig (override_app (cf_App c)) (override_push (cf_Push c)) (cf_Logger c) (cf_Postgres c) (cf_Redis c).

(** [Load]: [read_yaml] stands for the file system and the YAML decoder. *)
Definition DefaultPath : string := "config/config.yaml".
Definition Load (read_yaml : string → error + Config) (path : string) : error + Config :=
  let path := if blank path then DefaultPath else path in
  match read_yaml path with
  | inl e => inl e
  | inr c => let c := applyEnvOverrides c in
             match validate c with Some e => inl e | None => inr c end
  end.
End environment.

(** ** Derived settings *)

Definition configFallbackString (value fallback : string) : string := if blank value then fallback else value.

Definition Addr (r : RedisConfig) : string :=
  let port := if decide (rd_Port r = 0) then 6379 else rd_Port r in
  configFallbackString (rd_Host r) "localhost" +:+ ":" +:+ Itoa port.

Definition URL (r : RedisConfig) : string :=
  let auth := if decide (rd_Password r = ""%string) then ""%string else ":" +:+ rd_Password r +:+ "@" in
  "redis://" +:+ auth +:+ Addr r +:+ "/" +:+ Itoa (rd_Database r).

Inductive Level : Type := LevelDebug | LevelInfo | LevelWarn | LevelError.

(** [strings.ToLower], as far as a comparison with ASCII words can tell: the
    capital letters, and the Turkish capital I, whose lower case is [i]. *)
Fixpoint to_lower (b : Bytes) : Bytes :=
  match b with
  | xc4 :: xb0 :: b => x69 :: to_lower b
  | c :: b => lower_ascii c :: to_lower b
  | [] => []
  end.

Definition SlogLevel (l : LoggerConfig) : Level :=
  let level := of_bytes (to_lower (to_bytes (TrimSpace (log_Level l)))) in
  if decide (level = "debug"%string) then LevelDebug else
  if decide (level = "warn"%string ∨ level = "warning"%string) then LevelWarn else
  if decide (level = "error"%string) then LevelError else LevelInfo.

(** ** cmd/server/main.go: the services of a configuration *)

(** Nanoseconds as microseconds, away from zero, so that the tests of the
    constructors on the sign of a duration come out as in Go. *)
Definition micros (d : Z) : Duration := if decide (0 < d) then (d + 999) / 1000 else d / 1000.

Definition auth_config (a : AppConfiguration) : AuthConfig :=
  mkAuthConfig (micros (app_SessionChallengeTTL a)) (micros (app_EventRetention a)) (app_EventBatchSize a)
    (micros (app_EventRedeliveryCooldown a)).

(** [DeleteBatchSize] is left to its default. *)
Definition outbox_config (a : AppConfiguration) : OutboxConfig :=
  mkOutboxConfig (micros (app_OutboxPollInterval a)) (app_OutboxBatchSizeSegments a) (micros (app_OutboxAckTimeout a))
    (app_OutboxMaxAttempts a) (micros (app_OutboxJanitorInterval a)) 0 (micros (app_OutboxAckRetention a))
    (micros (app_OutboxDropRetention a)).

Definition client_config (a : AppConfiguration) : ClientConfig :=
  mkClientConfig (app_Name a) "2" (micros (app_SessionChallengeTTL a)) (micros (app_EventRetention a)) (app_EventBatchSize a).

Record Services : Type := mkServices {
  sv_outbox : OutboxService; sv_auth : AuthConfig; sv_client : ClientConfig; sv_fcm : Client; sv_push : Queue }.

(** The constructors in the order of [main], with the notifiers [bus] and
    [pushNotifier]; an error ends the process. *)
Definition main_services (credentials : string → error + string) (bus pushNotifier : option Notifier) (c : Config)
  : error + Services :=
  match NewClient credentials (cf_Push c) with
  | inl e => inl e
  | inr fcmClient =>
      let outboxNotifier := MultiNotifier (NewMultiNotifier [bus; pushNotifier]) in
      match NewService (outbox_config (cf_App c)) true true true (Some outboxNotifier) with
      | inl e => inl e
      | inr outboxService =>
          match NewAuthService (auth_config (cf_App c)) true with
          | inl e => inl e
          | inr authService =>
              match NewClientService (client_config (cf_App c)) true with
              | inl e => inl e
              | inr clientService => inr (mkServices outboxService authService clientService fcmClient (NewNotifier 256))
              end
          end
      end
  end.
