(* ===== verification/Rpc.v ===== *)
(** * Rpc: internal/domain/rpc and the parameters of internal/delivery/clientrpc

    Request and response packets, the parameters of a call as the handler
    reads them out of a decoded CBOR map, and the mapping of errors to the
    codes a client sees. *)

From Stdlib Require Import ZArith.
From S2P Require Import Prelude GoLib GoTime Domain Database Effects.

Local Open Scope Z_scope.

(** ** internal/domain/rpc/types.go *)

Record RequestPacket : Type := mkRequestPacket { pk_Signature : Bytes; pk_Payload : Bytes }.

Record RequestPayload : Type := mkRequestPayload {
  pl_RequestID : UUID; pl_RPCCall : string; pl_Timestamp : Z; pl_Version : Z; pl_Parameters : Bytes }.

Record ResponsePacket : Type := mkResponsePacket {
  rs_RequestID : UUID; rs_ReplyToRequestID : option UUID; rs_EventType : string; rs_Parameters : GoMap }.

(** ** handler.go: the structures the calls decode into *)

Record requestAuthChallengeParams : Type := mkRequestAuthChallengeParams {
  rq_UserPublicKey : Bytes; rq_PublicIP : string; rq_DeviceID : string; rq_ClientNonce : Bytes }.
Record solveAuthChallengeParams : Type := mkSolveAuthChallengeParams {
  sv_SessionID : UUID; sv_Signature : Bytes }.
Record subscribeToEventsParams : Type := mkSubscribeToEventsParams { sb_RequestedAt : Z }.
Record unsubscribeFromEventsParams : Type := mkUnsubscribeFromEventsParams {
  un_SubscriptionID : UUID; un_RequestedAt : Z }.
Record acknowledgeEventParams : Type := mkAcknowledgeEventParams {
  ak_EventID : any; ak_DeviceID : string; ak_SegmentID : string }.

(** github.com/fxamacker/cbor: what [Unmarshal] makes of bytes for each
    target type, or the text of its error, and what [Marshal] makes of the
    responses; [None] is a nil map.  github.com/google/uuid: what [Parse] and
    [FromBytes] return as identifier, and whether without an error. *)
Class Codec : Type := {
  cbor_packets : Bytes → string + list RequestPacket;
  cbor_packet : Bytes → string + RequestPacket;
  DecodePayload : Bytes → string + RequestPayload;
  cbor_requestAuth : Bytes → string + requestAuthChallengeParams;
  cbor_solveAuth : Bytes → string + solveAuthChallengeParams;
  cbor_subscribe : Bytes → string + subscribeToEventsParams;
  cbor_unsubscribe : Bytes → string + unsubscribeFromEventsParams;
  cbor_acknowledge : Bytes → string + acknowledgeEventParams;
  cbor_map : Bytes → string + option GoMap;
  cbor_responses : list ResponsePacket → option Bytes;
  uuid_Parse : string → UUID * bool;
  uuid_FromBytes : Bytes → UUID * bool }.

(** ** handler.go: errors *)

(** [mapError]: the code and the message, for an error. *)
Definition mapError (err : error) : string * string :=
  let any_of := existsb (Is err) in
  if Contains (Error err) "not implemented" then ("not_implemented", Error err) else
  if any_of [ErrInvalidPublicKey; ErrInvalidSessionID; ErrInvalidSignature; ErrInvalidDeviceID;
             ErrOutboxInvalidDeviceID; ErrInvalidClientNonce; ErrInvalidEventID]
  then ("invalid_argument", Error err) else
  if any_of [ErrSessionNotFound; ErrSubscriptionNotFound; ErrNotFound] then ("not_found", Error err) else
  if Is err ErrForbidden then ("forbidden", Error err) else
  if Is err ErrConflict then ("conflict", Error err) else
  if Is err ErrProfileRequired then ("profile_required", Error err) else
  if any_of [ErrSessionExpired; ErrSessionNotAuthenticated] then ("unauthenticated", Error err)
  else ("internal_error", Error err)%string.

Definition errorParameters (code message : string) : GoMap :=
  [("error", AMap [("code", AString code); ("message", AString message);
                   ("retry", ABool (bool_decide (code = "internal_error")))])]%string.

Definition maxStatus (current candidate : Z) : Z := if current <? candidate then candidate else current.

Definition StatusOK : Z := 200.
Definition StatusBadRequest : Z := 400.
Definition StatusMethodNotAllowed : Z := 405.
Definition StatusInternalServerError : Z := 500.

(** ** client_methods.go: reading parameters *)

Section parameters.
Context {C : Codec}.

(** A key that is missing and a key that holds nil are the same. *)
Definition param (params : GoMap) (key : string) : option any :=
  match map_get params key with Some ANil | None => None | Some v => Some v end.

Definition decodeMapParameters (raw : Bytes) : string + GoMap :=
  if decide (raw = []) then inr [] else
  match cbor_map raw with
  | inl msg => inl msg
  | inr None => inr []
  | inr (Some params) => inr params
  end.

(** The error of the parser is dropped, and what it has read so far used. *)
Definition mustUUID (params : GoMap) (key : string) : UUID :=
  match param params key with
  | Some (AUUID id) => id
  | Some (AString s) => (uuid_Parse s).1
  | Some (ABytes b) => (uuid_FromBytes b).1
  | _ => uuid_Nil
  end.

Definition optionalUUIDPtr (params : GoMap) (key : string) : option UUID :=
  let value := mustUUID params key in
  if decide (value = uuid_Nil) then None else Some value.

(** A nil slice, and a value of another type, are the empty slice. *)
Definition mustBytes (params : GoMap) (key : string) : Bytes :=
  match param params key with Some (ABytes b) => b | _ => [] end.

Definition optionalBytes (params : GoMap) (key : string) : Bytes := mustBytes params key.

(** Where the caller tells a nil slice from an empty one. *)
Definition nullableBytes (params : GoMap) (key : string) : option Bytes :=
  match param params key with Some (ABytes b) => Some b | _ => None end.

Definition mustBytesList (params : GoMap) (key : string) : list Bytes :=
  match param params key with
  | Some (AList l) => (λ item, match item with ABytes b => b | _ => [] end) <$> l
  | _ => []
  end.

Fixpoint normalizeValue (value : any) : any :=
  match value with
  | AMap m => AMap ((fix go (m : list (string * any)) :=
                       match m with [] => [] | (k, v) :: m => (k, normalizeValue v) :: go m end) m)
  | AList l => AList ((fix go (l : list any) := match l with [] => [] | v :: l => normalizeValue v :: go l end) l)
  | v => v
  end.

Definition normalizeMap (value : any) : option GoMap :=
  match value with
  | AMap m => Some ((λ kv, (kv.1, normalizeValue kv.2)) <$> m)
  | _ => None
  end.

Definition mustMapList (params : GoMap) (key : string) : list GoMap :=
  match param params key with
  | Some (AList l) => (λ item, default [] (normalizeMap item)) <$> l
  | _ => []
  end.

Definition optionalString (params : GoMap) (key : string) : string :=
  match param params key with Some (AString s) => s | _ => "" end.

(** [int(typed)] for the listed dynamic types, 0 for the others. *)
Definition optionalInt (params : GoMap) (key : string) : Z :=
  match param params key with
  | Some (AInt (KUint64 | KUint32 | KInt64 | KInt | KInt32 | KUint16) z) => int64 z
  | _ => 0
  end.

Definition optionalBool (params : GoMap) (key : string) : bool :=
  match param params key with Some (ABool b) => b | _ => false end.

(** [time.UnixMicro(int64(typed))], an instant in microseconds. *)
Definition optionalTimePtr (params : GoMap) (key : string) : option Time :=
  match param params key with
  | Some (ATime t) => Some t
  | Some (AString s) => ParseRFC3339Nano s
  | Some (AInt (KInt64 | KInt | KInt32 | KUint64 | KUint32 | KUint) z) => Some (int64 z)
  | _ => None
  end.

(** [parseUUIDParam]: the nil identifier is refused. *)
Definition parseUUIDParam (value : any) : option UUID :=
  let non_nil r := if decide (r.2 = true ∧ r.1 ≠ uuid_Nil) then Some r.1 else None in
  match value with
  | AUUID id => non_nil (id, true)
  | ABytes b => non_nil (uuid_FromBytes b)
  | AString s => non_nil (uuid_Parse s)
  | _ => None
  end.
End parameters.
