(* ===== verification/Handler.v ===== *)
(** * Handler: internal/delivery/clientrpc

    The RPC handler: who has to sign a packet, what each call does to the
    state of its connection, the dispatch of the client API, and the events
    that ride along with the responses of a batch. *)

From Stdlib Require Import ZArith.
From stdpp Require Import gmap.
From S2P Require Import Prelude GoLib GoTime Domain Database Effects Pagination OutboxRepo OutboxService.
From S2P Require Import AuthRepo AuthService ClientRepo FriendRepo RoomRepo ClientService RoomService Rpc.

Local Open Scope Z_scope.

(** [h.clientService] and [h.outboxService] may be nil. *)
Record Handler : Type := mkHandler {
  h_authService : AuthConfig; h_clientService : option ClientConfig; h_outboxService : option OutboxService }.

Record sessionState : Type := mkSessionState {
  st_SessionID : UUID; st_UserPublicKey : Bytes; st_DeviceID : string; st_Authenticated : bool;
  st_ProfileCompleted : bool; st_SubscriptionIDs : list UUID }.

(** [sessionState{}]. *)
Definition no_state : sessionState := mkSessionState uuid_Nil [] "" false false [].

(** The events a connection has been sent, with the end of their lease. *)
Definition sentEvents := gmap UUID Time.

Record connectionSession : Type := mkConnectionSession { cn_state : sessionState; cn_sent : sentEvents }.

Definition st_set_subscriptions (ids : list UUID) (s : sessionState) : sessionState :=
  mkSessionState (st_SessionID s) (st_UserPublicKey s) (st_DeviceID s) (st_Authenticated s) (st_ProfileCompleted s) ids.
Definition st_set_profile (completed : bool) (s : sessionState) : sessionState :=
  mkSessionState (st_SessionID s) (st_UserPublicKey s) (st_DeviceID s) (st_Authenticated s) completed (st_SubscriptionIDs s).

Section handler.
Context {E : Env} {C : Codec} {App : EventAppender} (h : Handler).

#[local] Instance session_lookup : SessionLookup := LookupSession.

Definition of_decoded {A} (r : string + A) : M A :=
  match r with inl msg => raise (EText msg) | inr a => ret a end.

(** ** client_methods_groups.go *)

Definition handleProfileMethods (cfg : ClientConfig) (c : Ctx) (rpcCall : string) (params : GoMap)
  (state : sessionState) : M GoMap :=
  let user := st_UserPublicKey state in
  if decide (rpcCall = "getProfile") then SvcGetProfile c (mustBytes params "userPublicKey") else
  if decide (rpcCall = "updateProfile") then
    SvcUpdateProfile cfg c user (optionalString params "username") (optionalString params "displayName")
      (optionalString params "avatarHash") (optionalString params "bio") else
  if decide (rpcCall = "searchProfiles") then
    SvcSearchProfiles c (optionalString params "query") (optionalInt params "limit") (optionalString params "cursor") else
  if decide (rpcCall = "deleteAccount") then SvcDeleteAccount c user else
  if decide (rpcCall = "getProfileAvatar") then SvcGetProfileAvatar c (mustBytes params "userPublicKey") else
  ret [].

Definition handleDeviceAndMLSMethods (cfg : ClientConfig) (c : Ctx) (rpcCall : string) (params : GoMap)
  (state : sessionState) : M GoMap :=
  let user := st_UserPublicKey state in
  if decide (rpcCall = "listDevices") then SvcListDevices c user else
  if decide (rpcCall = "registerDevicePushToken") then
    RegisterDevicePushToken c (st_SessionID state) user (int16 (optionalInt params "platform"))
      (optionalString params "pushToken") (optionalBool params "isEnabled") else
  if decide (rpcCall = "removeDevice") then SvcRemoveDevice c user (mustUUID params "deviceId") else
  if decide (rpcCall = "uploadKeyPackages") then
    UploadKeyPackages c (st_SessionID state) user (mustMapList params "packages") else
  if decide (rpcCall = "fetchKeyPackages") then SvcFetchKeyPackages c (mustBytesList params "userPublicKeys") else
  if decide (rpcCall = "sendCommit") then
    SendCommit cfg c user (mustUUID params "roomId") (mustBytes params "commitBytes") else
  if decide (rpcCall = "sendWelcome") then
    SendWelcome cfg c user (optionalUUIDPtr params "roomId") (mustBytes params "targetUserPublicKey")
      (mustBytes params "welcomeBytes") else
  if decide (rpcCall = "uploadGroupInfo") then
    UploadGroupInfo c user (mustUUID params "roomId") (mustBytes params "groupInfoBytes") else
  if decide (rpcCall = "fetchGroupInfo") then FetchGroupInfo c (mustUUID params "roomId") else
  if decide (rpcCall = "sendExternalCommit") then
    SendExternalCommit cfg c user (mustUUID params "roomId") (mustBytes params "commitBytes") else
  if decide (rpcCall = "fetchWelcome") then FetchWelcome c user (mustUUID params "roomId") else
  ret [].

Definition handleFriendMethods (cfg : ClientConfig) (c : Ctx) (rpcCall : string) (params : GoMap)
  (state : sessionState) : M GoMap :=
  let user := st_UserPublicKey state in
  if decide (rpcCall = "listFriends") then
    SvcListFriends c user (optionalInt params "limit") (optionalString params "cursor") else
  if decide (rpcCall = "removeFriend") then SvcRemoveFriend cfg c user (mustBytes params "friendPublicKey") else
  if decide (rpcCall = "sendFriendRequest") then SendFriendRequest cfg c user (mustBytes params "receiverPublicKey") else
  if decide (rpcCall = "acceptFriendRequest") then AcceptFriendRequest cfg c user (mustUUID params "requestId") else
  if decide (rpcCall = "declineFriendRequest") then DeclineFriendRequest cfg c user (mustUUID params "requestId") else
  if decide (rpcCall = "cancelFriendRequest") then CancelFriendRequest cfg c user (mustUUID params "requestId") else
  if decide (rpcCall = "listFriendRequests") then
    SvcListFriendRequests c user (optionalString params "direction") (optionalInt params "limit")
      (optionalString params "cursor") else
  ret [].

Definition handleRoomMethods (cfg : ClientConfig) (c : Ctx) (rpcCall : string) (params : GoMap)
  (state : sessionState) : M GoMap :=
  let user := st_UserPublicKey state in
  let room := mustUUID params "roomId" in
  if decide (rpcCall = "createChatRoom") then
    CreateChatRoom c user (optionalString params "title") (optionalString params "description")
      (int16 (optionalInt params "visibility")) else
  if decide (rpcCall = "createDirectRoom") then SvcCreateDirectRoom c user (mustBytes params "targetUserPublicKey") else
  if decide (rpcCall = "listChatRooms") then
    SvcListRooms c user (optionalInt params "limit") (optionalString params "cursor") else
  if decide (rpcCall = "getChatRoom") then GetChatRoom c room else
  if decide (rpcCall = "searchChatRooms") then
    SvcSearchRooms c (optionalString params "query") (optionalInt params "limit") (optionalString params "cursor") else
  if decide (rpcCall = "syncChatRoom") then SyncChatRoom c room else
  if decide (rpcCall = "updateChatRoom") then
    UpdateChatRoom c user room (optionalString params "title") (optionalString params "description")
      (optionalString params "avatarHash") else
  if decide (rpcCall = "updateChatRoomState") then
    UpdateChatRoomState c user room (mustUUID params "groupId") (optionalInt params "epoch")
      (nullableBytes params "treeBytes") (nullableBytes params "treeHash") else
  if decide (rpcCall = "fetchChatRoomState") then FetchChatRoomState c user room (optionalInt params "epoch") else
  if decide (rpcCall = "deleteChatRoom") then DeleteChatRoom cfg c user room else
  if decide (rpcCall = "getChatRoomAvatar") then GetChatRoomAvatar c room else
  ret [].

Definition handleMemberMethods (cfg : ClientConfig) (c : Ctx) (rpcCall : string) (params : GoMap)
  (state : sessionState) : M GoMap :=
  let user := st_UserPublicKey state in
  let room := mustUUID params "roomId" in
  let target := mustBytes params "userPublicKey" in
  if decide (rpcCall = "joinChatRoom") then JoinChatRoom cfg c user room else
  if decide (rpcCall = "leaveChatRoom") then LeaveChatRoom cfg c user room else
  if decide (rpcCall = "kickChatMember") then KickChatMember cfg c user room target else
  if decide (rpcCall = "listChatMembers") then
    ListChatMembers c room (optionalInt params "limit") (optionalString params "cursor") else
  if decide (rpcCall = "updateChatMemberRole") then
    UpdateChatMemberRole cfg c user room target (int16 (optionalInt params "role")) else
  if decide (rpcCall = "createChatMemberPermission") then
    CreateChatMemberPermission c user room target (optionalString params "permissionKey")
      (optionalBool params "isAllowed") else
  if decide (rpcCall = "listChatMemberPermissions") then
    ListChatMemberPermissions c room (optionalBytes params "userPublicKey") (optionalInt params "limit")
      (optionalString params "cursor") else
  if decide (rpcCall = "updateChatMemberPermission") then
    UpdateChatMemberPermission c user (mustUUID params "permissionId") (optionalBool params "isAllowed") else
  if decide (rpcCall = "deleteChatMemberPermission") then
    DeleteChatMemberPermission c user (mustUUID params "permissionId") else
  ret [].

Definition handleInvitationMethods (cfg : ClientConfig) (c : Ctx) (rpcCall : string) (params : GoMap)
  (state : sessionState) : M GoMap :=
  let user := st_UserPublicKey state in
  let invitation := mustUUID params "invitationId" in
  if decide (rpcCall = "sendChatInvitation") then
    SendChatInvitation cfg c user (mustUUID params "roomId") (mustBytes params "inviteePublicKey")
      (optionalTimePtr params "expiresAt") (optionalBytes params "inviteToken")
      (optionalBytes params "inviteTokenSignature") else
  if decide (rpcCall = "revokeChatInvitation") then RevokeChatInvitation cfg c user invitation else
  if decide (rpcCall = "listSentChatInvitations") then
    ListSentChatInvitations c user (optionalUUIDPtr params "roomId") (optionalInt params "limit")
      (optionalString params "cursor") else
  if decide (rpcCall = "listIncomingChatInvitations") then
    ListIncomingChatInvitations c user (optionalInt params "limit") (optionalString params "cursor") else
  if decide (rpcCall = "acceptChatInvitation") then
    AcceptChatInvitation cfg c user invitation (optionalBytes params "commitBytes") else
  if decide (rpcCall = "declineChatInvitation") then DeclineChatInvitation cfg c user invitation else
  ret [].

Definition handleMessageMethods (cfg : ClientConfig) (c : Ctx) (rpcCall : string) (params : GoMap)
  (state : sessionState) : M GoMap :=
  if decide (rpcCall = "sendMessage") then
    SendMessage cfg c (st_UserPublicKey state) (mustUUID params "roomId") (mustUUID params "clientMsgId")
      (mustBytesList params "body") else
  ret [].

Definition handleOverviewMethods (cfg : ClientConfig) (c : Ctx) (rpcCall : string) (params : GoMap)
  (state : sessionState) : M GoMap :=
  let user := st_UserPublicKey state in
  if decide (rpcCall = "getServerLimits") then GetServerLimits cfg c else
  if decide (rpcCall = "getUserLimits") then GetUserLimits c user else
  if decide (rpcCall = "getGroupLimits") then GetGroupLimits c (mustUUID params "roomId") else
  if decide (rpcCall = "getMyUsageStats") then GetMyUsageStats c user else
  if decide (rpcCall = "getServerConfig") then GetServerConfig cfg else
  ret [].

(** ** client_methods_dispatch.go *)

Definition not_implemented (rpcCall : string) : error :=
  EText ("rpc " +:+ rpcCall +:+ " is not implemented yet").

Definition profileMethods : list string :=
  ["getProfile"; "updateProfile"; "searchProfiles"; "deleteAccount"; "getProfileAvatar"]%string.
Definition deviceMethods : list string :=
  ["listDevices"; "registerDevicePushToken"; "removeDevice"; "uploadKeyPackages"; "fetchKeyPackages"; "sendCommit";
   "sendWelcome"; "uploadGroupInfo"; "fetchGroupInfo"; "sendExternalCommit"; "fetchWelcome"]%string.
Definition friendMethods : list string :=
  ["listFriends"; "removeFriend"; "sendFriendRequest"; "acceptFriendRequest"; "declineFriendRequest";
   "cancelFriendRequest"; "listFriendRequests"]%string.
Definition roomMethods : list string :=
  ["createChatRoom"; "createDirectRoom"; "listChatRooms"; "getChatRoom"; "searchChatRooms"; "syncChatRoom";
   "updateChatRoom"; "updateChatRoomState"; "fetchChatRoomState"; "deleteChatRoom"; "getChatRoomAvatar"]%string.
Definition memberMethods : list string :=
  ["joinChatRoom"; "leaveChatRoom"; "kickChatMember"; "listChatMembers"; "updateChatMemberRole";
   "createChatMemberPermission"; "listChatMemberPermissions"; "updateChatMemberPermission";
   "deleteChatMemberPermission"]%string.
Definition invitationMethods : list string :=
  ["sendChatInvitation"; "revokeChatInvitation"; "listSentChatInvitations"; "listIncomingChatInvitations";
   "acceptChatInvitation"; "declineChatInvitation"]%string.
Definition overviewMethods : list string :=
  ["getServerLimits"; "getUserLimits"; "getGroupLimits"; "getMyUsageStats"; "getServerConfig"]%string.

Definition dispatchClientMethod (cfg : ClientConfig) (c : Ctx) (rpcCall : string) (params : GoMap)
  (state : sessionState) : M GoMap :=
  if decide (rpcCall ∈ profileMethods) then handleProfileMethods cfg c rpcCall params state else
  if decide (rpcCall ∈ deviceMethods) then handleDeviceAndMLSMethods cfg c rpcCall params state else
  if decide (rpcCall ∈ friendMethods) then handleFriendMethods cfg c rpcCall params state else
  if decide (rpcCall ∈ roomMethods) then handleRoomMethods cfg c rpcCall params state else
  if decide (rpcCall ∈ memberMethods) then handleMemberMethods cfg c rpcCall params state else
  if decide (rpcCall ∈ invitationMethods) then handleInvitationMethods cfg c rpcCall params state else
  if decide (rpcCall = "sendMessage"%string) then handleMessageMethods cfg c rpcCall params state else
  if decide (rpcCall ∈ overviewMethods) then handleOverviewMethods cfg c rpcCall params state else
  raise (not_implemented rpcCall).

(** ** client_methods.go and handler.go: one call *)

Definition profileCompleted (c : Ctx) (user : Bytes) : M bool :=
  match h_clientService h with
  | None => ret true
  | Some _ =>
      let* response := attempt (SvcGetProfile c user) in
      match response with
      | inl e => if Is e ErrNotFound then ret false else raise e
      | inr response =>
          match map_get response "profile" with
          | Some (AMap profile) =>
              ret (bool_decide (TrimSpace (default "" (get_string profile "displayName")) ≠ ""%string))
          | _ => ret false
          end
      end
  end.

(** The parameters of the response, and the state of the connection. *)
Definition handleClientAPICall (c : Ctx) (payload : RequestPayload) (state : sessionState)
  : M (GoMap * sessionState) :=
  match h_clientService h with
  | None => raise (not_implemented (pl_RPCCall payload))
  | Some cfg =>
      if negb (st_Authenticated state) then raise ErrSessionNotAuthenticated else
      if decide (st_ProfileCompleted state = false ∧ pl_RPCCall payload ≠ "updateProfile"%string)
      then raise ErrProfileRequired else
      let* params := of_decoded (decodeMapParameters (pl_Parameters payload)) in
      let* responseParams := dispatchClientMethod cfg c (pl_RPCCall payload) params state in
      if decide (pl_RPCCall payload = "updateProfile"%string) then
        let* completed := profileCompleted c (st_UserPublicKey state) in
        ret (responseParams, st_set_profile completed state)
      else ret (responseParams, state)
  end.

(** Whose signature a packet needs; the empty key stands for nobody's. *)
Definition resolveSigner (c : Ctx) (payload : RequestPayload) (state : sessionState) : M Bytes :=
  if st_Authenticated state then ret (st_UserPublicKey state) else
  if decide (pl_RPCCall payload = "requestAuthChallenge"%string) then
    let* params := of_decoded (cbor_requestAuth (pl_Parameters payload)) in
    ret (rq_UserPublicKey params)
  else if decide (pl_RPCCall payload = "solveAuthChallenge"%string) then
    let* params := of_decoded (cbor_solveAuth (pl_Parameters payload)) in
    let* session := LookupSession c (sv_SessionID params) in
    ret (ses_UserPublicKey session)
  else if decide (st_SessionID state ≠ uuid_Nil) then ret (st_UserPublicKey state)
  else raise ErrSessionNotAuthenticated.

Definition call_requestAuthChallenge (c : Ctx) (payload : RequestPayload) (state : sessionState)
  : M (GoMap * sessionState) :=
  let* params := of_decoded (cbor_requestAuth (pl_Parameters payload)) in
  let* result := RequestAuthChallenge (h_authService h) c
    (mkRequestAuthChallengeInput (rq_UserPublicKey params) (rq_PublicIP params) (rq_DeviceID params)
       (rq_ClientNonce params)) in
  ret ([("sessionId", AString (uuid_String (rac_SessionID result)));
        ("challengePayload", ABytes (rac_ChallengePayload result));
        ("expiresAt", AFormatted (rac_ExpiresAt result))]%string,
       mkSessionState (rac_SessionID result) (rq_UserPublicKey params) (rq_DeviceID params)
         (st_Authenticated state) (st_ProfileCompleted state) (st_SubscriptionIDs state)).

Definition call_solveAuthChallenge (c : Ctx) (payload : RequestPayload) (state : sessionState)
  : M (GoMap * sessionState) :=
  let* params := of_decoded (cbor_solveAuth (pl_Parameters payload)) in
  let* result := SolveAuthChallenge (h_authService h) c (sv_SessionID params) (sv_Signature params) in
  let* next :=
    (if sac_IsAuthenticated result then
       let* session := LookupSession c (sv_SessionID params) in
       let* completed := profileCompleted c (sac_UserPublicKey result) in
       ret (mkSessionState (sv_SessionID params) (sac_UserPublicKey result) (ses_DeviceID session) true completed
              (st_SubscriptionIDs state))
     else ret (mkSessionState (sv_SessionID params) (sac_UserPublicKey result) (st_DeviceID state) false
                 (st_ProfileCompleted state) (st_SubscriptionIDs state))) in
  ret ([("isAuthenticated", ABool (sac_IsAuthenticated result)); ("userPublicKey", ABytes (sac_UserPublicKey result));
        ("serverTime", AFormatted (sac_ServerTime result))]%string, next).

Definition call_subscribeToEvents (c : Ctx) (payload : RequestPayload) (state : sessionState)
  : M (GoMap * sessionState) :=
  of_decoded (cbor_subscribe (pl_Parameters payload)) ;;;
  let* result := SubscribeToEvents (h_authService h) c (st_SessionID state) in
  ret ([("subscriptionId", AString (uuid_String result.1)); ("subscribedAt", AFormatted result.2)]%string,
       st_set_subscriptions (st_SubscriptionIDs state ++ [result.1]) state).

Definition call_unsubscribeFromEvents (c : Ctx) (payload : RequestPayload) (state : sessionState)
  : M (GoMap * sessionState) :=
  let* params := of_decoded (cbor_unsubscribe (pl_Parameters payload)) in
  let* unsubscribedAt := UnsubscribeFromEvents c (un_SubscriptionID params) in
  ret ([("unsubscribedAt"%string, AFormatted unsubscribedAt)], state).

Definition call_acknowledgeEvent (c : Ctx) (payload : RequestPayload) (state : sessionState)
  : M (GoMap * sessionState) :=
  if negb (st_Authenticated state) then raise ErrSessionNotAuthenticated else
  let* params := of_decoded (cbor_acknowledge (pl_Parameters payload)) in
  let* eventID := of_option ErrInvalidEventID (parseUUIDParam (ak_EventID params)) in
  let deviceID := TrimSpace (ak_DeviceID params) in
  let deviceID := if decide (deviceID = ""%string) then st_DeviceID state else deviceID in
  (match h_outboxService h with
   | Some outbox => Acknowledge outbox c eventID deviceID (ak_SegmentID params)
   | None => AcknowledgeEvent c (st_UserPublicKey state) eventID
   end) ;;;
  ret ([], state).

(** The [switch] of [handlePacket]. *)
Definition handle_call (c : Ctx) (payload : RequestPayload) (state : sessionState) : M (GoMap * sessionState) :=
  let call := pl_RPCCall payload in
  if decide (call = "requestAuthChallenge"%string) then call_requestAuthChallenge c payload state else
  if decide (call = "solveAuthChallenge"%string) then call_solveAuthChallenge c payload state else
  if decide (call = "subscribeToEvents"%string) then call_subscribeToEvents c payload state else
  if decide (call = "unsubscribeFromEvents"%string) then call_unsubscribeFromEvents c payload state else
  if decide (call = "acknowledgeEvent"%string) then call_acknowledgeEvent c payload state else
  handleClientAPICall c payload state.

Definition errorResponse (requestID : UUID) (err : error) : M ResponsePacket :=
  let '(code, message) := mapError err in
  let* id := NewUUID in
  ret (mkResponsePacket id (Some requestID) "rpcCallResponse" (errorParameters code message)).

(** A refused packet leaves the state of its connection as it was. *)
Definition fail_packet (payload : RequestPayload) (err : error) (state : sessionState)
  : M (ResponsePacket * sessionState * option error) :=
  let* response := errorResponse (pl_RequestID payload) err in
  ret (response, state, Some err).

Definition handlePacket (c : Ctx) (packet : RequestPacket) (state : sessionState)
  : M (ResponsePacket * sessionState * option error) :=
  match DecodePayload (pk_Payload packet) with
  | inl msg =>
      let* id := NewUUID in
      ret (mkResponsePacket id None "rpcCallResponse" (errorParameters "bad_request" "invalid payload"), state,
           Some (EText msg))
  | inr payload =>
      let* signer := attempt (resolveSigner c payload state) in
      match signer with
      | inl err => fail_packet payload err state
      | inr signer =>
          let* signed := (if decide (signer = []) then ret true
                          else Verify signer (pk_Payload packet) (pk_Signature packet)) in
          if negb signed then fail_packet payload ErrInvalidSignature state else
          let* result := attempt (handle_call c payload state) in
          match result with
          | inl err => fail_packet payload err state
          | inr (params, next) =>
              let* id := NewUUID in
              ret (mkResponsePacket id (Some (pl_RequestID payload)) "rpcCallResponse" params, next, None)
          end
      end
  end.

(** ** Events that ride along *)

(** Leases that are over are forgotten. *)
Definition prune_sent (now : Time) (sent : sentEvents) : sentEvents := filter (λ kv, now < kv.2) sent.

(** The loop of [pullOutboxPackets] over the events in flight. *)
Fixpoint send_unseen (now : Time) (evs : list OutboxEvent) (sent : sentEvents) : list ResponsePacket * sentEvents :=
  match evs with
  | [] => ([], sent)
  | event :: evs =>
      match sent !! oe_EventID event with
      | Some until => if decide (now < until) then send_unseen now evs sent else
          let sent := match oe_InflightUntil event with Some u => <[oe_EventID event := u]> sent | None => sent end in
          let '(packets, sent) := send_unseen now evs sent in
          (mkResponsePacket (oe_EventID event) None (oe_EventType event) (oe_Payload event) :: packets, sent)
      | None =>
          let sent := match oe_InflightUntil event with Some u => <[oe_EventID event := u]> sent | None => sent end in
          let '(packets, sent) := send_unseen now evs sent in
          (mkResponsePacket (oe_EventID event) None (oe_EventType event) (oe_Payload event) :: packets, sent)
      end
  end.

(** The map [sentEvents] is changed in place, on errors too: it comes back
    with the packets or the error. *)
Definition pullOutboxPackets (c : Ctx) (deviceID : string) (sent : sentEvents)
  : M ((error + list ResponsePacket) * sentEvents) :=
  match h_outboxService h with
  | None => ret (inr [], sent)
  | Some outbox =>
      if decide (deviceID = ""%string) then ret (inr [], sent) else
      let* now := Now in
      let sent := prune_sent now sent in
      let* r := attempt (
        let* events := ServiceListInflight outbox c deviceID 128 in
        match events with
        | [] => DispatchOnce outbox c ;;; ServiceListInflight outbox c deviceID 128
        | _ => ret events
        end) in
      match r with
      | inl e => ret (inl e, sent)
      | inr events => let '(packets, sent) := send_unseen now events sent in ret (inr packets, sent)
      end
  end.

(** ** Batches *)

Fixpoint packets_loop (c : Ctx) (packets : list RequestPacket) (state : sessionState) (status : Z)
  : M (list ResponsePacket * sessionState * Z) :=
  match packets with
  | [] => ret ([], state, status)
  | packet :: packets =>
      let* r := handlePacket c packet state in
      let '(response, next, err) := r in
      let status := match err with Some _ => maxStatus status StatusBadRequest | None => status end in
      let* rest := packets_loop c packets next status in
      let '(responses, last, status) := rest in
      ret (response :: responses, last, status)
  end.

Definition event_packet (e : Event) : ResponsePacket :=
  mkResponsePacket (ev_EventID e) (ev_ReplyToRequestID e) (ev_EventType e) (ev_Payload e).

Definition handlePackets (c : Ctx) (packets : list RequestPacket) (state : sessionState) (sent : sentEvents)
  : M (list ResponsePacket * sessionState * Z * sentEvents) :=
  let* r := packets_loop c packets state StatusOK in
  let '(responses, current, status) := r in
  match h_outboxService h with
  | Some _ =>
      if decide (st_Authenticated current = true ∧ st_DeviceID current ≠ ""%string) then
        let* r := pullOutboxPackets c (st_DeviceID current) sent in
        let '(pulled, sent) := r in
        match pulled with
        | inl _ => ret (responses, current, maxStatus status StatusInternalServerError, sent)
        | inr events => ret (responses ++ events, current, status, sent)
        end
      else if st_Authenticated current then
        let* r := attempt (PullEvents (h_authService h) c (st_UserPublicKey current) 0) in
        match r with
        | inl _ => ret (responses, current, maxStatus status StatusInternalServerError, sent)
        | inr events => ret (responses ++ (event_packet <$> events), current, status, sent)
        end
      else ret (responses, current, status, sent)
  | None =>
      if st_Authenticated current then
        let* r := attempt (PullEvents (h_authService h) c (st_UserPublicKey current) 0) in
        match r with
        | inl _ => ret (responses, current, maxStatus status StatusInternalServerError, sent)
        | inr events => ret (responses ++ (event_packet <$> events), current, status, sent)
        end
      else ret (responses, current, status, sent)
  end.

(** A batch is an array of packets, or one packet. *)
Definition decode_batch (raw : Bytes) : string + list RequestPacket :=
  match cbor_packets raw with
  | inr packets => inr packets
  | inl _ => match cbor_packet raw with inr packet => inr [packet] | inl msg => inl msg end
  end.

Definition error_body (code message : string) : any :=
  AMap [("code", AString code); ("message", AString message); ("retry", ABool false)]%string.

Definition handleBatch (c : Ctx) (raw : Bytes) (state : sessionState) (sent : sentEvents)
  : M (list ResponsePacket * sessionState * Z * sentEvents * Z) :=
  match decode_batch raw with
  | inl _ =>
      let* id := NewUUID in
      ret ([mkResponsePacket id None "rpcCallResponse" [("error"%string, error_body "bad_request" "invalid cbor payload")]],
           state, StatusBadRequest, sent, 0)
  | inr packets =>
      let* r := handlePackets c packets state sent in
      let '(responses, next, status, sent) := r in
      ret (responses, next, status, sent, Z.of_nat (length packets))
  end.

Definition recordUserUsage (c : Ctx) (user : Bytes) (requests bytesIn bytesOut : Z) : M unit :=
  match h_clientService h with
  | None => ret tt
  | Some _ => if decide (length user ≠ PublicKeySize) then ret tt
              else ignore_error (RecordUserUsage c user requests bytesIn bytesOut)
  end.

Definition recordUsage (c : Ctx) (state : sessionState) (requests bytesIn bytesOut : Z) : M unit :=
  if st_Authenticated state then recordUserUsage c (st_UserPublicKey state) requests bytesIn bytesOut else ret tt.

(** ** HTTP: one connection, one state *)

Definition scopes := gmap string connectionSession.

Definition get_scope (connectionID : string) (s : scopes) : connectionSession :=
  default (mkConnectionSession no_state ∅) (s !! connectionID).

Definition OnHTTPConnectionClosed (connectionID : string) (s : scopes) : scopes :=
  if decide (TrimSpace connectionID = ""%string) then s else delete connectionID s.

Definition http_limit : nat := Z.to_nat (Z.shiftl 4 20).

(** [http.Error]: the message, on a line of its own. *)
Definition http_Error (msg : string) (code : Z) : Z * Bytes := (code, to_bytes msg ++ [x0a]).

(** A POST on a connection: the status and the body of the answer. *)
Definition handleHTTP (c : Ctx) (connectionID : option string) (body : Bytes) (s : scopes) : M (Z * Bytes * scopes) :=
  let body := take http_limit body in
  match connectionID with
  | None => ret (http_Error "missing http connection context" StatusInternalServerError, s)
  | Some connectionID =>
      let scope := get_scope connectionID s in
      let* r := handleBatch c body (cn_state scope) (cn_sent scope) in
      let '(responses, next, status, sent, count) := r in
      let s := <[connectionID := mkConnectionSession next sent]> s in
      match cbor_responses responses with
      | None => ret (http_Error "failed to encode response" StatusInternalServerError, s)
      | Some payload =>
          recordUsage c next count (Z.of_nat (length body)) (Z.of_nat (length payload)) ;;;
          ret (status, payload, s)
      end
  end.
End handler.
