(* ===== verification/Stream.v ===== *)
(** * Stream: the loops of handleWebSocket and HandleStream

    One connection that stays open: a reader that runs the batches of the
    client, and a goroutine that pushes the events of the device.  The two
    share the map of sent events, under a lock, and the way out, under
    another one.  Every stretch between two points where the other one can
    run is one step; what the rest of the program does in between is a step
    of its own. *)

From Stdlib Require Import ZArith.
From stdpp Require Import gmap strings relations.
From S2P Require Import Prelude GoLib GoTime Domain Database Effects OutboxRepo OutboxService AuthRepo AuthService.
From S2P Require Import ClientRepo ClientService EventBus Rpc Handler.

Local Open Scope Z_scope.

(** Who serves the connection: net/http recovers from a panic of
    [handleWebSocket], nothing recovers from one of [HandleStream]. *)
Inductive transport : Type := WebSocket | TCP.

(** Where the push goroutine is: before the check of [pushCtx], before the
    lock on the sent events, before the write, in the last [select], or
    returned. *)
Inductive push_phase : Type :=
  | Looping
  | Locking
  | Writing (packets : list ResponsePacket)
  | Waiting
  | Stopped.

(** What [startPush] creates; [stopOnce] has run when [pu_stopped]. *)
Record Push : Type := mkPush {
  pu_device : string; pu_user : Bytes; pu_chan : nat; pu_id : N; pu_stopped : bool; pu_phase : push_phase }.

(** Where the reader is: before a read, before the write of a batch with its
    number of requests and bytes, or returned. *)
Inductive reader_phase : Type :=
  | Reading
  | Responding (responses : list ResponsePacket) (requests bytesIn : Z)
  | Returned (result : option error).

(** [cx_sent_locked]: the lock on the sent events is held for ever, by a
    reader that panicked.  [cx_cancelled]: [cancel] has been called.
    [cx_written]: the batches on the wire. *)
Record Conn : Type := mkConn {
  cx_state : sessionState; cx_sent : sentEvents; cx_sent_locked : bool; cx_cancelled : bool;
  cx_push : option Push; cx_reader : reader_phase; cx_written : list (list ResponsePacket) }.

Definition new_conn : Conn := mkConn no_state ∅ false false None Reading [].

Inductive system : Type :=
  | Live (cn : Conn) (b : Bus) (w : World)
  | Dead (msg : string).

(** ** Updates *)

Definition cx_set_batch (state : sessionState) (sent : sentEvents) (cn : Conn) : Conn :=
  mkConn state sent (cx_sent_locked cn) (cx_cancelled cn) (cx_push cn) (cx_reader cn) (cx_written cn).
Definition cx_set_sent (sent : sentEvents) (cn : Conn) : Conn :=
  mkConn (cx_state cn) sent (cx_sent_locked cn) (cx_cancelled cn) (cx_push cn) (cx_reader cn) (cx_written cn).
Definition cx_set_push (push : option Push) (cn : Conn) : Conn :=
  mkConn (cx_state cn) (cx_sent cn) (cx_sent_locked cn) (cx_cancelled cn) push (cx_reader cn) (cx_written cn).
Definition cx_set_reader (reader : reader_phase) (cn : Conn) : Conn :=
  mkConn (cx_state cn) (cx_sent cn) (cx_sent_locked cn) (cx_cancelled cn) (cx_push cn) reader (cx_written cn).
Definition cx_cancel (cn : Conn) : Conn :=
  mkConn (cx_state cn) (cx_sent cn) (cx_sent_locked cn) true (cx_push cn) (cx_reader cn) (cx_written cn).
Definition cx_hold_lock (cn : Conn) : Conn :=
  mkConn (cx_state cn) (cx_sent cn) true (cx_cancelled cn) (cx_push cn) (cx_reader cn) (cx_written cn).
Definition cx_wrote (packets : list ResponsePacket) (cn : Conn) : Conn :=
  mkConn (cx_state cn) (cx_sent cn) (cx_sent_locked cn) (cx_cancelled cn) (cx_push cn) (cx_reader cn)
    (cx_written cn ++ [packets]).

Definition pu_set_phase (phase : push_phase) (p : Push) : Push :=
  mkPush (pu_device p) (pu_user p) (pu_chan p) (pu_id p) (pu_stopped p) phase.
Definition pu_set_stopped (p : Push) : Push :=
  mkPush (pu_device p) (pu_user p) (pu_chan p) (pu_id p) true (pu_phase p).

(** [<-pushCtx.Done()] is ready. *)
Definition push_cancelled (cn : Conn) (p : Push) : bool := cx_cancelled cn || pu_stopped p.

Section stream.
Context {E : Env} {C : Codec} {App : EventAppender} (h : Handler) (tr : transport).

(** Whether the handler has a bus; [main] gives it one. *)
Variable h_bus : bool.

(** ** The push goroutine *)

(** [startPush]: the first device of a connection is the one that counts. *)
Definition startPush (cn : Conn) (b : Bus) : Conn * Bus :=
  if decide (is_Some (cx_push cn) ∨ h_bus = false ∨ st_DeviceID (cx_state cn) = ""%string ∨ h_outboxService h = None)
  then (cn, b)
  else let '(ch, id, b) := SubscribeKey (st_DeviceID (cx_state cn)) b in
       (cx_set_push (Some (mkPush (st_DeviceID (cx_state cn)) (st_UserPublicKey (cx_state cn)) ch id false Looping)) cn, b).

(** [stop], in the phase its caller goes on in. *)
Definition stop (p : Push) (phase : push_phase) (cn : Conn) (b : Bus) (w : World) : system :=
  if pu_stopped p then Live (cx_set_push (Some (pu_set_phase phase p)) cn) b w
  else match Unsubscribe (pu_device p) (pu_id p) b with
       | Done b => Live (cx_set_push (Some (pu_set_phase phase (pu_set_stopped p))) cn) b w
       | Panics msg => Dead msg
       end.

Definition at_phase (phase : push_phase) (p : Push) (cn : Conn) : Conn := cx_set_push (Some (pu_set_phase phase p)) cn.

(** [select { case <-pushCtx.Done(): return; default: }]. *)
Definition push_check (p : Push) (cn : Conn) (b : Bus) (w : World) : system :=
  if push_cancelled cn p then stop p Stopped cn b w else Live (at_phase Locking p cn) b w.

(** The pull, under the lock.  Nothing recovers from its panics. *)
Definition push_pull (p : Push) (cn : Conn) (b : Bus) (w : World) : system :=
  match pullOutboxPackets h Background (pu_device p) (cx_sent cn) w with
  | (Ok (inl _, sent), w) => Live (at_phase Waiting p (cx_set_sent sent cn)) b w
  | (Ok (inr [], sent), w) => Live (at_phase Waiting p (cx_set_sent sent cn)) b w
  | (Ok (inr packets, sent), w) => Live (at_phase (Writing packets) p (cx_set_sent sent cn)) b w
  | (Err _, w) => Dead "unreachable"
  | (Panic msg, w) => Dead msg
  end.

(** [writePackets]; [sent] is whether the transport takes the bytes. *)
Definition push_write (p : Push) (packets : list ResponsePacket) (sent : bool) (cn : Conn) (b : Bus) (w : World) : system :=
  match cbor_responses packets with
  | Some encoded =>
      if sent then
        match recordUserUsage h Background (pu_user p) 0 0 (Z.of_nat (length encoded)) w with
        | (Panic msg, _) => Dead msg
        | (_, w) => Live (at_phase Looping p (cx_wrote packets cn)) b w
        end
      else stop p Stopped (cx_cancel cn) b w
  | None => stop p Stopped (cx_cancel cn) b w
  end.

(** ** The reader *)

(** A panic of the reader: the deferred calls run, and [net/http] recovers. *)
Definition reader_panics (msg : string) (cn : Conn) (b : Bus) (w : World) : system :=
  match tr with
  | WebSocket => Live (cx_set_reader (Returned None) (cx_cancel cn)) b w
  | TCP => Dead msg
  end.

(** The reader returns: [stopPush] when there is one, then [cancel]. *)
Definition reader_returns (result : option error) (cn : Conn) (b : Bus) (w : World) : system :=
  let cn := cx_set_reader (Returned result) (cx_cancel cn) in
  match cx_push cn with
  | Some p => stop p (pu_phase p) cn b w
  | None => Live cn b w
  end.

(** One message: the batch under the lock, then [startPush]. *)
Definition read_batch (raw : Bytes) (cn : Conn) (b : Bus) (w : World) : system :=
  match handleBatch h Background raw (cx_state cn) (cx_sent cn) w with
  | (Ok (responses, next, _, sent, requests), w) =>
      let cn := cx_set_batch next sent cn in
      let '(cn, b) := if st_Authenticated next && bool_decide (is_Some (h_outboxService h)) then startPush cn b else (cn, b) in
      Live (cx_set_reader (Responding responses requests (Z.of_nat (length raw))) cn) b w
  | (Err _, w) => Dead "unreachable"
  | (Panic msg, w) => reader_panics msg (cx_hold_lock cn) b w
  end.

Definition write_failed (requests bytesIn : Z) (cn : Conn) (b : Bus) (w : World) : system :=
  match tr with
  | WebSocket => reader_returns None cn b w
  | TCP =>
      match recordUsage h Background (cx_state cn) requests bytesIn 0 w with
      | (Panic msg, w) => reader_panics msg cn b w
      | (_, w) => reader_returns (Some (EText "encode stream batch")) cn b w
      end
  end.

Definition write_batch (responses : list ResponsePacket) (requests bytesIn : Z) (sent : bool)
  (cn : Conn) (b : Bus) (w : World) : system :=
  match cbor_responses responses with
  | Some encoded =>
      if sent then
        match recordUsage h Background (cx_state cn) requests bytesIn (Z.of_nat (length encoded)) w with
        | (Panic msg, w) => reader_panics msg (cx_wrote responses cn) b w
        | (_, w) => Live (cx_set_reader Reading (cx_wrote responses cn)) b w
        end
      else write_failed requests bytesIn cn b w
  | None => write_failed requests bytesIn cn b w
  end.

(** ** Steps *)

(** What the connection relies on from everybody else: the bus stays
    consistent, its subscriptions stay and no new one takes an identifier
    that was given out before, and the clock does not go back. *)
Definition rely (b b' : Bus) (w w' : World) : Prop :=
  (bus_ok b → bus_ok b') ∧ (length (chans b) ≤ length (chans b'))%nat ∧ next b ≤ next b'
  ∧ (∀ key id ch, listeners key b' !! id = Some ch → listeners key b !! id = Some ch ∨ next b < Z.of_N id)
  ∧ (w_clock w ≤ w_clock w')%nat.

(** The subscription of the connection, while it has one. *)
Definition subscription (cn : Conn) : option (string * N * nat) :=
  match cx_push cn with
  | Some p => if pu_stopped p then None else Some (pu_device p, pu_id p, pu_chan p)
  | None => None
  end.

Definition kept (cn : Conn) (b b' : Bus) : Prop :=
  ∀ key id ch, subscription cn = Some (key, id, ch) → listeners key b !! id = Some ch → listeners key b' !! id = Some ch.

Inductive stream_label : Type :=
  | LRead (raw : Bytes)
  | LWrite (sent : bool)
  | LHangup (result : option error)
  | LPushCheck
  | LPushPull
  | LPushWrite (sent : bool)
  | LPushWake
  | LEnvironment.

Inductive stream_step : stream_label → system → system → Prop :=
  | step_read raw cn b w :
      cx_reader cn = Reading → cx_sent_locked cn = false →
      stream_step (LRead raw) (Live cn b w) (read_batch raw cn b w)
  | step_write responses requests bytesIn sent cn b w :
      cx_reader cn = Responding responses requests bytesIn →
      stream_step (LWrite sent) (Live cn b w) (write_batch responses requests bytesIn sent cn b w)
  | step_hangup result cn b w :
      cx_reader cn = Reading → stream_step (LHangup result) (Live cn b w) (reader_returns result cn b w)
  | step_push_check p cn b w :
      cx_push cn = Some p → pu_phase p = Looping → stream_step LPushCheck (Live cn b w) (push_check p cn b w)
  | step_push_pull p cn b w :
      cx_push cn = Some p → pu_phase p = Locking → cx_sent_locked cn = false →
      stream_step LPushPull (Live cn b w) (push_pull p cn b w)
  | step_push_write p packets sent cn b w :
      cx_push cn = Some p → pu_phase p = Writing packets →
      stream_step (LPushWrite sent) (Live cn b w) (push_write p packets sent cn b w)
  | step_push_token p cn b b' w :
      cx_push cn = Some p → pu_phase p = Waiting → receive_chan (pu_chan p) b = Some b' →
      stream_step LPushWake (Live cn b w) (Live (at_phase Looping p cn) b' w)
  | step_push_timer p cn b w :
      cx_push cn = Some p → pu_phase p = Waiting →
      stream_step LPushWake (Live cn b w) (Live (at_phase Looping p cn) b w)
  | step_push_done p cn b w :
      cx_push cn = Some p → pu_phase p = Waiting → push_cancelled cn p = true →
      stream_step LPushWake (Live cn b w) (stop p Stopped cn b w)
  | step_environment cn b b' w w' :
      rely b b' w w' → kept cn b b' → stream_step LEnvironment (Live cn b w) (Live cn b' w').

Definition any_step (s s' : system) : Prop := ∃ l, stream_step l s s'.
End stream.
