(* ===== verification/Runtime.v ===== *)
(** * Runtime: internal/server

    What the server does on its connections: the banner a TCP client is
    greeted with, the ports that are listened on, and the identifiers that
    bind HTTP connections to their sessions.  The goroutines of the listeners
    are in [Process]; sockets, TLS and timeouts belong to the Go library. *)

From Stdlib Require Import ZArith.
From stdpp Require Import gmap strings.
From S2P Require Import Prelude GoLib GoTime GoDuration Domain Database Effects OutboxRepo OutboxService AuthRepo.
From S2P Require Import AuthService ClientRepo FriendRepo RoomRepo ClientService RoomService Push Config Rpc Handler.

Local Open Scope Z_scope.

(** ** runtime.go: the banner *)

(** [binary.BigEndian.PutUint32]. *)
Definition PutUint32 (v : Z) : Bytes :=
  [byte_of (Z.shiftr v 24); byte_of (Z.shiftr v 16); byte_of (Z.shiftr v 8); byte_of v].

(** [if port > 0 { out[0] |= 1 << bit }]. *)
Definition set_flag (bit port flags : Z) : Z := if decide (0 < port) then Z.lor flags (Z.shiftl 1 bit) else flags.

Definition tcpDiscoveryBanner (ports : AppPortsConfiguration) : Bytes :=
  let flags := set_flag 0 (TCPPort ports) 0 in
  let flags := set_flag 1 (TCPTLSPort ports) flags in
  let flags := set_flag 2 (HTTPPort ports) flags in
  let flags := set_flag 3 (HTTPSPort ports) flags in
  let flags := set_flag 4 (WSPort ports) flags in
  let flags := set_flag 5 (WSSPort ports) flags in
  byte_of flags :: PutUint32 (uint32 (TCPPort ports)) ++ PutUint32 (uint32 (TCPTLSPort ports))
    ++ PutUint32 (uint32 (HTTPPort ports)) ++ PutUint32 (uint32 (HTTPSPort ports))
    ++ PutUint32 (uint32 (WSPort ports)) ++ PutUint32 (uint32 (WSSPort ports)).

(** [io.Writer]: what a write returns, and what the other side has received. *)
Class Writer (W : Type) : Type := {
  Write : Bytes → W → Z * option error * W;
  received : W → Bytes }.

(** The contract of [io.Writer]: a write takes a prefix of the payload. *)
Class WriterLaws (W : Type) `{Writer W} : Prop := {
  Write_prefix : ∀ payload w n err w', Write payload w = (n, err, w') →
    0 ≤ n ≤ Z.of_nat (length payload) ∧ received w' = received w ++ take (Z.to_nat n) payload }.

Definition ErrShortWrite : error := EText "short write".

(** [writeAll] ends in an error or without one; the slice bound of a writer
    that breaks its contract panics, and [fuel] bounds the writes. *)
Inductive write_end : Type := WEnd (err : option error) | WPanic | WFuel.

Section writers.
Context {W : Type} `{Writer W}.

Fixpoint writeAll (fuel : nat) (payload : Bytes) (w : W) : write_end * W :=
  match payload with
  | [] => (WEnd None, w)
  | _ =>
      match fuel with
      | O => (WFuel, w)
      | S fuel =>
          let '(n, err, w) := Write payload w in
          match err with
          | Some err => (WEnd (Some err), w)
          | None =>
              if decide (n = 0) then (WEnd (Some ErrShortWrite), w) else
              if decide (0 ≤ n ≤ Z.of_nat (length payload)) then writeAll fuel (drop (Z.to_nat n) payload) w
              else (WPanic, w)
          end
      end
  end.

(** What [handleTCPConnection] does before it hands the connection over to
    the stream handler, if there is one. *)
Definition greet (streamHandler : bool) (ports : AppPortsConfiguration) (w : W) : option (write_end * W) :=
  if negb streamHandler then None else
  let banner := tcpDiscoveryBanner ports in Some (writeAll (length banner) banner w).
End writers.

(** ** runtime.go: addresses *)

Definition uniquePorts (first second : Z) : list Z := if decide (first = second) then [first] else [first; second].

(** [net.JoinHostPort]: a host with a colon is put into brackets. *)
Definition JoinHostPort (host : string) (port : Z) : string :=
  if decide (x3a ∈ to_bytes host) then "[" +:+ host +:+ "]:" +:+ Itoa port else host +:+ ":" +:+ Itoa port.

(** ** http_connection.go *)

(** [net.Conn] values are compared by identity. *)
Definition NetConn := N.
Inductive ConnStateValue : Type := StateNew | StateActive | StateIdle | StateHijacked | StateClosed.

(** [connIDs] of [HTTPConnectionBinder]. *)
Definition connIDs := gmap NetConn string.

Section binder.
Context {E : Env}.

(** [ConnContext]: the identifier goes into the context of the connection. *)
Definition ConnContext (conn : NetConn) (ids : connIDs) : M (string * connIDs) :=
  let* id := NewUUID in
  let connectionID := uuid_String id in
  ret (connectionID, <[conn := connectionID]> ids).

(** [ConnState], with the identifier the observer is told about. *)
Definition ConnState (conn : NetConn) (state : ConnStateValue) (ids : connIDs) : option string * connIDs :=
  match state with
  | StateClosed | StateHijacked => (ids !! conn, delete conn ids)
  | _ => (None, ids)
  end.

(** [HTTPConnectionIDFromContext], of the value in the context. *)
Definition HTTPConnectionIDFromContext (value : option string) : option string :=
  match value with
  | Some connectionID => if decide (connectionID = ""%string) then None else Some connectionID
  | None => None
  end.

(** ** Serving HTTP

    The connections of the server: each gets its identifier when it is
    accepted, its requests are handled under it, and the handler forgets it
    when the connection is closed or taken over by a WebSocket. *)

Context {C : Codec} {App : EventAppender} (h : Handler).

Record HTTPServer : Type := mkHTTPServer { hs_ids : connIDs; hs_scopes : scopes; hs_world : World }.

Inductive http_event : Type :=
  | HAccept (conn : NetConn)
  | HRequest (conn : NetConn) (body : Bytes) (status : Z) (payload : Bytes)
  | HState (conn : NetConn) (state : ConnStateValue)
  | HElsewhere.

Inductive http_step : http_event → HTTPServer → HTTPServer → Prop :=
  | http_accept conn connectionID ids ids' s w w' :
      ids !! conn = None → ConnContext conn ids w = (Ok (connectionID, ids'), w') →
      (** what [uuid.NewString] is relied on for *)
      TrimSpace connectionID ≠ ""%string → (∀ other, ids !! other ≠ Some connectionID) →
      http_step (HAccept conn) (mkHTTPServer ids s w) (mkHTTPServer ids' s w')
  | http_request conn connectionID body status payload ids s s' w w' :
      ids !! conn = Some connectionID →
      handleHTTP h Background (HTTPConnectionIDFromContext (Some connectionID)) body s w = (Ok (status, payload, s'), w') →
      http_step (HRequest conn body status payload) (mkHTTPServer ids s w) (mkHTTPServer ids s' w')
  | http_state conn state ids s w :
      http_step (HState conn state) (mkHTTPServer ids s w)
        (let '(closed, ids') := ConnState conn state ids in
         mkHTTPServer ids' (match closed with Some connectionID => OnHTTPConnectionClosed connectionID s | None => s end) w)
  | http_elsewhere ids s w w' :
      http_step HElsewhere (mkHTTPServer ids s w) (mkHTTPServer ids s w').
End binder.
