(* ===== verification/Dsn.v ===== *)
(** * Dsn: the data source name of PostgreSQL

    [PostgresConfig.DSN] of internal/config/postgres_config.go with what it
    uses of net/url, and a reader in the manner of RFC 3986 that recovers
    every setting from the name: whatever a password holds, it stays a
    password. *)

From Stdlib Require Import ZArith.
From S2P Require Import Prelude GoLib GoTime GoDuration Domain Database Effects OutboxRepo OutboxService AuthRepo.
From S2P Require Import AuthService ClientRepo FriendRepo RoomRepo ClientService Push Config.

Local Open Scope Z_scope.

(** ** net/url *)

Inductive encoding : Type := encodePath | encodeHost | encodeUserPassword | encodeQueryComponent.
#[export] Instance encoding_eq_dec : EqDecision encoding.
Proof. solve_decision. Defined.

Definition in_range (lo hi : Z) (c : byte) : bool := bool_decide (lo ≤ byte_val c ≤ hi).

Definition is_alphanum (c : byte) : bool := in_range 97 122 c || in_range 65 90 c || in_range 48 57 c.

(** The double quote has no place in a string literal. *)
Definition host_unescaped : Bytes := x22 :: to_bytes "!$&'()*+,;=:[]<>".
Definition unreserved_marks : Bytes := to_bytes "-_.~".
Definition reserved : Bytes := to_bytes "$&+,/:;=?@".

(** Whether a byte is escaped; a reserved byte falls through in the
    encoding of a host. *)
Definition shouldEscape (c : byte) (mode : encoding) : bool :=
  if is_alphanum c then false else
  if decide (mode = encodeHost ∧ c ∈ host_unescaped) then false else
  if decide (c ∈ unreserved_marks) then false else
  if decide (c ∈ reserved) then
    match mode with
    | encodePath => bool_decide (c = x3f)
    | encodeUserPassword => bool_decide (c ∈ to_bytes "@/?:")
    | encodeQueryComponent => true
    | encodeHost => true
    end
  else true.

Definition upper_hex (d : Z) : byte := if decide (d < 10) then byte_of (48 + d) else byte_of (55 + d).

Definition escape_byte (mode : encoding) (c : byte) : Bytes :=
  if shouldEscape c mode then
    if decide (c = x20 ∧ mode = encodeQueryComponent) then [x2b]
    else [x25; upper_hex (byte_val c / 16); upper_hex (byte_val c `mod` 16)]
  else [c].

Definition escape (mode : encoding) (s : Bytes) : Bytes := s ≫= escape_byte mode.

(** [Userinfo.String], of a user with or without a password. *)
Definition Userinfo_String (username : Bytes) (password : option Bytes) : Bytes :=
  if decide (username ≠ [] ∨ default [] password ≠ []) then
    escape encodeUserPassword username
      ++ match password with Some p => x3a :: escape encodeUserPassword p | None => [] end
  else [].

Definition key_le (a b : Bytes * Bytes) : Prop := bytes_leb a.1 b.1 = true.
#[export] Instance key_le_dec a b : Decision (key_le a b).
Proof. unfold key_le. apply _. Defined.

(** [Values.Encode]: the values, one a key, in the order of their keys. *)
Definition Values_Encode (values : list (Bytes * Bytes)) : Bytes :=
  let pair kv := escape encodeQueryComponent kv.1 ++ x3d :: escape encodeQueryComponent kv.2 in
  match order_by key_le values with
  | [] => []
  | kv :: rest => pair kv ++ (rest ≫= λ kv, x26 :: pair kv)
  end.

(** [EscapedPath], of a URL without a raw path. *)
Definition EscapedPath (path : Bytes) : Bytes :=
  if decide (path = to_bytes "*") then to_bytes "*" else escape encodePath path.

Record URL : Type := mkURL {
  u_Scheme : Bytes; u_User : Bytes * option Bytes; u_Host : Bytes; u_Path : Bytes; u_RawQuery : Bytes }.

(** [URL.String], of a URL with a scheme, a user and no fragment. *)
Definition URL_String (u : URL) : Bytes :=
  let path := EscapedPath (u_Path u) in
  u_Scheme u ++ to_bytes "://" ++ Userinfo_String (u_User u).1 (u_User u).2 ++ x40
    :: (if decide (u_Host u ≠ []) then escape encodeHost (u_Host u) else [])
    ++ (if decide (path ≠ [] ∧ head path ≠ Some x2f ∧ u_Host u ≠ []) then [x2f] else [])
    ++ path ++ (if decide (u_RawQuery u ≠ []) then x3f :: u_RawQuery u else []).

(** ** postgres_config.go *)

Definition DSN (p : PostgresConfig) : Bytes :=
  let q := [(to_bytes "sslmode", to_bytes (configFallbackString (pg_SSLMode p) "disable"))] in
  let q := if decide (0 < pg_ConnectTimeoutS p)
           then q ++ [(to_bytes "connect_timeout", itoa_bytes (pg_ConnectTimeoutS p))] else q in
  let host := configFallbackString (pg_Host p) "localhost" in
  let port := if decide (pg_Port p = 0) then 5432 else pg_Port p in
  let database := configFallbackString (pg_Database p) "postgres" in
  let userInfo := (to_bytes (pg_Username p),
                   if decide (pg_Password p ≠ ""%string) then Some (to_bytes (pg_Password p)) else None) in
  URL_String (mkURL (to_bytes "postgres") userInfo (to_bytes host ++ x3a :: itoa_bytes port)
                    (to_bytes database) (Values_Encode q)).

(** ** A reader *)

Fixpoint split_first (d : byte) (b : Bytes) : option (Bytes * Bytes) :=
  match b with
  | [] => None
  | c :: b => if decide (c = d) then Some ([], b)
              else match split_first d b with Some (l, r) => Some (c :: l, r) | None => None end
  end.

Definition split_last (d : byte) (b : Bytes) : option (Bytes * Bytes) :=
  match split_first d (rev b) with Some (r, l) => Some (rev l, rev r) | None => None end.

Definition unhex (c : byte) : option Z :=
  let v := byte_val c in
  if decide (48 ≤ v ≤ 57) then Some (v - 48) else if decide (65 ≤ v ≤ 70) then Some (v - 55) else
  if decide (97 ≤ v ≤ 102) then Some (v - 87) else None.

(** Percent-decoding; a plus is a space in a query. *)
Fixpoint unescape (query : bool) (b : Bytes) : option Bytes :=
  match b with
  | [] => Some []
  | c :: b' =>
      if decide (c = x25) then
        match b' with
        | h :: l :: rest =>
            match unhex h, unhex l, unescape query rest with
            | Some h, Some l, Some rest => Some (byte_of (16 * h + l) :: rest)
            | _, _, _ => None
            end
        | _ => None
        end
      else (if decide (c = x2b ∧ query = true) then cons x20 else cons c) <$> unescape query b'
  end.

Fixpoint split_all (fuel : nat) (d : byte) (b : Bytes) : list Bytes :=
  match fuel with
  | O => [b]
  | S fuel => match split_first d b with Some (l, r) => l :: split_all fuel d r | None => [b] end
  end.

Definition read_parameter (b : Bytes) : option (Bytes * Bytes) :=
  '(k, v) ← split_first x3d b; k ← unescape true k; v ← unescape true v; Some (k, v).

Record dsn_parts : Type := mkDsnParts {
  dp_user : Bytes; dp_password : option Bytes; dp_host : Bytes; dp_port : Bytes; dp_path : Bytes;
  dp_query : list (Bytes * Bytes) }.

(** scheme "://" user [":" password] "@" host ":" port path "?" query *)
Definition read_dsn (b : Bytes) : option dsn_parts :=
  b ← strip_prefix (to_bytes "postgres://") b;
  '(userinfo, b) ← split_first x40 b;
  '(authority, b) ← split_first x2f b;
  '(path, query) ← split_first x3f b;
  '(user, password) ← match split_first x3a userinfo with
                      | Some (u, p) => u ← unescape false u; p ← unescape false p; Some (u, Some p)
                      | None => u ← unescape false userinfo; Some (u, None)
                      end;
  '(host, port) ← split_last x3a authority;
  host ← unescape false host;
  path ← unescape false path;
  query ← mapM read_parameter (split_all (length query) x26 query);
  Some (mkDsnParts user password host port (x2f :: path) query).

Example DSN_1 :
  of_bytes (DSN (mkPostgres "db" 0 "" "app" "p@ss:w/rd" "" 5))
  = "postgres://app:p%40ss%3Aw%2Frd@db:5432/postgres?connect_timeout=5&sslmode=disable"%string.
Proof. vm_compute. reflexivity. Qed.

Example DSN_2 :
  of_bytes (DSN (mkPostgres "my db" 1 "/a b?" "" "" "a b&c" 0)) = "postgres://@my%20db:1/a%20b%3F?sslmode=a+b%26c"%string.
Proof. vm_compute. reflexivity. Qed.

Example read_dsn_1 :
  read_dsn (DSN (mkPostgres "::1" 0 "d" "u:" "p@" "" 0))
  = Some (mkDsnParts (to_bytes "u:") (Some (to_bytes "p@")) (to_bytes "::1") (to_bytes "5432") (to_bytes "/d")
            [(to_bytes "sslmode", to_bytes "disable")]).
Proof. vm_compute. reflexivity. Qed.

(** ** Escaping *)

Lemma escape_cons mode c s : escape mode (c :: s) = escape_byte mode c ++ escape mode s.
Proof. done. Qed.

Lemma unhex_upper c :
  unhex (upper_hex (byte_val c / 16)) = Some (byte_val c / 16)
  ∧ unhex (upper_hex (byte_val c `mod` 16)) = Some (byte_val c `mod` 16).
Proof. destruct c; split; vm_compute; reflexivity. Qed.

Lemma escape_percent mode : shouldEscape x25 mode = true.
Proof. destruct mode; vm_compute; reflexivity. Qed.

Lemma escape_plus : shouldEscape x2b encodeQueryComponent = true.
Proof. vm_compute. reflexivity. Qed.

(** Decoding inverts escaping, whatever follows. *)
Lemma unescape_escape mode s :
  unescape (bool_decide (mode = encodeQueryComponent)) (escape mode s) = Some s.
Proof.
  induction s as [|c s IH]; [done|]. rewrite escape_cons. unfold escape_byte.
  destruct (shouldEscape c mode) eqn:Ec.
  - destruct (decide (c = x20 ∧ mode = encodeQueryComponent)) as [[-> ->]|Hs].
    + cbn [app unescape]. rewrite decide_False by done.
      rewrite decide_True by done. rewrite IH. done.
    + cbn [app unescape]. rewrite decide_True by done. destruct (unhex_upper c) as [-> ->]. rewrite IH.
      do 2 f_equal. rewrite <- (byte_of_val c) at 3. f_equal. pose proof (Z.div_mod (byte_val c) 16). lia.
  - cbn [app unescape]. rewrite decide_False by (intros ->; by rewrite escape_percent in Ec).
    rewrite IH. rewrite decide_False; [done|]. intros [-> Hm].
    apply bool_decide_eq_true in Hm as ->. by rewrite escape_plus in Ec.
Qed.

(** A separator: a byte that no escape consists of and that is escaped. *)
Definition separates (d : byte) (mode : encoding) : Prop :=
  shouldEscape d mode = true ∧ d ∉ to_bytes "+%0123456789ABCDEF".

Lemma upper_hex_in d : 0 ≤ d < 16 → upper_hex d ∈ to_bytes "+%0123456789ABCDEF".
Proof.
  intros Hd. assert (∃ n : nat, (n < 16)%nat ∧ d = Z.of_nat n) as (n & Hn & ->) by (exists (Z.to_nat d); lia).
  do 16 (destruct n as [|n]; [by apply (bool_decide_unpack _)|]). lia.
Qed.

Lemma escape_separates d mode s : separates d mode → d ∉ escape mode s.
Proof.
  intros [Hd Hn]. induction s as [|c s IH]; [by intros ?%not_elem_of_nil|].
  rewrite escape_cons. intros [Hin|Hin]%elem_of_app; [|done]. unfold escape_byte in Hin.
  pose proof (byte_val_range c). pose proof (Z.mod_pos_bound (byte_val c) 16).
  destruct (shouldEscape c mode) eqn:Ec.
  - apply Hn. revert Hin. case_decide; rewrite !elem_of_cons; intros Hin.
    + destruct Hin as [->|?%not_elem_of_nil]; [by apply (bool_decide_unpack _)|done].
    + destruct Hin as [->|[->|[->|?%not_elem_of_nil]]]; [by apply (bool_decide_unpack _)| | |done].
      * apply upper_hex_in. split; [apply Z.div_pos; lia|apply Z.div_lt_upper_bound; lia].
      * apply upper_hex_in. lia.
  - apply list_elem_of_singleton in Hin as ->. congruence.
Qed.

(** ** Splitting *)

Lemma split_first_app d l r : d ∉ l → split_first d (l ++ d :: r) = Some (l, r).
Proof.
  induction l as [|c l IH]; intros Hd; simpl; [by rewrite decide_True|].
  rewrite not_elem_of_cons in Hd. destruct Hd as [Hc Hl]. rewrite decide_False by done. by rewrite IH.
Qed.

Lemma split_first_none d l : d ∉ l → split_first d l = None.
Proof.
  induction l as [|c l IH]; intros Hd; simpl; [done|].
  rewrite not_elem_of_cons in Hd. destruct Hd as [Hc Hl]. rewrite decide_False by done. by rewrite IH.
Qed.

Lemma split_last_app d l r : d ∉ r → split_last d (l ++ d :: r) = Some (l, r).
Proof.
  intros Hd. unfold split_last. rewrite rev_app_distr. simpl. rewrite <- app_assoc. simpl.
  rewrite split_first_app; [by rewrite !rev_involutive|]. rewrite rev_alt. by rewrite <- elem_of_reverse in Hd.
Qed.

Lemma digits_fuel_digits n z acc (c : byte) : 0 ≤ z → c ∈ digits_fuel n z acc → c ∈ acc ∨ ∃ d, 0 ≤ d < 10 ∧ c = GoLib.digit_of d.
Proof.
  revert z acc. induction n as [|n IH]; intros z acc Hz; simpl; [auto|].
  assert (0 ≤ z `mod` 10 < 10) by (apply Z.mod_pos_bound; lia).
  case_match; [intros [->|?]%elem_of_cons; eauto|].
  intros [[->|?]%elem_of_cons|?]%IH; eauto. apply Z.div_pos; lia.
Qed.

Lemma itoa_no_sep z d : d ∈ to_bytes ":/@?&=" → d ∉ itoa_bytes z.
Proof.
  intros Hd Hin. assert (d = x2d ∨ ∃ k, 0 ≤ k < 10 ∧ d = GoLib.digit_of k) as [->|(k & Hk & ->)].
  { unfold itoa_bytes in Hin. destruct (Z.ltb_spec z 0).
    - apply elem_of_cons in Hin as [->|Hin]; [by left|].
      apply digits_fuel_digits in Hin as [?%not_elem_of_nil|?]; [done|by right|lia].
    - apply digits_fuel_digits in Hin as [?%not_elem_of_nil|?]; [done|by right|lia]. }
  - revert Hd. by apply (bool_decide_unpack _).
  - assert (∃ n : nat, (n < 10)%nat ∧ k = Z.of_nat n) as (n & Hn & ->) by (exists (Z.to_nat k); lia).
    revert Hd. do 10 (destruct n as [|n]; [by apply (bool_decide_unpack _)|]). lia.
Qed.

(** ** What is read *)

Lemma unescape_plain mode s : mode ≠ encodeQueryComponent → unescape false (escape mode s) = Some s.
Proof. intros Hm. rewrite <- (unescape_escape mode s). by rewrite bool_decide_false. Qed.

Lemma escape_app mode s t : escape mode (s ++ t) = escape mode s ++ escape mode t.
Proof. unfold escape. by rewrite bind_app. Qed.

Lemma escape_id mode s : (∀ c, c ∈ s → shouldEscape c mode = false) → escape mode s = s.
Proof.
  induction s as [|c s IH]; intros Hs; [done|]. rewrite escape_cons, IH.
  - unfold escape_byte. rewrite Hs; [done|]. apply elem_of_cons. by left.
  - intros c' Hc'. apply Hs, elem_of_cons. by right.
Qed.

Ltac by_bytes := by apply (bool_decide_unpack _).

Lemma sep_user d : d ∈ to_bytes "@:" → separates d encodeUserPassword.
Proof. unfold separates. intros Hd. repeat apply elem_of_cons in Hd as [->|Hd]; [split; [done|by_bytes]..|by apply not_elem_of_nil in Hd]. Qed.
Lemma sep_host : separates x2f encodeHost.
Proof. split; [done|by_bytes]. Qed.
Lemma sep_path : separates x3f encodePath.
Proof. split; [done|by_bytes]. Qed.
Lemma sep_query d : d ∈ to_bytes "&=" → separates d encodeQueryComponent.
Proof. unfold separates. intros Hd. repeat apply elem_of_cons in Hd as [->|Hd]; [split; [done|by_bytes]..|by apply not_elem_of_nil in Hd]. Qed.

(** The user and the password; an empty password is none. *)
Lemma read_userinfo user password :
  password ≠ Some [] →
  match split_first x3a (Userinfo_String user password) with
   | Some (u, p) => (u ← unescape false u; p ← unescape false p; Some (u, Some p))
   | None => (u ← unescape false (Userinfo_String user password); Some (u, None))
   end = Some (user, password)
  ∧ x40 ∉ Userinfo_String user password.
Proof.
  intros Hp. unfold Userinfo_String.
  assert (∀ s, x3a ∉ escape encodeUserPassword s) as Hc by (intros s; apply escape_separates, sep_user; by_bytes).
  assert (∀ s, x40 ∉ escape encodeUserPassword s) as Ha by (intros s; apply escape_separates, sep_user; by_bytes).
  destruct password as [p|]; simpl.
  - rewrite decide_True by (right; intros ->; done). rewrite split_first_app by apply Hc.
    rewrite !unescape_plain by done. split; [done|]. rewrite not_elem_of_app, not_elem_of_cons. auto.
  - rewrite app_nil_r. case_decide as Hu.
    + rewrite split_first_none by apply Hc. by rewrite unescape_plain.
    + destruct user; [split; [done|by apply not_elem_of_nil]|]. destruct Hu. by left.
Qed.

Definition slashed (path : Bytes) : Bytes := if decide (head path = Some x2f) then path else x2f :: path.

Lemma escape_head_slash s : head (escape encodePath s) = Some x2f → head s = Some x2f.
Proof.
  destruct s as [|c s]; [done|]. rewrite escape_cons. unfold escape_byte.
  destruct (shouldEscape c encodePath); [|done]. rewrite decide_False by (by intros [_ ?]). done.
Qed.

Lemma path_text path (host : Bytes) :
  path ≠ [] → host ≠ [] →
  ∃ rest, (if decide (EscapedPath path ≠ [] ∧ head (EscapedPath path) ≠ Some x2f ∧ host ≠ []) then [x2f] else [])
          ++ EscapedPath path = x2f :: rest
    ∧ (x3f ∉ rest) ∧ ∃ t, unescape false rest = Some t ∧ slashed path = x2f :: t.
Proof.
  intros Hne Hhost. unfold slashed. destruct path as [|c path]; [done|]. cbn [head].
  destruct (decide (c = x2f)) as [->|Hc].
  - assert (EscapedPath (x2f :: path) = x2f :: escape encodePath path) as -> by done.
    rewrite decide_False by (intros (_ & Hx & _); by apply Hx). rewrite (decide_True (P := Some x2f = Some x2f)) by done.
    exists (escape encodePath path). split_and!; [done|apply escape_separates, sep_path|].
    exists path. split; [by apply unescape_plain|done].
  - rewrite (decide_False (P := Some c = Some x2f)) by congruence.
    assert (EscapedPath (c :: path) ≠ [] ∧ head (EscapedPath (c :: path)) ≠ Some x2f
            ∧ (x3f ∉ EscapedPath (c :: path)) ∧ unescape false (EscapedPath (c :: path)) = Some (c :: path)) as (H1 & H2 & H3 & H4).
    { unfold EscapedPath. case_decide as Hs.
      - rewrite Hs. split_and!; [done|done|by_bytes|done].
      - split_and!.
        + rewrite escape_cons. unfold escape_byte. by repeat case_match.
        + intros He%escape_head_slash. simpl in He. congruence.
        + apply escape_separates, sep_path.
        + by apply unescape_plain. }
    rewrite decide_True by done. exists (EscapedPath (c :: path)). split_and!; [done|done|]. by exists (c :: path).
Qed.

Definition parameter (kv : Bytes * Bytes) : Bytes :=
  escape encodeQueryComponent kv.1 ++ x3d :: escape encodeQueryComponent kv.2.

Lemma read_parameter_ok kv : read_parameter (parameter kv) = Some kv ∧ x26 ∉ parameter kv.
Proof.
  destruct kv as [k v]. unfold parameter, read_parameter. simpl.
  rewrite split_first_app by (apply escape_separates, sep_query; by_bytes). simpl.
  pose proof (unescape_escape encodeQueryComponent) as Hu. rewrite bool_decide_true in Hu by done. rewrite !Hu. simpl.
  split; [done|]. rewrite not_elem_of_app, not_elem_of_cons.
  split_and!; [apply escape_separates, sep_query; by_bytes|done|apply escape_separates, sep_query; by_bytes].
Qed.

(** The parameters come back, in the order of their keys. *)
Lemma read_query values :
  values ≠ [] →
  mapM read_parameter (split_all (length (Values_Encode values)) x26 (Values_Encode values))
  = Some (order_by key_le values) ∧ Values_Encode values ≠ [].
Proof.
  intros Hne. unfold Values_Encode. fold parameter.
  assert (order_by key_le values ≠ []) as Hs.
  { intros He. apply Hne. assert (Permutation (order_by key_le values) values) as Hp by apply merge_sort_Permutation.
    rewrite He in Hp. by apply Permutation_nil in Hp. }
  destruct (order_by key_le values) as [|kv rest]; [done|]. clear Hs.
  split; [|destruct kv as [k v]; unfold parameter; simpl; by destruct (escape _ k)].
  set (text := λ kv rest, parameter kv ++ (rest ≫= λ kv, x26 :: parameter kv)).
  change (mapM read_parameter (split_all (length (text kv rest)) x26 (text kv rest)) = Some (kv :: rest)).
  assert (∀ rest kv fuel, (length rest ≤ fuel)%nat →
    mapM read_parameter (split_all fuel x26 (text kv rest)) = Some (kv :: rest)) as Hgo.
  { clear. intros rest. induction rest as [|kv' rest IH]; intros kv fuel Hf; destruct (read_parameter_ok kv) as [Hr Hn].
    - unfold text. simpl. rewrite app_nil_r. destruct fuel; simpl; [|rewrite split_first_none by done; simpl]; by rewrite Hr.
    - destruct fuel as [|fuel]; [simpl in Hf; lia|]. unfold text. rewrite bind_cons. cbn [split_all].
      rewrite <- app_comm_cons, split_first_app by done. simpl. rewrite Hr. simpl.
      assert (mapM read_parameter (split_all fuel x26 (text kv' rest)) = Some (kv' :: rest)) as IH'
        by (apply IH; simpl in Hf; lia).
      unfold text in IH'. simpl in IH'. by rewrite IH'. }
  apply Hgo. unfold text. rewrite length_app.
  assert (∀ l : list (Bytes * Bytes), (length l ≤ length (l ≫= λ kv, x26 :: parameter kv))%nat) as Hl.
  { induction l as [|x l IH]; [simpl; lia|]. rewrite bind_cons, length_app. cbn [length]. lia. }
  specialize (Hl rest). lia.
Qed.

(** ** The theorem *)

(** What the settings stand for, defaults included. *)
Definition dsn_of (p : PostgresConfig) : dsn_parts :=
  mkDsnParts (to_bytes (pg_Username p))
    (if decide (pg_Password p = ""%string) then None else Some (to_bytes (pg_Password p)))
    (to_bytes (configFallbackString (pg_Host p) "localhost"))
    (itoa_bytes (if decide (pg_Port p = 0) then 5432 else pg_Port p))
    (slashed (to_bytes (configFallbackString (pg_Database p) "postgres")))
    ((if decide (0 < pg_ConnectTimeoutS p) then [(to_bytes "connect_timeout", itoa_bytes (pg_ConnectTimeoutS p))] else [])
     ++ [(to_bytes "sslmode", to_bytes (configFallbackString (pg_SSLMode p) "disable"))]).

Lemma to_bytes_nil s : to_bytes s = [] → s = ""%string.
Proof. intros E. rewrite <- (of_to_bytes s), E. done. Qed.

Lemma fallback_nonempty value fallback : fallback ≠ ""%string → to_bytes (configFallbackString value fallback) ≠ [].
Proof.
  intros Hf Hn. unfold configFallbackString in Hn.
  destruct (blank value) eqn:Eb; apply to_bytes_nil in Hn; [done|]. subst value. by vm_compute in Eb.
Qed.

Lemma authority_text host port :
  escape encodeHost (host ++ x3a :: itoa_bytes port) = escape encodeHost host ++ x3a :: itoa_bytes port.
Proof.
  rewrite escape_app. f_equal. apply escape_id. intros c [->|Hc]%elem_of_cons; [done|].
  unfold itoa_bytes in Hc. assert (c = x2d ∨ ∃ d, 0 ≤ d < 10 ∧ c = GoLib.digit_of d) as [->|(d & Hd & ->)].
  { destruct (Z.ltb_spec port 0).
    - apply elem_of_cons in Hc as [->|Hc]; [by left|].
      apply digits_fuel_digits in Hc as [?%not_elem_of_nil|?]; [done|by right|lia].
    - apply digits_fuel_digits in Hc as [?%not_elem_of_nil|?]; [done|by right|lia]. }
  - done.
  - assert (∃ n : nat, (n < 10)%nat ∧ d = Z.of_nat n) as (n & Hn & ->) by (exists (Z.to_nat d); lia).
    do 10 (destruct n as [|n]; [done|]). lia.
Qed.

(** The data source name keeps the settings apart.  Whatever the settings
    hold, reading the name by the grammar of URLs and decoding its parts
    gives back the user, the password, the host, the port, the database as
    a path, the SSL mode and the timeout, with the defaults for those that
    are blank: no setting spills into another. *)
Lemma DSN_recovers_settings p : read_dsn (DSN p) = Some (dsn_of p).
Proof.
  unfold DSN, URL_String, dsn_of. cbn [u_Scheme u_User u_Host u_Path u_RawQuery fst snd].
  set (host := to_bytes (configFallbackString (pg_Host p) "localhost")).
  set (port := if decide (pg_Port p = 0) then 5432 else pg_Port p).
  set (database := to_bytes (configFallbackString (pg_Database p) "postgres")).
  set (mode := to_bytes (configFallbackString (pg_SSLMode p) "disable")).
  set (password := if decide (pg_Password p ≠ ""%string) then Some (to_bytes (pg_Password p)) else None).
  set (q := if decide (0 < pg_ConnectTimeoutS p) then _ else _).
  assert (host ++ x3a :: itoa_bytes port ≠ []) as Hhost by (by destruct host).
  destruct (path_text database (host ++ x3a :: itoa_bytes port)) as (rest & Epath & Hrest & t & Et & Es);
    [by apply fallback_nonempty|done|].
  destruct (read_userinfo (to_bytes (pg_Username p)) password) as [Huser Hat].
  { unfold password. destruct (decide (pg_Password p ≠ ""%string)) as [Hp|Hp]; [|discriminate]. intros [= E]. by apply Hp, to_bytes_nil. }
  assert (q ≠ []) as Hq by (unfold q; destruct (decide (0 < pg_ConnectTimeoutS p)); discriminate).
  destruct (read_query q Hq) as [Hread Hne].
  rewrite (decide_True (P := host ++ _ ≠ [])) by done.
  rewrite (decide_True (P := Values_Encode q ≠ [])) by done.
  rewrite authority_text. rewrite (app_assoc (if decide _ then _ else _)), Epath.
  set (query := Values_Encode q) in *. set (user := Userinfo_String _ _) in *.
  unfold read_dsn. simpl strip_prefix. cbn [mbind option_bind app].
  rewrite (split_first_app x40) by done. cbn [mbind option_bind].
  rewrite (split_first_app x2f).
  2: { rewrite not_elem_of_app, not_elem_of_cons.
       split_and!; [apply escape_separates, sep_host|done|by apply itoa_no_sep; by_bytes]. }
  cbn [mbind option_bind]. rewrite (split_first_app x3f) by done. cbn [mbind option_bind].
  rewrite Huser. cbn [mbind option_bind]. rewrite split_last_app by (apply itoa_no_sep; by_bytes).
  cbn [mbind option_bind]. rewrite unescape_plain by done. rewrite Et. cbn [mbind option_bind]. rewrite Hread.
  cbn [mbind option_bind]. do 2 f_equal; [|by rewrite Es|].
  - unfold password. destruct (decide (pg_Password p = ""%string)) as [Hp|Hp];
      destruct (decide (pg_Password p ≠ ""%string)); done || congruence.
  - unfold q. destruct (decide (0 < pg_ConnectTimeoutS p)); reflexivity.
Qed.
