(* ===== verification/Process.v ===== *)
(** * Process: cmd/server and the goroutines of the runtime

    [main] builds the services, starts the runtime and the background
    loops in goroutines of their own, and waits for the first failure or a
    signal; then it shuts the runtime down and exits.  A state holds where
    every goroutine is, the channels between them and the listeners.  An
    event is one action of one goroutine together with what the operating
    system or the called loop returned to it, and [step] is defined when the
    action is possible, so that a run is a list of events. *)

From Stdlib Require Import ZArith.
From stdpp Require Import strings.
From S2P Require Import Prelude GoLib GoTime GoDuration Domain Database Effects OutboxRepo OutboxService AuthRepo.
From S2P Require Import AuthService ClientRepo FriendRepo RoomRepo ClientService RoomService Push Config Dsn Rpc.
From S2P Require Import Handler Runtime.

Local Open Scope Z_scope.

(** ** Listeners *)

(** What [Accept] returns on a closed listener, and [ListenAndServe] after
    [Shutdown]. *)
Definition net_ErrClosed : error := EText "use of closed network connection".
Definition http_ErrServerClosed : error := EText "http: Server closed".

(** Where the goroutine of a listener is: on its way to listen, serving,
    about to report the error it ended with, or finished. *)
Inductive loop_at : Type := Starting | Serving | Failing (err : error) | Returned.

(** A TCP listener, or an HTTP server, which is [closed] once it is told to
    shut down. *)
Record listener : Type := mkListener { ln_addr : string; ln_closed : bool; ln_loop : loop_at }.

Definition ln_at (l : listener) (loop : loop_at) : listener := mkListener (ln_addr l) (ln_closed l) loop.
Definition ln_close (l : listener) : listener := mkListener (ln_addr l) true (ln_loop l).

(** An action of the goroutine of a listener. *)
Inductive loop_action : Type :=
  | LListens                (** the HTTP server has its socket and serves *)
  | LReturns (err : error)  (** [Accept] or [ListenAndServe] returns an error *)
  | LReports.               (** [reportError] *)

(** The goroutine of [startTCPListener].  [Accept] returns [net.ErrClosed]
    exactly when the listener is closed. *)
Definition accept_returns (err : error) (l : listener) : option listener :=
  match ln_loop l with
  | Serving =>
      if bool_decide (Is err net_ErrClosed = ln_closed l) then
        Some (if Is err net_ErrClosed then ln_at l Returned
              else ln_at l (Failing (EWrap ("accept TCP on " +:+ ln_addr l) err)))
      else None
  | _ => None
  end.

(** The goroutine of [startHTTPServer].  [ListenAndServe] returns
    [http.ErrServerClosed] only after [Shutdown], and then nothing else once
    it serves; before that it may also fail to listen. *)
Definition serve_returns (err : error) (l : listener) : option listener :=
  let result := Some (if Is err http_ErrServerClosed then ln_at l Returned
                      else ln_at l (Failing (EWrap ("http/ws server on " +:+ ln_addr l) err))) in
  match ln_loop l with
  | Starting => if Is err http_ErrServerClosed && negb (ln_closed l) then None else result
  | Serving => if bool_decide (Is err http_ErrServerClosed = ln_closed l) then result else None
  | _ => None
  end.

(** ** runtime.go *)

(** Where the goroutine of [Run] is; [RunReturns] is the caller in [main],
    with what [Run] has returned. *)
Inductive run_at : Type :=
  | RunStart
  | RunListening (addr : string)  (** the socket is open, not yet kept *)
  | RunHTTP (ports : list Z)      (** the rest of the loop over the ports *)
  | RunSelect
  | RunReturns (result : option error)
  | RunDone.

(** [errCh] has room for one error. *)
Record Runtime : Type := mkRuntime {
  rt_tcpListeners : list listener; rt_httpServers : list listener; rt_errCh : option error; rt_run : run_at }.

Definition NewRuntime : Runtime := mkRuntime [] [] None RunStart.

Definition rt_at (run : run_at) (r : Runtime) : Runtime :=
  mkRuntime (rt_tcpListeners r) (rt_httpServers r) (rt_errCh r) run.
Definition set_tcp (ls : list listener) (r : Runtime) : Runtime := mkRuntime ls (rt_httpServers r) (rt_errCh r) (rt_run r).
Definition set_http (ls : list listener) (r : Runtime) : Runtime := mkRuntime (rt_tcpListeners r) ls (rt_errCh r) (rt_run r).

(** [reportError]: an error that finds the channel full is dropped. *)
Definition reportError (err : error) (r : Runtime) : Runtime :=
  match rt_errCh r with
  | None => mkRuntime (rt_tcpListeners r) (rt_httpServers r) (Some err) (rt_run r)
  | Some _ => r
  end.

(** An action of the goroutine of [Run]. *)
Inductive run_action : Type :=
  | RListens (err : option error)  (** [net.Listen] of [startTCPListener] returns *)
  | RKeeps                         (** the listener is kept, its goroutine started *)
  | RStartsHTTP                    (** [startHTTPServer] for the next port *)
  | RCancelled | RFailed           (** the branches of the [select] *)
  | RSends.                        (** [main] has got the result of [Run] *)

(** The first half of [startTCPListener]. *)
Definition listens (cfg : AppConfiguration) (err : option error) (r : Runtime) : Runtime :=
  let addr := JoinHostPort (app_Host cfg) (TCPPort (app_Ports cfg)) in
  match err with
  | Some err => rt_at (RunReturns (Some (EWrap ("listen on " +:+ addr) err))) r
  | None => rt_at (RunListening addr) r
  end.

(** The second half, and the ports that [startAll] goes on with. *)
Definition keeps (cfg : AppConfiguration) (addr : string) (r : Runtime) : Runtime :=
  mkRuntime (rt_tcpListeners r ++ [mkListener addr false Serving]) (rt_httpServers r) (rt_errCh r)
    (RunHTTP (uniquePorts (HTTPPort (app_Ports cfg)) (WSPort (app_Ports cfg)))).

Definition startHTTPServer (cfg : AppConfiguration) (port : Z) (rest : list Z) (r : Runtime) : Runtime :=
  mkRuntime (rt_tcpListeners r) (rt_httpServers r ++ [mkListener (JoinHostPort (app_Host cfg) port) false Starting])
    (rt_errCh r) (match rest with [] => RunSelect | _ => RunHTTP rest end).

(** ** main.go *)

(** A background loop: it runs, has returned an error, has found the
    context alive and sends the error, or is over. *)
Inductive worker_at : Type := Working | Failed (err : error) | Sending (err : error) | Stopped.

Inductive worker_action : Type := WReturns (err : error) | WChecks | WSends.

(** The loops of [RunDispatcher], [RunJanitor] and [pushNotifier.Run]. *)
Definition pushWorker : nat := 2.

(** Where [main] is: in its [select]; with a failure it has received;
    in [Shutdown] before it copies the lists, closing what it has copied,
    waiting for one HTTP server; or gone, with an exit status. *)
Inductive main_at : Type :=
  | Selecting
  | Stopping (runErr : error)
  | Locking
  | Closing (tcp http : list nat) (shutdownErr : list error)
  | Draining (http : list nat) (shutdownErr : list error)
  | Exited (status : Z).

Inductive main_action : Type :=
  | MReceives | MCancelled          (** the branches of the [select] *)
  | MStops                          (** [stop()] *)
  | MCopies                         (** the critical section of [Shutdown] *)
  | MCloses (err : option error)    (** [listener.Close] returns *)
  | MBegins                         (** [server.Shutdown] tells the server *)
  | MReturns (err : option error)   (** [server.Shutdown] returns *)
  | MExits.

(** The context that signals cancel, [runtimeErrCh], and the goroutines. *)
Record Process : Type := mkProcess {
  pr_cancelled : bool; pr_errs : option error; pr_runtime : Runtime; pr_workers : list worker_at; pr_main : main_at }.

Definition started : Process := mkProcess false None NewRuntime [Working; Working; Working] Selecting.

Definition on_runtime (r : Runtime) (p : Process) : Process :=
  mkProcess (pr_cancelled p) (pr_errs p) r (pr_workers p) (pr_main p).
Definition on_worker (k : nat) (wk : worker_at) (p : Process) : Process :=
  mkProcess (pr_cancelled p) (pr_errs p) (pr_runtime p) (<[k := wk]> (pr_workers p)) (pr_main p).
Definition on_main (m : main_at) (p : Process) : Process :=
  mkProcess (pr_cancelled p) (pr_errs p) (pr_runtime p) (pr_workers p) m.
Definition on_errs (errs : option error) (p : Process) : Process :=
  mkProcess (pr_cancelled p) errs (pr_runtime p) (pr_workers p) (pr_main p).
Definition cancel (p : Process) : Process :=
  mkProcess true (pr_errs p) (pr_runtime p) (pr_workers p) (pr_main p).

(** [runtimeErrCh <- err], when there is room. *)
Definition send_err (err : error) (p : Process) : option Process :=
  match pr_errs p with None => Some (on_errs (Some err) p) | Some _ => None end.

Definition run_step (cfg : AppConfiguration) (a : run_action) (p : Process) : option Process :=
  let r := pr_runtime p in
  match rt_run r, a with
  | RunStart, RListens err => Some (on_runtime (listens cfg err r) p)
  | RunListening addr, RKeeps => Some (on_runtime (keeps cfg addr r) p)
  | RunHTTP (port :: rest), RStartsHTTP => Some (on_runtime (startHTTPServer cfg port rest r) p)
  | RunSelect, RCancelled => if pr_cancelled p then Some (on_runtime (rt_at (RunReturns None) r) p) else None
  | RunSelect, RFailed =>
      err ← rt_errCh r;
      Some (on_runtime (mkRuntime (rt_tcpListeners r) (rt_httpServers r) None (RunReturns (Some err))) p)
  | RunReturns None, RSends => Some (on_runtime (rt_at RunDone r) p)
  | RunReturns (Some err), RSends => send_err err (on_runtime (rt_at RunDone r) p)
  | _, _ => None
  end.

(** The goroutine of one of the listeners [ls], which [put] puts back. *)
Definition loop_step (returns : error → listener → option listener) (ls : list listener)
    (put : list listener → Runtime → Runtime) (i : nat) (a : loop_action) (r : Runtime) : option Runtime :=
  l ← ls !! i;
  match a with
  | LListens =>
      match ln_loop l with
      | Starting => if ln_closed l then None else Some (put (<[i := ln_at l Serving]> ls) r)
      | _ => None
      end
  | LReturns err => l' ← returns err l; Some (put (<[i := l']> ls) r)
  | LReports =>
      match ln_loop l with
      | Failing err => Some (reportError err (put (<[i := ln_at l Returned]> ls) r))
      | _ => None
      end
  end.

(** A loop returns an error of its own while the context is alive, which
    the notifier never does, and the error of the context afterwards. *)
Definition worker_step (k : nat) (a : worker_action) (p : Process) : option Process :=
  wk ← pr_workers p !! k;
  match wk, a with
  | Working, WReturns err =>
      if pr_cancelled p then if decide (err = context_canceled) then Some (on_worker k (Failed err) p) else None
      else if decide (k = pushWorker) then None else Some (on_worker k (Failed err) p)
  | Failed err, WChecks => Some (on_worker k (if pr_cancelled p then Stopped else Sending err) p)
  | Sending err, WSends => send_err err (on_worker k Stopped p)
  | _, _ => None
  end.

(** [errors.Join(shutdownErr, err)] for an error that is not expected. *)
Definition join_err (expected : error) (err : option error) (shutdownErr : list error) : list error :=
  match err with Some e => if Is e expected then shutdownErr else shutdownErr ++ [e] | None => shutdownErr end.

(** [main] itself: its [select], and the end. *)
Definition select_step (a : main_action) (p : Process) : option Process :=
  match pr_main p, a with
  | Selecting, MReceives => err ← pr_errs p; Some (on_main (Stopping err) (on_errs None p))
  | Selecting, MCancelled => if pr_cancelled p then Some (on_main Locking p) else None
  | Stopping _, MStops => Some (on_main Locking (cancel p))
  | Closing [] [] errs, MExits => Some (on_main (Exited (match errs with [] => 0 | _ => 1 end)) p)
  | _, _ => None
  end.

(** [Shutdown], which [main] calls. *)
Definition shutdown_step (a : main_action) (p : Process) : option Process :=
  let r := pr_runtime p in
  match pr_main p, a with
  | Locking, MCopies =>
      Some (on_main (Closing (seq 0 (length (rt_tcpListeners r))) (seq 0 (length (rt_httpServers r))) []) p)
  | Closing (i :: tcp) http errs, MCloses err =>
      Some (on_main (Closing tcp http (join_err net_ErrClosed err errs))
              (on_runtime (set_tcp (alter ln_close i (rt_tcpListeners r)) r) p))
  | Closing [] (j :: http) errs, MBegins =>
      Some (on_main (Draining http errs) (on_runtime (set_http (alter ln_close j (rt_httpServers r)) r) p))
  | Draining http errs, MReturns err => Some (on_main (Closing [] http (join_err http_ErrServerClosed err errs)) p)
  | _, _ => None
  end.

Definition main_step (a : main_action) (p : Process) : option Process :=
  match select_step a p with Some p' => Some p' | None => shutdown_step a p end.

Inductive event : Type :=
  | ESignal
  | ERun (a : run_action)
  | EAccept (i : nat) (a : loop_action)
  | EServe (i : nat) (a : loop_action)
  | EWorker (k : nat) (a : worker_action)
  | EMain (a : main_action).

Definition exited (p : Process) : bool := match pr_main p with Exited _ => true | _ => false end.

Definition step (cfg : AppConfiguration) (e : event) (p : Process) : option Process :=
  if exited p then None else
  let r := pr_runtime p in
  match e with
  | ESignal => if pr_cancelled p then None else Some (cancel p)
  | ERun a => run_step cfg a p
  | EAccept i a => r' ← loop_step accept_returns (rt_tcpListeners r) set_tcp i a r; Some (on_runtime r' p)
  | EServe i a => r' ← loop_step serve_returns (rt_httpServers r) set_http i a r; Some (on_runtime r' p)
  | EWorker k a => worker_step k a p
  | EMain a => main_step a p
  end.

Fixpoint run (cfg : AppConfiguration) (es : list event) (p : Process) : option Process :=
  match es with [] => Some p | e :: es => p' ← step cfg e p; run cfg es p' end.

(** [main] up to the goroutines: every failure ends it with status 1. *)
Definition main_start (getenv : string → string) (read_yaml : string → error + Config)
    (open : Bytes → option error) (credentials : string → error + string) (bus pushNotifier : option Notifier)
  : Z + (Config * Process) :=
  match Load getenv read_yaml (getenv "APP_CONFIG_PATH") with
  | inl _ => inl 1
  | inr cfg =>
      match open (DSN (cf_Postgres cfg)) with
      | Some _ => inl 1
      | None =>
          match main_services credentials bus pushNotifier cfg with
          | inl _ => inl 1
          | inr _ => inr (cfg, started)
          end
      end
  end.
