(* ===== verification/Json.v ===== *)
(** * Json: the JSON of encoding/json

    [json.Marshal] of the values the logger writes: strings with the escapes
    of the encoder, numbers, booleans and maps, whose keys are sorted.  A
    reader of such texts recovers what was written. *)

From Stdlib Require Import ZArith.
From stdpp Require Import strings.
From S2P Require Import Prelude GoLib GoTime Domain Database.

Local Open Scope Z_scope.
#[local] Set Warnings "-register-all".

(** ** UTF-8 *)

(** A piece of a string as [utf8.DecodeRune] cuts it: a byte below 0x80, a
    longer encoding, or a byte that starts none. *)
Inductive piece : Type := Ascii (c : byte) | Multi (bs : Bytes) | Invalid (c : byte).

Definition within (lo hi : Z) (c : byte) : bool := (lo <=? byte_val c) && (byte_val c <=? hi).
Definition continuation : byte → bool := within 128 191.

(** The ranges of first and second bytes. *)
Definition starts2 (c d : byte) : bool := within 194 223 c && continuation d.
Definition starts3 (c d : byte) : bool :=
  (within 224 224 c && within 160 191 d) || (within 225 236 c && continuation d)
  || (within 237 237 c && within 128 159 d) || (within 238 239 c && continuation d).
Definition starts4 (c d : byte) : bool :=
  (within 240 240 c && within 144 191 d) || (within 241 243 c && continuation d) || (within 244 244 c && within 128 143 d).

Fixpoint pieces (s : Bytes) : list piece :=
  match s with
  | [] => []
  | c :: s1 =>
      if byte_val c <? 128 then Ascii c :: pieces s1 else
      match s1 with
      | d :: s2 =>
          if starts2 c d then Multi [c; d] :: pieces s2 else
          match s2 with
          | e :: s3 =>
              if starts3 c d && continuation e then Multi [c; d; e] :: pieces s3 else
              match s3 with
              | f :: s4 =>
                  if starts4 c d && continuation e && continuation f then Multi [c; d; e; f] :: pieces s4
                  else Invalid c :: pieces s1
              | [] => Invalid c :: pieces s1
              end
          | [] => Invalid c :: pieces s1
          end
      | [] => Invalid c :: pieces s1
      end
  end.

(** ** Strings *)

(** [htmlSafeSet]. *)
Definition html_safe (c : byte) : bool :=
  within 32 127 c && bool_decide (c ∉ [x22; x26; x3c; x3e; x5c]).

Definition escape_ascii (c : byte) : Bytes :=
  if html_safe c then [c] else
  if bool_decide (c ∈ [x5c; x22]) then [x5c; c] else
  match c with
  | x08 => [x5c; x62] | x0c => [x5c; x66] | x0a => [x5c; x6e] | x0d => [x5c; x72] | x09 => [x5c; x74]
  | _ => [x5c; x75; x30; x30; hex_digit (byte_val c / 16); hex_digit (byte_val c `mod` 16)]
  end.

Definition line_separator : Bytes := [xe2; x80; xa8].
Definition paragraph_separator : Bytes := [xe2; x80; xa9].

Definition escape_piece (p : piece) : Bytes :=
  match p with
  | Ascii c => escape_ascii c
  | Multi bs =>
      if decide (bs = line_separator) then x5c :: to_bytes "u2028" else
      if decide (bs = paragraph_separator) then x5c :: to_bytes "u2029" else bs
  | Invalid _ => x5c :: to_bytes "ufffd"
  end.

(** [appendString], with the escapes for HTML. *)
Definition quote (s : Bytes) : Bytes := x22 :: (pieces s ≫= escape_piece) ++ [x22].

(** ** Values *)

(** The floats, and the other values that only [reflect] knows, with their
    encodings. *)
Class Marshaler : Type := {
  gofloat : Type; float_text : gofloat → error + Bytes;
  govalue : Type; value_text : govalue → error + Bytes }.

(** What is documented of them: a number is written as a number, and
    nothing contains a line break. *)
Definition number_char (c : byte) : bool := within 48 57 c || bool_decide (c ∈ [x2b; x2d; x2e; x45; x65]).

Class MarshalerLaws `{Marshaler} : Prop := {
  float_text_number : ∀ f b, float_text f = inr b → b ≠ [] ∧ Forall (λ c, number_char c = true) b;
  value_text_line : ∀ v b, value_text v = inr b → x0a ∉ b }.

Section json.
Context `{Marshaler}.

Inductive json : Type :=
  | JNull
  | JString (s : string)
  | JBool (b : bool)
  | JInt (z : Z)
  | JFloat (f : gofloat)
  | JValue (v : govalue)
  | JMap (m : list (string * json)).

(** [m[key] = v] on a map of such values. *)
Fixpoint map_set (m : list (string * json)) (key : string) (v : json) : list (string * json) :=
  match m with
  | [] => [(key, v)]
  | (k, u) :: m => if decide (k = key) then (key, v) :: m else (k, u) :: map_set m key v
  end.
Fixpoint map_at (m : list (string * json)) (key : string) : option json :=
  match m with
  | [] => None
  | (k, u) :: m => if decide (k = key) then Some u else map_at m key
  end.

(** Keys are compared as bytes. *)
Definition key_leb {A} (a b : string * A) : Prop := bytes_leb (to_bytes a.1) (to_bytes b.1) = true.
#[export] Instance key_leb_dec {A} (a b : string * A) : Decision (key_leb a b).
Proof. unfold key_leb. apply _. Defined.

Definition field_text (kv : string * Bytes) : Bytes := quote (to_bytes kv.1) ++ x3a :: kv.2.
Definition object_text (fields : list (string * Bytes)) : Bytes :=
  x7b :: match fields with
         | [] => []
         | kv :: rest => field_text kv ++ (rest ≫= λ kv, x2c :: field_text kv)
         end ++ [x7d].

(** The results of a list of fields, or the first error. *)
Fixpoint all_fields {B} (fields : list (string * (error + B))) : error + list (string * B) :=
  match fields with
  | [] => inr []
  | (k, inl err) :: _ => inl err
  | (k, inr b) :: fields => match all_fields fields with inl err => inl err | inr rest => inr ((k, b) :: rest) end
  end.

(** [json.Marshal]: the keys of a map are sorted first. *)
Fixpoint Marshal (v : json) : error + Bytes :=
  match v with
  | JNull => inr (to_bytes "null")
  | JString s => inr (quote (to_bytes s))
  | JBool b => inr (to_bytes (if b then "true" else "false"))
  | JInt z => inr (itoa_bytes z)
  | JFloat f => float_text f
  | JValue v => value_text v
  | JMap m =>
      match all_fields (order_by key_leb (prod_map id Marshal <$> m)) with
      | inl err => inl err
      | inr fields => inr (object_text fields)
      end
  end.
End json.

(** ** Reading *)

Inductive text : Type :=
  | TNull
  | TString (s : Bytes)
  | TBool (b : bool)
  | TNumber (b : Bytes)
  | TObject (fields : list (Bytes * text)).

Definition hex_value (c : byte) : option Z :=
  if within 48 57 c then Some (byte_val c - 48) else if within 97 102 c then Some (byte_val c - 87) else None.

(** The UTF-8 encoding of a code point of the basic plane. *)
Definition encode_rune (v : Z) : Bytes :=
  if v <? 128 then [byte_of v] else
  if v <? 2048 then [byte_of (192 + v / 64); byte_of (128 + v `mod` 64)]
  else [byte_of (224 + v / 4096); byte_of (128 + (v / 64) `mod` 64); byte_of (128 + v `mod` 64)].

Definition escaped (c : byte) : option byte :=
  match c with
  | x22 => Some x22 | x5c => Some x5c | x62 => Some x08 | x66 => Some x0c | x6e => Some x0a | x72 => Some x0d
  | x74 => Some x09 | _ => None
  end.

(** The rest of a string, after its first quotation mark. *)
Fixpoint unquote (b : Bytes) : option (Bytes * Bytes) :=
  match b with
  | [] => None
  | x22 :: r => Some ([], r)
  | x5c :: x75 :: h1 :: h2 :: h3 :: h4 :: r =>
      v1 ← hex_value h1; v2 ← hex_value h2; v3 ← hex_value h3; v4 ← hex_value h4;
      '(s, r) ← unquote r; Some (encode_rune (v1 * 4096 + v2 * 256 + v3 * 16 + v4) ++ s, r)
  | x5c :: e :: r => c ← escaped e; '(s, r) ← unquote r; Some (c :: s, r)
  | c :: r => if byte_val c <? 32 then None else '(s, r) ← unquote r; Some (c :: s, r)
  end.

Fixpoint span_number (b : Bytes) : Bytes * Bytes :=
  match b with
  | [] => ([], [])
  | c :: r => if number_char c then let '(n, r) := span_number r in (c :: n, r) else ([], b)
  end.

Definition read_scalar (b : Bytes) : option (text * Bytes) :=
  match b with
  | x6e :: _ => r ← strip_prefix (to_bytes "null") b; Some (TNull, r)
  | x74 :: _ => r ← strip_prefix (to_bytes "true") b; Some (TBool true, r)
  | x66 :: _ => r ← strip_prefix (to_bytes "false") b; Some (TBool false, r)
  | _ => match span_number b with ([], _) => None | (n, r) => Some (TNumber n, r) end
  end.

Fixpoint read_value (fuel : nat) (b : Bytes) : option (text * Bytes) :=
  match fuel with
  | O => None
  | S fuel =>
      match b with
      | x22 :: r => '(s, r) ← unquote r; Some (TString s, r)
      | x7b :: x7d :: r => Some (TObject [], r)
      | x7b :: r => '(fields, r) ← read_fields fuel r; Some (TObject fields, r)
      | _ => read_scalar b
      end
  end
with read_fields (fuel : nat) (b : Bytes) : option (list (Bytes * text) * Bytes) :=
  match fuel with
  | O => None
  | S fuel =>
      match b with
      | x22 :: r =>
          '(k, r) ← unquote r;
          match r with
          | x3a :: r =>
              '(v, r) ← read_value fuel r;
              match r with
              | x2c :: r => '(fields, r) ← read_fields fuel r; Some ((k, v) :: fields, r)
              | x7d :: r => Some ([(k, v)], r)
              | _ => None
              end
          | _ => None
          end
      | _ => None
      end
  end.

(** A text and nothing else. *)
Definition read_text (b : Bytes) : option text :=
  match read_value (length b) b with Some (t, []) => Some t | _ => None end.

Example quote_example : quote (to_bytes "a<b" ++ [x0a; xff; xe2; x80; xa8; xc3; xa9])
  = x22 :: to_bytes "a\u003cb\n\ufffd\u2028" ++ [xc3; xa9; x22].
Proof. vm_compute. reflexivity. Qed.
