(* ===== verification/Logging.v ===== *)
(** * Logging: platform/logging/serilog.go

    The handler of the program's structured logger: every record becomes one
    JSON object on a line of its own, with the fields of the record, of the
    logger and of the groups it is in. *)

From Stdlib Require Import ZArith.
From stdpp Require Import strings.
From S2P Require Import Prelude GoLib GoTime GoDuration Domain Database Effects OutboxRepo OutboxService AuthRepo.
From S2P Require Import AuthService ClientRepo FriendRepo RoomRepo ClientService RoomService Push Config Rpc Handler.
From S2P Require Import Runtime Json.

Local Open Scope Z_scope.
#[local] Set Warnings "-register-all".

(** ** time.Duration *)

(** [fmtFrac]: the decimals of [v / 10^prec] without trailing zeros. *)
Definition fmtFrac (prec : nat) (v : Z) : Bytes :=
  match drop_zeros (reverse (pad prec (v `mod` 10 ^ Z.of_nat prec))) with [] => [] | ds => x2e :: reverse ds end.

(** [Duration.String], of nanoseconds. *)
Definition Duration_String (d : Z) : string :=
  let u := Z.abs d in
  let s :=
    if u =? 0 then to_bytes "0s" else
    if u <? 1000 then itoa_bytes u ++ to_bytes "ns" else
    if u <? 1000000 then itoa_bytes (u / 1000) ++ fmtFrac 3 u ++ [xc2; xb5; x73] else
    if u <? 1000000000 then itoa_bytes (u / 1000000) ++ fmtFrac 6 u ++ to_bytes "ms" else
    let seconds := u / 1000000000 in
    let tail := itoa_bytes (seconds `mod` 60) ++ fmtFrac 9 u ++ to_bytes "s" in
    if seconds <? 60 then tail else
    let minutes := seconds / 60 in
    let tail := itoa_bytes (minutes `mod` 60) ++ to_bytes "m" ++ tail in
    if minutes <? 60 then tail else itoa_bytes (minutes / 60) ++ to_bytes "h" ++ tail in
  of_bytes (if d <? 0 then x2d :: s else s).

Example duration_examples :
  Duration_String 1500000000 = "1.5s"%string ∧ Duration_String 3661000000000 = "1h1m1s"%string
  ∧ Duration_String (-2500000) = "-2.5ms"%string ∧ Duration_String 0 = "0s"%string.
Proof. vm_compute. done. Qed.

(** ** log/slog *)

Definition LevelDebug : Z := -4.
Definition LevelInfo : Z := 0.
Definition LevelWarn : Z := 4.
Definition LevelError : Z := 8.

Section logging.
Context `{Marshaler}.

(** A value of an attribute, by its kind; nil and errors are values of
    [KindAny], and a [LogValuer] stands for another value. *)
Inductive slog_value : Type :=
  | VNil
  | VError (err : error)
  | VAny (v : govalue)
  | VBool (b : bool)
  | VDuration (d : Z)
  | VFloat64 (f : gofloat)
  | VInt64 (z : Z)
  | VString (s : string)
  | VTime (t : Time)
  | VUint64 (z : Z)
  | VGroup (attrs : list (string * slog_value))
  | VLogValuer (v : slog_value).
Definition Attr : Type := string * slog_value.

Definition maxLogValues : nat := 100.
Definition too_many_values : error := EText "LogValue called too many times".

(** [Value.Resolve]. *)
Fixpoint resolve (n : nat) (v : slog_value) : slog_value :=
  match v with
  | VLogValuer v => match n with O => VError too_many_values | S n => resolve n v end
  | _ => v
  end.
Definition Resolve : slog_value → slog_value := resolve maxLogValues.

(** [value], of a value with [n] calls of [LogValue] left. *)
Fixpoint value_from (n : nat) (v : slog_value) : json :=
  match v with
  | VNil => JNull
  | VError err => JString (Error err)
  | VAny v => JValue v
  | VBool b => JBool b
  | VDuration d => JString (Duration_String d)
  | VFloat64 f => JFloat f
  | VInt64 z | VUint64 z => JInt z
  | VString s => JString s
  | VTime t => JString (FormatRFC3339Nano t)
  | VGroup attrs => JMap (foldl (λ group kv, map_set group kv.1 kv.2) [] (prod_map id (value_from maxLogValues) <$> attrs))
  | VLogValuer v => match n with O => JString (Error too_many_values) | S n => value_from n v end
  end.
Definition value : slog_value → json := value_from maxLogValues.

(** A record: a zero time, and a program counter of zero, are [None]; the
    frame of the others is a function and a line. *)
Record LogRecord : Type := mkLogRecord {
  rec_Time : option Time; rec_Message : string; rec_Level : Z; rec_PC : option (string * Z); rec_Attrs : list Attr }.

(** ** serilog.go *)

Definition fieldTimestamp : string := "@t".
Definition fieldMessage : string := "@m".
Definition fieldLevel : string := "@l".
Definition fieldException : string := "@x".
Definition fieldEventID : string := "@i".
Definition fieldSourceContext : string := "SourceContext".

(** The writer and the mutex are shared by all handlers of a program. *)
Record SerilogHandler : Type := mkSerilog { sh_level : Z; sh_attrs : list Attr; sh_groups : list string }.

Definition NewSerilogHandler (level : option Z) : SerilogHandler := mkSerilog (default LevelInfo level) [] [].

Definition Enabled (h : SerilogHandler) (level : Z) : bool := bool_decide (sh_level h ≤ level).

Definition WithAttrs (attrs : list Attr) (h : SerilogHandler) : SerilogHandler :=
  mkSerilog (sh_level h) (sh_attrs h ++ attrs) (sh_groups h).
Definition WithGroup (name : string) (h : SerilogHandler) : SerilogHandler :=
  if decide (name = ""%string) then h else mkSerilog (sh_level h) (sh_attrs h) (sh_groups h ++ [name]).
Definition WithSource (sourceContext : string) (h : SerilogHandler) : SerilogHandler :=
  WithAttrs [(fieldSourceContext, VString sourceContext)] h.

Definition serilogLevel (level : Z) : string :=
  if decide (level ≤ LevelDebug) then "Debug" else
  if decide (level < LevelWarn) then "" else
  if decide (level < LevelError) then "Warning" else
  if decide (level < LevelError + 4) then "Error" else "Fatal".

(** [fnv.New32a], a byte at a time. *)
Definition fnv32a (b : Bytes) : Z :=
  foldl (λ hash c, uint32 (Z.lxor hash (byte_val c) * 16777619)) 2166136261 b.
(** [fmt.Sprintf] with the verb [%08x]. *)
Definition eventID (message : string) : string := HexEncodeToString (be_put 4 (fnv32a (to_bytes message))).

Definition sourceContext (record : LogRecord) : string :=
  match rec_PC record with
  | None => "server_v2"
  | Some (function, line) => if decide (function = ""%string) then "server_v2" else function +:+ ":" +:+ Itoa line
  end.

(** The key of an attribute under the groups of the handler. *)
Definition qualified (groups : list string) (key : string) : string :=
  foldr (λ group key, group +:+ "." +:+ key) key groups.

Definition appendAttr (groups : list string) (event : list (string * json)) (attr : Attr) : list (string * json) :=
  let v := Resolve attr.2 in
  if (match v with VNil => bool_decide (attr.1 = ""%string) | _ => false end) then event else
  let key := qualified groups attr.1 in
  if decide (key = ""%string) then event else
  match v with
  | VError err =>
      if decide (key = "error"%string) then
        map_set (map_set event fieldException (JString (Error err))) key (JString (Error err))
      else map_set event key (value v)
  | _ => map_set event key (value v)
  end.

(** [if _, ok := event[key]; !ok { event[key] = v }]. *)
Definition set_missing (event : list (string * json)) (key : string) (v : json) : list (string * json) :=
  match map_at event key with Some _ => event | None => map_set event key v end.

(** The fields of a record, [now] being the time when it has none. *)
Definition log_event (h : SerilogHandler) (now : Time) (record : LogRecord) : list (string * json) :=
  let event := map_set [] fieldTimestamp (JString (FormatRFC3339Nano (default now (rec_Time record)))) in
  let event := map_set event fieldMessage (JString (rec_Message record)) in
  let event := map_set event fieldEventID (JString (eventID (rec_Message record))) in
  let event := map_set event fieldSourceContext (JString (sourceContext record)) in
  let level := serilogLevel (rec_Level record) in
  let event := if decide (level ≠ ""%string) then map_set event fieldLevel (JString level) else event in
  let event := foldl (appendAttr (sh_groups h)) event (sh_attrs h) in
  let event := foldl (appendAttr (sh_groups h)) event (rec_Attrs record) in
  let event := set_missing event fieldSourceContext (JString (sourceContext record)) in
  set_missing event fieldEventID (JString (eventID (rec_Message record))).

Definition log_payload (h : SerilogHandler) (now : Time) (record : LogRecord) : error + Bytes :=
  match Marshal (JMap (log_event h now record)) with
  | inl err => inl (EWrap "marshal log event" err)
  | inr payload => inr (payload ++ [x0a])
  end.

(** [Handle]: the line is written at once. *)
Definition Handle {W} `{Writer W} (h : SerilogHandler) (now : Time) (record : LogRecord) (out : W) : option error * W :=
  match log_payload h now record with
  | inl err => (Some err, out)
  | inr payload => let '(_, err, out) := Write payload out in (err, out)
  end.

(** [logger.Log]: records below the level are dropped. *)
Definition Log {W} `{Writer W} (h : SerilogHandler) (now : Time) (record : LogRecord) (out : W) : W :=
  if Enabled h (rec_Level record) then (Handle h now record out).2 else out.
End logging.
