(* ===== verification/Http.v ===== *)
(** * Http: requests, answers and the access log of internal/server/http.go

    A request goes through the access log to the mux, and from there to the
    discovery route or to the RPC handler.  A handler is the list of what it
    does to its [http.ResponseWriter]; the recorder that the access log puts
    in between sees the same calls as the connection. *)

From Stdlib Require Import ZArith.
From stdpp Require Import gmap strings.
From S2P Require Import Prelude GoLib GoTime GoDuration Domain Database Effects OutboxRepo OutboxService AuthRepo.
From S2P Require Import AuthService ClientRepo FriendRepo RoomRepo ClientService RoomService Push Config Rpc Handler.
From S2P Require Import Runtime Json Logging.

Local Open Scope Z_scope.

(** ** net/http *)

(** [http.ResponseWriter]: its methods, the status the client has received,
    the bytes of the body that the writer has taken, and whether it answers
    a HEAD request. *)
Class ResponseWriter (W : Type) : Type := {
  WriteHeader : Z → W → W;
  WriteBody : Bytes → W → Z * option error * W;
  sent_status : W → option Z;
  taken_body : W → Bytes;
  answers_HEAD : W → bool }.

(** The body the client has received: an answer to HEAD has none, whatever
    the writer has taken. *)
Definition sent_body {W} `{ResponseWriter W} (w : W) : Bytes := if answers_HEAD w then [] else taken_body w.

(** Its contract: the first final status is the one that is sent, a write
    sends 200 before it unless a status has been sent, and takes a prefix of
    its payload, whose length it answers also when it discards it. *)
Class ResponseWriterLaws (W : Type) `{ResponseWriter W} : Prop := {
  WriteHeader_status : ∀ code w, 200 ≤ code → sent_status (WriteHeader code w) = Some (default code (sent_status w));
  WriteHeader_body : ∀ code w, taken_body (WriteHeader code w) = taken_body w ∧ answers_HEAD (WriteHeader code w) = answers_HEAD w;
  WriteBody_sends : ∀ payload w n err w', WriteBody payload w = (n, err, w') →
    0 ≤ n ≤ Z.of_nat (length payload) ∧ sent_status w' = Some (default 200 (sent_status w))
    ∧ taken_body w' = taken_body w ++ take (Z.to_nat n) payload ∧ answers_HEAD w' = answers_HEAD w }.

(** What a handler does to its writer; headers are left out. *)
Inductive response_op : Type := OpHeader (code : Z) | OpWrite (payload : Bytes).

Definition perform {W} `{ResponseWriter W} (w : W) (op : response_op) : W :=
  match op with OpHeader code => WriteHeader code w | OpWrite payload => (WriteBody payload w).2 end.
Definition respond {W} `{ResponseWriter W} (ops : list response_op) (w : W) : W := foldl perform w ops.

(** A status with a body, as [http.Error] and the routes write it. *)
Definition reply (r : Z * Bytes) : list response_op := [OpHeader r.1; OpWrite r.2].

(** What the code reads of a request. *)
Record HTTPRequest : Type := mkHTTPRequest {
  rq_Method : string; rq_Path : string; rq_Upgrade : bool; rq_Body : error + Bytes;
  rq_RemoteAddr : string; rq_UserAgent : string }.

(** ** routes_discovery.go *)

Definition discovery (encode : AppPortsConfiguration → option Bytes) (method : string) (outputPorts : AppPortsConfiguration)
  : list response_op :=
  if decide (method ≠ "GET"%string) then reply (http_Error "method not allowed" StatusMethodNotAllowed) else
  match encode outputPorts with
  | None => reply (http_Error "failed to encode discovery payload" StatusInternalServerError)
  | Some payload => reply (StatusOK, payload)
  end.

(** ** http.go *)

(** [statusCapturingResponseWriter]. *)
Record recorder (W : Type) : Type := mkRecorder { rec_inner : W; rec_statusCode : Z; rec_bytes : Z }.
#[global] Arguments mkRecorder {W}.
#[global] Arguments rec_inner {W}.
#[global] Arguments rec_statusCode {W}.
#[global] Arguments rec_bytes {W}.

Section recorder.
Context {W : Type} `{ResponseWriter W}.

Definition rec_WriteHeader (code : Z) (r : recorder W) : recorder W :=
  mkRecorder (WriteHeader code (rec_inner r)) code (rec_bytes r).

Definition rec_Write (payload : Bytes) (r : recorder W) : Z * option error * recorder W :=
  let status := if decide (rec_statusCode r = 0) then StatusOK else rec_statusCode r in
  let '(written, err, inner) := WriteBody payload (rec_inner r) in
  (written, err, mkRecorder inner status (int64 (rec_bytes r + written))).

#[export] Instance recorder_writer : ResponseWriter (recorder W) :=
  {| WriteHeader := rec_WriteHeader; WriteBody := rec_Write;
     sent_status := λ r, sent_status (rec_inner r); taken_body := λ r, taken_body (rec_inner r);
     answers_HEAD := λ r, answers_HEAD (rec_inner r) |}.

(** [accessLogMiddleware] around a handler: the answer, the status and the
    number of bytes that are logged.  An upgrade that succeeds takes the
    connection away from the writer, so that the handler does nothing to
    it. *)
Definition accessLog (ops : list response_op) (w : W) : W * Z * Z :=
  let r := respond ops (mkRecorder w 0 0) in
  (rec_inner r, if decide (rec_statusCode r = 0) then StatusOK else rec_statusCode r, rec_bytes r).
End recorder.

(** The record of a request. *)
Definition access_record `{Marshaler} (rq : HTTPRequest) (status bytes duration_ms : Z) (startedAt : Time) : LogRecord :=
  mkLogRecord (Some startedAt) "http request completed" LevelInfo None
    [("method"%string, VString (rq_Method rq)); ("path"%string, VString (rq_Path rq));
     ("status_code"%string, VInt64 status); ("response_bytes"%string, VInt64 bytes);
     ("duration_ms"%string, VInt64 duration_ms); ("remote_addr"%string, VString (rq_RemoteAddr rq));
     ("user_agent"%string, VString (rq_UserAgent rq))].

(** The routes of [NewHandler] and [Register]. *)
Definition discovery_route : string := "/api/v1/discovery/".
Definition client_route : string := "/api/v1/client".

(** gorilla/websocket: what [Upgrade] does to its writer.  It takes the
    connection from it, or it answers with an error and returns one, or it
    fails after it has taken the connection. *)
Inductive upgrade_result : Type := Hijacked | HijackedAndFailed | Refused (code : Z) (text : string).

Section serve.
Context {E : Env} {C : Codec} {App : EventAppender} (h : Handler).
Variable Upgrade : HTTPRequest → upgrade_result.
Variable encode : AppPortsConfiguration → option Bytes.
(** What the mux answers by itself: redirects, and pages not found. *)
Variable mux_reply : HTTPRequest → list response_op.

(** [handleWebSocket] up to the loops of the connection ([Stream]), which do
    not see the writer any more. *)
Definition open_websocket (rq : HTTPRequest) : list response_op :=
  match Upgrade rq with Hijacked | HijackedAndFailed => [] | Refused code text => reply (http_Error text code) end.

(** [handleHTTP] from its first line. *)
Definition serve_client (connectionID : option string) (rq : HTTPRequest) (s : scopes) : M (list response_op * scopes) :=
  if rq_Upgrade rq then ret (open_websocket rq, s) else
  if decide (rq_Method rq ≠ "POST"%string) then ret (reply (http_Error "method not allowed" StatusMethodNotAllowed), s) else
  match rq_Body rq with
  | inl _ => ret (reply (http_Error "failed to read body" StatusBadRequest), s)
  | inr body => let* r := handleHTTP h Background connectionID body s in ret (reply r.1, r.2)
  end.

(** [ServeHTTP] of the mux, for a path that is clean. *)
Definition serve_mux (outputPorts : AppPortsConfiguration) (connectionID : option string) (rq : HTTPRequest) (s : scopes)
  : M (list response_op * scopes) :=
  if decide (rq_Path rq = client_route) then serve_client connectionID rq s else
  if is_prefix (to_bytes discovery_route) (to_bytes (rq_Path rq)) then ret (discovery encode (rq_Method rq) outputPorts, s) else
  ret (mux_reply rq, s).
End serve.

(** ** The access log *)

(** A final status first, or none at all, as [reply] has it. *)
Definition orderly (ops : list response_op) : Prop :=
  ∃ payloads, ops = OpWrite <$> payloads ∨ ∃ code, 200 ≤ code ∧ ops = OpHeader code :: (OpWrite <$> payloads).

Lemma reply_orderly r : 200 ≤ r.1 → orderly (reply r).
Proof. intros Hc. exists [r.2]. right. by exists r.1. Qed.

Lemma int64_add a b : int64 (int64 a + b) = int64 (a + b).
Proof.
  unfold int64, wrap_signed. f_equal.
  replace ((a + 2 ^ (64 - 1)) `mod` 2 ^ 64 - 2 ^ (64 - 1) + b + 2 ^ (64 - 1)) with ((a + 2 ^ (64 - 1)) `mod` 2 ^ 64 + b) by lia.
  rewrite Z.add_mod_idemp_l by done. f_equal. lia.
Qed.

Section access.
Context {W : Type} `{ResponseWriterLaws W}.

(** The recorder agrees with the connection. *)
Definition agrees (r : recorder W) : Prop :=
  rec_bytes r = int64 (Z.of_nat (length (taken_body (rec_inner r))))
  ∧ sent_status (rec_inner r) = (if decide (rec_statusCode r = 0) then None else Some (rec_statusCode r)).

Lemma write_agrees payload r : agrees r → agrees (perform r (OpWrite payload)) ∧ sent_status (perform r (OpWrite payload)) ≠ None.
Proof.
  intros [Hb Hs]. cbn. unfold rec_Write. destruct (WriteBody payload (rec_inner r)) as [[n err] w'] eqn:Ew.
  destruct (WriteBody_sends _ _ _ _ _ Ew) as (Hn & Hs' & Hb' & _). unfold agrees. cbn. rewrite Hs', Hs. split_and!.
  - rewrite Hb', Hb, int64_add, length_app, length_take. f_equal. lia.
  - destruct (decide (rec_statusCode r = 0)) as [E0|E0]; cbn; [done|]. by rewrite decide_False.
  - done.
Qed.

Lemma writes_agree payloads : ∀ r, agrees r → agrees (respond (OpWrite <$> payloads) r).
Proof. induction payloads as [|p payloads IH]; intros r Hr; [done|]. cbn. apply IH. by apply write_agrees. Qed.

Lemma accessLog_agrees ops w w' status bytes :
  sent_status w = None → taken_body w = [] → orderly ops → accessLog ops w = (w', status, bytes) →
  status = default 200 (sent_status w') ∧ bytes = int64 (Z.of_nat (length (taken_body w'))).
Proof.
  intros Hs Hb (payloads & Hops) [= <- <- <-].
  assert (agrees (mkRecorder w 0 0)) as Hstart by (split; cbn; [by rewrite Hb|done]).
  assert (agrees (respond ops (mkRecorder w 0 0))) as [Hbytes Hstatus].
  { destruct Hops as [->|(code & Hc & ->)]; [by apply writes_agree|]. cbn. apply writes_agree.
    split; cbn; [by rewrite (proj1 (WriteHeader_body _ _)), Hb|]. rewrite WriteHeader_status, Hs by done. by rewrite decide_False by lia. }
  rewrite Hstatus, Hbytes. split; [by destruct (decide _)|done].
Qed.

Lemma respond_HEAD ops : ∀ w : W, answers_HEAD (respond ops w) = answers_HEAD w.
Proof.
  induction ops as [|[code|payload] ops IH]; intros w; cbn; [done| |]; etrans; [apply IH| |apply IH|].
  - apply WriteHeader_body.
  - destruct (WriteBody payload w) as [[n err] w'] eqn:Ew. by apply WriteBody_sends in Ew as (_ & _ & _ & ?).
Qed.

(** The recorder passes every call on. *)
Lemma accessLog_passes ops : ∀ (w : W) status bytes, rec_inner (respond ops (mkRecorder w status bytes)) = respond ops w.
Proof.
  induction ops as [|[code|payload] ops IH]; intros w status bytes; cbn; [done|apply IH|].
  unfold rec_Write. cbn. destruct (WriteBody payload w) as [[n err] w']. apply IH.
Qed.

(** An upgraded connection leaves the recorder as it was. *)
Lemma upgrades_are_logged_as_200 (w : W) : accessLog [] w = (w, StatusOK, 0).
Proof. done. Qed.

End access.

(** ** Answers *)

Section answers.
Context {E : Env} {C : Codec} {App : EventAppender} (h : Handler).

(** What a computation returns when it returns. *)
Definition yields {A} (Q : A → Prop) (m : M A) : Prop := ∀ w a w', m w = (Ok a, w') → Q a.

Lemma yields_ret {A} (Q : A → Prop) a : Q a → yields Q (ret a).
Proof. by intros Ha w b w' [= <- <-]. Qed.

Lemma yields_bind {A B} (P : A → Prop) (Q : B → Prop) (m : M A) (k : A → M B) :
  yields P m → (∀ a, P a → yields Q (k a)) → yields Q (bind m k).
Proof.
  intros Hm Hk w b w'. unfold bind. destruct (m w) as [[a|e|msg] w1] eqn:Em; [|done|done].
  intros Hb. by eapply Hk; [eapply Hm|].
Qed.

Lemma yields_any {A} (m : M A) : yields (λ _, True) m.
Proof. done. Qed.

(** A final status of the RPC route. *)
Definition final_status (code : Z) : Prop := code = StatusOK ∨ code = StatusBadRequest ∨ code = StatusInternalServerError.

Lemma maxStatus_final a b : final_status a → final_status b → final_status (maxStatus a b).
Proof. unfold maxStatus. by case_match. Qed.

Lemma packets_loop_status packets : ∀ state status,
  final_status status → yields (λ r, final_status r.2) (packets_loop h Background packets state status).
Proof.
  induction packets as [|packet packets IH]; intros state status Hs; cbn; [by apply yields_ret|].
  eapply yields_bind; [apply yields_any|]. intros [[response next] err] _.
  eapply yields_bind; [apply IH|].
  - destruct err; [|done]. apply maxStatus_final; [done|by right; left].
  - intros [[responses last] status'] Hst. by apply yields_ret.
Qed.

Lemma handlePackets_status packets state sent :
  yields (λ r, final_status r.1.2) (handlePackets h Background packets state sent).
Proof.
  eapply yields_bind; [apply packets_loop_status; by left|]. intros [[responses current] status] Hs. cbn in Hs.
  assert (final_status (maxStatus status StatusInternalServerError)) as Hmax by (apply maxStatus_final; [done|by right; right]).
  assert (∀ user, yields (λ r : list ResponsePacket * sessionState * Z * sentEvents, final_status r.1.2)
    (let* r := attempt (PullEvents (h_authService h) Background user 0) in
     match r with
     | inl _ => ret (responses, current, maxStatus status StatusInternalServerError, sent)
     | inr events => ret (responses ++ (event_packet <$> events), current, status, sent)
     end)) as Hpull.
  { intros user. eapply yields_bind; [apply yields_any|]. intros [e|evs] _; by apply yields_ret. }
  destruct (h_outboxService h).
  - case_decide.
    + eapply yields_bind; [apply yields_any|]. intros [[e|evs] sent'] _; by apply yields_ret.
    + destruct (st_Authenticated current); [apply Hpull|by apply yields_ret].
  - destruct (st_Authenticated current); [apply Hpull|by apply yields_ret].
Qed.

Lemma handleHTTP_status connectionID body s :
  yields (λ r, final_status r.1.1) (handleHTTP h Background connectionID body s).
Proof.
  unfold handleHTTP. destruct connectionID as [id|]; [|apply yields_ret; by right; right].
  apply (yields_bind (λ r : list ResponsePacket * sessionState * Z * sentEvents * Z, final_status r.1.1.2)).
  - unfold handleBatch. destruct (decode_batch _) as [msg|packets].
    + eapply yields_bind; [apply yields_any|]. intros rid _. apply yields_ret. by right; left.
    + eapply yields_bind; [apply handlePackets_status|]. intros [[[responses next] status] sent] Hs. by apply yields_ret.
  - intros [[[[responses next] status] sent] count] Hs. destruct (cbor_responses responses) as [payload|].
    + eapply yields_bind; [apply yields_any|]. intros u _. by apply yields_ret.
    + apply yields_ret. by right; right.
Qed.

(** What is relied on of the mux and of [Upgrade]: a final status first. *)
Definition polite (Upgrade : HTTPRequest → upgrade_result) (mux_reply : HTTPRequest → list response_op) : Prop :=
  (∀ rq, orderly (mux_reply rq)) ∧ ∀ rq code text, Upgrade rq = Refused code text → 400 ≤ code.

Lemma serve_mux_orderly Upgrade encode mux_reply ports connectionID rq s :
  polite Upgrade mux_reply →
  yields (λ r, orderly r.1) (serve_mux h Upgrade encode mux_reply ports connectionID rq s).
Proof.
  intros [Hmux Hup]. unfold serve_mux, serve_client, open_websocket, discovery.
  destruct (decide (rq_Path rq = client_route)) as [_|_].
  - destruct (rq_Upgrade rq).
    { apply yields_ret. destruct (Upgrade rq) as [| |code text] eqn:Eu; [exists []; by left..|].
      apply reply_orderly. specialize (Hup rq code text Eu). cbn. lia. }
    case_decide; [by apply yields_ret, reply_orderly|].
    destruct (rq_Body rq) as [e|body]; [by apply yields_ret, reply_orderly|].
    eapply yields_bind; [apply handleHTTP_status|]. intros r Hr. apply yields_ret, reply_orderly. by destruct Hr as [->|[->| ->]].
  - destruct (is_prefix _ _); [|apply yields_ret, Hmux]. apply yields_ret.
    case_decide; [by apply reply_orderly|]. by destruct (encode ports); apply reply_orderly.
Qed.

(** The status that a reply sends. *)
Lemma reply_sends {W} `{ResponseWriterLaws W} r (w : W) :
  200 ≤ r.1 → sent_status w = None → sent_status (respond (reply r) w) = Some r.1.
Proof.
  intros Hr Hs. cbn. destruct (WriteBody r.2 _) as [[n err] w2] eqn:Ew. cbn.
  destruct (WriteBody_sends _ _ _ _ _ Ew) as (_ & -> & _). by rewrite WriteHeader_status, Hs by done.
Qed.

(** The answers of the RPC route to what is no upgrade. *)
Lemma serve_client_replies Upgrade connectionID rq s w ops s' w1 :
  rq_Upgrade rq = false → serve_client h Upgrade connectionID rq s w = (Ok (ops, s'), w1) →
  ∃ r, ops = reply r ∧ r.1 ∈ [StatusOK; StatusBadRequest; StatusMethodNotAllowed; StatusInternalServerError].
Proof.
  intros Hup. unfold serve_client. rewrite Hup. intros Hserve.
  case_decide; [injection Hserve as <- <- <-; eexists; split; [reflexivity|rewrite !elem_of_cons; auto]|].
  destruct (rq_Body rq) as [e|body]; [injection Hserve as <- <- <-; eexists; split; [reflexivity|rewrite !elem_of_cons; auto]|].
  unfold bind in Hserve. destruct (handleHTTP _ _ _ _ _ _) as [[r|e|msg] w2] eqn:Eh; [|done|done].
  injection Hserve as <- <- <-. exists r.1. split; [done|]. rewrite !elem_of_cons.
  destruct (handleHTTP_status _ _ _ _ _ _ Eh) as [->|[->| ->]]; auto.
Qed.

(** C39: The access log tells what was sent.  Whatever a request is and
    whatever the RPC handler or the discovery route answers to it, the
    status in its access log record is the status that the connection has
    sent, and the number of bytes is the length of the body it has sent,
    except for an answer to HEAD, whose body is counted and not sent.  A
    client of the RPC route sees 200, 400, 405 or 500; a request to open a
    WebSocket that is refused is logged with the status of the refusal, and
    one whose connection was taken from the recorder is logged with status
    200 and without a byte. *)
Theorem access_log_tells_response {W} `{ResponseWriterLaws W} Upgrade encode mux_reply ports connectionID rq s w ops s' w1 (conn conn' : W) status bytes :
  polite Upgrade mux_reply →
  serve_mux h Upgrade encode mux_reply ports connectionID rq s w = (Ok (ops, s'), w1) →
  sent_status conn = None → taken_body conn = [] → accessLog ops conn = (conn', status, bytes) →
  status = default StatusOK (sent_status conn')
  ∧ (answers_HEAD conn = false → bytes = int64 (Z.of_nat (length (sent_body conn'))))
  ∧ (answers_HEAD conn = true → sent_body conn' = [] ∧ bytes = int64 (Z.of_nat (length (taken_body conn'))))
  ∧ (rq_Path rq = client_route → rq_Upgrade rq = false → ∃ code, sent_status conn' = Some code
       ∧ code ∈ [StatusOK; StatusBadRequest; StatusMethodNotAllowed; StatusInternalServerError])
  ∧ (rq_Path rq = client_route → rq_Upgrade rq = true →
       match Upgrade rq with
       | Refused code _ => sent_status conn' = Some code ∧ status = code
       | _ => conn' = conn ∧ status = StatusOK ∧ bytes = 0
       end).
Proof.
  intros Hpol Hserve Hs Hb Hlog. pose proof (serve_mux_orderly Upgrade encode mux_reply ports connectionID rq s Hpol _ _ _ Hserve) as Hord.
  destruct (accessLog_agrees _ _ _ _ _ Hs Hb Hord Hlog) as [H1 H2]. pose proof Hlog as Hcalls. injection Hcalls as Hconn _ _.
  rewrite accessLog_passes in Hconn. assert (answers_HEAD conn' = answers_HEAD conn) as Hhead by (rewrite <- Hconn; apply respond_HEAD).
  unfold sent_body. rewrite Hhead. split_and!; [done|by intros ->|by intros ->| |].
  - intros Hpath Hup. unfold serve_mux in Hserve. rewrite decide_True in Hserve by done.
    destruct (serve_client_replies _ _ _ _ _ _ _ _ Hup Hserve) as (r & -> & Hr). exists r.1. split; [|done].
    rewrite <- Hconn. apply reply_sends; [|done].
    rewrite !elem_of_cons in Hr. by destruct Hr as [->|[->|[->|[->|?%not_elem_of_nil]]]].
  - intros Hpath Hup. unfold serve_mux, serve_client, open_websocket in Hserve. rewrite decide_True, Hup in Hserve by done.
    injection Hserve as <- _ _. destruct (Upgrade rq) as [| |code text] eqn:Eu; [by injection Hlog as <- <- <-..|].
    pose proof (proj2 Hpol rq code text Eu) as Hc. assert (sent_status conn' = Some code) as Hsent.
    { rewrite <- Hconn. apply (reply_sends (http_Error text code)); [cbn; lia|done]. }
    split; [done|]. by rewrite H1, Hsent.
Qed.
End answers.
