(* ===== verification/Lint.v ===== *)
(** * Lint: cmd/lintlimits

    The tool that limits the lines of files and functions: a walk over a
    directory tree, which collects what exceeds the limits, and the exit
    status.  The parser of Go is a parameter. *)

From Stdlib Require Import ZArith Ascii.
From stdpp Require Import strings.
From S2P Require Import Prelude GoLib Domain.

Local Open Scope Z_scope.
#[local] Set Warnings "-register-all".

(** ** path/filepath *)

(** What [WalkDir] finds under a path: entries in the order of their names,
    and the errors of reading a file or a directory. *)
Inductive tree : Type :=
  | File (name : string) (content : error + Bytes)
  | Dir (name : string) (entries : error + list tree).

Definition Name (t : tree) : string := match t with File name _ | Dir name _ => name end.
Definition IsDir (t : tree) : bool := match t with File _ _ => false | Dir _ _ => true end.

(** [Join] of a clean path and a name. *)
Definition Join (path name : string) : string :=
  if decide (path = "."%string) then name else (path +:+ "/" +:+ name)%string.

(** [Ext]: from the last dot of the last element. *)
Fixpoint ext_from (ext path : string) : string :=
  match path with
  | EmptyString => ext
  | String c path =>
      if decide (c = "/"%char) then ext_from "" path else
      if decide (c = "."%char) then ext_from "." path else
      ext_from (if decide (ext = ""%string) then "" else ext +:+ String c EmptyString) path
  end%string.
Definition Ext (path : string) : string := ext_from "" path.

(** What a visit returns: no error, [SkipDir], or another error. *)
Inductive verdict : Type := Continue | SkipDir | Halt (e : error).

Section walk.
Context {S : Type} (fn : string → tree → option error → S → verdict * S).

(** [walkDir]: a skipped directory is no error, and a file that asks for
    skipping ends the listing of its directory. *)
Fixpoint walkDir (path : string) (t : tree) (s : S) : verdict * S :=
  match fn path t None s with
  | (Continue, s) =>
      match t with
      | File _ _ => (Continue, s)
      | Dir _ (inl e) =>
          match fn path t (Some e) s with (SkipDir, s) => (Continue, s) | r => r end
      | Dir _ (inr entries) =>
          (fix walk_entries (l : list tree) (s : S) : verdict * S :=
             match l with
             | [] => (Continue, s)
             | t' :: l =>
                 match walkDir (Join path (Name t')) t' s with
                 | (Continue, s) => walk_entries l s
                 | (SkipDir, s) => (Continue, s)
                 | (Halt e, s) => (Halt e, s)
                 end
             end) entries s
      end
  | (SkipDir, s) => (if IsDir t then Continue else SkipDir, s)
  | (Halt e, s) => (Halt e, s)
  end.

(** [WalkDir], from what [Lstat] says of the root. *)
Definition WalkDir (root : string) (info : error + tree) (s : S) : option error * S :=
  let '(v, s) := match info with
                 | inl e => fn root (File root (inl e)) (Some e) s
                 | inr t => walkDir root t s
                 end in
  (match v with Halt e => Some e | _ => None end, s).
End walk.

(** ** go/ast *)

Inductive TypeExpr : Type := Ident (name : string) | StarExpr (X : TypeExpr) | OtherExpr.

(** A function with the lines of its first and of its last character. *)
Record FuncDecl : Type := mkFuncDecl {
  fn_Name : string; fn_Recv : option (list TypeExpr); fn_Body : bool; fn_start : Z; fn_end : Z }.
Inductive Decl : Type := AFuncDecl (fn : FuncDecl) | AnotherDecl.

(** ** main.go *)

Record violation : Type := mkViolation { vi_path : string; vi_line : Z; vi_message : string }.

Definition countLines (content : Bytes) : Z :=
  match content with
  | [] => 0
  | _ => Z.of_nat (length (filter (λ b, b = x0a) content)) + 1
  end.

Definition functionName (fn : FuncDecl) : string :=
  match fn_Recv fn with
  | Some (Ident name :: _) => name +:+ "." +:+ fn_Name fn
  | Some (StarExpr (Ident name) :: _) => name +:+ "." +:+ fn_Name fn
  | _ => fn_Name fn
  end%string.

Section lint.
Variable ParseFile : string → Bytes → error + list Decl.
Variables maxFileLines maxFuncLines : Z.

(** The loop over the declarations. *)
Definition check_decl (path : string) (decl : Decl) : option violation :=
  match decl with
  | AnotherDecl => None
  | AFuncDecl fn =>
      if negb (fn_Body fn) then None else
      let lines := fn_end fn - fn_start fn + 1 in
      if decide (lines ≤ maxFuncLines) then None else
      Some (mkViolation path (fn_start fn)
        ("function " +:+ functionName fn +:+ " has " +:+ Itoa lines +:+ " lines, max allowed is " +:+ Itoa maxFuncLines))
  end.

(** The callback. *)
Definition visit (path : string) (d : tree) (walkErr : option error) (violations : list violation)
  : verdict * list violation :=
  match walkErr with
  | Some e => (Halt e, violations)
  | None =>
      match d with
      | Dir name _ =>
          if decide (name ∈ [".git"; "vendor"; "build"]%string) then (SkipDir, violations) else (Continue, violations)
      | File _ content =>
          if decide (Ext path ≠ ".go"%string) then (Continue, violations) else
          match content with
          | inl e => (Halt e, violations)
          | inr content =>
              let fileLines := countLines content in
              let violations :=
                if decide (maxFileLines < fileLines)
                then violations ++ [mkViolation path 1
                       ("file has " +:+ Itoa fileLines +:+ " lines, max allowed is " +:+ Itoa maxFileLines)]
                else violations in
              match ParseFile path content with
              | inl e => (Halt e, violations)
              | inr decls => (Continue, violations ++ omap (check_decl path) decls)
              end
          end
      end
  end.

Definition check (root : string) (info : error + tree) : list violation * option error :=
  let '(err, violations) := WalkDir visit root info [] in (violations, err).

(** The lines on the standard error, and the exit status. *)
Definition main (root : string) (info : error + tree) : list string * Z :=
  match check root info with
  | (_, Some err) => ([("lintlimits: " +:+ Error err)%string], 1)
  | ([], None) => ([], 0)
  | (violations, None) =>
      ((λ item, (vi_path item +:+ ":" +:+ Itoa (vi_line item) +:+ ": " +:+ vi_message item)%string) <$> violations, 1)
  end.

(** ** What is checked *)

(** The Go files that are looked at, with the errors on the way. *)
Fixpoint go_files (path : string) (t : tree) : list (error + string * (error + Bytes)) :=
  match t with
  | File _ content => if decide (Ext path = ".go"%string) then [inr (path, content)] else []
  | Dir name entries =>
      if decide (name ∈ [".git"; "vendor"; "build"]%string) then [] else
      match entries with
      | inl e => [inl e]
      | inr l => concat (map (λ t', go_files (Join path (Name t')) t') l)
      end
  end.

(** The files one after the other, up to the first error. *)
Definition inspect_file (item : error + string * (error + Bytes)) (violations : list violation) : verdict * list violation :=
  match item with
  | inl e => (Halt e, violations)
  | inr (path, inl e) => (Halt e, violations)
  | inr (path, inr content) =>
      let violations := violations ++ if decide (maxFileLines < countLines content)
        then [mkViolation path 1 ("file has " +:+ Itoa (countLines content) +:+ " lines, max allowed is " +:+ Itoa maxFileLines)]
        else [] in
      match ParseFile path content with
      | inl e => (Halt e, violations)
      | inr decls => (Continue, violations ++ omap (check_decl path) decls)
      end
  end.

Fixpoint inspect (items : list (error + string * (error + Bytes))) (violations : list violation) : verdict * list violation :=
  match items with
  | [] => (Continue, violations)
  | item :: items =>
      match inspect_file item violations with (Continue, violations) => inspect items violations | r => r end
  end.

Lemma inspect_app items items' vs :
  inspect (items ++ items') vs
  = match inspect items vs with (Continue, vs) => inspect items' vs | r => r end.
Proof.
  revert vs. induction items as [|item items IH]; intros vs; [done|]. cbn.
  destruct (inspect_file item vs) as [[| |e] vs']; [apply IH|done|done].
Qed.

Lemma inspect_file_never_skips item vs : (inspect_file item vs).1 ≠ SkipDir.
Proof. destruct item as [e|[path [e|content]]]; [done|done|]. cbn. by destruct (ParseFile path content). Qed.

Lemma inspect_never_skips items vs : (inspect items vs).1 ≠ SkipDir.
Proof.
  revert vs. induction items as [|item items IH]; intros vs; [done|]. cbn.
  pose proof (inspect_file_never_skips item vs) as Hns. destruct (inspect_file item vs) as [[| |e] vs']; [apply IH|done|done].
Qed.

Lemma visit_file path name content vs :
  visit path (File name content) None vs
  = if decide (Ext path = ".go"%string) then inspect_file (inr (path, content)) vs else (Continue, vs).
Proof.
  cbn. destruct (decide (Ext path = ".go"%string)) as [Hx|Hx]; [rewrite decide_False by (intros Hn; by apply Hn)|by rewrite decide_True].
  destruct content as [e|content]; [done|]. by case_decide; rewrite ?app_nil_r.
Qed.

(** The walk inspects the Go files outside the skipped directories. *)
Lemma walkDir_inspects t path vs : walkDir visit path t vs = inspect (go_files path t) vs.
Proof.
  revert t path vs. fix IH 1. intros [name content|name entries] path vs.
  - cbn [walkDir go_files]. rewrite visit_file. destruct (decide (Ext path = ".go"%string)); [|done]. cbn.
    pose proof (inspect_file_never_skips (inr (path, content)) vs) as Hns. cbn in Hns.
    by destruct (match content with inl _ => _ | inr _ => _ end) as [[| |?] ?].
  - cbn [walkDir go_files visit]. case_decide; [done|]. destruct entries as [e|entries]; [done|].
    revert vs. induction entries as [|t' entries IHl]; intros vs; [done|]. cbn [map concat]. rewrite inspect_app.
    rewrite IH. pose proof (inspect_never_skips (go_files (Join path (Name t')) t') vs) as Hns.
    destruct (inspect (go_files (Join path (Name t')) t') vs) as [[| |e] vs']; [apply IHl|done|done].
Qed.

(** ** Passing *)

Definition within_limits (item : error + string * (error + Bytes)) : Prop :=
  ∃ path content decls, item = inr (path, inr content) ∧ ParseFile path content = inr decls
    ∧ countLines content ≤ maxFileLines
    ∧ ∀ fn, AFuncDecl fn ∈ decls → fn_Body fn = true → fn_end fn - fn_start fn + 1 ≤ maxFuncLines.

Lemma check_decl_clean path decl :
  check_decl path decl = None ↔
  ∀ fn, decl = AFuncDecl fn → fn_Body fn = true → fn_end fn - fn_start fn + 1 ≤ maxFuncLines.
Proof.
  destruct decl as [fn|]; cbn; [|done]. destruct (fn_Body fn) eqn:Hb; cbn.
  - case_decide as Hle.
    + split; [by intros _ ? [= <-]|done].
    + split; [done|]. intros Hf. destruct Hle. by apply Hf.
  - split; [|done]. intros _ ? [= <-]. by rewrite Hb.
Qed.

Lemma omap_nil_iff {A B} (f : A → option B) l : omap f l = [] ↔ ∀ x, x ∈ l → f x = None.
Proof.
  induction l as [|x l IH]; cbn; [split; [by intros _ x ?%not_elem_of_nil|done]|]. destruct (f x) as [y|] eqn:Ef.
  - split; [done|]. intros Hl. by rewrite Hl in Ef by left.
  - rewrite IH. split; [intros Hl z [->|Hz]%elem_of_cons; auto|intros Hl z Hz; apply Hl; by right].
Qed.

Lemma inspect_file_clean item : inspect_file item [] = (Continue, []) ↔ within_limits item.
Proof.
  unfold within_limits. destruct item as [e|[path [e|content]]]; cbn; [by split; [|intros (? & ? & ? & ? & _)]..|].
  destruct (ParseFile path content) as [e|decls] eqn:Ep; [split; [done|intros (? & ? & ? & [= <- <-] & Ep' & _); by rewrite Ep in Ep']|]. case_decide as Hl; cbn.
  - split; [done|]. intros (? & ? & ? & [= <- <-] & _ & ? & _). lia.
  - split.
    + intros [= Hd]. rewrite omap_nil_iff in Hd. exists path, content, decls. split_and!; [done|done|lia|].
      intros fn Hfn. by apply (proj1 (check_decl_clean path (AFuncDecl fn)) (Hd _ Hfn) fn).
    + intros (? & ? & ? & [= <- <-] & Ep' & _ & Hfn). rewrite Ep in Ep'. injection Ep' as <-. f_equal.
      apply omap_nil_iff. intros decl Hdecl. apply check_decl_clean. intros fn ->. by apply Hfn.
Qed.

Lemma inspect_file_grows item vs : ∃ more, (inspect_file item vs).2 = vs ++ more.
Proof.
  destruct item as [e|[path [e|content]]]; cbn; [by exists []; rewrite app_nil_r..|].
  destruct (ParseFile path content); cbn; rewrite <- ?app_assoc; by eexists.
Qed.

Lemma inspect_grows items vs : ∃ more, (inspect items vs).2 = vs ++ more.
Proof.
  revert vs. induction items as [|item items IH]; intros vs; cbn; [by exists []; rewrite app_nil_r|].
  destruct (inspect_file_grows item vs) as [more Hm]. destruct (inspect_file item vs) as [[| |e] vs']; cbn in Hm; subst vs'.
  - destruct (IH (vs ++ more)) as [more' ->]. rewrite <- app_assoc. by eexists.
  - by eexists.
  - by eexists.
Qed.

Lemma inspect_clean items : inspect items [] = (Continue, []) ↔ ∀ item, item ∈ items → within_limits item.
Proof.
  induction items as [|item items IH]; cbn; [split; [by intros _ item ?%not_elem_of_nil|done]|].
  pose proof (inspect_file_clean item) as Hc. destruct (inspect_file item []) as [v vs'] eqn:Ei. split.
  - intros Hi. assert (v = Continue ∧ vs' = []) as [-> ->].
    { destruct v; [|by injection Hi as <-..]. split; [done|].
      destruct (inspect_grows items vs') as [more Hm]. rewrite Hi in Hm. by destruct vs'. }
    intros x [->|Hx]%elem_of_cons; [by apply Hc|]. by apply IH.
  - intros Hl. assert ((v, vs') = (Continue, [])) as [= -> ->] by (apply Hc, Hl; left).
    apply IH. intros x Hx. apply Hl. by right.
Qed.

(** The tool passes exactly when every directory it does not skip can be
    read, and every Go file in them can be read, parses, and keeps to the
    limits, as do its functions. *)
Theorem lint_passes root t : (main root (inr t)).2 = 0 ↔ ∀ item, item ∈ go_files root t → within_limits item.
Proof.
  rewrite <- inspect_clean. unfold main, check, WalkDir. rewrite walkDir_inspects.
  pose proof (inspect_never_skips (go_files root t) []) as Hns.
  by destruct (inspect (go_files root t) []) as [[| |e] [|v vs]].
Qed.

(** Whatever stops the walk, the tool does not pass and names the error. *)
Lemma lint_reports_errors root info violations err :
  check root info = (violations, Some err) → main root info = ([("lintlimits: " +:+ Error err)%string], 1).
Proof. unfold main. intros ->. by destruct violations. Qed.
End lint.

(** ** The lines of a file *)

(** A file whose last line ends in a line feed, as formatted Go code does, is
    said to have one line more than it has, so that the limit is one less. *)
Lemma countLines_terminated lines :
  lines ≠ [] → Forall (λ l, x0a ∉ l) lines →
  countLines (concat (map (λ l, l ++ [x0a]) lines)) = Z.of_nat (length lines) + 1.
Proof.
  intros Hne Hl. unfold countLines.
  assert (length (filter (λ b, b = x0a) (concat (map (λ l, l ++ [x0a]) lines))) = length lines) as Hlen.
  { clear Hne. induction Hl as [|l lines Hx Hl IH]; [done|]. cbn [map concat]. rewrite !filter_app, !length_app, IH.
    rewrite filter_cons_True by done. cbn. destruct (filter (λ b, b = x0a) l) as [|b l'] eqn:Ef; [done|].
    assert (b ∈ filter (λ b, b = x0a) l) as [-> ?]%list_elem_of_filter by (rewrite Ef; left). done. }
  destruct (concat _) eqn:Ec; [|by rewrite Hlen]. destruct lines as [|l lines]; [done|]. by destruct l.
Qed.
