(* ===== verification/ClockSpec.v ===== *)
(** * ClockSpec: time moves forward

    Readings of the clock are numbered; whatever a computation does, and
    however it ends, it goes on from a later number.  One predicate and one
    tactic cover every operation of the program. *)

From Stdlib Require Import ZArith.
From stdpp Require Import gmap.
From S2P Require Import Prelude GoLib GoTime Domain Database Effects Pagination OutboxRepo OutboxService.
From S2P Require Import AuthRepo AuthService ClientRepo FriendRepo RoomRepo ClientService RoomService Rpc Handler.

Local Open Scope Z_scope.

Section clock.
Context {E : Env}.

Definition advances {A} (m : M A) : Prop := ∀ w, (w_clock w ≤ w_clock (m w).2)%nat.

Lemma advances_same {A} (m : M A) : (∀ w, w_clock (m w).2 = w_clock w) → advances m.
Proof. intros Hm w. by rewrite Hm. Qed.
Lemma advances_ret {A} (a : A) : advances (ret a).
Proof. by intros w. Qed.
Lemma advances_raise {A} e : advances (@raise A e).
Proof. by intros w. Qed.
Lemma advances_panic {A} s : advances (@panic A s).
Proof. by intros w. Qed.
Lemma advances_Now : advances Now.
Proof. intros w. simpl. lia. Qed.
Lemma advances_NewUUID : advances NewUUID.
Proof. by intros w. Qed.
Lemma advances_ReadRandom : advances ReadRandom.
Proof. by intros w. Qed.
Lemma advances_emit n : advances (emit n).
Proof. by intros w. Qed.

Lemma advances_bind {A B} (m : M A) (k : A → M B) : advances m → (∀ a, advances (k a)) → advances (bind m k).
Proof.
  intros Hm Hk w. specialize (Hm w). unfold bind. destruct (m w) as [[a|e|s] w']; simpl in *; [|done|done].
  specialize (Hk a w'). lia.
Qed.

Lemma advances_attempt {A} (m : M A) : advances m → advances (attempt m).
Proof. intros Hm w. specialize (Hm w). unfold attempt. by destruct (m w) as [[a|e|s] w']. Qed.
Lemma advances_wrap_error {A} p (m : M A) : advances m → advances (wrap_error p m).
Proof. intros Hm w. specialize (Hm w). unfold wrap_error. by destruct (m w) as [[a|e|s] w']. Qed.
Lemma advances_ignore_error {A} (m : M A) : advances m → advances (ignore_error m).
Proof. intros Hm. apply advances_bind; [by apply advances_attempt|intros; apply advances_ret]. Qed.

Lemma advances_for_each {A} (l : list A) body : (∀ x, advances (body x)) → advances (for_each l body).
Proof. intros Hb. induction l; simpl; [apply advances_ret|by apply advances_bind]. Qed.
Lemma advances_map_each {A B} (l : list A) (body : A → M B) : (∀ x, advances (body x)) → advances (map_each l body).
Proof.
  intros Hb. induction l as [|x l IH]; simpl; [apply advances_ret|].
  apply advances_bind; [done|intros]. apply advances_bind; [done|intros]. apply advances_ret.
Qed.

Lemma advances_query {A} c (f : DB → A) : advances (query c f).
Proof. intros w. unfold query. by destruct (fault_at _). Qed.
Lemma advances_exec {A} c (f : DB → error + (A * DB)) : advances (exec c f).
Proof. intros w. unfold exec. destruct (fault_at _); [done|]. by destruct (f _) as [|[]]. Qed.

Lemma advances_WithinTransaction {A} c (fn : Ctx → M A) : advances (fn InTx) → advances (WithinTransaction c fn).
Proof.
  intros Hfn w. destruct c; [|apply Hfn]. simpl. destruct (fault_at _); [done|]. specialize (Hfn (tick_stmt w)).
  destruct (fn InTx (tick_stmt w)) as [[a|e|s] w']; simpl in *; [by destruct (fault_at _)|done|done].
Qed.
Lemma advances_WithinTransactionCapturing {V} c (fn : Ctx → M (V * option error)) :
  advances (fn InTx) → advances (WithinTransactionCapturing c fn).
Proof.
  intros Hfn w. destruct c; [|apply Hfn]. simpl. destruct (fault_at _); [done|]. specialize (Hfn (tick_stmt w)).
  destruct (fn InTx (tick_stmt w)) as [[[v [e|]]|e|s] w']; simpl in *; [done|by destruct (fault_at _)|done|done].
Qed.
End clock.

Create HintDb advances.
#[export] Hint Resolve advances_ret advances_raise advances_panic advances_Now advances_NewUUID advances_ReadRandom
  advances_emit advances_query advances_exec : advances.

Ltac head_of t := match t with ?f _ => head_of f | _ => t end.

(** Walks through a computation: combinators by their lemmas, branches by
    cases, everything else by its definition. *)
Ltac advance :=
  intros; cbv beta zeta; cbn [negb];
  lazymatch goal with
  | |- advances (bind _ _) => apply advances_bind; [advance|advance]
  | |- advances (attempt _) => apply advances_attempt; advance
  | |- advances (wrap_error _ _) => apply advances_wrap_error; advance
  | |- advances (ignore_error _) => apply advances_ignore_error; advance
  | |- advances (for_each _ _) => apply advances_for_each; advance
  | |- advances (map_each _ _) => apply advances_map_each; advance
  | |- advances (WithinTransaction _ _) => apply advances_WithinTransaction; advance
  | |- advances (WithinTransactionCapturing _ _) => apply advances_WithinTransactionCapturing; advance
  | |- advances (match ?x with _ => _ end) => case x; advance
  | |- advances (λ w, ?m w) => change (advances m); advance
  | |- advances ?m => first [solve [auto with advances nocore] | let f := head_of m in progress unfold f; advance]
  end.

Section operations.
Context {E : Env} {App : EventAppender} {L : EventAppenderLaws append_event}.

Lemma advances_append_event c e : advances (append_event c e).
Proof. intros w. apply append_clock. Qed.
#[local] Hint Resolve advances_append_event : advances.

Lemma advances_notify_friends cfg fuel c user payload offset : advances (notify_friends cfg fuel c user payload offset).
Proof. revert offset. induction fuel as [|fuel IH]; intros offset; cbn [notify_friends]; [auto with advances|]. advance; apply IH. Qed.

Lemma advances_update_profile cfg c user username displayName avatarHash bio :
  advances (SvcUpdateProfile cfg c user username displayName avatarHash bio).
Proof.
  unfold SvcUpdateProfile. apply advances_bind; [advance|]. intros now. apply advances_bind; [advance|]. intros _.
  apply advances_bind; [|advance]. intros w. apply advances_notify_friends.
Qed.

#[local] Hint Resolve advances_update_profile : advances.

(** ** The handler *)

Context {C : Codec} (h : Handler) (outbox_ok : ∀ s, h_outboxService h = Some s → notifier_ok s).

Lemma advances_announce s event : notifier_ok s → advances (announce s event).
Proof.
  unfold notifier_ok, announce, notify. destruct (os_notifier s) as [n|]; intros Hn; [|apply advances_ret].
  apply advances_bind; [|intros _].
  - intros w. destruct (NotifyOutboxEvent_ok event w) as (w' & -> & [_ Hc]). exact Hc.
  - intros w. destruct (NotifyKey_ok (oe_DeviceID event) w) as (w' & -> & [_ Hc]). exact Hc.
Qed.

#[local] Hint Resolve advances_announce : advances.

Lemma advances_DispatchOnce s c : notifier_ok s → advances (DispatchOnce s c).
Proof. intros Hs. unfold DispatchOnce. advance. Qed.

Lemma advances_Acknowledge s c event device segment : notifier_ok s → advances (Acknowledge s c event device segment).
Proof.
  intros Hs. unfold Acknowledge. assert (advances (notify s (λ n, n_NotifyKey n device))) as Hn.
  { intros w. destruct (notify_key_ok s device w Hs) as (w' & -> & [_ Hc]). exact Hc. }
  advance.
Qed.
#[local] Hint Resolve advances_DispatchOnce advances_Acknowledge : advances.

Lemma advances_acknowledge c payload state : advances (call_acknowledgeEvent h c payload state).
Proof.
  unfold call_acknowledgeEvent. case_eq (h_outboxService h); [intros s Eh|intros _; advance].
  pose proof (outbox_ok s Eh). advance.
Qed.
#[local] Hint Resolve advances_acknowledge : advances.

Lemma advances_pull c device sent : advances (pullOutboxPackets h c device sent).
Proof.
  unfold pullOutboxPackets. case_eq (h_outboxService h); [intros s Eh|intros _; advance].
  pose proof (outbox_ok s Eh). advance.
Qed.
#[local] Hint Resolve advances_pull : advances.

Lemma advances_handlePacket c packet state : advances (handlePacket h c packet state).
Proof. unfold handlePacket, handle_call, handleClientAPICall, dispatchClientMethod. advance. Qed.
#[local] Hint Resolve advances_handlePacket : advances.

Lemma advances_packets_loop c packets state status : advances (packets_loop h c packets state status).
Proof.
  revert state status. induction packets as [|packet packets IH]; intros state status; cbn [packets_loop]; advance; apply IH.
Qed.
#[local] Hint Resolve advances_packets_loop : advances.

Lemma advances_handleBatch c raw state sent : advances (handleBatch h c raw state sent).
Proof. advance. Qed.

Lemma advances_recordUsage c state requests bytesIn bytesOut : advances (recordUsage h c state requests bytesIn bytesOut).
Proof. advance. Qed.

Lemma advances_recordUserUsage c user requests bytesIn bytesOut : advances (recordUserUsage h c user requests bytesIn bytesOut).
Proof. advance. Qed.
End operations.
