(* ===== verification/UsageSpec.v ===== *)
(** * UsageSpec: the usage counters keep a ledger

    The table of usage counters is a sum over six calendar buckets.  The
    specification is a ledger, the list of all the usage that was ever
    recorded; the answer to [getMyUsageStats] is what summing the ledger
    over the current buckets gives. *)

From Stdlib Require Import ZArith.
From S2P Require Import Prelude GoLib GoTime Domain Database Effects AuthRepo ClientRepo ClientService.

Local Open Scope Z_scope.

(** ** The specification *)

Record usage_entry : Type := mkUsageEntry {
  ue_user : Bytes; ue_time : Time; ue_requests : Z; ue_bytes_in : Z; ue_bytes_out : Z }.

Definition no_usage : UsageStat := mkUsageStat 0 0 0.

Definition add_usage (a b : UsageStat) : UsageStat :=
  mkUsageStat (stat_Requests a + stat_Requests b) (stat_BytesIn a + stat_BytesIn b) (stat_BytesOut a + stat_BytesOut b).

Definition usage_of (e : usage_entry) : UsageStat := mkUsageStat (ue_requests e) (ue_bytes_in e) (ue_bytes_out e).

(** What a ledger holds for a user in the bucket that starts at an instant. *)
Fixpoint ledger_sum (ledger : list usage_entry) (user : Bytes) (kind : string) (bucket : Time) : UsageStat :=
  match ledger with
  | [] => no_usage
  | e :: ledger =>
      if decide (ue_user e = user ∧ date_trunc kind (ue_time e) = bucket)
      then add_usage (ledger_sum ledger user kind bucket) (usage_of e)
      else ledger_sum ledger user kind bucket
  end.

Definition ledger_stats (ledger : list usage_entry) (user : Bytes) (now : Time) : UsageStats :=
  let sum kind := ledger_sum ledger user kind (date_trunc kind now) in
  mkUsageStats (sum "minute"%string) (sum "hour"%string) (sum "day"%string) (sum "week"%string)
    (sum "month"%string) (sum "allTime"%string).

Definition stats_map (s : UsageStats) : GoMap :=
  [("minute", usageStatToMap (stats_Minute s)); ("hour", usageStatToMap (stats_Hour s));
   ("day", usageStatToMap (stats_Day s)); ("week", usageStatToMap (stats_Week s));
   ("month", usageStatToMap (stats_Month s)); ("allTime", usageStatToMap (stats_AllTime s))]%string.

Lemma add_no_usage a : add_usage a no_usage = a.
Proof. destruct a. unfold add_usage. simpl. f_equal; lia. Qed.
Lemma no_usage_add a : add_usage no_usage a = a.
Proof. by destruct a. Qed.

(** ** Counters *)

Definition stat_of (u : UsageRow) : UsageStat := mkUsageStat (u_requests u) (u_bytes_in u) (u_bytes_out u).

(** The counter of a user, a kind and a bucket; zero when there is none. *)
Definition counter (user : Bytes) (kind : string) (bucket : Time) (t : list UsageRow) : UsageStat :=
  default no_usage (stat_of <$>
    sql_row (λ u, u_user_public_key u = user ∧ u_kind u = kind ∧ u_bucket_start u = bucket) t).

Lemma usage_stat_counter user now kind db :
  usage_stat user now kind db = counter user kind (date_trunc kind now) (user_usage_stats (identity db)).
Proof. unfold usage_stat, counter. by destruct (sql_row _ _). Qed.

Lemma counter_cons user kind bucket u t :
  counter user kind bucket (u :: t) =
  if decide (u_user_public_key u = user ∧ u_kind u = kind ∧ u_bucket_start u = bucket)
  then stat_of u else counter user kind bucket t.
Proof. unfold counter, sql_row. rewrite filter_cons. by case_decide. Qed.

Lemma counter_app_one user kind bucket r t :
  (∀ u, u ∈ t → ¬ same_usage r u) →
  counter user kind bucket (t ++ [r]) =
  if decide (u_user_public_key r = user ∧ u_kind r = kind ∧ u_bucket_start r = bucket)
  then add_usage (counter user kind bucket t) (stat_of r) else counter user kind bucket t.
Proof.
  induction t as [|u t IH]; intros Hn; simpl.
  - rewrite counter_cons. unfold counter. simpl. by rewrite no_usage_add.
  - rewrite !counter_cons.
    destruct (decide (u_user_public_key u = user ∧ u_kind u = kind ∧ u_bucket_start u = bucket)) as [(<- & <- & <-)|Hu].
    + case_decide as Hr; [|done]. destruct (Hn u); [apply elem_of_cons; by left|exact Hr].
    + apply IH. intros u' Hu'. apply Hn, elem_of_cons. by right.
Qed.

Lemma counter_update user kind bucket r t :
  Exists (same_usage r) t →
  counter user kind bucket (sql_update (same_usage r) (λ old, merge_usage old r) t) =
  if decide (u_user_public_key r = user ∧ u_kind r = kind ∧ u_bucket_start r = bucket)
  then add_usage (counter user kind bucket t) (stat_of r) else counter user kind bucket t.
Proof.
  intros He. case_decide as Hr.
  - destruct Hr as (<- & <- & <-). induction He as [u t Hs|u t He IH]; unfold sql_update; cbn [fmap list_fmap];
      rewrite !counter_cons.
    + rewrite (decide_True (P := same_usage r u)) by done. destruct Hs as (E1 & E2 & E3).
      by rewrite !decide_True by (simpl; by split_and!).
    + destruct (decide (same_usage r u)) as [Hs|Hs].
      * destruct Hs as (E1 & E2 & E3). by rewrite !decide_True by (simpl; by split_and!).
      * rewrite !decide_False by (intros (? & ? & ?); apply Hs; by split_and!). exact IH.
  - clear He. induction t as [|u t IH]; [done|]. unfold sql_update. cbn [fmap list_fmap]. rewrite !counter_cons.
    destruct (decide (same_usage r u)) as [(E1 & E2 & E3)|Hs]; [|by rewrite <- IH].
    rewrite !decide_False by (simpl; intros (? & ? & ?); apply Hr; split_and!; congruence). exact IH.
Qed.

(** Adding a row to the counters adds to its own counter. *)
Lemma counter_upsert user kind bucket r t :
  counter user kind bucket (sql_upsert same_usage merge_usage r t) =
  if decide (u_user_public_key r = user ∧ u_kind r = kind ∧ u_bucket_start r = bucket)
  then add_usage (counter user kind bucket t) (stat_of r) else counter user kind bucket t.
Proof.
  unfold sql_upsert. case_decide as He; [by apply counter_update|]. apply counter_app_one.
  intros u Hu Hs. apply He, Exists_exists. eauto.
Qed.

(** The rows that one record adds, a kind each. *)
Lemma counter_record e user kind bucket kinds t :
  NoDup kinds →
  let row k := mkUsageRow (ue_user e) k (date_trunc k (ue_time e)) (ue_requests e) (ue_bytes_in e) (ue_bytes_out e)
                 (ue_time e) in
  counter user kind bucket (foldl (λ t k, sql_upsert same_usage merge_usage (row k) t) t kinds) =
  if decide (kind ∈ kinds ∧ ue_user e = user ∧ date_trunc kind (ue_time e) = bucket)
  then add_usage (counter user kind bucket t) (usage_of e) else counter user kind bucket t.
Proof.
  intros Hnd row. revert t. induction Hnd as [|k kinds Hk Hnd IH]; intros t; cbn [foldl].
  - rewrite decide_False; [done|]. by intros [?%not_elem_of_nil _].
  - rewrite IH, counter_upsert. cbn. clear IH.
    destruct (decide (k = kind)) as [->|Hne]; repeat destruct (decide _); rewrite ?elem_of_cons in *;
      intuition congruence.
Qed.

(** ** The refinement *)

(** The table holds the sums of the ledger. *)
Definition keeps_ledger (ledger : list usage_entry) (db : DB) : Prop :=
  ∀ user kind bucket, kind ∈ usage_kinds →
    counter user kind bucket (user_usage_stats (identity db)) = ledger_sum ledger user kind bucket.

Lemma usage_kinds_NoDup : NoDup usage_kinds.
Proof. by apply (bool_decide_unpack _). Qed.

Lemma stmt_record_usage_ledger user now requests bytesIn bytesOut ledger db db' :
  stmt_record_usage user now requests bytesIn bytesOut db = inr db' → keeps_ledger ledger db →
  keeps_ledger (mkUsageEntry user now requests bytesIn bytesOut :: ledger) db'.
Proof.
  unfold stmt_record_usage. case_decide; [done|]. case_decide; [done|]. case_decide; [|done].
  intros Heq%(inj inr) Hl key kind bucket Hk. rewrite <- Heq. clear Heq. cbn [user_usage_stats identity set_user_usage_stats ledger_sum].
  set (e := mkUsageEntry user now requests bytesIn bytesOut).
  pose proof (counter_record e key kind bucket usage_kinds (user_usage_stats (identity db)) usage_kinds_NoDup) as Hc.
  rewrite (Hl _ _ _ Hk) in Hc. etransitivity; [exact Hc|]. clear Hc. fold e.
  destruct (decide (ue_user e = key ∧ date_trunc kind (ue_time e) = bucket)) as [He|He].
  - rewrite decide_True; [reflexivity|exact (conj Hk He)].
  - rewrite decide_False; [reflexivity|intros [_ Hx]; exact (He Hx)].
Qed.

Lemma zero_entry user now ledger key kind bucket :
  ledger_sum (mkUsageEntry user now 0 0 0 :: ledger) key kind bucket = ledger_sum ledger key kind bucket.
Proof. simpl. case_decide; [apply add_no_usage|done]. Qed.

Section ledger.
Context {E : Env}.

(** What a call of [RecordUserUsage] adds to the ledger. *)
Definition recorded (user : Bytes) (requests bytesIn bytesOut : Z) (w : World) (r : outcome unit) : list usage_entry :=
  match r with
  | Ok _ => if decide (length user = PublicKeySize)
            then [mkUsageEntry user (clock_at (w_clock w)) requests bytesIn bytesOut] else []
  | _ => []
  end.

(** The program records usage, whether it works or not, and does other
    things that leave the counters alone. *)
Inductive usage_step : list usage_entry * World → list usage_entry * World → Prop :=
  | step_record ledger c user requests bytesIn bytesOut w r w' :
      RecordUserUsage c user requests bytesIn bytesOut w = (r, w') →
      usage_step (ledger, w) (recorded user requests bytesIn bytesOut w r ++ ledger, w')
  | step_usage_other ledger w w' :
      user_usage_stats (identity (w_db w')) = user_usage_stats (identity (w_db w)) →
      usage_step (ledger, w) (ledger, w').

Lemma RecordUserUsage_ledger ledger c user requests bytesIn bytesOut w :
  keeps_ledger ledger (w_db w) →
  let r := RecordUserUsage c user requests bytesIn bytesOut w in
  keeps_ledger (recorded user requests bytesIn bytesOut w r.1 ++ ledger) (w_db r.2).
Proof.
  intros Hl. cbv zeta. unfold RecordUserUsage, recorded. case_decide as Hlen.
  { cbn. by rewrite decide_False. }
  rewrite decide_True by (by destruct (decide (length user = PublicKeySize))).
  unfold RepoRecordUserUsage. cbn [bind Now].
  case_decide as Hz.
  - cbn. destruct Hz as (-> & -> & ->). intros key kind bucket Hk. rewrite zero_entry. by apply Hl.
  - unfold wrap_error, exec_, exec. cbn. destruct (fault_at _); [done|].
    destruct (stmt_record_usage _ _ _ _ _ _) as [e|db'] eqn:Es; cbn; [done|]. by eapply stmt_record_usage_ledger.
Qed.

Lemma usage_step_ledger s s' : usage_step s s' → keeps_ledger s.1 (w_db s.2) → keeps_ledger s'.1 (w_db s'.2).
Proof.
  intros [ledger c user requests bytesIn bytesOut w r w' Er|ledger w w' Ew] Hl; simpl in *.
  - pose proof (RecordUserUsage_ledger ledger c user requests bytesIn bytesOut w Hl) as H. by rewrite Er in H.
  - intros user kind bucket Hk. rewrite Ew. by apply Hl.
Qed.

Lemma usage_run_ledger s s' : rtc usage_step s s' → keeps_ledger s.1 (w_db s.2) → keeps_ledger s'.1 (w_db s'.2).
Proof. induction 1; eauto using usage_step_ledger. Qed.

(** The step of one call. *)
Lemma usage_record ledger c user requests bytesIn bytesOut w :
  usage_step (ledger, w) (recorded user requests bytesIn bytesOut w (RecordUserUsage c user requests bytesIn bytesOut w).1
                            ++ ledger, (RecordUserUsage c user requests bytesIn bytesOut w).2).
Proof. apply (step_record ledger c), surjective_pairing. Qed.

(** C30: The usage counters refine a ledger.  Start with no counters and let
    the program record usage, successfully or not; then whenever a user asks
    for their statistics and the query succeeds, the answer is the sum, for
    each of the six calendar periods that contain the present, of exactly
    the usage that was recorded for that user in that period. *)
Theorem usage_counters_keep_ledger w0 ledger w c user r w' :
  user_usage_stats (identity (w_db w0)) = [] → rtc usage_step ([], w0) (ledger, w) →
  GetMyUsageStats c user w = (Ok r, w') →
  r = stats_map (ledger_stats ledger user (clock_at (w_clock w))) ∧ w_db w' = w_db w.
Proof.
  intros E0 Hrun Hget.
  assert (keeps_ledger ledger (w_db w)) as Hl.
  { apply (usage_run_ledger _ _ Hrun). intros key kind bucket _. cbn. by rewrite E0. }
  unfold GetMyUsageStats in Hget. case_decide; [done|].
  apply bind_ok in Hget as (now & w1 & [= <- <-] & Hget). apply bind_ok in Hget as (stats & w2 & Hq & [= <- <-]).
  unfold GetUserUsageStats, wrap_error in Hq. unfold query in Hq. cbn in Hq. destruct (fault_at _); [done|].
  injection Hq as <- <-. split; [|done]. unfold stats_map. cbn.
  rewrite !usage_stat_counter.
  assert (∀ kind, kind ∈ usage_kinds → counter user kind (date_trunc kind (clock_at (w_clock w)))
    (user_usage_stats (identity (w_db w))) = ledger_sum ledger user kind (date_trunc kind (clock_at (w_clock w)))) as Hk.
  { intros kind. apply Hl. }
  rewrite (Hk "minute"%string), (Hk "hour"%string), (Hk "day"%string), (Hk "week"%string), (Hk "month"%string),
    (Hk "allTime"%string); [reflexivity|by apply (bool_decide_unpack _)..].
Qed.
End ledger.
