(* ===== verification/KeyPackageSpec.v ===== *)
(** * KeyPackageSpec: key packages are replaced per device and offered one per device

    What [uploadKeyPackages] leaves behind and what [fetchKeyPackages]
    chooses: the query's [DISTINCT ON] over its [ORDER BY] is the best
    package of every device. *)

From Stdlib Require Import ZArith.
From S2P Require Import Prelude GoLib GoTime Domain Database Effects AuthRepo AuthService ClientRepo ClientService.

Local Open Scope Z_scope.

(** ** The order of the query *)

#[export] Instance kp_le_total : Total kp_le.
Proof.
  intros a b. unfold kp_le.
  destruct (decide (kp_UserPublicKey a = kp_UserPublicKey b)) as [->|Hu].
  2: { rewrite !decide_False by congruence. apply bytes_leb_total. }
  destruct (decide (kp_UserPublicKey b = kp_UserPublicKey b)) as [_|]; [|done].
  destruct (decide (to_bytes (kp_DeviceID a) = to_bytes (kp_DeviceID b))) as [->|Hd].
  2: { rewrite !decide_False by congruence. apply bytes_leb_total. }
  destruct (decide (to_bytes (kp_DeviceID b) = to_bytes (kp_DeviceID b))) as [_|]; [|done].
  destruct (kp_IsLastResort a), (kp_IsLastResort b); auto; rewrite !bool_decide_eq_true; lia.
Qed.

(** A lexicographic step over byte strings. *)
Lemma lex_trans (x y z : Bytes) (k1 k2 k3 : bool) :
  (k1 = true → k2 = true → k3 = true) →
  (if decide (x = y) then k1 else bytes_leb x y) = true → (if decide (y = z) then k2 else bytes_leb y z) = true →
  (if decide (x = z) then k3 else bytes_leb x z) = true.
Proof.
  intros Hk. destruct (decide (x = z)) as [E1|E1], (decide (x = y)) as [E2|E2], (decide (y = z)) as [E3|E3];
    intros H1 H2; auto; try congruence.
  - subst z. destruct E2. by apply bytes_leb_antisym.
  - by eapply bytes_leb_trans.
Qed.

#[export] Instance kp_le_trans : Transitive kp_le.
Proof.
  intros a b c. unfold kp_le. apply lex_trans, lex_trans.
  destruct (kp_IsLastResort a), (kp_IsLastResort b), (kp_IsLastResort c); try done;
    rewrite !bool_decide_eq_true; lia.
Qed.

(** Packages of one device compare by preference: an ordinary one before
    one of last resort, then the newest. *)
Definition preferable (a b : KeyPackageRecord) : Prop :=
  (kp_IsLastResort a = true → kp_IsLastResort b = true)
  ∧ (kp_IsLastResort a = kp_IsLastResort b → kp_CreatedAt b ≤ kp_CreatedAt a).

Definition kp_device (k : KeyPackageRecord) : Bytes * string := (kp_UserPublicKey k, kp_DeviceID k).

Lemma kp_le_preferable a b : kp_device a = kp_device b → kp_le a b → preferable a b.
Proof.
  intros [= E1 E2]. unfold kp_le, preferable. rewrite E1, E2, !decide_True by done.
  destruct (kp_IsLastResort a), (kp_IsLastResort b); rewrite ?bool_decide_eq_true; done.
Qed.

(** ** DISTINCT ON *)

Section distinct_on.
Context {R K : Type} `{!EqDecision K} (key : R → K).

Lemma distinct_on_sub seen l r : r ∈ distinct_on key seen l → r ∈ l ∧ key r ∉ seen.
Proof.
  revert seen. induction l as [|x l IH]; intros seen; simpl; [by intros ?%not_elem_of_nil|].
  destruct (decide (key x ∈ seen)) as [Hx|Hx].
  - intros [Hr Hs]%IH. split; [by apply elem_of_cons; right|done].
  - intros [->|[Hr Hs]%IH]%elem_of_cons; [split; [by apply elem_of_cons; left|done]|].
    split; [by apply elem_of_cons; right|]. intros Hin. apply Hs, elem_of_cons. by right.
Qed.

Lemma distinct_on_NoDup seen l : NoDup (key <$> distinct_on key seen l).
Proof.
  revert seen. induction l as [|x l IH]; intros seen; simpl; [constructor|].
  destruct (decide (key x ∈ seen)) as [Hx|Hx]; [apply IH|]. cbn. constructor; [|apply IH].
  intros (r & E & Hr)%list_elem_of_fmap. apply distinct_on_sub in Hr as [_ Hn].
  apply Hn, elem_of_cons. by left.
Qed.

(** In a sorted list every key is represented by its least row. *)
Lemma distinct_on_least (le : R → R → Prop) seen l r :
  StronglySorted le l → r ∈ l → key r ∉ seen →
  ∃ r', r' ∈ distinct_on key seen l ∧ key r' = key r ∧ (r' = r ∨ le r' r).
Proof.
  intros Hs. revert seen. induction Hs as [|x l Hs IH Hx]; intros seen; [by intros ?%not_elem_of_nil|].
  rewrite Forall_forall in Hx. simpl. intros Hr Hn. destruct (decide (key x ∈ seen)) as [Hin|Hin].
  - apply elem_of_cons in Hr as [->|Hr]; [done|]. by apply IH.
  - destruct (decide (key r = key x)) as [Hk|Hk].
    + exists x. split_and!; [by apply elem_of_cons; left|done|].
      apply elem_of_cons in Hr as [->|Hr]; [by left|right; by apply Hx].
    + apply elem_of_cons in Hr as [->|Hr]; [done|].
      destruct (IH (key x :: seen) Hr) as (r' & Hr' & ? & ?).
      { by intros [?|?]%elem_of_cons. }
      exists r'. split_and!; [by apply elem_of_cons; right|done|done].
Qed.
End distinct_on.

(** ** The choice of the query *)

(** The packages a request may be answered with. *)
Definition offered (keys : list Bytes) (now : Time) (k : KeyPackageRecord) (db : DB) : Prop :=
  k ∈ key_packages (identity db) ∧ kp_UserPublicKey k ∈ keys ∧ now < kp_ExpiresAt k.

(** One package of every device that has any, none better. *)
Definition best_of_each (keys : list Bytes) (now : Time) (db : DB) (ks : list KeyPackageRecord) : Prop :=
  NoDup (kp_device <$> ks) ∧ (∀ k, k ∈ ks → offered keys now k db)
  ∧ ∀ k, offered keys now k db → ∃ k', k' ∈ ks ∧ kp_device k' = kp_device k ∧ preferable k' k.

Lemma select_key_packages_best keys now db : best_of_each keys now db (select_key_packages keys now db).
Proof.
  unfold select_key_packages. fold kp_device.
  set (rows := sql_select _ _).
  assert (∀ k, k ∈ order_by kp_le rows ↔ offered keys now k db) as Hrows.
  { intros k. rewrite elem_of_order_by. unfold rows, sql_select, offered. rewrite list_elem_of_filter. tauto. }
  split_and!.
  - apply distinct_on_NoDup.
  - intros k [Hk _]%distinct_on_sub. by apply Hrows.
  - intros k Hk%Hrows.
    destruct (distinct_on_least kp_device kp_le [] (order_by kp_le rows) k) as (k' & Hk' & Ed & Hle);
      [apply (StronglySorted_merge_sort kp_le)|done|by intros ?%not_elem_of_nil|].
    exists k'. split_and!; [done|done|]. destruct Hle as [->|Hle]; [|by apply kp_le_preferable].
    by split.
Qed.

(** ** Upload *)

(** The package that an item of an upload asks for. *)
Definition uploaded (user : Bytes) (device : string) (item : GoMap) (k : KeyPackageRecord) : Prop :=
  kp_device k = (user, device)
  ∧ get_bytes item "keyPackageBytes" = Some (kp_KeyPackageBytes k)
  ∧ parseTimeValue (default ANil (map_get item "expiresAt")) = inr (kp_ExpiresAt k)
  ∧ (kp_IsLastResort k = true ↔ map_get item "isLastResort" = Some (ABool true)).

Section upload.
Context {E : Env} {App : EventAppender}.

#[local] Instance session_lookup : SessionLookup := LookupSession.

Lemma GetSession_stored c id db0 :
  hoare (λ db, db = db0) (GetSession c id)
    (λ s db, db = db0 ∧ s ∈ auth_sessions (identity db0) ∧ ses_SessionID s = id) (λ _, True).
Proof.
  intros w Hw. unfold GetSession, bind, wrap_error, query. destruct (fault_at _); [done|]. simpl.
  destruct (sql_row _ _) as [s|] eqn:Es; simpl; [|done]. apply sql_row_Some in Es. by rewrite Hw in Es.
Qed.

Lemma key_package_of_uploaded P session user now item :
  hoare P (key_package_of session user now item)
    (λ k db, P db ∧ uploaded user (ses_DeviceID session) item k) (λ _, True).
Proof.
  intros w Hw. unfold key_package_of, bind.
  destruct (parseTimeValue _) as [e|expiresAt] eqn:Ep; [done|]. cbn.
  destruct (get_bytes item _) as [bytesValue|] eqn:Eb; [|done]. cbn. split; [done|].
  unfold uploaded. cbn. split_and!; [done|done|done|].
  destruct (map_get item "isLastResort") as [[]|]; try done; by destruct b.
Qed.

Lemma insert_key_packages_spec c base ks :
  hoare (λ db, key_packages (identity db) = base) (InsertKeyPackages c ks)
    (λ n db, key_packages (identity db) = base ++ ks) (λ _, True).
Proof.
  unfold InsertKeyPackages. eapply hoare_bind; [|intros n; apply hoare_ret; intros db H; exact H].
  revert base. induction ks as [|k ks IH]; intros base; cbn [for_each].
  - apply hoare_ret. intros db Hdb. by rewrite app_nil_r.
  - eapply (hoare_bind _ _ _ (λ _ db, key_packages (identity db) = base ++ [k])).
    + apply hoare_exec_; [done|]. unfold stmt_insert_key_package, on_table. intros db db' Hdb.
      destruct (insert_checked _ _ _ _ _) as [e|t'] eqn:Ei; [done|]. intros [= <-].
      apply insert_checked_Some in Ei as (-> & _ & _). cbn. by rewrite Hdb.
    + intros []. specialize (IH (base ++ [k])). by rewrite <- app_assoc in IH.
Qed.

Definition other_devices (device : Bytes * string) (t : list KeyPackageRecord) : list KeyPackageRecord :=
  filter (λ k, kp_device k ≠ device) t.

Lemma UploadKeyPackages_spec c sessionID user packages db0 :
  packages ≠ [] →
  hoare (λ db, db = db0) (UploadKeyPackages c sessionID user packages)
    (λ _ db, ∃ s new, s ∈ auth_sessions (identity db0) ∧ ses_SessionID s = sessionID
       ∧ Forall2 (uploaded user (ses_DeviceID s)) packages new
       ∧ key_packages (identity db) = other_devices (user, ses_DeviceID s) (key_packages (identity db0)) ++ new)
    (λ _, True).
Proof.
  intros Hne. unfold UploadKeyPackages. eapply hoare_bind; [apply (GetSession_stored c sessionID db0)|].
  intros s. apply (hoare_skip _ Now); [by intros w Hw|done|]. intros now. set (P db := _ ∧ _ ∧ _).
  eapply hoare_bind; [apply (hoare_map_each P (uploaded user (ses_DeviceID s))); [|done]|].
  { intros item. apply key_package_of_uploaded. }
  intros records. destruct records as [|k ks].
  { intros w [_ Hu]. inversion Hu. congruence. }
  set (Q (db : DB) := s ∈ auth_sessions (identity db0) ∧ ses_SessionID s = sessionID
               ∧ Forall2 (uploaded user (ses_DeviceID s)) packages (k :: ks)).
  eapply (hoare_bind _ _ _ (λ _ db, Q db
            ∧ key_packages (identity db) = other_devices (user, ses_DeviceID s) (key_packages (identity db0)))).
  - apply hoare_exec_; [done|]. intros db db' [(-> & Hs & Hid) Hu] [= <-]. split; [done|]. cbn.
    unfold sql_delete, other_devices. apply filter_ext_in. intros x _. unfold kp_device. split; [intros H [= ? ?]; by apply H|].
    intros H [E1 E2]. apply H. congruence.
  - intros [] w [HQ Hw]. unfold bind.
    pose proof (insert_key_packages_spec c _ (k :: ks) w Hw) as Hi.
    destruct (InsertKeyPackages c (k :: ks) w) as [[n|e|m] w']; [|done|done]. cbn in *.
    destruct HQ as (? & ? & ?). eauto 10.
Qed.
(** What an upload leaves behind.  A successful upload of at least one
    package leaves the device of the caller's session with exactly the
    uploaded packages, in order, each with the bytes, the expiry and the
    last-resort mark that were asked for, and no other device of anybody
    loses or gains a package. *)
Lemma upload_replaces_packages c sessionID user packages w r w' :
  packages ≠ [] → UploadKeyPackages c sessionID user packages w = (Ok r, w') →
  ∃ s new, s ∈ auth_sessions (identity (w_db w)) ∧ ses_SessionID s = sessionID
    ∧ Forall2 (uploaded user (ses_DeviceID s)) packages new
    ∧ filter (λ k, kp_device k = (user, ses_DeviceID s)) (key_packages (identity (w_db w'))) = new
    ∧ other_devices (user, ses_DeviceID s) (key_packages (identity (w_db w')))
      = other_devices (user, ses_DeviceID s) (key_packages (identity (w_db w))).
Proof.
  intros Hne Hr. pose proof (UploadKeyPackages_spec c sessionID user packages (w_db w) Hne w eq_refl) as Hu.
  rewrite Hr in Hu. destruct Hu as (s & new & Hs & Hid & Hnew & Ht). exists s, new.
  split_and!; [done|done|done| |].
  - rewrite Ht, filter_app.
    assert (filter (λ k, kp_device k = (user, ses_DeviceID s))
              (other_devices (user, ses_DeviceID s) (key_packages (identity (w_db w)))) = []) as ->.
    { apply filter_nil_iff. unfold other_devices. by intros k [Hk _]%list_elem_of_filter. }
    clear -Hnew. induction Hnew as [|item k items ks Hk _ IH]; [done|]. simpl in *.
    rewrite filter_cons_True by apply Hk. by f_equal.
  - rewrite Ht. unfold other_devices. rewrite filter_app.
    assert (filter (λ k, kp_device k ≠ (user, ses_DeviceID s)) new = []) as ->.
    { clear -Hnew. induction Hnew as [|item k items ks Hk _ IH]; [done|]. rewrite filter_cons_False; [done|].
      intros Hn. apply Hn, Hk. }
    rewrite app_nil_r, list_filter_filter. apply filter_ext_in. naive_solver.
Qed.

(** C31: What a fetch offers.  For every device of the requested users that
    has a package which has not expired the answer holds exactly one of
    them, and none of the others is preferable: an ordinary package comes
    before one of last resort and a newer one before an older one.  Nothing
    is consumed: the tables are only read. *)
Theorem fetch_offers_the_best c keys w r w' :
  SvcFetchKeyPackages c keys w = (Ok r, w') →
  w_db w' = w_db w ∧
  ∃ ks, best_of_each keys (clock_at (w_clock w)) (w_db w) ks
    ∧ r = [("items"%string, AList ((λ k, AMap [("userPublicKey", ABytes (kp_UserPublicKey k));
             ("deviceId", AString (kp_DeviceID k)); ("keyPackageBytes", ABytes (kp_KeyPackageBytes k))]%string) <$> ks))].
Proof.
  unfold SvcFetchKeyPackages. intros Hr. apply bind_ok in Hr as (now & w1 & [= <- <-] & Hr).
  apply bind_ok in Hr as (ks & w2 & Hq & [= <- <-]).
  unfold RepoFetchKeyPackages, query in Hq. destruct (fault_at _); [done|]. injection Hq as <- <-.
  split; [done|]. eexists. split; [apply select_key_packages_best|done].
Qed.
End upload.
