(* ===== verification/FriendSpec.v ===== *)
(** * FriendSpec: what the friend operations promise

    Friendship is symmetric in every reachable state; friend requests move
    from pending to a final state once, at the hands of one of the parties;
    the notification loop of [UpdateProfile] ends. *)

From Stdlib Require Import ZArith.
From S2P Require Import Prelude GoLib GoTime Domain Database Effects Pagination AuthRepo AuthService.
From S2P Require Import AuthSpec ClientRepo FriendRepo RoomRepo ClientService.

Local Open Scope Z_scope.

(** ** Invariants over the friend tables *)

Definition listed (a b : Bytes) (db : DB) : Prop := Exists (lists_friend a b) (friends (social db)).

(** Friendship is mutual. *)
Definition friends_mutual (db : DB) : Prop := ∀ a b, listed a b db → listed b a db.

Definition same_social (db db' : DB) : Prop := social db' = social db.

Section spec.
Context {E : Env} {App : EventAppender} {L : EventAppenderLaws append_event} {Lk : SessionLookup}
  (cfg : ClientConfig).

(** Events never touch what depends on the friend tables alone. *)
Definition social_only (I : DB → Prop) : Prop := ∀ db db', same_social db db' → I db → I db'.

Lemma appendEvent_preserves I c user ty p :
  (∀ db db', other_tables db db' → I db → I db') → preserves I (appendEvent cfg c user ty p).
Proof.
  intros HI. unfold appendEvent. case_decide; [apply preserves_ret|].
  apply preserves_bind; [apply preserves_Now|intros now].
  apply preserves_bind; [apply preserves_NewUUID|intros id]. by apply preserves_append.
Qed.

Lemma appendEvents_preserves I c users ty p :
  (∀ db db', other_tables db db' → I db → I db') → preserves I (appendEvents cfg c users ty p).
Proof.
  intros HI. apply preserves_for_each. intros user _. apply preserves_ignore_error.
  by apply appendEvent_preserves.
Qed.

Lemma social_frame I : social_only I → ∀ db db', other_tables db db' → I db → I db'.
Proof. intros HI db db' (_ & Es & _). by apply HI. Qed.

Lemma mutual_social_only : social_only friends_mutual.
Proof. intros db db' Es H. unfold friends_mutual, listed. rewrite Es. exact H. Qed.

Lemma mutual_update_requests t db : friends_mutual db → friends_mutual (set_friend_requests t db).
Proof. done. Qed.

Lemma listed_insert f db db' :
  stmt_insert_friend f db = inr db' →
  ∀ a b, listed a b db' ↔ listed a b db ∨ lists_friend a b f.
Proof.
  unfold stmt_insert_friend. destruct (violated _); [done|]. intros [= <-] a b. unfold listed. simpl.
  unfold sql_insert_ignore. case_decide as Hex.
  - split; [by left|]. intros [?|[<- <-]]; [done|].
    apply Exists_exists in Hex as (x & Hx & E1 & E2). apply Exists_exists. by exists x.
  - rewrite Exists_app, Exists_cons, Exists_nil. tauto.
Qed.

(** Both rows of a pair, or neither. *)
Lemma CreateFriendPair_mutual c f g :
  fr_UserPublicKey g = fr_FriendPublicKey f → fr_FriendPublicKey g = fr_UserPublicKey f →
  hoare friends_mutual (CreateFriendPair c f g) (λ _ db, friends_mutual db ∧ listed (fr_UserPublicKey f) (fr_FriendPublicKey f) db) (λ _, True).
Proof.
  intros E1 E2. unfold CreateFriendPair, for_each.
  apply (hoare_bind _ _ _ (λ _ db1, ∃ db, friends_mutual db ∧ stmt_insert_friend f db = inr db1)).
  { apply hoare_exec_; [done|]. intros db db' Hm Heq. by exists db. }
  intros u. apply (hoare_bind _ _ _ (λ _ db, friends_mutual db ∧ listed (fr_UserPublicKey f) (fr_FriendPublicKey f) db)); [|intros v; by apply hoare_ret].
  apply hoare_exec_; [done|]. intros db1 db2 (db & Hm & Hf) Hg.
  pose proof (listed_insert _ _ _ Hf) as Lf. pose proof (listed_insert _ _ _ Hg) as Lg.
  split.
  - intros a b. rewrite !Lg, !Lf. unfold lists_friend. rewrite E1, E2.
    intros [[Hab|[<- <-]]|[<- <-]]; [left; left; by apply Hm|by right|left; by right].
  - rewrite Lg, Lf. left. by right.
Qed.

Lemma GetFriendRequest_preserves I c id : preserves I (GetFriendRequest c id).
Proof. unfold GetFriendRequest. solve_preserves. Qed.

Lemma UpdateFriendRequestState_preserves (I : DB → Prop) c id actor from target at_ :
  (∀ t db, I db → I (set_friend_requests t db)) →
  preserves I (UpdateFriendRequestState c id actor from target at_).
Proof.
  intros HI. unfold UpdateFriendRequestState.
  apply preserves_bind; [apply GetFriendRequest_preserves|intros r].
  case_decide; [apply preserves_raise|]. destruct (negb _); [apply preserves_raise|].
  apply preserves_bind; [|auto with preserves].
  apply preserves_exec. unfold stmt_set_friend_request_state. intros db row db' Hdb.
  case_decide; [|done]. intros [= _ <-]. by apply HI.
Qed.

(** One operation of the program on the friend tables. *)
Inductive friend_op : Type :=
  | OpSend (user receiver : Bytes)
  | OpAccept (user : Bytes) (requestID : UUID)
  | OpDecline (user : Bytes) (requestID : UUID)
  | OpCancel (user : Bytes) (requestID : UUID)
  | OpRemove (user friend : Bytes)
  | OpDeleteAccount (user : Bytes).

Definition run_friend_op (op : friend_op) : M GoMap :=
  match op with
  | OpSend user receiver => SendFriendRequest cfg Background user receiver
  | OpAccept user id => AcceptFriendRequest cfg Background user id
  | OpDecline user id => DeclineFriendRequest cfg Background user id
  | OpCancel user id => CancelFriendRequest cfg Background user id
  | OpRemove user friend => SvcRemoveFriend cfg Background user friend
  | OpDeleteAccount user => SvcDeleteAccount Background user
  end.

Inductive friend_step : World → World → Prop :=
  | friend_step_op op w : friend_step w (run_friend_op op w).2
  | friend_step_other w w' : social (w_db w') = social (w_db w) → friend_step w w'.

Lemma accept_mutual user id fid now :
  hoare friends_mutual (accept_friend_tx cfg user id fid now InTx) (λ _, friends_mutual) (λ _, True).
Proof.
  unfold accept_friend_tx. apply hoare_skip; [|done|].
  { apply UpdateFriendRequestState_preserves, mutual_update_requests. }
  intros r. apply hoare_skip; [apply preserves_NewUUID|done|intros oid].
  eapply hoare_bind; [by apply CreateFriendPair_mutual|]. intros u. simpl.
  intros w [Hw _]. pose proof (appendEvent_preserves friends_mutual InTx (freq_SenderPublicKey r)
    "friend.requestAccepted" [("requestId"%string, AString (uuid_String id)); ("friendPublicKey"%string, ABytes user)]
    (social_frame _ mutual_social_only) w Hw) as H.
  by destruct (appendEvent _ _ _ _ _ w) as [[]].
Qed.

Lemma mutual_delete P `{!∀ f, Decision (P f)} db :
  (∀ f g, fr_UserPublicKey g = fr_FriendPublicKey f → fr_FriendPublicKey g = fr_UserPublicKey f → P f ↔ P g) →
  friends_mutual db → friends_mutual (set_friends (sql_delete P (friends (social db))) db).
Proof.
  intros HP Hm a b. unfold listed. rewrite !Exists_exists. simpl.
  intros (f & [Hf Hn]%elem_of_sql_delete & <- & <-).
  assert (listed (fr_FriendPublicKey f) (fr_UserPublicKey f) db) as Hlist.
  { apply Hm. apply Exists_exists. by exists f. }
  apply Exists_exists in Hlist as (g & Hg & Ef & Eg). exists g. split; [|done]. apply elem_of_sql_delete. split; [done|]. by rewrite <- (HP f g).
Qed.

Lemma friend_op_mutual op : preserves friends_mutual (run_friend_op op).
Proof.
  pose proof (social_frame _ mutual_social_only) as Hframe.
  assert (∀ c user ty p, preserves friends_mutual (appendEvent cfg c user ty p)) as Happ.
  { intros. by apply appendEvent_preserves. }
  assert (∀ c id a from t at_, preserves friends_mutual (UpdateFriendRequestState c id a from t at_)) as Hupd.
  { intros. apply UpdateFriendRequestState_preserves, mutual_update_requests. }
  destruct op as [user receiver|user id|user id|user id|user friend|user]; simpl.
  - unfold SendFriendRequest, CreateFriendRequest. solve_preserves; auto.
    apply preserves_exec_. unfold stmt_insert_friend_request, on_table. intros db db' Hm.
    destruct (insert_checked _ _ _ _ _); [done|by intros [= <-]].
  - unfold AcceptFriendRequest. do 2 (apply preserves_bind; [auto with preserves|intros ?]).
    apply preserves_bind; [apply preserves_tx, accept_mutual|auto with preserves].
  - unfold DeclineFriendRequest. solve_preserves; auto.
  - unfold CancelFriendRequest. solve_preserves; auto.
  - unfold SvcRemoveFriend, RepoRemoveFriend. solve_preserves; auto.
    apply preserves_exec_. intros db db' Hm [= <-]. apply mutual_delete; [|done].
    intros f g -> ->. tauto.
  - unfold SvcDeleteAccount, RepoDeleteAccount.
    apply preserves_bind; [auto with preserves|intros now].
    apply preserves_bind; [apply preserves_WithinTransaction|auto with preserves].
    apply preserves_for_each. intros x Hx. apply preserves_exec_. intros db db' Hm [= <-].
    unfold delete_account_statements in Hx.
    repeat (apply elem_of_cons in Hx as [->|Hx]; [first [exact Hm|apply mutual_delete; [intros f g -> ->; tauto|done]]|]).
    by apply not_elem_of_nil in Hx.
Qed.

(** C20: In every state the program can reach from an empty friend table,
    whichever statements failed on the way, friendship is mutual: when one
    user is listed as a friend of another, so is the other of the one. *)
Theorem friendship_is_mutual w0 w a b :
  friends (social (w_db w0)) = [] → rtc friend_step w0 w →
  Exists (lists_friend a b) (friends (social (w_db w))) → are_friends a b (w_db w).
Proof.
  intros E0 Hrun Hab. split; [done|]. revert Hab.
  assert (friends_mutual (w_db w)) as Hm; [|apply Hm].
  assert (friends_mutual (w_db w0)) as H0.
  { intros x y. unfold listed. rewrite E0. by intros ?%Exists_nil. }
  clear E0. induction Hrun as [|w1 w2 w3 [op w|w w' Es] _ IH]; [done| |].
  - apply IH. by apply friend_op_mutual.
  - apply IH. by apply (mutual_social_only (w_db w)).
Qed.

(** ** The states of a friend request *)

(** Who moves a request, and where to. *)
Definition op_move (op : friend_op) : option (Bytes * Z) :=
  match op with
  | OpAccept user _ => Some (user, FriendRequestAccepted)
  | OpDecline user _ => Some (user, FriendRequestDeclined)
  | OpCancel user _ => Some (user, FriendRequestCanceled)
  | _ => None
  end.

(** Where a request [r'] that is there after [op] comes from: it was there
    as it is, it has just been sent, or it was pending and [op] has moved
    it on behalf of one of its parties. *)
Definition request_origin (op : friend_op) (t : list FriendRequestRecord) (r' : FriendRequestRecord) : Prop :=
  r' ∈ t
  ∨ (∃ user receiver, op = OpSend user receiver ∧ freq_SenderPublicKey r' = user
       ∧ freq_ReceiverPublicKey r' = receiver ∧ freq_State r' = FriendRequestPending)
  ∨ (∃ r actor state at_, r ∈ t ∧ freq_State r = FriendRequestPending ∧ op_move op = Some (actor, state)
       ∧ (actor = freq_SenderPublicKey r ∨ actor = freq_ReceiverPublicKey r)
       ∧ r' = freq_set_state state at_ r).

Definition requests_after (op : friend_op) (t : list FriendRequestRecord) (db : DB) : Prop :=
  NoDup (freq_RequestID <$> friend_requests (social db))
  ∧ ∀ r', r' ∈ friend_requests (social db) → request_origin op t r'.

Lemma requests_after_frame op t db db' :
  friend_requests (social db') = friend_requests (social db) → requests_after op t db → requests_after op t db'.
Proof. unfold requests_after. by intros ->. Qed.

Lemma requests_after_refl op t db :
  friend_requests (social db) = t → NoDup (freq_RequestID <$> t) → requests_after op t db.
Proof. intros <- Hnd. split; [done|]. by left. Qed.

Lemma UpdateFriendRequestState_moves op actor target t c id at_ :
  op_move op = Some (actor, target) → NoDup (freq_RequestID <$> t) →
  hoare (λ db, friend_requests (social db) = t)
    (UpdateFriendRequestState c id actor [FriendRequestPending] target at_)
    (λ _, requests_after op t) (requests_after op t).
Proof.
  intros Hop Hnd. assert (∀ db, friend_requests (social db) = t → requests_after op t db) as Hr.
  { intros db Et. by apply requests_after_refl. }
  unfold UpdateFriendRequestState, GetFriendRequest.
  apply (hoare_bind _ _ _ (λ r db, friend_requests (social db) = t ∧ r ∈ t ∧ freq_RequestID r = id)).
  { eapply hoare_bind; [by apply hoare_query|]. intros row w [Et Er]. destruct row as [r|]; [|by apply Hr].
    symmetry in Er. apply sql_row_Some in Er as [Hin Hid]. simpl. by rewrite <- Et. }
  intros r. case_decide as Hp; [by apply hoare_raise; intros db [? _]; apply Hr|].
  destruct (containsState _ _) eqn:Hst; simpl; [|by apply hoare_raise; intros db [? _]; apply Hr].
  assert (freq_State r = FriendRequestPending) as Hpend.
  { unfold containsState in Hst. simpl in Hst. rewrite orb_false_r in Hst. lia. }
  apply (hoare_bind _ _ _ (λ _, requests_after op t)).
  - apply hoare_exec; [by intros db [? _]; apply Hr|]. intros db row db' (Et & Hin & Hid).
    unfold stmt_set_friend_request_state. case_decide; [|done]. intros [= _ <-]. split; simpl; rewrite Et.
    + by rewrite fmap_sql_update.
    + intros r' (r0 & Hr0 & [[Hid0 ->]|[_ ->]])%elem_of_sql_update; [|by left]. right; right.
      assert (r0 = r) as -> by (apply (NoDup_fmap_inj_in freq_RequestID t); congruence || done).
      exists r, actor, target, at_. split_and!; [done|done|done| |done].
      destruct (decide (actor = freq_SenderPublicKey r)); [by left|right].
      destruct (decide (actor = freq_ReceiverPublicKey r)); [done|]. by destruct Hp.
  - intros row. apply preserves_hoare, preserves_of_option.
Qed.

(** A step that leaves the request table alone. *)
Lemma hoare_after_skip {A B} op t (m : M A) (k : A → M B) :
  (∀ T, preserves (λ db, friend_requests (social db) = T) m) →
  (∀ a, hoare (requests_after op t) (k a) (λ _, requests_after op t) (requests_after op t)) →
  hoare (requests_after op t) (bind m k) (λ _, requests_after op t) (requests_after op t).
Proof.
  intros Hm Hk. apply hoare_skip; [|done|done]. intros w Hw.
  apply (requests_after_frame op t (w_db w)); [|done].
  exact (Hm (friend_requests (social (w_db w))) w eq_refl).
Qed.

Lemma appendEvent_requests c u ty p T :
  preserves (λ db, friend_requests (social db) = T) (appendEvent cfg c u ty p).
Proof. apply appendEvent_preserves. intros db db' (_ & -> & _). done. Qed.

Lemma insert_friend_requests f T db db' :
  friend_requests (social db) = T → stmt_insert_friend f db = inr db' → friend_requests (social db') = T.
Proof. unfold stmt_insert_friend. destruct (violated _); [done|]. by intros ? [= <-]. Qed.

Lemma CreateFriendPair_requests c f g T :
  preserves (λ db, friend_requests (social db) = T) (CreateFriendPair c f g).
Proof.
  unfold CreateFriendPair. apply preserves_for_each. intros x _. apply preserves_exec_.
  intros db db'. apply insert_friend_requests.
Qed.

Lemma accept_moves user id fid now t :
  NoDup (freq_RequestID <$> t) →
  hoare (λ db, friend_requests (social db) = t) (accept_friend_tx cfg user id fid now InTx)
    (λ _, requests_after (OpAccept user id) t) (requests_after (OpAccept user id) t).
Proof.
  intros Hnd. unfold accept_friend_tx. eapply hoare_bind; [by apply UpdateFriendRequestState_moves|].
  intros r. apply hoare_after_skip; [intros; apply preserves_NewUUID|intros oid].
  apply hoare_after_skip; [intros; apply CreateFriendPair_requests|intros u].
  apply preserves_hoare. intros w Hw. apply (requests_after_frame _ t (w_db w)); [|done].
  by apply (appendEvent_requests InTx _ _ _ _ w).
Qed.

Lemma send_moves user receiver t id now :
  NoDup (freq_RequestID <$> t) →
  hoare (λ db, friend_requests (social db) = t)
    (CreateFriendRequest Background (mkFriendRequest id user receiver FriendRequestPending now now))
    (λ _, requests_after (OpSend user receiver) t) (requests_after (OpSend user receiver) t).
Proof.
  intros Hnd. apply hoare_exec_; [by intros; apply requests_after_refl|].
  intros db db' Et. unfold stmt_insert_friend_request, on_table.
  destruct (insert_checked _ _ _ _ _) as [e|t'] eqn:Ei; [done|]. intros [= <-].
  apply insert_checked_Some in Ei as (-> & _ & Hn). rewrite Et in Hn. split; simpl; rewrite Et.
  - apply NoDup_fmap_app_one; [done|]. intros x Hx Ex. by apply (Hn x Hx).
  - intros r' [Hr| ->%list_elem_of_singleton]%elem_of_app; [by left|]. right; left. by exists user, receiver.
Qed.

(** C25: Whatever statements fail, every friend request that is there after
    an operation was there before unchanged, or has just been sent by the
    caller and is pending, or was pending and has been moved, by one of its
    two parties, to the state of the operation; so no request ever leaves
    a final state.  Identifiers stay unique. *)
Theorem friend_request_transitions op w :
  let t := friend_requests (social (w_db w)) in
  let db' := w_db (run_friend_op op w).2 in
  NoDup (freq_RequestID <$> t) →
  NoDup (freq_RequestID <$> friend_requests (social db'))
  ∧ ∀ r', r' ∈ friend_requests (social db') → request_origin op t r'.
Proof.
  intros t db' Hnd. enough (requests_after op t db') as H by exact H.
  assert (hoare (λ db, friend_requests (social db) = t) (run_friend_op op)
            (λ _, requests_after op t) (requests_after op t)) as H.
  2:{ specialize (H w eq_refl). unfold db'. by destruct (run_friend_op op w) as [[]]. }
  assert (∀ db, friend_requests (social db) = t → requests_after op t db) as Hr by (by intros; apply requests_after_refl).
  assert (∀ c u ty p T, preserves (λ db, friend_requests (social db) = T) (ignore_error (appendEvent cfg c u ty p))) as Hev.
  { intros. apply preserves_ignore_error, appendEvent_requests. }
  destruct op as [user receiver|user id|user id|user id|user friend|user]; simpl.
  - unfold SendFriendRequest. case_decide; [by apply hoare_raise|].
    do 2 (apply hoare_skip; [auto with preserves|done|intros ?]).
    eapply hoare_bind; [by apply send_moves|]. intros u.
    apply hoare_after_skip; [by intros|intros v]. by apply hoare_ret.
  - unfold AcceptFriendRequest. do 2 (apply hoare_skip; [auto with preserves|done|intros ?]).
    eapply hoare_bind; [apply hoare_WithinTransaction; [by apply accept_moves|done]|].
    intros u. by apply hoare_ret.
  - unfold DeclineFriendRequest. apply hoare_skip; [auto with preserves|done|intros now].
    eapply hoare_bind; [by apply UpdateFriendRequestState_moves|]. intros r.
    apply hoare_after_skip; [by intros|intros v]. by apply hoare_ret.
  - unfold CancelFriendRequest. apply hoare_skip; [auto with preserves|done|intros now].
    eapply hoare_bind; [by apply UpdateFriendRequestState_moves|]. intros r.
    apply hoare_after_skip; [by intros|intros v]. by apply hoare_ret.
  - apply (hoare_of_preserves (λ db, friend_requests (social db) = t)); [|done|done].
    unfold SvcRemoveFriend, RepoRemoveFriend. solve_preserves; try apply appendEvent_requests.
    apply preserves_exec_. by intros db db1 Et [= <-].
  - unfold SvcDeleteAccount, RepoDeleteAccount. apply hoare_skip; [auto with preserves|done|intros now].
    apply (hoare_of_preserves (requests_after (OpDeleteAccount user) t)); [|done|done].
    apply preserves_bind; [apply preserves_WithinTransaction|auto with preserves].
    apply preserves_for_each. intros x Hx. apply preserves_exec_. intros db db1 [Hn Ho] [= <-].
    unfold delete_account_statements in Hx.
    repeat (apply elem_of_cons in Hx as [->|Hx]; [first [by split|idtac]|]); [|by apply not_elem_of_nil in Hx].
    split; simpl; [by apply NoDup_fmap_filter|]. intros r' [Hr' _]%elem_of_sql_delete. by apply Ho.
Qed.

(** ** The notification loop of [UpdateProfile] *)

(** [m] returns a value or an error: the fuel of its loops is not what
    stops it, and it does not panic. *)
Definition ends {A} (m : M A) (w : World) : Prop := ∀ msg, (m w).1 ≠ Panic msg.

Lemma attempt_no_panic {A} (m : M A) w s : (∀ s, (m w).1 ≠ Panic s) → (attempt m w).1 ≠ Panic s.
Proof.
  unfold attempt. intros Hm. specialize (Hm s). destruct (m w) as [[]]; simpl in *; congruence.
Qed.

Lemma appendEvent_no_panic c u ty p w s : (appendEvent cfg c u ty p w).1 ≠ Panic s.
Proof.
  unfold appendEvent. case_decide; [done|].
  do 2 (apply bind_no_panic; [done|intros ? ? ?]). apply append_no_panic.
Qed.

Lemma appendEvents_no_panic c us ty p w s : (appendEvents cfg c us ty p w).1 ≠ Panic s.
Proof.
  apply for_each_no_panic. intros u w' s'. apply bind_no_panic; [|done].
  intros s1. apply attempt_no_panic. intros. apply appendEvent_no_panic.
Qed.

Lemma length_limit_offset {R} l o (t : list R) :
  length (limit_offset l o t) = (Z.to_nat l `min` (length t - Z.to_nat o))%nat.
Proof. unfold limit_offset. by rewrite length_take, length_drop. Qed.

Lemma notify_friends_no_panic fuel c user p offset w s :
  0 < cfg_EventBatchSize cfg →
  let n := Z.of_nat (length (sql_select (λ f, fr_UserPublicKey f = user) (friends (social (w_db w))))) in
  0 ≤ offset ≤ n → n < Z.of_nat fuel * cfg_EventBatchSize cfg + offset →
  (notify_friends cfg fuel c user p offset w).1 ≠ Panic s.
Proof.
  intros Hb. revert offset w s. induction fuel as [|fuel IH]; intros offset w s n Ho Hn; [lia|].
  cbn [notify_friends]. unfold RepoListFriends. unfold bind at 1, query.
  destruct (fault_at _); [done|]. set (page := limit_offset _ _ _).
  unfold bind at 1.
  pose proof (appendEvents_no_panic c (fr_FriendPublicKey <$> page) "profile.updated" p (tick_stmt w)) as Hnp.
  assert (social (w_db (appendEvents cfg c (fr_FriendPublicKey <$> page) "profile.updated" p (tick_stmt w)).2)
          = social (w_db w)) as Es.
  { apply (appendEvents_preserves (λ db, social db = social (w_db w))); [|done].
    intros db db' (_ & -> & _). done. }
  destruct (appendEvents _ _ _ _ _ _) as [[u|e|m] w1]; simpl in *; [|done|by destruct (Hnp m)].
  case_decide as Hfull; [done|]. apply IH; rewrite Es; fold n.
  - assert (Z.of_nat (length page) ≤ n - offset) as Hl.
    { unfold page. rewrite length_limit_offset. unfold order_by. rewrite merge_sort_Permutation. lia. }
    lia.
  - lia.
Qed.

(** [UpdateProfile] always ends: whatever fails, its loop over the
    pages of the friend list stops by itself, so the bound on the number
    of pages is never what stops it. *)
Lemma UpdateProfile_terminates c user username displayName avatarHash bio w :
  0 < cfg_EventBatchSize cfg →
  ends (SvcUpdateProfile cfg c user username displayName avatarHash bio) w.
Proof.
  intros Hb msg. unfold SvcUpdateProfile. apply bind_no_panic; [done|intros now w1 s1].
  apply bind_no_panic; [intros; apply wrap_no_panic; intros; apply exec_no_panic|intros u w2 s2].
  apply bind_no_panic; [|done]. intros s3. apply notify_friends_no_panic; [done|lia|].
  unfold friend_fuel, sql_select. pose proof (list.length_filter (λ f, fr_UserPublicKey f = user) (friends (social (w_db w2)))).
  nia.
Qed.
End spec.
