(* ===== verification/FriendRace.v ===== *)
(** * FriendRace: a friend request that is canceled while it is accepted

    [UpdateFriendRequestState] checks the state of a request in one statement
    and writes the new state, whatever it is by then, in another.
    [CancelFriendRequest] runs them outside a transaction, so an acceptance
    may begin and commit in between.  None of its statements overlaps one of
    the cancellation, so running it between the two parts is that schedule. *)

From Stdlib Require Import ZArith.
From S2P Require Import Prelude GoLib GoTime Domain Database Effects AuthRepo AuthService AuthSpec ClientRepo FriendRepo.
From S2P Require Import RoomRepo ClientService FriendSpec.

Local Open Scope Z_scope.

Section race.
Context {E : Env}.

(** [UpdateFriendRequestState] up to its checks, and its last statement. *)
Definition state_check (c : Ctx) (requestID : UUID) (actor : Bytes) (allowedFromStates : list Z) : M FriendRequestRecord :=
  let* record := GetFriendRequest c requestID in
  if decide (actor ≠ freq_SenderPublicKey record ∧ actor ≠ freq_ReceiverPublicKey record)
  then raise ErrForbidden else
  if negb (containsState allowedFromStates (freq_State record)) then raise ErrConflict else
  ret record.
Definition state_write (c : Ctx) (requestID : UUID) (targetState : Z) (updatedAt : Time) : M FriendRequestRecord :=
  let* row := exec c (stmt_set_friend_request_state requestID targetState updatedAt) in
  of_option ErrNoRows row.

Lemma update_state_split c id actor from target now w :
  UpdateFriendRequestState c id actor from target now w
  = bind (state_check c id actor from) (λ _, state_write c id target now) w.
Proof.
  unfold UpdateFriendRequestState, state_check, bind at 1 3 4. destruct (GetFriendRequest c id w) as [[r|e|m] w1]; [|done|done].
  case_decide; [done|]. by destruct (negb _).
Qed.

Context {App : EventAppender} {L : EventAppenderLaws append_event} (cfg : ClientConfig).

(** [CancelFriendRequest] once its request is checked. *)
Definition cancel_rest (c : Ctx) (requestID : UUID) (now : Time) : M GoMap :=
  let* record := state_write c requestID FriendRequestCanceled now in
  ignore_error (appendEvent cfg c (freq_ReceiverPublicKey record) "friend.requestCanceled"
    [("requestId"%string, AString (uuid_String requestID))]) ;;;
  ret [("canceledAt"%string, AFormatted now)].

Lemma cancel_split c user id w :
  CancelFriendRequest cfg c user id w
  = bind Now (λ now, bind (state_check c id user [FriendRequestPending]) (λ _, cancel_rest c id now)) w.
Proof.
  unfold CancelFriendRequest, cancel_rest, bind. cbn. rewrite update_state_split. unfold bind.
  destruct (state_check c id user _ _) as [[r|e|m] w2]; [|done|done].
  by destruct (state_write c id _ _ w2) as [[r'|e|m] w3].
Qed.

(** The schedule: the answers of the cancellation and of the acceptance. *)
Definition accept_during_cancel (canceller accepter : Bytes) (requestID : UUID) : M (GoMap * GoMap) :=
  let* now := Now in
  let* _ := state_check Background requestID canceller [FriendRequestPending] in
  let* accepted := AcceptFriendRequest cfg Background accepter requestID in
  let* canceled := cancel_rest Background requestID now in
  ret (canceled, accepted).

(** ** What it leaves behind *)

Definition request_row (id : UUID) (db : DB) : option FriendRequestRecord :=
  sql_row (λ r, freq_RequestID r = id) (friend_requests (social db)).

Lemma state_check_reads c id actor from P :
  hoare P (state_check c id actor from)
    (λ r db, P db ∧ request_row id db = Some r ∧ containsState from (freq_State r) = true
             ∧ (actor = freq_SenderPublicKey r ∨ actor = freq_ReceiverPublicKey r)) (λ _, True).
Proof.
  unfold state_check, GetFriendRequest. apply (hoare_bind _ _ _ (λ r db, P db ∧ request_row id db = Some r)).
  { eapply hoare_bind; [by apply hoare_query|]. intros row.
    eapply hoare_conseq; [|by intros db H; exact H| |by intros db H; exact H]; [by apply hoare_of_option|]. by intros r db [[HP Er] ->]. }
  intros r. cbv beta. case_decide as Hp; [by apply hoare_raise|].
  destruct (containsState _ _) eqn:Hs; [|by apply hoare_raise]. apply hoare_ret. intros db [HP Er].
  split_and!; [done|done|done|]. destruct (decide (actor = freq_SenderPublicKey r)); [by left|right].
  destruct (decide (actor = freq_ReceiverPublicKey r)); [done|]. by destruct Hp.
Qed.

(** Writing the state of a request moves its row and no friend. *)
Lemma state_write_moves c id target now r (F : list FriendRecord) :
  hoare (λ db, request_row id db = Some r ∧ friends (social db) = F) (state_write c id target now)
    (λ r' db, r' = freq_set_state target now r ∧ request_row id db = Some r' ∧ friends (social db) = F) (λ _, True).
Proof.
  unfold state_write.
  apply (hoare_bind _ _ _ (λ row db, row = Some (freq_set_state target now r) ∧ request_row id db = row ∧ friends (social db) = F)).
  - apply hoare_exec; [done|]. intros db row db' [Er EF]. unfold stmt_set_friend_request_state. case_decide; [|done].
    intros [= <- <-]. unfold request_row in Er. split_and!; [|done|exact EF].
    rewrite sql_row_update_same by done. by rewrite Er.
  - intros row. eapply hoare_conseq; [|by intros db H; exact H| |by intros db H; exact H]; [by apply hoare_of_option|].
    by intros r' db [(-> & Er & EF) [= <-]].
Qed.

Lemma request_row_frame id r db db' : same_social db db' → request_row id db = Some r → request_row id db' = Some r.
Proof. unfold request_row. by intros ->. Qed.

(** The request, and who are friends. *)
Definition befriended (id : UUID) (r : FriendRequestRecord) (db : DB) : Prop :=
  request_row id db = Some r ∧ are_friends (freq_SenderPublicKey r) (freq_ReceiverPublicKey r) db.

Lemma befriended_event id r c user ty p : preserves (befriended id r) (appendEvent cfg c user ty p).
Proof.
  apply appendEvent_preserves. intros db db' (_ & Es & _) [Hr Hf]. unfold befriended, are_friends. rewrite Es.
  split; [by eapply request_row_frame|exact Hf].
Qed.

Lemma accept_befriends user id fid now r :
  hoare (λ db, request_row id db = Some r) (accept_friend_tx cfg user id fid now InTx)
    (λ _ db, befriended id (freq_set_state FriendRequestAccepted now r) db
             ∧ (user = freq_SenderPublicKey r ∨ user = freq_ReceiverPublicKey r)) (λ _, True).
Proof.
  set (r1 := freq_set_state FriendRequestAccepted now r). unfold accept_friend_tx.
  set (party := user = freq_SenderPublicKey r ∨ user = freq_ReceiverPublicKey r).
  apply (hoare_bind _ _ _ (λ r' db, (request_row id db = Some r1 ∧ party) ∧ r' = r1)).
  { assert (hoare (λ db, request_row id db = Some r)
              (bind (state_check InTx id user [FriendRequestPending]) (λ _, state_write InTx id FriendRequestAccepted now))
              (λ r' db, (request_row id db = Some r1 ∧ party) ∧ r' = r1) (λ _, True)) as H.
    2:{ intros w Hw. rewrite update_state_split. by apply H. }
    eapply hoare_bind; [by apply state_check_reads|]. intros r0 w1 (Hr & Er & _ & Hp).
    rewrite Hr in Er. injection Er as <-.
    pose proof (state_write_moves InTx id FriendRequestAccepted now r _ w1 (conj Hr eq_refl)) as H.
    destruct (state_write _ _ _ _ w1) as [[r2|e|m] w2]; [|done|done]. by destruct H as (-> & H & _). }
  intros r'. apply hoare_pure. intros ->. apply hoare_pure. intros Hp.
  apply hoare_skip; [apply preserves_NewUUID|done|intros oid].
  apply (hoare_bind _ _ _ (λ _, befriended id r1)); [|intros u; eapply hoare_conseq;
    [apply preserves_hoare, befriended_event|done|by intros ? ? ?|done]].
  unfold CreateFriendPair, for_each.
  apply (hoare_bind _ _ _ (λ _ db, request_row id db = Some r1 ∧ listed (freq_SenderPublicKey r1) (freq_ReceiverPublicKey r1) db)).
  - apply hoare_exec_; [done|]. intros db db' Hr Hf. pose proof (listed_insert _ _ _ Hf) as Hl. split; [|apply Hl; by right].
    unfold stmt_insert_friend in Hf. destruct (violated _); [done|]. by injection Hf as <-.
  - intros u. apply (hoare_bind _ _ _ (λ _, befriended id r1)); [|intros v; by apply hoare_ret].
    apply hoare_exec_; [done|]. intros db db' [Hr Hab] Hf. pose proof (listed_insert _ _ _ Hf) as Hl.
    split; [|split; apply Hl; [by left|by right]].
    unfold stmt_insert_friend in Hf. destruct (violated _); [done|]. by injection Hf as <-.
Qed.

Lemma accept_request_befriends user id r :
  hoare (λ db, request_row id db = Some r) (AcceptFriendRequest cfg Background user id)
    (λ _ db, ∃ at_, befriended id (freq_set_state FriendRequestAccepted at_ r) db
             ∧ (user = freq_SenderPublicKey r ∨ user = freq_ReceiverPublicKey r)) (λ _, True).
Proof.
  unfold AcceptFriendRequest. apply hoare_skip; [apply preserves_Now|done|intros now].
  apply hoare_skip; [apply preserves_NewUUID|done|intros fid].
  eapply hoare_bind; [apply hoare_WithinTransaction; [apply accept_befriends|done]|]. intros u.
  apply hoare_ret. intros db H. by exists now.
Qed.

(** The end of the cancellation, after the request has been accepted. *)
Lemma cancel_rest_leaves id now r :
  hoare (befriended id r) (cancel_rest Background id now)
    (λ _, befriended id (freq_set_state FriendRequestCanceled now r)) (λ _, True).
Proof.
  unfold cancel_rest. apply (hoare_bind _ _ _ (λ r' db, befriended id (freq_set_state FriendRequestCanceled now r) db)).
  - intros w [Hr Hf]. pose proof (state_write_moves Background id FriendRequestCanceled now r _ w (conj Hr eq_refl)) as H.
    destruct (state_write _ _ _ _ w) as [[r2|e|m] w2]; [|done|done]. destruct H as (-> & H & EF). split; [done|].
    unfold are_friends in *. rewrite EF. exact Hf.
  - intros r'. apply hoare_skip; [apply preserves_ignore_error, befriended_event|done|]. intros u. by apply hoare_ret.
Qed.

(** C26: A request can be accepted and canceled.  Let a friend request be
    canceled by one of its parties, and let an acceptance run after the
    cancellation has found the request pending and before it writes.  If
    both answer without an error, the request is canceled in the end, and its
    sender and its receiver are friends all the same: [friend_request_transitions]
    promises that no single operation leaves a final state, and this
    schedule of two leaves one. *)
Theorem accept_during_cancel_disagrees canceller accepter id w answers w' :
  accept_during_cancel canceller accepter id w = (Ok answers, w') →
  ∃ r r', request_row id (w_db w) = Some r ∧ freq_State r = FriendRequestPending
    ∧ (accepter = freq_SenderPublicKey r ∨ accepter = freq_ReceiverPublicKey r)
    ∧ request_row id (w_db w') = Some r' ∧ freq_State r' = FriendRequestCanceled
    ∧ are_friends (freq_SenderPublicKey r) (freq_ReceiverPublicKey r) (w_db w').
Proof.
  intros Hrun. set (row := request_row id (w_db w)).
  set (done_with db := ∃ r r', row = Some r ∧ freq_State r = FriendRequestPending
    ∧ (accepter = freq_SenderPublicKey r ∨ accepter = freq_ReceiverPublicKey r)
    ∧ request_row id db = Some r' ∧ freq_State r' = FriendRequestCanceled
    ∧ are_friends (freq_SenderPublicKey r) (freq_ReceiverPublicKey r) db).
  assert (hoare (λ db, request_row id db = row) (accept_during_cancel canceller accepter id) (λ _, done_with) (λ _, True)) as H.
  2:{ specialize (H w eq_refl). by rewrite Hrun in H. }
  unfold accept_during_cancel. apply hoare_skip; [apply preserves_Now|done|intros now].
  eapply hoare_bind; [by apply state_check_reads|]. intros r.
  apply (hoare_pre _ (λ db, request_row id db = Some r ∧ (row = Some r ∧ freq_State r = FriendRequestPending))).
  { intros db (Hr & Er & Hs & _). split; [done|]. split; [congruence|].
    unfold containsState in Hs. simpl in Hs. rewrite orb_false_r in Hs. lia. }
  apply hoare_pure. intros [Erow Hst].
  eapply hoare_bind; [by apply accept_request_befriends|]. intros accepted.
  intros w1 (at_ & Hb & Hp).
  assert (hoare (befriended id (freq_set_state FriendRequestAccepted at_ r))
            (let* canceled := cancel_rest Background id now in ret (canceled, accepted)) (λ _, done_with) (λ _, True)) as H; [|by apply H].
  eapply hoare_bind; [apply cancel_rest_leaves|]. intros canceled. apply hoare_ret. intros db [Hr Hf].
  by exists r, (freq_set_state FriendRequestCanceled now (freq_set_state FriendRequestAccepted at_ r)).
Qed.
End race.
