(* ===== verification/RoomSpec.v ===== *)
(** * RoomSpec: what the room operations promise

    Who may do what in a room, who receives a message, and what joining
    does to a membership. *)

From Stdlib Require Import ZArith.
From S2P Require Import Prelude GoLib GoTime Domain Database Effects Pagination AuthRepo AuthService.
From S2P Require Import AuthSpec ClientRepo FriendRepo RoomRepo ClientService RoomService FriendSpec.

Local Open Scope Z_scope.

Section spec.
Context {E : Env} {App : EventAppender} {L : EventAppenderLaws append_event} (cfg : ClientConfig).

(** ** Refusals *)

(** [m] does not succeed from [w], and changes no table. *)
Definition refused {A} (m : M A) (w : World) : Prop :=
  w_db (m w).2 = w_db w ∧ ∀ a, (m w).1 ≠ Ok a.

(** [m] does not write. *)
Definition reads {A} (m : M A) : Prop := ∀ w, w_db (m w).2 = w_db w.

Lemma reads_preserves {A} (m : M A) : (∀ db0, preserves (λ db, db = db0) m) → reads m.
Proof. intros Hm w. exact (Hm (w_db w) w eq_refl). Qed.

Lemma reads_Now : reads Now.
Proof. done. Qed.
Lemma reads_NewUUID : reads NewUUID.
Proof. done. Qed.

Lemma refused_raise {A} e w : refused (@raise A e) w.
Proof. done. Qed.

Lemma refused_bind_l {A B} (m : M A) (k : A → M B) w : refused m w → refused (bind m k) w.
Proof.
  unfold refused, bind. intros [Edb Hn]. destruct (m w) as [[a|e|s] w'] eqn:Em; simpl in *; [|done|done].
  by destruct (Hn a).
Qed.

Lemma refused_bind_r {A B} (m : M A) (k : A → M B) w :
  reads m → (∀ a w', m w = (Ok a, w') → refused (k a) w') → refused (bind m k) w.
Proof.
  unfold refused, bind. intros Hr Hk. specialize (Hr w).
  destruct (m w) as [[a|e|s] w'] eqn:Em; simpl in *; [|done|done].
  destruct (Hk a w' eq_refl) as [Edb Hn]. by rewrite Edb.
Qed.

Lemma query_ok {A} c (f : DB → A) w a w' : query c f w = (Ok a, w') → a = f (w_db w) ∧ w_db w' = w_db w.
Proof. unfold query. destruct (fault_at _); [done|]. by intros [= <- <-]. Qed.

(** ** Administrators and owners *)

(** An active member of the room with at least the role of administrator. *)
Definition is_admin (user : Bytes) (room : UUID) (db : DB) : Prop :=
  Exists (λ m, member_in room user m ∧ RoleAdmin ≤ mem_Role m) (chat_members (rooms db)).

#[export] Instance is_admin_dec user room db : Decision (is_admin user room db).
Proof. unfold is_admin. apply _. Defined.

(** The owner of a room that is not deleted. *)
Definition owns_room (user : Bytes) (room : UUID) (db : DB) : Prop :=
  Exists (λ r, live_room room r ∧ r_owner_public_key r = user) (chat_rooms (rooms db)).

Lemma ensureMember_reads c room user : reads (ensureMember c room user).
Proof. apply reads_preserves. intros db0. unfold ensureMember. solve_preserves. Qed.

Lemma GetRoom_reads c room : reads (GetRoom c room).
Proof. apply reads_preserves. intros db0. unfold GetRoom. solve_preserves. Qed.

Lemma ensureMember_ok c room user w m w' :
  ensureMember c room user w = (Ok m, w') →
  m ∈ chat_members (rooms (w_db w)) ∧ member_in room user m ∧ w_db w' = w_db w.
Proof.
  unfold ensureMember, bind, query. destruct (fault_at _); [done|].
  destruct (sql_row _ _) as [x|] eqn:Er; [|done]. intros [= <- <-].
  by apply sql_row_Some in Er as [? ?].
Qed.

Lemma ensureRoomAdmin_refused c room user w : ¬ is_admin user room (w_db w) → refused (ensureRoomAdmin c room user) w.
Proof.
  intros Hn. unfold ensureRoomAdmin. apply refused_bind_r; [apply ensureMember_reads|].
  intros m w' (Hm & Hin & _)%ensureMember_ok. case_decide; [apply refused_raise|].
  destruct Hn. apply Exists_exists. exists m. split; [done|]. split; [done|]. unfold RoleAdmin in *. lia.
Qed.

Lemma GetRoom_ok c room w r w' :
  GetRoom c room w = (Ok r, w') →
  ∃ row, row ∈ chat_rooms (rooms (w_db w)) ∧ live_room room row ∧ r = room_record row ∧ w_db w' = w_db w.
Proof.
  unfold GetRoom, bind, query. destruct (fault_at _); [done|].
  destruct (sql_row _ _) as [x|] eqn:Er; [|done]. intros [= <- <-].
  apply sql_row_Some in Er as [? ?]. by exists x.
Qed.

(** The operations of a room that are reserved to some of its members. *)
Inductive guarded_op : Type :=
  | OpKick (room : UUID) (target : Bytes)
  | OpRole (room : UUID) (target : Bytes) (role : Z)
  | OpGrant (room : UUID) (target : Bytes) (key : string) (allowed : bool)
  | OpUpdatePermission (permission : UUID) (allowed : bool)
  | OpDeletePermission (permission : UUID)
  | OpInvite (room : UUID) (invitee : Bytes) (expires : option Time) (token sig : Bytes)
  | OpUpdateRoom (room : UUID) (title description avatar : string)
  | OpDeleteRoom (room : UUID)
  | OpRoomState (room group : UUID) (epoch : Z) (tree hash : option Bytes)
  | OpGroupInfo (room : UUID) (info : Bytes).

Definition run_guarded_op (user : Bytes) (op : guarded_op) : M GoMap :=
  match op with
  | OpKick room target => KickChatMember cfg Background user room target
  | OpRole room target role => UpdateChatMemberRole cfg Background user room target role
  | OpGrant room target key allowed => CreateChatMemberPermission Background user room target key allowed
  | OpUpdatePermission p allowed => UpdateChatMemberPermission Background user p allowed
  | OpDeletePermission p => DeleteChatMemberPermission Background user p
  | OpInvite room invitee expires token sig => SendChatInvitation cfg Background user room invitee expires token sig
  | OpUpdateRoom room t d a => UpdateChatRoom Background user room t d a
  | OpDeleteRoom room => DeleteChatRoom cfg Background user room
  | OpRoomState room group epoch tree hash => UpdateChatRoomState Background user room group epoch tree hash
  | OpGroupInfo room info => UploadGroupInfo Background user room info
  end.

Definition permitted (user : Bytes) (op : guarded_op) (db : DB) : Prop :=
  match op with
  | OpKick room _ | OpRole room _ _ | OpGrant room _ _ _ | OpInvite room _ _ _ _ => is_admin user room db
  | OpUpdatePermission p _ | OpDeletePermission p =>
      Exists (λ x, perm_PermissionID x = p ∧ is_admin user (perm_RoomID x) db) (chat_member_permissions (rooms db))
  | OpUpdateRoom room _ _ _ | OpDeleteRoom room => owns_room user room db
  | OpRoomState room _ _ _ _ | OpGroupInfo room _ => Exists (member_in room user) (chat_members (rooms db))
  end.

Lemma lookupPermissionRoom_refused {B} c user p (k : UUID → M B) w :
  ¬ Exists (λ x, perm_PermissionID x = p ∧ is_admin user (perm_RoomID x) (w_db w)) (chat_member_permissions (rooms (w_db w))) →
  refused (let* roomID := lookupPermissionRoom c p in ensureRoomAdmin c roomID user ;;; k roomID) w.
Proof.
  intros Hn. apply refused_bind_r.
  { apply reads_preserves. intros db0. unfold lookupPermissionRoom. solve_preserves. }
  intros room w'. unfold lookupPermissionRoom, bind at 1, query. destruct (fault_at _); [done|].
  destruct (sql_row _ _) as [x|] eqn:Er; [|done]. intros [= <- <-].
  apply sql_row_Some in Er as [Hx Hp].
  apply refused_bind_l, ensureRoomAdmin_refused. simpl. intros Ha. apply Hn, Exists_exists. by exists x.
Qed.

Lemma owner_refused {B} c user room (k : ChatRoomRecord → M B) w :
  ¬ owns_room user room (w_db w) →
  refused (let* r := GetRoom c room in
           if decide (room_OwnerPublicKey r ≠ user) then raise ErrForbidden else k r) w.
Proof.
  intros Hn. apply refused_bind_r; [apply GetRoom_reads|]. intros r w' (row & Hr & Hl & -> & Edb)%GetRoom_ok.
  case_decide as Ho; [apply refused_raise|]. destruct Hn. apply Exists_exists. exists row.
  split; [done|]. by split.
Qed.

Lemma member_refused {B} c user room (k : M B) w :
  ¬ Exists (member_in room user) (chat_members (rooms (w_db w))) → refused (ensureMember c room user ;;; k) w.
Proof.
  intros Hn. apply refused_bind_r; [apply ensureMember_reads|].
  intros m w' (Hm & Hin & _)%ensureMember_ok. destruct Hn. apply Exists_exists. by exists m.
Qed.

(** A refused transaction is a refusal. *)
Lemma refused_tx {A} (fn : Ctx → M A) w :
  (refused (fn InTx) (tick_stmt w)) → refused (WithinTransaction Background fn) w.
Proof.
  unfold refused. intros [Edb Hn]. simpl. destruct (fault_at _); [done|].
  destruct (fn InTx (tick_stmt w)) as [[a|e|s] w']; simpl in *; [by destruct (Hn a)|done|done].
Qed.

Lemma members_or_nil_reads c room : reads (members_or_nil c room).
Proof.
  apply reads_preserves. intros db0. unfold members_or_nil, ListActiveRoomMemberPublicKeys. solve_preserves.
Qed.

(** C18: Kicking a member, changing a role, granting, changing or revoking
    a permission and inviting need an active administrator of the room;
    renaming and deleting a room need its owner; storing its state or
    group info needs an active member.  Anybody else is refused, and no
    table changes. *)
Theorem guarded_ops_refuse user op w :
  ¬ permitted user op (w_db w) → refused (run_guarded_op user op) w.
Proof.
  intros Hn. destruct op; simpl in *; (apply refused_bind_r; [apply reads_Now|intros now w' [= <- <-]]).
  - do 2 apply refused_bind_l. by apply ensureRoomAdmin_refused.
  - do 2 apply refused_bind_l. by apply ensureRoomAdmin_refused.
  - apply refused_bind_r; [apply reads_NewUUID|intros id w' [= <- <-]].
    do 2 apply refused_bind_l. by apply ensureRoomAdmin_refused.
  - apply refused_bind_l. by apply lookupPermissionRoom_refused.
  - apply refused_bind_l. by apply lookupPermissionRoom_refused.
  - apply refused_bind_r; [apply reads_NewUUID|intros id w' [= <- <-]].
    do 2 apply refused_bind_l. by apply ensureRoomAdmin_refused.
  - apply refused_bind_l. by apply owner_refused.
  - apply refused_bind_r.
    { apply members_or_nil_reads. }
    intros ms w' Em. apply refused_bind_l, owner_refused.
    pose proof (members_or_nil_reads Background room
      (mkWorld (w_db w) (S (w_clock w)) (w_uuid w) (w_random w) (w_stmt w) (w_trace w))) as Edb.
    rewrite Em in Edb. simpl in Edb. by rewrite Edb.
  - apply refused_bind_r; [apply reads_NewUUID|intros id w' [= <- <-]].
    apply refused_bind_l, refused_tx. by apply member_refused.
  - apply refused_bind_l. by apply member_refused.
Qed.

(** ** Messages *)

Definition member_keys (room : UUID) (db : DB) : list Bytes :=
  mem_UserPublicKey <$> sql_select (active_in room) (chat_members (rooms db)).

(** An active member, who in a direct room of two is a friend of the other. *)
Definition may_send (user : Bytes) (room : UUID) (db : DB) : Prop :=
  user ∈ member_keys room db
  ∧ (is_direct_room room db →
       length (member_keys room db) = 2%nat
       ∧ ∀ peer, peer ∈ member_keys room db → peer ≠ user → are_friends user peer db).

Lemma message_recipients_ok c user room w ms w' :
  message_recipients c user room w = (Ok ms, w') →
  ms = member_keys room (w_db w) ∧ may_send user room (w_db w) ∧ w_db w' = w_db w.
Proof.
  unfold message_recipients, ListActiveRoomMemberPublicKeys. unfold bind at 1, query.
  destruct (fault_at _); [done|]. fold (member_keys room (w_db w)). set (keys := member_keys room (w_db w)).
  case_decide as Hu; [done|]. unfold IsDirectRoom. unfold bind at 1, query.
  destruct (fault_at _); [done|]. simpl w_db. case_bool_decide as Hd.
  - case_decide as Hlen; [done|]. destruct (others user keys) as [|peer l] eqn:Eo; [done|].
    case_decide; [done|]. unfold AreFriends, bind, query. destruct (fault_at _); [done|]. simpl.
    case_bool_decide as Hf; [|done]. simpl. intros [= <- <-]. split_and!; [done| |done].
    split; [done|]. intros _. split; [done|]. intros p Hp Hne.
    assert (p ∈ others user keys) as Hpo by (by apply list_elem_of_filter).
    clearbody keys. destruct keys as [|k1 [|k2 [|]]]; try done.
    unfold others in *. rewrite !filter_cons, filter_nil in Eo, Hpo.
    destruct (decide (k1 ≠ user)), (decide (k2 ≠ user)); simplify_eq/=; rewrite ?list_elem_of_singleton in *; set_solver.
  - intros [= <- <-]. split_and!; [done| |done]. by split.
Qed.

Lemma message_recipients_reads c user room : reads (message_recipients c user room).
Proof.
  apply reads_preserves. intros db0.
  unfold message_recipients, ListActiveRoomMemberPublicKeys, IsDirectRoom, AreFriends. solve_preserves.
Qed.

Lemma appendEvent_ok c user ty p w w' :
  appendEvent cfg c user ty p w = (Ok tt, w') →
  other_tables (w_db w) (w_db w')
  ∧ ∃ evs, user_events (events (w_db w')) = user_events (events (w_db w)) ++ evs
      ∧ ev_UserPublicKey <$> evs = filter (λ k, length k = PublicKeySize) [user]
      ∧ Forall (λ e, ev_EventType e = ty ∧ ev_Payload e = json_payload p) evs.
Proof.
  unfold appendEvent. case_decide as Hl.
  - intros [= <-]. split; [done|]. exists []. rewrite app_nil_r, filter_cons_False by done. by split_and!.
  - unfold bind at 1, Now. unfold bind at 1, NewUUID. intros Er.
    set (e := mkEvent _ _ _ _ _ _ _ _ _) in Er. set (w1 := mkWorld _ _ _ _ _ _) in Er.
    pose proof (append_frame c e w1) as Hf. rewrite Er in Hf.
    apply append_records in Er as Hu. split; [exact Hf|]. eexists. split; [exact Hu|].
    rewrite filter_cons_True by done. split; [done|]. by constructor.
Qed.

Lemma send_loop_ok c users ty p w w' :
  for_each users (λ u, appendEvent cfg c u ty p) w = (Ok tt, w') →
  other_tables (w_db w) (w_db w')
  ∧ ∃ evs, user_events (events (w_db w')) = user_events (events (w_db w)) ++ evs
      ∧ ev_UserPublicKey <$> evs = filter (λ k, length k = PublicKeySize) users
      ∧ Forall (λ e, ev_EventType e = ty ∧ ev_Payload e = json_payload p) evs.
Proof.
  revert w. induction users as [|u users IH]; intros w; simpl.
  - intros [= <-]. split; [done|]. exists []. by rewrite app_nil_r.
  - unfold bind. destruct (appendEvent cfg c u ty p w) as [[[]|e|m] w1] eqn:E1; [|done|done]. intros E2.
    apply appendEvent_ok in E1 as [(F1 & F2 & F3) (ev1 & U1 & K1 & A1)].
    apply IH in E2 as [(G1 & G2 & G3) (ev2 & U2 & K2 & A2)]. split; [split_and!; congruence|].
    exists (ev1 ++ ev2). rewrite U2, U1, <- app_assoc. split; [done|].
    rewrite fmap_app, K1, K2. change (u :: users) with ([u] ++ users). rewrite filter_app. split; [done|].
    by apply Forall_app.
Qed.

(** C16: Only an active member of a room sends to it, and to a direct room
    only when it has its two members and they are friends; anybody else is
    refused and nothing changes.  A message that is accepted is recorded
    once for every active member, the sender included, and touches no
    table but those of the events. *)
Theorem SendMessage_authorised user room cid body w r w' :
  SendMessage cfg Background user room cid body w = (r, w') →
  (¬ may_send user room (w_db w) → w_db w' = w_db w ∧ ∀ a, r ≠ Ok a)
  ∧ (∀ a, r = Ok a →
       may_send user room (w_db w) ∧ other_tables (w_db w) (w_db w')
       ∧ ∃ evs mid, user_events (events (w_db w')) = user_events (events (w_db w)) ++ evs
           ∧ ev_UserPublicKey <$> evs = filter (λ k, length k = PublicKeySize) (member_keys room (w_db w))
           ∧ Forall (λ e, ev_EventType e = "mlsMessageReceived"%string
                          ∧ ev_Payload e = json_payload (message_payload room mid cid user body)) evs).
Proof.
  intros Er. split.
  - intros Hn. enough (refused (SendMessage cfg Background user room cid body) w) as [H1 H2].
    { rewrite Er in H1, H2. done. }
    unfold SendMessage. apply refused_bind_r; [apply reads_Now|intros now w1 [= <- <-]].
    apply refused_bind_r; [apply message_recipients_reads|].
    intros ms w2 Hms. apply message_recipients_ok in Hms as (_ & Hs & _). by destruct Hn.
  - intros a ->. unfold SendMessage in Er. unfold bind at 1, Now in Er. unfold bind at 1 in Er.
    destruct (message_recipients _ _ _ _) as [[ms|e|m] w1] eqn:Em; [|done|done].
    apply message_recipients_ok in Em as (-> & Hs & Edb). simpl in Edb.
    unfold bind at 1, NewUUID in Er. unfold bind at 1 in Er.
    destruct (for_each _ _ _) as [[[]|e|m] w2] eqn:El; [|done|done]. injection Er as _ <-.
    apply send_loop_ok in El as [Hf (evs & Hu & Hk & Ha)]. simpl in *. rewrite Edb in *.
    split; [done|]. split; [done|]. by exists evs, (uuid_at (w_uuid w1)).
Qed.
End spec.
