(* ===== verification/RoomInv.v ===== *)
(** * RoomInv: the shape of the room tables

    Room identifiers and memberships are unique, memberships and direct
    rooms belong to a room, and two users have at most one direct room.
    The invariant holds in every state the program can reach. *)

From Stdlib Require Import ZArith.
From S2P Require Import Prelude GoLib GoTime Domain Database Effects Pagination AuthRepo AuthService.
From S2P Require Import AuthSpec ClientRepo FriendRepo RoomRepo ClientService RoomService FriendSpec.
From S2P Require Import RoomSpec.

Local Open Scope Z_scope.

(** ** The invariant *)

(** What the invariant depends on: room identifiers, direct rooms, the
    keys of the memberships and the identifiers of the invitations. *)
Definition mem_key (m : ChatMemberRecord) : UUID * Bytes := (mem_RoomID m, mem_UserPublicKey m).

Record rooms_wf (g : RoomDB) : Prop := {
  rw_ids : NoDup (r_room_id <$> chat_rooms g);
  rw_members : NoDup (mem_key <$> chat_members g);
  rw_invitations : NoDup (inv_InvitationID <$> chat_invitations g);
  rw_member_room : ∀ m, m ∈ chat_members g → mem_RoomID m ∈ r_room_id <$> chat_rooms g;
  rw_direct_room : ∀ d, d ∈ direct_rooms g → dr_RoomID d ∈ r_room_id <$> chat_rooms g;
  rw_direct_order : ∀ d, d ∈ direct_rooms g →
    bytes_leb (dr_LeftUserPublicKey d) (dr_RightUserPublicKey d) = true
    ∧ dr_LeftUserPublicKey d ≠ dr_RightUserPublicKey d;
  rw_direct_pair : ∀ d d', d ∈ direct_rooms g → d' ∈ direct_rooms g →
    dr_RoomID d = dr_RoomID d'
    ∨ (dr_LeftUserPublicKey d = dr_LeftUserPublicKey d' ∧ dr_RightUserPublicKey d = dr_RightUserPublicKey d') →
    d = d' }.

Definition rooms_db_wf (db : DB) : Prop := rooms_wf (rooms db).

(** The statements that keep all of these. *)
Lemma rooms_wf_ext g g' :
  r_room_id <$> chat_rooms g' = r_room_id <$> chat_rooms g → direct_rooms g' = direct_rooms g →
  mem_key <$> chat_members g' = mem_key <$> chat_members g →
  (NoDup (inv_InvitationID <$> chat_invitations g) → NoDup (inv_InvitationID <$> chat_invitations g')) →
  rooms_wf g → rooms_wf g'.
Proof.
  intros E1 E2 E3 E4 [H1 H2 H7 H3 H4 H5 H6]. constructor; rewrite ?E1, ?E2, ?E3; auto; try done.
  intros m Hm. assert (mem_key m ∈ mem_key <$> chat_members g) as Hk by (rewrite <- E3; by apply list_elem_of_fmap_2).
  apply list_elem_of_fmap in Hk as (m' & Ek & Hm'). injection Ek as -> _. by apply H3.
Qed.

Lemma room_exists_ids id db : room_exists id db ↔ id ∈ r_room_id <$> chat_rooms (rooms db).
Proof.
  unfold room_exists. rewrite Exists_exists, list_elem_of_fmap.
  split; intros (r & H1 & H2); exists r; (split; [|done]); congruence.
Qed.

Lemma wf_insert_room room db db' :
  rooms_db_wf db → stmt_insert_room room db = inr db' → rooms_db_wf db'.
Proof.
  intros [H1 H2 H7 H3 H4 H5 H6]. unfold stmt_insert_room, on_table.
  destruct (insert_checked _ _ _ _ _) as [e|t] eqn:Ei; [done|]. intros [= <-].
  apply insert_checked_Some in Ei as (-> & _ & Hn).
  assert (∀ id, id ∈ r_room_id <$> chat_rooms (rooms db) → id ∈ r_room_id <$> (chat_rooms (rooms db) ++ [room_row room])) as Hmono.
  { intros id Hid. rewrite fmap_app, elem_of_app. by left. }
  constructor; simpl; auto.
  apply NoDup_fmap_app_one; [done|]. intros x Hx E. by apply (Hn x Hx).
Qed.

Lemma member_checks_room m db : violated (member_checks m db) = None → mem_RoomID m ∈ r_room_id <$> chat_rooms (rooms db).
Proof.
  rewrite <- room_exists_ids. unfold member_checks. simpl. destruct (is_key _); [|done].
  do 2 (case_bool_decide; [|done]). by case_bool_decide.
Qed.

Lemma wf_add_member m db :
  rooms_db_wf db → mem_RoomID m ∈ r_room_id <$> chat_rooms (rooms db) →
  (∀ x, x ∈ chat_members (rooms db) → ¬ same_member m x) →
  rooms_db_wf (set_chat_members (chat_members (rooms db) ++ [m]) db).
Proof.
  intros [H1 H2 H3 H4 H5 H6] Hr Hn. constructor; simpl; auto.
  - apply NoDup_fmap_app_one; [done|]. intros x Hx E. injection E as E1 E2. by apply (Hn x Hx).
  - intros x [Hx| ->%list_elem_of_singleton]%elem_of_app; auto.
Qed.

Lemma wf_insert_member m db db' :
  rooms_db_wf db → stmt_insert_member m db = inr db' → rooms_db_wf db'.
Proof.
  intros Hwf. unfold stmt_insert_member, on_table.
  destruct (insert_checked _ _ _ _ _) as [e|t] eqn:Ei; [done|]. intros [= <-].
  apply insert_checked_Some in Ei as (-> & Hc & Hn). apply wf_add_member; [done|by apply member_checks_room|done].
Qed.

Lemma wf_upsert_member m db db' :
  rooms_db_wf db → stmt_upsert_member m db = inr db' → rooms_db_wf db'.
Proof.
  intros Hwf. unfold stmt_upsert_member. destruct (violated _) eqn:Hc; [done|]. intros [= <-].
  unfold sql_upsert. case_decide as Hex.
  - apply (rooms_wf_ext (rooms db)); [done|done| |done|done]. simpl. by rewrite fmap_sql_update.
  - apply wf_add_member; [done|by apply member_checks_room|]. intros x Hx Hs.
    apply Hex, Exists_exists. by exists x.
Qed.

Lemma wf_insert_direct_room d db db' :
  bytes_leb (dr_LeftUserPublicKey d) (dr_RightUserPublicKey d) = true →
  rooms_db_wf db → stmt_insert_direct_room d db = inr db' → rooms_db_wf db'.
Proof.
  intros Ho [H1 H2 H7 H3 H4 H5 H6]. unfold stmt_insert_direct_room, on_table.
  destruct (insert_checked _ _ _ _ _) as [e|t] eqn:Ei; [done|]. intros [= <-].
  apply insert_checked_Some in Ei as (-> & Hc & Hn). simpl in Hc.
  destruct (is_key _); [|done]. destruct (is_key _); [|done].
  case_bool_decide as Hne; [|done]. case_bool_decide as Hr; [|done]. rewrite room_exists_ids in Hr.
  constructor; simpl; auto.
  - intros x [Hx| ->%list_elem_of_singleton]%elem_of_app; auto.
  - intros x [Hx| ->%list_elem_of_singleton]%elem_of_app; auto.
  - intros x y [Hx| ->%list_elem_of_singleton]%elem_of_app [Hy| ->%list_elem_of_singleton]%elem_of_app Hs; auto.
    + destruct (Hn x Hx). destruct Hs as [Hs|[Hs1 Hs2]]; [left|right]; [done|by split].
    + destruct (Hn y Hy). exact Hs.
Qed.

Lemma orderedPublicKeyPair_le a b :
  bytes_leb (orderedPublicKeyPair a b).1 (orderedPublicKeyPair a b).2 = true.
Proof.
  unfold orderedPublicKeyPair. destruct (bytes_leb a b) eqn:E; [done|]. simpl.
  destruct (bytes_leb_total a b); congruence.
Qed.

(** ** Operations *)

(** A statement outside the invariant, by computation. *)
Ltac wf_statement :=
  first
    [ eapply preserves_exec_; intros ? ? ?; first [by apply wf_insert_room|by apply wf_insert_member|by apply wf_upsert_member]
    | eapply preserves_exec_; intros ? ? ? [= <-]; eapply rooms_wf_ext; [| | | |eassumption]; simpl; by rewrite ?fmap_sql_update
    | eapply preserves_exec; intros ? ? ? ? [= _ <-]; eapply rooms_wf_ext; [| | | |eassumption]; simpl; by rewrite ?fmap_sql_update ].

Section ops.
Context {E : Env} {App : EventAppender} {L : EventAppenderLaws append_event} {Lk : SessionLookup}
  (cfg : ClientConfig).

Lemma rooms_frame db db' : other_tables db db' → rooms_db_wf db → rooms_db_wf db'.
Proof. unfold rooms_db_wf. by intros (_ & _ & ->). Qed.

Lemma appendEvent_rooms c u ty p : preserves rooms_db_wf (appendEvent cfg c u ty p).
Proof. apply appendEvent_preserves, rooms_frame. Qed.
Lemma appendEvents_rooms c us ty p : preserves rooms_db_wf (appendEvents cfg c us ty p).
Proof. apply appendEvents_preserves, rooms_frame. Qed.

Lemma insert_invitation_rooms c i : preserves rooms_db_wf (exec_ c (stmt_insert_invitation i)).
Proof.
  apply preserves_exec_. unfold stmt_insert_invitation, on_table. intros db db' Hwf.
  destruct (insert_checked _ _ _ _ _) eqn:Ei; [done|]. intros [= <-].
  apply insert_checked_Some in Ei as (-> & _ & Hn). apply (rooms_wf_ext (rooms db)); try done.
  intros Hnd. apply NoDup_fmap_app_one; [done|]. intros x Hx Ex. by destruct (Hn x Hx).
Qed.
Lemma insert_state_rooms c st : preserves rooms_db_wf (exec_ c (stmt_insert_room_state st)).
Proof.
  apply preserves_exec_. unfold stmt_insert_room_state, on_table. intros db db' Hwf.
  destruct (insert_checked _ _ _ _ _); [done|]. intros [= <-]. by apply (rooms_wf_ext (rooms db)).
Qed.
Lemma upsert_permission_rooms c p : preserves rooms_db_wf (exec_ c (stmt_upsert_permission p)).
Proof.
  apply preserves_exec_. unfold stmt_upsert_permission. intros db db' Hwf.
  destruct (violated _); [done|]. intros [= <-]. by apply (rooms_wf_ext (rooms db)).
Qed.
Lemma upsert_group_info_rooms c g : preserves rooms_db_wf (exec_ c (stmt_upsert_group_info g)).
Proof.
  apply preserves_exec_. unfold stmt_upsert_group_info. intros db db' Hwf.
  destruct (violated _); [done|]. intros [= <-]. by apply (rooms_wf_ext (rooms db)).
Qed.
Lemma upsert_welcome_rooms c wl : preserves rooms_db_wf (exec_ c (stmt_upsert_welcome wl)).
Proof.
  apply preserves_exec_. unfold stmt_upsert_welcome. intros db db' Hwf.
  destruct (violated _); [done|]. intros [= <-]. by apply (rooms_wf_ext (rooms db)).
Qed.
Lemma set_role_rooms c room user role : preserves rooms_db_wf (exec_ c (stmt_set_role room user role)).
Proof.
  apply preserves_exec_. unfold stmt_set_role. intros db db' Hwf. case_decide; [|done]. intros [= <-].
  eapply rooms_wf_ext; [| | | |exact Hwf]; simpl; by rewrite ?fmap_sql_update.
Qed.
Lemma set_invitation_rooms c id st at_ : preserves rooms_db_wf (exec c (stmt_set_invitation_state id st at_)).
Proof.
  apply preserves_exec. unfold stmt_set_invitation_state. intros db a db' Hwf. case_decide; [|done].
  intros [= _ <-]. apply (rooms_wf_ext (rooms db)); try done. simpl. by rewrite fmap_sql_update.
Qed.
Lemma insert_direct_rooms c room user target now :
  preserves rooms_db_wf (exec_ c (stmt_insert_direct_room
    (mkDirectRoom room (orderedPublicKeyPair user target).1 (orderedPublicKeyPair user target).2 now))).
Proof.
  apply preserves_exec_. intros db db'. apply wf_insert_direct_room. apply orderedPublicKeyPair_le.
Qed.
End ops.

#[export] Hint Resolve appendEvent_rooms appendEvents_rooms insert_invitation_rooms insert_state_rooms
  upsert_permission_rooms upsert_group_info_rooms upsert_welcome_rooms set_role_rooms set_invitation_rooms
  insert_direct_rooms : preserves.

(** ** Reachability *)

(** The programs below [run_room_op], down to their statements. *)
Ltac unfold_room_op :=
  unfold KickChatMember, UpdateChatMemberRole, CreateChatMemberPermission, UpdateChatMemberPermission,
    DeleteChatMemberPermission, SendChatInvitation, UpdateChatRoom, DeleteChatRoom, UpdateChatRoomState,
    UploadGroupInfo, CreateChatRoom, SvcCreateDirectRoom, JoinChatRoom, LeaveChatRoom, SendExternalCommit,
    SendWelcome, RevokeChatInvitation, AcceptChatInvitation, DeclineChatInvitation, SvcDeleteAccount,
    KickMember, UpdateMemberRole, CreateMemberPermission, UpdateMemberPermission, DeleteMemberPermission,
    CreateInvitation, RepoUpdateRoom, RepoDeleteRoom, AddRoomState, UpsertRoomGroupInfo, RepoCreateRoom,
    RepoJoinRoom, RepoLeaveRoom, UpsertRoomMembership, UpsertRoomWelcome, UpdateInvitationState,
    lookupPermissionRoom, ensureRoomAdmin, ensureMember, GetRoom, GetInvitation, members_or_nil,
    ListActiveRoomMemberPublicKeys, GetRoomGroupInfo, IsDirectRoom, FindDirectRoomIDByUsers, AreFriends,
    accept_invitation_tx, RepoDeleteAccount.

Section reachable.
Context {E : Env} {App : EventAppender} {L : EventAppenderLaws append_event} {Lk : SessionLookup}
  (cfg : ClientConfig).

(** One operation of the program on the room tables. *)
Inductive room_op : Type :=
  | RoomGuarded (user : Bytes) (op : guarded_op)
  | RoomCreate (user : Bytes) (title description : string) (visibility : Z)
  | RoomCreateDirect (user target : Bytes)
  | RoomJoin (user : Bytes) (room : UUID)
  | RoomLeave (user : Bytes) (room : UUID)
  | RoomExternalCommit (user : Bytes) (room : UUID) (commit : Bytes)
  | RoomWelcome (user : Bytes) (room : option UUID) (target welcome : Bytes)
  | RoomRevoke (user : Bytes) (invitation : UUID)
  | RoomAccept (user : Bytes) (invitation : UUID) (commit : Bytes)
  | RoomDecline (user : Bytes) (invitation : UUID)
  | RoomDeleteAccount (user : Bytes).

Definition run_room_op (op : room_op) : M GoMap :=
  match op with
  | RoomGuarded user op => run_guarded_op cfg user op
  | RoomCreate user t d v => CreateChatRoom Background user t d v
  | RoomCreateDirect user target => SvcCreateDirectRoom Background user target
  | RoomJoin user room => JoinChatRoom cfg Background user room
  | RoomLeave user room => LeaveChatRoom cfg Background user room
  | RoomExternalCommit user room commit => SendExternalCommit cfg Background user room commit
  | RoomWelcome user room target welcome => SendWelcome cfg Background user room target welcome
  | RoomRevoke user i => RevokeChatInvitation cfg Background user i
  | RoomAccept user i commit => AcceptChatInvitation cfg Background user i commit
  | RoomDecline user i => DeclineChatInvitation cfg Background user i
  | RoomDeleteAccount user => SvcDeleteAccount Background user
  end.

(** Operations on rooms, and any step of the rest of the program. *)
Inductive room_step : World → World → Prop :=
  | room_step_op op w : room_step w (run_room_op op w).2
  | room_step_other w w' : rooms (w_db w') = rooms (w_db w) → room_step w w'.

Lemma direct_room_tx_rooms user target room now c : preserves rooms_db_wf (direct_room_tx user target room now c).
Proof.
  unfold direct_room_tx, FindDirectRoomIDByUsers, CreateDirectRoom, RepoCreateRoom.
  pose proof (insert_direct_rooms c room user target now) as Hd.
  destruct (orderedPublicKeyPair user target) as [lo hi]. solve_preserves; try exact Hd; wf_statement.
Qed.

Lemma delete_account_rooms k at_ f : f ∈ delete_account_statements k at_ → ∀ db, rooms_db_wf db → rooms_db_wf (f db).
Proof.
  unfold delete_account_statements. intros Hf db Hwf.
  repeat (apply elem_of_cons in Hf as [->|Hf];
    [apply (rooms_wf_ext (rooms db)); [done|done|simpl; by rewrite ?fmap_sql_update|by try apply NoDup_fmap_filter|done]|]).
  by apply not_elem_of_nil in Hf.
Qed.

Lemma room_op_wf op : preserves rooms_db_wf (run_room_op op).
Proof.
  destruct op as [user []| | | | | | | | | |]; simpl; unfold_room_op; solve_preserves; try wf_statement.
  - apply preserves_WithinTransactionCapturing, direct_room_tx_rooms.
  - apply preserves_exec_. intros db db' Hwf [= <-]. eapply delete_account_rooms; [|done].
    match goal with H : _ ∈ delete_account_statements _ _ |- _ => exact H end.
Qed.

Lemma reachable_rooms_wf w0 w :
  rooms (w_db w0) = rooms empty_DB → rtc room_step w0 w → rooms_db_wf (w_db w).
Proof.
  intros E0 Hrun.
  assert (rooms_db_wf (w_db w0)) as H0.
  { unfold rooms_db_wf. rewrite E0. constructor; simpl; try apply NoDup_nil_2; set_solver. }
  clear E0. induction Hrun as [|w1 w2 w3 [op w|w w' Er] _ IH]; [done| |].
  - apply IH. by apply room_op_wf.
  - apply IH. revert H0. unfold rooms_db_wf. by rewrite Er.
Qed.
End reachable.

(** ** One direct room per pair *)

Lemma orderedPublicKeyPair_comm a b : orderedPublicKeyPair a b = orderedPublicKeyPair b a.
Proof.
  unfold orderedPublicKeyPair. destruct (bytes_leb a b) eqn:E1, (bytes_leb b a) eqn:E2; try done.
  - by rewrite (bytes_leb_antisym a b).
  - destruct (bytes_leb_total a b); congruence.
Qed.

Section unique.
Context {E : Env} {App : EventAppender} {L : EventAppenderLaws append_event} {Lk : SessionLookup}
  (cfg : ClientConfig).

(** The direct room is one of the two users, whoever asked for it. *)
Definition direct_between (a b : Bytes) (d : DirectRoomRecord) : Prop :=
  (dr_LeftUserPublicKey d = a ∧ dr_RightUserPublicKey d = b) ∨ (dr_LeftUserPublicKey d = b ∧ dr_RightUserPublicKey d = a).

(** C24: In every state the program can reach, in whatever order its
    operations ran and whichever statements failed, a user has at most one
    membership per room; two users have at most one direct room, whichever
    of the two comes first in its row; and nobody has one with oneself. *)
Theorem one_direct_room_per_pair w0 w :
  rooms (w_db w0) = rooms empty_DB → rtc (room_step cfg) w0 w →
  (∀ m m', m ∈ chat_members (rooms (w_db w)) → m' ∈ chat_members (rooms (w_db w)) →
     mem_RoomID m = mem_RoomID m' → mem_UserPublicKey m = mem_UserPublicKey m' → m = m')
  ∧ (∀ d d' a b, d ∈ direct_rooms (rooms (w_db w)) → d' ∈ direct_rooms (rooms (w_db w)) →
       direct_between a b d → direct_between a b d' → d = d')
  ∧ (∀ d a, d ∈ direct_rooms (rooms (w_db w)) → ¬ direct_between a a d).
Proof.
  intros E0 Hrun. destruct (reachable_rooms_wf cfg w0 w E0 Hrun) as [_ Hm _ _ _ Ho Hp]. split_and!.
  - intros m m' Hin Hin' Er Eu. apply (NoDup_fmap_inj_in mem_key _ _ _ Hm Hin Hin').
    unfold mem_key. congruence.
  - intros d d' a b Hd Hd' H1 H2. apply Hp; [done|done|right]. destruct (Ho d Hd) as [Hle Hne], (Ho d' Hd') as [Hle' _].
    assert (∀ x y, bytes_leb x y = true → bytes_leb y x = true → x = y) as Hanti by (intros; by apply bytes_leb_antisym).
    destruct H1 as [[E1 E2]|[E1 E2]], H2 as [[E3 E4]|[E3 E4]]; [split; congruence| | |split; congruence];
      destruct Hne; apply Hanti; congruence.
  - intros d a Hd Hb. destruct (Ho d Hd) as [_ Hne]. apply Hne. destruct Hb as [[-> ->]|[-> ->]]; done.
Qed.
End unique.
