(* ===== verification/RoomDirect.v ===== *)
(** * RoomDirect: creating direct rooms

    What [CreateDirectRoom] establishes, that asking again finds the same
    room, and what the unique pair of a deleted room does. *)

From Stdlib Require Import ZArith.
From S2P Require Import Prelude GoLib GoTime Domain Database Effects Pagination AuthRepo AuthService.
From S2P Require Import AuthSpec ClientRepo FriendRepo RoomRepo ClientService RoomService FriendSpec.
From S2P Require Import RoomSpec RoomInv.

Local Open Scope Z_scope.

Section direct.
Context {E : Env}.

(** The live direct room of two users, in either order. *)
Definition direct_room_of (a b : Bytes) (db : DB) : option UUID :=
  let '(lo, hi) := orderedPublicKeyPair a b in select_direct_room lo hi db.

Definition direct_room_rows (user target : Bytes) (roomID : UUID) (now : Time) (db : DB) : DB :=
  let room := mkRoom roomID user "Direct" "" VisibilityPrivate "" [] "" None now now None in
  let '(lo, hi) := orderedPublicKeyPair user target in
  set_chat_members (chat_members (rooms db) ++ [new_member roomID user RoleOwner now; new_member roomID target RoleMember now])
    (set_direct_rooms (direct_rooms (rooms db) ++ [mkDirectRoom roomID lo hi now])
      (set_chat_rooms (chat_rooms (rooms db) ++ [room_row room]) db)).

Lemma FindDirectRoom_run c a b w :
  FindDirectRoomIDByUsers c a b w = query c (direct_room_of a b) w.
Proof. unfold FindDirectRoomIDByUsers, direct_room_of. by destruct (orderedPublicKeyPair a b). Qed.

Lemma direct_room_of_comm a b db : direct_room_of a b db = direct_room_of b a db.
Proof. unfold direct_room_of. by rewrite orderedPublicKeyPair_comm. Qed.

Lemma are_friends_comm a b db : are_friends a b db → are_friends b a db.
Proof. intros [? ?]. by split. Qed.

Lemma exec_ok c (f : DB → error + DB) w w' :
  exec_ c f w = (Ok tt, w') → f (w_db w) = inr (w_db w').
Proof.
  unfold exec_, exec. destruct (fault_at _); [done|]. destruct (f (w_db w)) as [e|db]; [done|].
  by intros [= <-].
Qed.

Lemma exec_err c (f : DB → error + DB) w e w' :
  (∀ db e, f db = inl e → ∃ s, e = EDatabase s) → exec_ c f w = (Err e, w') → ∃ s, e = EDatabase s.
Proof.
  intros Hf. unfold exec_, exec. destruct (fault_at _); [intros [= <- _]; by eexists|].
  destruct (f (w_db w)) as [e'|db] eqn:Ef; [|done]. intros [= <- _]. by eapply Hf.
Qed.

(** Statements fail with the database's own errors. *)
Lemma on_table_err {R} (set : list R → DB → DB) checks (same : R → R → Prop) `{!∀ a b, Decision (same a b)}
  name r t db e : on_table set (insert_checked checks same name r t) db = inl e → ∃ s, e = EDatabase s.
Proof.
  unfold on_table, insert_checked. destruct (violated checks); [intros [= <-]; by eexists|].
  destruct (sql_insert _ _ _); [done|]. intros [= <-]. by eexists.
Qed.

Lemma insert_ok {R} (set : list R → DB → DB) checks (same : R → R → Prop) `{!∀ a b, Decision (same a b)}
  name r t db db' :
  on_table set (insert_checked checks same name r t) db = inr db' →
  db' = set (t ++ [r]) db ∧ violated checks = None ∧ ∀ x, x ∈ t → ¬ same r x.
Proof.
  unfold on_table. destruct (insert_checked _ _ _ _ _) eqn:Ei; [done|]. intros [= <-].
  by apply insert_checked_Some in Ei as (-> & ? & ?).
Qed.

Lemma CreateDirectRoom_ok c user target roomID now w w' :
  let '(lo, hi) := orderedPublicKeyPair user target in
  CreateDirectRoom c (mkRoom roomID user "Direct" "" VisibilityPrivate "" [] "" None now now None)
    (new_member roomID user RoleOwner now) (new_member roomID target RoleMember now)
    (mkDirectRoom roomID lo hi now) w = (Ok tt, w') →
  w_db w' = direct_room_rows user target roomID now (w_db w)
  ∧ ∀ d, d ∈ direct_rooms (rooms (w_db w)) → (dr_LeftUserPublicKey d, dr_RightUserPublicKey d) ≠ (lo, hi).
Proof.
  unfold direct_room_rows. destruct (orderedPublicKeyPair user target) as [lo hi].
  unfold CreateDirectRoom, RepoCreateRoom, bind.
  destruct (exec_ c (stmt_insert_room _) w) as [[[]|?|?] w1] eqn:E1; [|done|done].
  destruct (exec_ c (stmt_insert_member _) w1) as [[[]|?|?] w2] eqn:E2; [|done|done].
  destruct (exec_ c (stmt_insert_direct_room _) w2) as [[[]|?|?] w3] eqn:E3; [|done|done].
  intros E4. apply exec_ok in E1, E2, E3, E4. unfold stmt_insert_room, stmt_insert_member, stmt_insert_direct_room in *.
  apply insert_ok in E1 as (E1 & _ & _). apply insert_ok in E2 as (E2 & _ & _).
  apply insert_ok in E3 as (E3 & _ & Hd). apply insert_ok in E4 as (E4 & _ & _).
  rewrite E2, E1 in Hd. rewrite E4, E3, E2, E1. split; [by simpl; rewrite <- app_assoc|].
  intros d Hin [= El Er]. apply (Hd d Hin). right. by split.
Qed.

Lemma CreateDirectRoom_err c room left right direct w e w' :
  CreateDirectRoom c room left right direct w = (Err e, w') → Is e ErrConflict = false.
Proof.
  intros Hrun. assert (∃ s, e = EDatabase s) as [s ->]; [|done]. revert Hrun.
  unfold CreateDirectRoom, RepoCreateRoom, bind.
  assert (∀ db e, stmt_insert_room room db = inl e → ∃ s, e = EDatabase s) as H1 by (intros ? ?; apply on_table_err).
  assert (∀ m db e, stmt_insert_member m db = inl e → ∃ s, e = EDatabase s) as H2 by (intros ? ? ?; apply on_table_err).
  assert (∀ db e, stmt_insert_direct_room direct db = inl e → ∃ s, e = EDatabase s) as H3 by (intros ? ?; apply on_table_err).
  destruct (exec_ c (stmt_insert_room _) w) as [[[]|?|?] w1] eqn:E1; [|intros [= <- _]; exact (exec_err _ _ _ _ _ H1 E1)|done].
  destruct (exec_ c (stmt_insert_member _) w1) as [[[]|?|?] w2] eqn:E2; [|intros [= <- _]; exact (exec_err _ _ _ _ _ (H2 _) E2)|done].
  destruct (exec_ c (stmt_insert_direct_room _) w2) as [[[]|?|?] w3] eqn:E3; [|intros [= <- _]; exact (exec_err _ _ _ _ _ H3 E3)|done].
  exact (exec_err _ _ _ _ _ (H2 right)).
Qed.

Lemma direct_room_tx_ok user target roomID now w id o w' :
  direct_room_of user target (w_db w) = None →
  direct_room_tx user target roomID now InTx w = (Ok (id, o), w') →
  id = roomID ∧
  match o with
  | Some e => Is e ErrConflict = false
  | None => w_db w' = direct_room_rows user target roomID now (w_db w)
            ∧ ∀ d, d ∈ direct_rooms (rooms (w_db w)) →
                (dr_LeftUserPublicKey d, dr_RightUserPublicKey d) ≠ orderedPublicKeyPair user target
  end.
Proof.
  intros Hn. unfold direct_room_tx, bind at 1. rewrite FindDirectRoom_run. unfold query.
  destruct (fault_at _); [done|]. rewrite Hn.
  pose proof (CreateDirectRoom_ok InTx user target roomID now (tick_stmt w)) as Hok.
  destruct (orderedPublicKeyPair user target) as [lo hi]. unfold bind, attempt.
  set (m := CreateDirectRoom _ _ _ _ _) in *. destruct (m (tick_stmt w)) as [[[]|e|s] w1] eqn:Em; [| |done].
  - intros [= <- <- <-]. split; [done|]. by apply (Hok w1).
  - intros [= <- <- <-]. split; [done|]. by eapply CreateDirectRoom_err.
Qed.

Lemma direct_room_rows_found user target roomID now db :
  (∀ d, d ∈ direct_rooms (rooms db) →
     (dr_LeftUserPublicKey d, dr_RightUserPublicKey d) ≠ orderedPublicKeyPair user target) →
  direct_room_of user target (direct_room_rows user target roomID now db) = Some roomID.
Proof.
  unfold direct_room_of, direct_room_rows. destruct (orderedPublicKeyPair user target) as [lo hi].
  intros Hn. unfold select_direct_room, sql_row. simpl. rewrite filter_app.
  replace (filter _ (direct_rooms (rooms db))) with (@nil DirectRoomRecord).
  - rewrite filter_cons_True; [done|]. split_and!; [done|done|]. simpl.
    apply Exists_app. right. by constructor.
  - symmetry. apply filter_nil_iff. intros d Hd (El & Er & _). apply (Hn d Hd). congruence.
Qed.

Lemma tx_capturing_ok {V} (fn : Ctx → M (V * option error)) w v w' :
  WithinTransactionCapturing Background fn w = (Ok (v, None), w') →
  ∃ w1, fn InTx (tick_stmt w) = (Ok (v, None), w1) ∧ w_db w' = w_db w1.
Proof.
  simpl. destruct (fault_at _); [done|]. destruct (fn InTx (tick_stmt w)) as [[[v1 [e|]]|e|s] w1]; try done.
  destruct (fault_at _); [done|]. intros [= <- <-]. by exists w1.
Qed.

Lemma tx_capturing_some {V} (fn : Ctx → M (V * option error)) w v e w' :
  WithinTransactionCapturing Background fn w = (Ok (v, Some e), w') →
  ∃ w1, fn InTx (tick_stmt w) = (Ok (v, Some e), w1) ∧ w_db w' = w_db w.
Proof.
  simpl. destruct (fault_at _); [done|]. destruct (fn InTx (tick_stmt w)) as [[[v1 [e1|]]|e1|s] w1]; try done.
  - intros [= <- <- <-]. by exists w1.
  - by destruct (fault_at _).
Qed.

Lemma tx_capturing_failed {V} (fn : Ctx → M (V * option error)) w r w' :
  WithinTransactionCapturing Background fn w = (r, w') → (∀ v, r ≠ Ok v) → w_db w' = w_db w.
Proof.
  simpl. destruct (fault_at _); [by intros [= <- <-]|].
  destruct (fn InTx (tick_stmt w)) as [[[v1 [e1|]]|e1|s] w1]; try by intros [= <- <-].
  destruct (fault_at _); intros [= <- <-] Hr; [done|by destruct (Hr _ eq_refl)].
Qed.

(** What an accepted [CreateDirectRoom] has done. *)
Definition direct_room_outcome (user target : Bytes) (db : DB) (a : GoMap) (id : UUID) (db' : DB) : Prop :=
  (a = existing_direct_room id ∧ db' = db)
  ∨ (∃ now, a = [("roomId", AUUID id); ("alreadyExisted", ABool false); ("createdAt", AFormatted now)]%string
       ∧ (∀ d, d ∈ direct_rooms (rooms db) →
            (dr_LeftUserPublicKey d, dr_RightUserPublicKey d) ≠ orderedPublicKeyPair user target)
       ∧ db' = direct_room_rows user target id now db).

Lemma SvcCreateDirectRoom_ok user target w a w' :
  SvcCreateDirectRoom Background user target w = (Ok a, w') →
  length target = PublicKeySize ∧ user ≠ target ∧ are_friends user target (w_db w)
  ∧ ∃ id, direct_room_of user target (w_db w') = Some id
      ∧ direct_room_outcome user target (w_db w) a id (w_db w').
Proof.
  unfold SvcCreateDirectRoom. case_decide as Hlen; [done|]. case_decide as Hne; [done|].
  unfold AreFriends. unfold bind at 1, query. destruct (fault_at _); [done|].
  case_bool_decide as Hf; [|done]. cbn [negb]. cbv beta iota.
  unfold bind at 1. rewrite FindDirectRoom_run. unfold query. destruct (fault_at _); [done|].
  change (w_db (tick_stmt w)) with (w_db w). destruct (direct_room_of user target (w_db w)) as [id|] eqn:Hd.
  { intros [= <- <-]. split_and!; [done|done|done|].
    exists id. split; [done|]. by left. }
  unfold bind at 1, Now. unfold bind at 1, NewUUID. unfold bind at 1. simpl w_uuid. simpl w_clock.
  set (now := clock_at _). set (roomID := uuid_at _).
  destruct (WithinTransactionCapturing _ _ _) as [[[id [e|]]|e|s] w1] eqn:Ew; [| |done|done].
  - apply tx_capturing_some in Ew as (w2 & Ew & _).
    apply direct_room_tx_ok in Ew as [_ ->]; [done|exact Hd].
  - apply tx_capturing_ok in Ew as (w2 & Ew & Edb).
    apply direct_room_tx_ok in Ew as [_ [Ew Hn]]; [|exact Hd]. intros [= <- <-].
    split_and!; [done|done|done|]. exists roomID.
    rewrite Edb, Ew. split; [by apply direct_room_rows_found|]. right. by exists now.
Qed.

Lemma SvcCreateDirectRoom_failed user target w r w' :
  SvcCreateDirectRoom Background user target w = (r, w') → (∀ a, r ≠ Ok a) → w_db w' = w_db w.
Proof.
  unfold SvcCreateDirectRoom. repeat (case_decide; [by intros [= <- <-]|]).
  unfold AreFriends. unfold bind at 1, query. destruct (fault_at _); [by intros [= <- <-]|].
  case_bool_decide; [|by intros [= <- <-]]. cbn [negb]. cbv beta iota.
  unfold bind at 1. rewrite FindDirectRoom_run. unfold query. destruct (fault_at _); [by intros [= <- <-]|].
  destruct (direct_room_of _ _ _); [by intros [= <- <-]|].
  unfold bind at 1, Now. unfold bind at 1, NewUUID. unfold bind at 1.
  set (w1 := mkWorld _ _ _ _ _ _).
  destruct (WithinTransactionCapturing _ _ _) as [[[id [e|]]|e|s] w2] eqn:Ew.
  - apply tx_capturing_some in Ew as (w3 & _ & Edb). destruct (Is e ErrConflict); by intros [= <- <-].
  - intros [= <- <-] Hr. by destruct (Hr _ eq_refl).
  - intros [= <- <-] _. by apply (tx_capturing_failed _ _ _ _ Ew).
  - intros [= <- <-] _. by apply (tx_capturing_failed _ _ _ _ Ew).
Qed.

Lemma SvcCreateDirectRoom_found user target w id :
  quiet → length target = PublicKeySize → user ≠ target → are_friends user target (w_db w) →
  direct_room_of user target (w_db w) = Some id →
  SvcCreateDirectRoom Background user target w = (Ok (existing_direct_room id), tick_stmt (tick_stmt w)).
Proof.
  intros Hq Hlen Hne Hf Hid. unfold SvcCreateDirectRoom. rewrite decide_False by tauto.
  rewrite decide_False by done. unfold AreFriends. unfold bind at 1, query. rewrite Hq.
  rewrite bool_decide_true by done. cbn [negb]. cbv iota.
  unfold bind. rewrite FindDirectRoom_run. unfold query. rewrite Hq.
  change (w_db (tick_stmt w)) with (w_db w). by rewrite Hid.
Qed.

(** C23: A direct room is created, or found, only between two friends, and
    then the pair has a live direct room: the answer names it, and either
    nothing changed or exactly its room, its pair and its two memberships,
    the caller as owner, were added in one transaction.  Asking again,
    from either side, finds the same room and changes nothing. *)
Theorem CreateDirectRoom_establishes user target w a w' :
  SvcCreateDirectRoom Background user target w = (Ok a, w') →
  are_friends user target (w_db w)
  ∧ ∃ id, direct_room_of user target (w_db w') = Some id
      ∧ direct_room_outcome user target (w_db w) a id (w_db w')
      ∧ (quiet → length user = PublicKeySize → ∀ caller peer, (caller, peer) ∈ [(user, target); (target, user)] →
           (SvcCreateDirectRoom Background caller peer w').1 = Ok (existing_direct_room id)
           ∧ w_db (SvcCreateDirectRoom Background caller peer w').2 = w_db w').
Proof.
  intros (Hlt & Hne & Hf & id & Hid & Ho)%SvcCreateDirectRoom_ok. split; [done|]. exists id.
  split; [done|]. split; [done|]. intros Hq Hlu caller peer Hin.
  assert (social (w_db w') = social (w_db w)) as Es.
  { destruct Ho as [[_ ->]|(now & _ & _ & ->)]; [done|]. unfold direct_room_rows.
    by destruct (orderedPublicKeyPair _ _). }
  assert (are_friends caller peer (w_db w') ∧ length peer = PublicKeySize ∧ caller ≠ peer
          ∧ direct_room_of caller peer (w_db w') = Some id) as (Hf' & Hlp & Hcp & Hid').
  { assert (are_friends user target (w_db w')) as Hf' by (unfold are_friends; by rewrite Es).
    apply elem_of_cons in Hin as [Hin|Hin%list_elem_of_singleton]; injection Hin as -> ->; [done|].
    rewrite direct_room_of_comm. split_and!; [by apply are_friends_comm|done|congruence|done]. }
  rewrite (SvcCreateDirectRoom_found caller peer w' id) by done. by split.
Qed.

(** The pair of a deleted direct room stays taken: once its room is
    deleted, no request of either user creates another, and every attempt
    leaves the database as it was. *)
Lemma deleted_direct_room_blocks user target d w :
  d ∈ direct_rooms (rooms (w_db w)) →
  (dr_LeftUserPublicKey d, dr_RightUserPublicKey d) = orderedPublicKeyPair user target →
  direct_room_of user target (w_db w) = None →
  refused (SvcCreateDirectRoom Background user target) w.
Proof.
  intros Hd Ep Hn. unfold refused. destruct (SvcCreateDirectRoom Background user target w) as [r w'] eqn:Er. simpl.
  assert (∀ a, r ≠ Ok a) as Hr.
  { intros a ->. apply SvcCreateDirectRoom_ok in Er as (_ & _ & _ & id & Hid & [[_ Edb]|(now & _ & Hp & _)]); [congruence|by apply (Hp d)]. }
  split; [|done]. by eapply SvcCreateDirectRoom_failed.
Qed.
End direct.
