(* ===== verification/RoomMembers.v ===== *)
(** * RoomMembers: memberships, roles and invitations

    What joining does to a membership, how invitations move, and that no
    operation gives a role of administrator or owner away without one. *)

From Stdlib Require Import ZArith.
From S2P Require Import Prelude GoLib GoTime Domain Database Effects Pagination AuthRepo AuthService.
From S2P Require Import AuthSpec ClientRepo FriendRepo RoomRepo ClientService RoomService FriendSpec.
From S2P Require Import RoomSpec RoomInv RoomDirect.

Local Open Scope Z_scope.

(** ** Roles *)

(** The memberships with a say in the room. *)
Definition elevated (m : ChatMemberRecord) : Prop := mem_LeftAt m = None ∧ RoleAdmin ≤ mem_Role m.

(** Every elevated membership of [db] is one of [db0] or satisfies [X]. *)
Definition elevated_from (t0 : list ChatMemberRecord) (X : ChatMemberRecord → Prop) (db : DB) : Prop :=
  ∀ m, m ∈ chat_members (rooms db) → elevated m → m ∈ t0 ∨ X m.

Lemma elevated_ext t0 X db db' :
  chat_members (rooms db') = chat_members (rooms db) → elevated_from t0 X db → elevated_from t0 X db'.
Proof. unfold elevated_from. by intros ->. Qed.

Lemma elevated_refl t0 X db : chat_members (rooms db) = t0 → elevated_from t0 X db.
Proof. intros <- m Hm _. by left. Qed.

Lemma elevated_upsert t0 X m db db' :
  mem_Role m < RoleAdmin → stmt_upsert_member m db = inr db' → elevated_from t0 X db → elevated_from t0 X db'.
Proof.
  intros Hr. unfold stmt_upsert_member. destruct (violated _); [done|]. intros [= <-] HI x. simpl.
  unfold sql_upsert. case_decide.
  - intros (y & Hy & [[_ ->]|[_ ->]])%elem_of_sql_update; [|by apply HI].
    intros [_ Hx]. unfold merge_member in Hx. simpl in Hx. lia.
  - intros [Hx| ->%list_elem_of_singleton]%elem_of_app; [by apply HI|]. intros [_ ?]. lia.
Qed.

Lemma elevated_leave t0 (X : ChatMemberRecord → Prop) P `{!∀ m, Decision (P m)} at_ db :
  elevated_from t0 X db →
  elevated_from t0 X (set_chat_members (sql_update P (mem_set_left at_) (chat_members (rooms db))) db).
Proof. intros HI x (y & Hy & [[_ ->]|[_ ->]])%elem_of_sql_update; [by intros [? _]|by apply HI]. Qed.

(** The statements that leave the memberships and the set of rooms alone. *)
Definition same_membership (db db' : DB) : Prop :=
  r_room_id <$> chat_rooms (rooms db') = r_room_id <$> chat_rooms (rooms db)
  ∧ chat_members (rooms db') = chat_members (rooms db).

Section frame.
Context {E : Env} {App : EventAppender} {L : EventAppenderLaws append_event} (cfg : ClientConfig) (I : DB → Prop).
Hypothesis I_ext : ∀ db db', same_membership db db' → I db → I db'.

Lemma frame_exec_ c (f : DB → error + DB) :
  (∀ db db', f db = inr db' → same_membership db db') → preserves I (exec_ c f).
Proof. intros Hf. apply preserves_exec_. intros db db' Hdb Ef. eapply I_ext; [by apply Hf|done]. Qed.

Lemma frame_on_table {R} c (set : list R → DB → DB) (checks : DB → list (bool * string)) (same : R → R → Prop)
  `{!∀ a b, Decision (same a b)} name r (get : DB → list R) :
  (∀ t db, same_membership db (set t db)) →
  preserves I (exec_ c (λ db, on_table set (insert_checked (checks db) same name r (get db)) db)).
Proof.
  intros Hset. apply frame_exec_. unfold on_table. intros db db'.
  destruct (insert_checked _ _ _ _ _); [done|]. intros [= <-]. apply Hset.
Qed.

Lemma frame_insert_invitation c i : preserves I (exec_ c (stmt_insert_invitation i)).
Proof. by apply (frame_on_table c set_chat_invitations). Qed.
Lemma frame_insert_state c st : preserves I (exec_ c (stmt_insert_room_state st)).
Proof. by apply (frame_on_table c set_chat_room_states). Qed.
Lemma frame_insert_direct c d : preserves I (exec_ c (stmt_insert_direct_room d)).
Proof. by apply (frame_on_table c set_direct_rooms). Qed.
Lemma frame_upsert_permission c p : preserves I (exec_ c (stmt_upsert_permission p)).
Proof.
  apply frame_exec_. unfold stmt_upsert_permission. intros db db'. destruct (violated _); [done|]. by intros [= <-].
Qed.
Lemma frame_upsert_group_info c g : preserves I (exec_ c (stmt_upsert_group_info g)).
Proof.
  apply frame_exec_. unfold stmt_upsert_group_info. intros db db'. destruct (violated _); [done|]. by intros [= <-].
Qed.
Lemma frame_upsert_welcome c wl : preserves I (exec_ c (stmt_upsert_welcome wl)).
Proof.
  apply frame_exec_. unfold stmt_upsert_welcome. intros db db'. destruct (violated _); [done|]. by intros [= <-].
Qed.
Lemma frame_set_invitation c id st at_ : preserves I (exec c (stmt_set_invitation_state id st at_)).
Proof.
  apply preserves_exec. unfold stmt_set_invitation_state. intros db a db' Hdb. case_decide; [|done].
  intros [= _ <-]. by apply (I_ext db).
Qed.
Lemma frame_set c (f : DB → DB) : (∀ db, same_membership db (f db)) → preserves I (exec_ c (λ db, inr (f db))).
Proof. intros Hf. apply frame_exec_. intros db db' [= <-]. apply Hf. Qed.

Lemma same_membership_other db db' : other_tables db db' → same_membership db db'.
Proof. intros (_ & _ & Er). unfold same_membership. by rewrite Er. Qed.
Lemma frame_appendEvent c u ty p : preserves I (appendEvent cfg c u ty p).
Proof. apply appendEvent_preserves. intros db db' Ho. by apply I_ext, same_membership_other. Qed.
Lemma frame_appendEvents c us ty p : preserves I (appendEvents cfg c us ty p).
Proof. apply appendEvents_preserves. intros db db' Ho. by apply I_ext, same_membership_other. Qed.
End frame.

Section roles.
Context {E : Env} {App : EventAppender} {L : EventAppenderLaws append_event} {Lk : SessionLookup}
  (cfg : ClientConfig).

(** Who may come by a role of administrator or owner in [op], other than
    those who have it in [db0]. *)
Definition may_elevate (op : room_op) (db0 : DB) (m : ChatMemberRecord) : Prop :=
  match op with
  | RoomGuarded user (OpRole room _ _) => mem_RoomID m = room ∧ is_admin user room db0
  | RoomCreate user _ _ _ | RoomCreateDirect user _ =>
      mem_UserPublicKey m = user ∧ ¬ room_exists (mem_RoomID m) db0
  | _ => False
  end.

(** Rooms are never removed, so a room that is new now was not in [db0]. *)
Definition roles_inv (op : room_op) (db0 db : DB) : Prop :=
  (∀ id, room_exists id db0 → room_exists id db)
  ∧ elevated_from (chat_members (rooms db0)) (may_elevate op db0) db.

Lemma roles_inv_refl op db : roles_inv op db db.
Proof. split; [done|by apply elevated_refl]. Qed.

Lemma roles_inv_ext op db0 db db' : same_membership db db' → roles_inv op db0 db → roles_inv op db0 db'.
Proof.
  intros [Er Em] [H1 H2]. split; [|by eapply elevated_ext].
  intros id Hid%H1. rewrite room_exists_ids in *. by rewrite Er.
Qed.

Lemma roles_inv_members op db0 t db :
  elevated_from (chat_members (rooms db0)) (may_elevate op db0) (set_chat_members t db) →
  roles_inv op db0 db → roles_inv op db0 (set_chat_members t db).
Proof. by intros He [Hr _]. Qed.

Lemma roles_upsert op db0 c m : mem_Role m < RoleAdmin → preserves (roles_inv op db0) (exec_ c (stmt_upsert_member m)).
Proof.
  intros Hr. apply preserves_exec_. intros db db' [H1 H2] Es.
  pose proof (elevated_upsert _ _ _ _ _ Hr Es H2) as He. revert Es He. unfold stmt_upsert_member.
  destruct (violated _); [done|]. intros [= <-] He. by split.
Qed.

Lemma roles_leave op db0 c room user at_ : preserves (roles_inv op db0) (exec c (stmt_leave room user at_)).
Proof.
  apply preserves_exec. intros db a db' HI [= _ <-]. apply roles_inv_members; [|done].
  apply elevated_leave, HI.
Qed.

Lemma roles_insert_member op db0 m c :
  hoare (λ db, roles_inv op db0 db ∧ (elevated m → may_elevate op db0 m)) (exec_ c (stmt_insert_member m))
    (λ _, roles_inv op db0) (roles_inv op db0).
Proof.
  apply hoare_exec_; [by intros db [? _]|]. intros db db' [HI Hm] Es.
  apply insert_ok in Es as (-> & _ & _). apply roles_inv_members; [|done].
  intros x [Hx| ->%list_elem_of_singleton]%elem_of_app He; [by apply (proj2 HI)|right; by apply Hm].
Qed.

Lemma roles_insert_room op db0 room c :
  hoare (roles_inv op db0) (exec_ c (stmt_insert_room room))
    (λ _ db, roles_inv op db0 db ∧ ¬ room_exists (room_RoomID room) db0) (roles_inv op db0).
Proof.
  apply hoare_exec_; [done|]. intros db db' [Hr He] Es. apply insert_ok in Es as (-> & _ & Hn). split; [split; [|done]|].
  - intros id Hid%Hr. unfold room_exists. simpl. apply Exists_app. by left.
  - intros Hex%Hr. unfold room_exists in Hex. apply Exists_exists in Hex as (x & Hx & Ex). by apply (Hn x Hx).
Qed.

Lemma roles_create op db0 c room m :
  room_RoomID room = mem_RoomID m →
  (¬ room_exists (mem_RoomID m) db0 → may_elevate op db0 m) →
  preserves (roles_inv op db0) (RepoCreateRoom c room m).
Proof.
  intros Hid Hm. apply hoare_preserves. unfold RepoCreateRoom. eapply hoare_bind; [apply roles_insert_room|].
  intros u. eapply hoare_conseq; [apply (roles_insert_member op db0 m c)| |intros a db H; exact H|intros db H; exact H].
  intros db [HI Hn]. split; [done|]. intros _. apply Hm. by rewrite <- Hid.
Qed.

Lemma roles_set_role user room target role c db0 :
  is_admin user room db0 →
  preserves (roles_inv (RoomGuarded user (OpRole room target role)) db0) (exec_ c (stmt_set_role room target role)).
Proof.
  intros Ha. apply preserves_exec_. unfold stmt_set_role. intros db db' HI. case_decide; [|done]. intros [= <-].
  apply roles_inv_members; [|done]. intros x (y & Hy & [[(Er & _) ->]|[_ ->]])%elem_of_sql_update Hx.
  - right. by split.
  - by apply (proj2 HI).
Qed.

Lemma roles_direct_tx user target room now db0 :
  preserves (roles_inv (RoomCreateDirect user target) db0) (direct_room_tx user target room now InTx).
Proof.
  pose proof (roles_inv_ext (RoomCreateDirect user target) db0) as Hext.
  pose proof (frame_insert_direct _ Hext).
  unfold direct_room_tx, FindDirectRoomIDByUsers, CreateDirectRoom.
  assert (∀ c m, mem_Role m = RoleMember → preserves (roles_inv (RoomCreateDirect user target) db0) (exec_ c (stmt_insert_member m))) as Hm.
  { intros c m Hr. apply hoare_preserves. eapply hoare_conseq; [apply (roles_insert_member (RoomCreateDirect user target) db0 m c)| |intros a db H1; exact H1|intros db H1; exact H1].
    intros db HI. split; [done|]. intros [_ He]. rewrite Hr in He. unfold RoleAdmin, RoleMember in He. lia. }
  assert (preserves (roles_inv (RoomCreateDirect user target) db0) (RepoCreateRoom InTx
    (mkRoom room user "Direct" "" VisibilityPrivate "" [] "" None now now None) (new_member room user RoleOwner now))).
  { apply roles_create; [done|]. intros Hn. by split. }
  destruct (orderedPublicKeyPair user target) as [lo hi]. solve_preserves; auto.
Qed.

Lemma roles_delete_account op db0 k at_ f :
  f ∈ delete_account_statements k at_ → ∀ db, roles_inv op db0 db → roles_inv op db0 (f db).
Proof.
  unfold delete_account_statements. intros Hf db HI.
  repeat (apply elem_of_cons in Hf as [->|Hf];
    [first [by eapply roles_inv_ext|apply roles_inv_members; [by apply elevated_leave, HI|done]]|]).
  by apply not_elem_of_nil in Hf.
Qed.

(** A change of role goes through for administrators only. *)
Definition op_ok (op : room_op) (db0 : DB) : Prop :=
  match op with RoomGuarded user (OpRole room _ _) => is_admin user room db0 | _ => True end.

Lemma room_op_ok op w : op_ok op (w_db w) ∨ w_db (run_room_op cfg op w).2 = w_db w.
Proof.
  destruct op as [user []| | | | | | | | | |]; simpl; auto.
  destruct (decide (is_admin user room (w_db w))) as [?|Hn]; [by left|right].
  by apply (guarded_ops_refuse cfg user (OpRole room target role) w Hn).
Qed.

Lemma room_op_roles op w : roles_inv op (w_db w) (w_db (run_room_op cfg op w).2).
Proof.
  set (db0 := w_db w). pose proof (roles_inv_ext op db0) as Hext.
  pose proof (frame_appendEvent cfg _ Hext). pose proof (frame_appendEvents cfg _ Hext).
  pose proof (frame_insert_invitation _ Hext). pose proof (frame_insert_state _ Hext).
  pose proof (frame_upsert_permission _ Hext). pose proof (frame_upsert_group_info _ Hext).
  pose proof (frame_upsert_welcome _ Hext). pose proof (frame_set_invitation _ Hext).
  pose proof (frame_set _ Hext) as Hset. pose proof (roles_leave op db0).
  assert (∀ c room user now, preserves (roles_inv op db0) (exec_ c (stmt_upsert_member (new_member room user RoleMember now)))).
  { intros. by apply roles_upsert. }
  assert (op_ok op db0 ∨ w_db (run_room_op cfg op w).2 = db0) as [Hok| ->]; [by apply room_op_ok| |apply roles_inv_refl].
  assert (preserves (roles_inv op db0) (run_room_op cfg op)) as H'; [|apply H', roles_inv_refl].
  destruct op as [user []|user t d v|user target| | | | | | | |user]; simpl.
  11: { unfold CreateChatRoom. do 2 (apply preserves_bind; [auto with preserves|intros ?]).
        apply preserves_bind; [apply preserves_WithinTransaction|auto with preserves].
        apply roles_create; [done|]. by split. }
  11: { unfold SvcCreateDirectRoom, AreFriends, FindDirectRoomIDByUsers. solve_preserves.
        apply preserves_WithinTransactionCapturing, roles_direct_tx. }
  18: { unfold SvcDeleteAccount, RepoDeleteAccount. solve_preserves. apply preserves_exec_.
        intros db db' HI [= <-]. by eapply roles_delete_account. }
  all: unfold_room_op; solve_preserves; auto.
  all: try (apply Hset; intros; split; simpl; by rewrite ?fmap_sql_update).
  by apply roles_set_role.
Qed.

(** C17: No operation makes anybody an administrator or owner behind the
    back of the administrators: an elevated membership that is there after
    an operation was there before, or an administrator of the room set its
    role, or the caller has just created the room. *)
Theorem no_privilege_escalation op w m :
  m ∈ chat_members (rooms (w_db (run_room_op cfg op w).2)) → elevated m →
  m ∈ chat_members (rooms (w_db w)) ∨ may_elevate op (w_db w) m.
Proof. intros Hm He. by apply (proj2 (room_op_roles op w)). Qed.

(** ** Joining *)

(** The memberships after [user] has joined [room]: the others as they
    were, and one active row of an ordinary member. *)
Definition joined (room : UUID) (user : Bytes) (t0 t : list ChatMemberRecord) : Prop :=
  ∃ m, member_in room user m ∧ mem_Role m = RoleMember
       ∧ ∀ x, x ∈ t ↔ x = m ∨ (x ∈ t0 ∧ mem_key x ≠ (room, user)).

Lemma upsert_joined room user now db db' :
  NoDup (mem_key <$> chat_members (rooms db)) →
  stmt_upsert_member (new_member room user RoleMember now) db = inr db' →
  joined room user (chat_members (rooms db)) (chat_members (rooms db')).
Proof.
  intros Hnd. unfold stmt_upsert_member. destruct (violated _); [done|]. intros [= <-]. simpl.
  unfold sql_upsert. case_decide as Hex.
  - apply Exists_exists in Hex as (y & Hy & Er & Eu). simpl in Er, Eu.
    exists (merge_member y (new_member room user RoleMember now)).
    split; [by split_and!|]. split; [done|]. intros x. rewrite elem_of_sql_update. split.
    + intros (z & Hz & [[(Ez1 & Ez2) ->]|[Hn ->]]).
      * left. f_equal. apply (NoDup_fmap_inj_in mem_key _ _ _ Hnd Hz Hy). simpl in *. unfold mem_key. congruence.
      * right. split; [done|]. intros [= E1 E2]. by apply Hn.
    + intros [->|[Hx Hk]].
      * exists y. split; [done|]. left. by split_and!.
      * exists x. split; [done|]. right. split; [|done]. intros [E1 E2]. apply Hk. unfold mem_key. simpl in *. congruence.
  - exists (new_member room user RoleMember now). split; [by split_and!|]. split; [done|].
    intros x. rewrite elem_of_app, list_elem_of_singleton. split; [|by intros [->|[? _]]; [right|left]].
    intros [Hx|Hx]; [right|by left]. split; [done|]. intros [= E1 E2]. apply Hex, Exists_exists. by exists x.
Qed.

Definition at_members (r0 : list RoomRow) (t0 : list ChatMemberRecord) (db : DB) : Prop :=
  chat_rooms (rooms db) = r0 ∧ chat_members (rooms db) = t0.

Lemma GetRoom_live c room r0 t0 :
  hoare (at_members r0 t0) (GetRoom c room)
    (λ rec db, at_members r0 t0 db ∧ Exists (λ r, live_room room r ∧ rec = room_record r) r0) (λ _, True).
Proof.
  unfold GetRoom. eapply hoare_bind; [by apply hoare_query|]. intros row w [[Er Em] ->]. simpl.
  destruct (sql_row _ _) as [r|] eqn:Hr; [|done]. apply sql_row_Some in Hr as [Hin Hl].
  split; [done|]. rewrite <- Er. apply Exists_exists. by exists r.
Qed.

Lemma UpsertRoomMembership_joined c room user now r0 t0 :
  NoDup (mem_key <$> t0) →
  hoare (at_members r0 t0) (UpsertRoomMembership c (new_member room user RoleMember now))
    (λ _ db, Exists (live_room room) r0 ∧ joined room user t0 (chat_members (rooms db))) (λ _, True).
Proof.
  intros Hnd. unfold UpsertRoomMembership. eapply hoare_bind; [apply GetRoom_live|]. intros rec.
  apply hoare_exec_; [done|]. intros db db' [[Er Em] Hl] Es. split.
  - eapply Exists_impl; [exact Hl|]. by intros r [? _].
  - rewrite <- Em in *. by eapply upsert_joined.
Qed.

Lemma joined_frame room user t0 db db' :
  same_membership db db' → joined room user t0 (chat_members (rooms db)) → joined room user t0 (chat_members (rooms db')).
Proof. by intros [_ ->]. Qed.

Lemma appendEvents_joined room user t0 P c us ty p :
  preserves (λ db, P ∧ joined room user t0 (chat_members (rooms db))) (appendEvents cfg c us ty p).
Proof.
  apply frame_appendEvents. intros db db' Hs [HP Hj]. split; [done|]. by eapply joined_frame.
Qed.
Lemma appendEvent_joined room user t0 P c u ty p :
  preserves (λ db, P ∧ joined room user t0 (chat_members (rooms db))) (appendEvent cfg c u ty p).
Proof.
  apply frame_appendEvent. intros db db' Hs [HP Hj]. split; [done|]. by eapply joined_frame.
Qed.

Lemma members_or_nil_preserves I c room : preserves I (members_or_nil c room).
Proof. unfold members_or_nil, ListActiveRoomMemberPublicKeys. solve_preserves. Qed.

Lemma JoinChatRoom_joined c user room r0 t0 :
  NoDup (mem_key <$> t0) →
  hoare (at_members r0 t0) (JoinChatRoom cfg c user room)
    (λ _ db, Exists (λ r, live_room room r ∧ r_visibility r ≠ VisibilityPrivate) r0
             ∧ joined room user t0 (chat_members (rooms db))) (λ _, True).
Proof.
  intros Hnd. unfold JoinChatRoom, RepoJoinRoom. apply hoare_skip; [auto with preserves|done|intros now].
  set (P := Exists (λ r, live_room room r ∧ r_visibility r ≠ VisibilityPrivate) r0).
  apply (hoare_bind _ _ _ (λ _ db, P ∧ joined room user t0 (chat_members (rooms db)))).
  - eapply hoare_bind; [apply GetRoom_live|]. intros rec. simpl. case_decide as Hv; [by apply hoare_raise|].
    apply hoare_exec_; [done|]. intros db db' [[Er Em] Hl] Es. split.
    + eapply Exists_impl; [exact Hl|]. intros r [? ->]. by split.
    + rewrite <- Em in *. by eapply upsert_joined.
  - intros u. apply hoare_skip; [apply members_or_nil_preserves|done|intros ms].
    apply hoare_skip; [apply appendEvents_joined|done|intros v]. by apply hoare_ret.
Qed.

Lemma SendExternalCommit_joined c user room commit r0 t0 :
  NoDup (mem_key <$> t0) →
  hoare (at_members r0 t0) (SendExternalCommit cfg c user room commit)
    (λ _ db, Exists (λ r, live_room room r ∧ r_visibility r = VisibilityPublic) r0
             ∧ joined room user t0 (chat_members (rooms db))) (λ _, True).
Proof.
  intros Hnd. unfold SendExternalCommit. apply hoare_skip; [auto with preserves|done|intros now].
  set (P := Exists (λ r, live_room room r ∧ r_visibility r = VisibilityPublic) r0).
  eapply hoare_bind; [apply GetRoom_live|]. intros rec. simpl. case_decide as Hv; [by apply hoare_raise|].
  eapply (hoare_conseq _ (λ db, at_members r0 t0 db ∧ P) _ _ _ _ (λ _, True)); [| | |done].
  2:{ intros db [Ha Hl]. split; [done|]. eapply Exists_impl; [exact Hl|]. intros r [? ->]. by split. }
  2:{ intros a db H. exact H. }
  apply hoare_skip; [unfold GetRoomGroupInfo; solve_preserves|done|intros gi].
  apply hoare_skip; [unfold ListActiveRoomMemberPublicKeys; solve_preserves|done|intros ms].
  apply (hoare_bind _ _ _ (λ _ db, P ∧ joined room user t0 (chat_members (rooms db)))).
  - apply hoare_WithinTransaction; [|done]. intros w [Hw HP].
    pose proof (UpsertRoomMembership_joined InTx room user now r0 t0 Hnd w Hw) as H.
    destruct (UpsertRoomMembership _ _ w) as [[]]; [|done|done]. split; [done|]. apply H.
  - intros u. apply hoare_skip; [apply appendEvents_joined|done|intros v]. by apply hoare_ret.
Qed.

(** Who may move an invitation. *)
Definition party (user : Bytes) (i : ChatInvitationRecord) : Prop :=
  user = inv_InviterPublicKey i ∨ user = inv_InviteePublicKey i.

Definition invitation_move (user : Bytes) (id : UUID) (state : Z) (t0 : list ChatInvitationRecord)
  (rec : ChatInvitationRecord) (t : list ChatInvitationRecord) : Prop :=
  ∃ i at_, i ∈ t0 ∧ inv_InvitationID i = id ∧ inv_State i = InvitationPending ∧ party user i
           ∧ rec = inv_set_state state at_ i
           ∧ ∀ x, x ∈ t ↔ x = rec ∨ (x ∈ t0 ∧ inv_InvitationID x ≠ id).

Lemma UpdateInvitationState_moves c id user state now t0 :
  NoDup (inv_InvitationID <$> t0) →
  hoare (λ db, chat_invitations (rooms db) = t0)
    (UpdateInvitationState c id user state now [InvitationPending])
    (λ rec db, invitation_move user id state t0 rec (chat_invitations (rooms db)))
    (λ db, chat_invitations (rooms db) = t0).
Proof.
  intros Hnd. unfold UpdateInvitationState, GetInvitation.
  apply (hoare_bind _ _ _ (λ r db, chat_invitations (rooms db) = t0 ∧ r ∈ t0 ∧ inv_InvitationID r = id)).
  { eapply hoare_bind; [by apply hoare_query|]. intros row w [Et Er]. destruct row as [r|]; [|done].
    symmetry in Er. apply sql_row_Some in Er as [Hin Hid]. simpl. by rewrite <- Et. }
  intros r. case_decide as Hp; [by apply hoare_raise; intros db [? _]|].
  destruct (containsState _ _) eqn:Hst; simpl; [|by apply hoare_raise; intros db [? _]].
  assert (inv_State r = InvitationPending) as Hpend.
  { unfold containsState in Hst. simpl in Hst. rewrite orb_false_r in Hst. lia. }
  assert (party user r) as Hparty.
  { destruct (decide (user = inv_InviterPublicKey r)); [by left|right].
    destruct (decide (user = inv_InviteePublicKey r)); [done|]. by destruct Hp. }
  intros w (Et & Hin & Hid). unfold bind, exec. destruct (fault_at _); [done|].
  unfold stmt_set_invitation_state. rewrite Et. case_decide; [|done].
  assert (sql_row (λ i, inv_InvitationID i = id) (sql_update (λ i, inv_InvitationID i = id) (inv_set_state state now) t0)
          = Some (inv_set_state state now r)) as ->.
  { rewrite <- Hid. apply (sql_row_unique inv_InvitationID _ (inv_set_state state now r)).
    - by rewrite fmap_sql_update.
    - apply elem_of_sql_update. exists r. split; [done|]. by left. }
  exists r, now. split_and!; [done|done|done|done|done|]. intros x. simpl. rewrite elem_of_sql_update. split.
  - intros (y & Hy & [[Hyi ->]|[Hyi ->]]); [left|by right].
    f_equal. apply (NoDup_fmap_inj_in inv_InvitationID _ _ _ Hnd Hy Hin). congruence.
  - intros [->|[Hx Hn]]; [exists r|exists x]; (split; [done|]); [by left|by right].
Qed.

Definition pending_for (user : Bytes) (id : UUID) (t0 : list ChatInvitationRecord) (i : ChatInvitationRecord) : Prop :=
  i ∈ t0 ∧ inv_InvitationID i = id ∧ inv_State i = InvitationPending ∧ party user i.

Definition accepted (user : Bytes) (id : UUID) (g : RoomDB) (db : DB) : Prop :=
  ∃ i, pending_for user id (chat_invitations g) i ∧ Exists (live_room (inv_RoomID i)) (chat_rooms g)
       ∧ joined (inv_RoomID i) user (chat_members g) (chat_members (rooms db)).

Lemma accepted_frame user id g db db' : same_membership db db' → accepted user id g db → accepted user id g db'.
Proof.
  intros Hs (i & Hi & Hl & Hj). exists i. split; [done|]. split; [done|]. by eapply joined_frame.
Qed.

Lemma accept_invitation_tx_joined user id now g :
  rooms_wf g →
  hoare (λ db, rooms db = g) (accept_invitation_tx cfg user id now InTx) (λ _, accepted user id g) (λ _, True).
Proof.
  intros Hwf. unfold accept_invitation_tx.
  apply (hoare_bind _ _ _ (λ rec db, at_members (chat_rooms g) (chat_members g) db
           ∧ ∃ i, pending_for user id (chat_invitations g) i ∧ inv_RoomID rec = inv_RoomID i)).
  { assert (preserves (at_members (chat_rooms g) (chat_members g))
      (UpdateInvitationState InTx id user InvitationAccepted now [InvitationPending])) as Hp.
    { unfold UpdateInvitationState, GetInvitation. solve_preserves. apply preserves_exec.
      unfold stmt_set_invitation_state. intros db row db1 Hdb. case_decide; [|done]. by intros [= _ <-]. }
    eapply hoare_both; [apply (preserves_hoare _ _ Hp)|by apply UpdateInvitationState_moves, Hwf| |].
    - by intros db <-.
    - intros rec db Hm (i & at_ & Hin & Hid & Hst & Hpt & -> & _). split; [done|]. by exists i. }
  intros rec.
  apply (hoare_bind _ _ _ (λ _, accepted user id g)).
  - intros w [Hm (i & Hi & Er)].
    pose proof (UpsertRoomMembership_joined InTx (inv_RoomID rec) user now (chat_rooms g) (chat_members g)
                  (rw_members _ Hwf) w Hm) as H.
    destruct (UpsertRoomMembership _ _ w) as [[]]; [|done|done]. destruct H as [Hl Hj].
    exists i. rewrite <- Er. by split_and!.
  - intros u. apply hoare_skip; [apply frame_appendEvent, accepted_frame|done|intros v]. by apply hoare_ret.
Qed.

Lemma AcceptChatInvitation_joined user id commit g :
  rooms_wf g →
  hoare (λ db, rooms db = g) (AcceptChatInvitation cfg Background user id commit) (λ _, accepted user id g) (λ _, True).
Proof.
  intros Hwf. unfold AcceptChatInvitation. apply hoare_skip; [auto with preserves|done|intros now].
  apply hoare_skip; [unfold GetInvitation, ListActiveRoomMemberPublicKeys; solve_preserves|done|intros ms].
  eapply hoare_bind; [apply hoare_WithinTransaction; [by apply accept_invitation_tx_joined|done]|]. intros rec.
  apply hoare_skip; [apply frame_appendEvents, accepted_frame|done|intros v]. by apply hoare_ret.
Qed.

Lemma hoare_run {A} (P : DB → Prop) (m : M A) Q w a w' :
  hoare P m Q (λ _, True) → P (w_db w) → m w = (Ok a, w') → Q a (w_db w').
Proof. intros Hm Hw Er. specialize (Hm w Hw). by rewrite Er in Hm. Qed.

(** C19: The three ways into a room.  Joining works for rooms that are not
    private, an external commit for public rooms, an invitation only when
    it is pending and by one of its two parties; each time the room is not
    deleted, the caller ends as an active ordinary member, whatever role
    they had before, and nobody else's membership changes. *)
Theorem joining_a_room op w a w' :
  rooms_db_wf (w_db w) → run_room_op cfg op w = (Ok a, w') →
  let g := rooms (w_db w) in
  match op with
  | RoomJoin user room =>
      Exists (λ r, live_room room r ∧ r_visibility r ≠ VisibilityPrivate) (chat_rooms g)
      ∧ joined room user (chat_members g) (chat_members (rooms (w_db w')))
  | RoomExternalCommit user room _ =>
      Exists (λ r, live_room room r ∧ r_visibility r = VisibilityPublic) (chat_rooms g)
      ∧ joined room user (chat_members g) (chat_members (rooms (w_db w')))
  | RoomAccept user id _ => accepted user id g (w_db w')
  | _ => True
  end.
Proof.
  intros Hwf Er g. destruct op as [| | |user room| |user room commit| | |user id commit| |]; try done.
  - by eapply (hoare_run _ _ _ w a w' (JoinChatRoom_joined Background user room _ _ (rw_members _ Hwf))).
  - by eapply (hoare_run _ _ _ w a w' (SendExternalCommit_joined Background user room commit _ _ (rw_members _ Hwf))).
  - by eapply (hoare_run _ _ _ w a w' (AcceptChatInvitation_joined user id commit g Hwf)).
Qed.

(** ** The states of an invitation *)

(** Who moves which invitation, and where to. *)
Definition invitation_op (op : room_op) : option (Bytes * UUID * Z) :=
  match op with
  | RoomRevoke user id => Some (user, id, InvitationRevoked)
  | RoomAccept user id _ => Some (user, id, InvitationAccepted)
  | RoomDecline user id => Some (user, id, InvitationDeclined)
  | _ => None
  end.

(** Where an invitation [x] that is there after [op] comes from. *)
Definition invitation_origin (op : room_op) (db0 : DB) (x : ChatInvitationRecord) : Prop :=
  x ∈ chat_invitations (rooms db0)
  ∨ (∃ user room invitee expires token sig, op = RoomGuarded user (OpInvite room invitee expires token sig)
       ∧ is_admin user room db0 ∧ inv_RoomID x = room ∧ inv_InviterPublicKey x = user
       ∧ inv_InviteePublicKey x = invitee ∧ inv_State x = InvitationPending)
  ∨ (∃ user id state i at_, invitation_op op = Some (user, id, state)
       ∧ pending_for user id (chat_invitations (rooms db0)) i ∧ x = inv_set_state state at_ i).

Definition invitations_inv (op : room_op) (db0 db : DB) : Prop :=
  ∀ x, x ∈ chat_invitations (rooms db) → invitation_origin op db0 x.

Lemma invitations_inv_ext op db0 db db' :
  chat_invitations (rooms db') = chat_invitations (rooms db) → invitations_inv op db0 db → invitations_inv op db0 db'.
Proof. unfold invitations_inv. by intros ->. Qed.

Lemma invitations_refl op db0 db :
  chat_invitations (rooms db) = chat_invitations (rooms db0) → invitations_inv op db0 db.
Proof. intros Et x Hx. left. by rewrite <- Et. Qed.

(** A statement on another table. *)
Ltac other_table :=
  first [apply preserves_exec_ | apply preserves_exec]; intros;
  match goal with Hdb : invitations_inv _ _ _, Hs : _ = inr _ |- _ => revert Hs end;
  unfold stmt_insert_room, stmt_insert_member, stmt_upsert_member, stmt_leave, stmt_set_role,
    stmt_insert_direct_room, stmt_insert_room_state, stmt_upsert_permission, stmt_upsert_group_info,
    stmt_upsert_welcome, on_table;
  repeat (case_match || case_decide); intros; simplify_eq;
  match goal with Hdb : invitations_inv _ _ _ |- _ => exact Hdb end.

Lemma invitations_direct_tx op db0 user target room now :
  preserves (invitations_inv op db0) (direct_room_tx user target room now InTx).
Proof.
  unfold direct_room_tx, FindDirectRoomIDByUsers, CreateDirectRoom, RepoCreateRoom.
  destruct (orderedPublicKeyPair user target) as [lo hi]. solve_preserves; other_table.
Qed.

Lemma invitations_update op db0 c user id state now :
  NoDup (inv_InvitationID <$> chat_invitations (rooms db0)) → invitation_op op = Some (user, id, state) →
  hoare (λ db, db = db0) (UpdateInvitationState c id user state now [InvitationPending])
    (λ _, invitations_inv op db0) (invitations_inv op db0).
Proof.
  intros Hnd Ho. eapply hoare_conseq; [by apply UpdateInvitationState_moves|by intros db ->| |by apply invitations_refl].
  intros rec db (i & at_ & Hin & Hid & Hst & Hp & -> & Ht) x [->|[Hx _]]%Ht; [|by left].
  right; right. exists user, id, state, i, at_. by split_and!.
Qed.

Lemma invitations_delete_account op db0 k at_ f :
  f ∈ delete_account_statements k at_ → ∀ db, invitations_inv op db0 db → invitations_inv op db0 (f db).
Proof.
  unfold delete_account_statements. intros Hf db HI.
  repeat (apply elem_of_cons in Hf as [->|Hf];
    [first [exact HI|by intros x [Hx _]%elem_of_sql_delete; apply HI]|]).
  by apply not_elem_of_nil in Hf.
Qed.

Lemma invitations_insert user room invitee expires token sig op db0 id now :
  op = RoomGuarded user (OpInvite room invitee expires token sig) →
  hoare (λ db, db = db0)
    (CreateInvitation Background (mkInvitation id room user invitee expires token sig InvitationPending now now))
    (λ _, invitations_inv op db0) (invitations_inv op db0).
Proof.
  intros ->. set (I := invitations_inv _ db0).
  assert (I db0) as H0 by (by apply invitations_refl).
  unfold CreateInvitation. intros w Hw. simpl.
  destruct (decide (is_admin user room db0)) as [Ha|Hn].
  2:{ rewrite <- Hw in Hn.
      destruct (refused_bind_l _ (λ _, exec_ Background (stmt_insert_invitation
        (mkInvitation id room user invitee expires token sig InvitationPending now now))) _ (ensureRoomAdmin_refused Background _ _ _ Hn)) as [Edb Hno].
      destruct (bind _ _ w) as [[[]|e|m] w']; simpl in *; rewrite Edb, Hw; done. }
  revert w Hw. change (hoare (λ db, db = db0) (ensureRoomAdmin Background room user ;;;
    exec_ Background (stmt_insert_invitation (mkInvitation id room user invitee expires token sig InvitationPending now now)))
    (λ _, I) I).
  apply hoare_skip; [unfold ensureRoomAdmin, ensureMember; solve_preserves|by intros db ->|intros u].
  apply hoare_exec_; [by intros db ->|]. intros db db' -> Es.
  apply insert_ok in Es as (-> & _ & _). intros x [Hx| ->%list_elem_of_singleton]%elem_of_app; [by left|].
  right; left. exists user, room, invitee, expires, token, sig. by split_and!.
Qed.

(** Whatever statements fail, every invitation that is there after an
    operation on rooms was there before unchanged, or has just been issued,
    pending, by an administrator of its room, or was pending and has been
    moved by its inviter or its invitee to the state of the operation; so
    no invitation ever leaves a final state. *)
Lemma invitation_transitions op w x :
  NoDup (inv_InvitationID <$> chat_invitations (rooms (w_db w))) →
  x ∈ chat_invitations (rooms (w_db (run_room_op cfg op w).2)) → invitation_origin op (w_db w) x.
Proof.
  intros Hnd Hx. set (db0 := w_db w) in *.
  enough (hoare (λ db, db = db0) (run_room_op cfg op) (λ _, invitations_inv op db0) (invitations_inv op db0)) as H.
  { specialize (H w eq_refl). revert Hx. destruct (run_room_op cfg op w) as [[]]; apply H. }
  assert (∀ db, db = db0 → invitations_inv op db0 db) as H0 by (by intros db ->; apply invitations_refl).
  assert (∀ c u ty p, preserves (invitations_inv op db0) (appendEvent cfg c u ty p)) as Hev.
  { intros. apply appendEvent_preserves. intros db db' (_ & _ & Er). apply invitations_inv_ext. by rewrite Er. }
  assert (∀ c us ty p, preserves (invitations_inv op db0) (appendEvents cfg c us ty p)) as Hevs.
  { intros. apply appendEvents_preserves. intros db db' (_ & _ & Er). apply invitations_inv_ext. by rewrite Er. }
  destruct op as [user []| | | | | |user rm target welcome|user id|user id commit|user id|user]; simpl.
  6: { unfold SendChatInvitation. do 2 (apply hoare_skip; [auto with preserves|done|intros ?]).
       eapply hoare_bind; [by eapply invitations_insert|intros u]. apply preserves_hoare. solve_preserves. }
  16: { unfold RevokeChatInvitation. apply hoare_skip; [auto with preserves|done|intros now].
        eapply hoare_bind; [by apply invitations_update|intros rec]. apply preserves_hoare. solve_preserves. }
  16: { unfold AcceptChatInvitation. apply hoare_skip; [auto with preserves|done|intros now].
        apply hoare_skip; [unfold GetInvitation, ListActiveRoomMemberPublicKeys; solve_preserves|done|intros ms].
        apply (hoare_bind _ _ _ (λ _, invitations_inv (RoomAccept user id commit) db0)).
        - apply hoare_WithinTransaction; [|done]. unfold accept_invitation_tx.
          eapply hoare_bind; [by apply invitations_update|intros rec]. apply preserves_hoare.
          unfold UpsertRoomMembership, GetRoom. solve_preserves. other_table.
        - intros rec. apply preserves_hoare. solve_preserves. }
  16: { unfold DeclineChatInvitation. apply hoare_skip; [auto with preserves|done|intros now].
        eapply hoare_bind; [by apply invitations_update|intros rec]. apply preserves_hoare. solve_preserves. }
  16: { eapply hoare_of_preserves; [|done|done]. unfold SvcDeleteAccount, RepoDeleteAccount. solve_preserves.
        apply preserves_exec_. intros db db' HI [= <-]. by eapply invitations_delete_account. }
  all: eapply hoare_of_preserves; [|done|done]; unfold_room_op; solve_preserves; try other_table.
  apply preserves_WithinTransactionCapturing, invitations_direct_tx.
Qed.
End roles.
