(* ===== verification/PushSpec.v ===== *)
(** * PushSpec: what the push notifier promises

    Which events are pushed and where to, that the content of a message has
    no influence on its push, and the order in which the queue delivers. *)

From Stdlib Require Import ZArith.
From stdpp Require Import gmap strings.
From S2P Require Import Prelude GoLib GoTime Domain Database Effects OutboxRepo OutboxService OutboxSpec ClientRepo.
From S2P Require Import AuthRepo AuthService AuthSpec FriendRepo RoomRepo ClientService RoomService FriendSpec RoomSpec Push.

Local Open Scope Z_scope.

Section push.
Context {E : Env}.

(** ** Processing an event *)

(** An Android device with a token that accepts pushes. *)
Definition push_target (device : string) (db : DB) (token : string) : Prop :=
  ∃ d, d ∈ device_push_tokens (identity db) ∧ dev_DeviceID d = device ∧ dev_IsEnabled d = true
    ∧ dev_Platform d = 2 ∧ dev_PushToken d = token ∧ token ≠ ""%string
    ∧ ∀ d', d' ∈ device_push_tokens (identity db) → dev_DeviceID d' = device → dev_UpdatedAt d' ≤ dev_UpdatedAt d.

(** A name a user goes by: the display name of the profile, or else the
    name of the user. *)
Definition named (key : Bytes) (db : DB) (name : string) : Prop :=
  ∃ p, p ∈ profiles (identity db) ∧ p_public_key p = key ∧ name ≠ ""%string
    ∧ (name = pr_DisplayName (profile_record p)
       ∨ pr_DisplayName (profile_record p) = ""%string ∧ name = pr_Username (profile_record p)).

(** The time of an event; an event without one gets a time that was read. *)
Definition time_for (event : OutboxEvent) (t : Time) : Prop :=
  t = oe_CreatedAt event ∨ oe_CreatedAt event = zero_time ∧ ∃ i, t = clock_at i.

Definition segment_or (other : string) (event : OutboxEvent) : string :=
  if decide (oe_SegmentID event = ""%string) then other else oe_SegmentID event.

(** A message in a room, and what its push may say: which event it is, the
    room, the key and the name of the sender, and that it is one message. *)
Definition message_push (event : OutboxEvent) (db : DB) (e : Envelope) : Prop :=
  oe_EventType event = "mlsMessageReceived"%string
  ∧ ∃ room id name t, get_string (oe_Payload event) "roomId" = Some room ∧ room ≠ ""%string
      ∧ get_string (oe_Payload event) "messageId" = Some id ∧ id ≠ ""%string
      ∧ time_for event t
      ∧ let sender := default [] (get_bytes (oe_Payload event) "senderPublicKey") in
        (name = "New message"%string ∨ sender ≠ [] ∧ named sender db name)
        ∧ e = mkEnvelope (uuid_String (oe_EventID event)) "mlsMessageReceived" "message" (oe_DeviceID event)
                (segment_or room event) room t
                (mkSafePayload name "1 new message" (HexEncodeToString sender) name "" "" 1).

(** A friend request, and what its push may say: which event it is, and
    the key and the name of the one who asks. *)
Definition request_push (event : OutboxEvent) (db : DB) (e : Envelope) : Prop :=
  oe_EventType event = "friend.requestReceived"%string
  ∧ ∃ sender name t, get_bytes (oe_Payload event) "senderPublicKey" = Some sender ∧ sender ≠ []
      ∧ time_for event t ∧ (name = "New activity"%string ∨ named sender db name)
      ∧ e = mkEnvelope (uuid_String (oe_EventID event)) "friend.requestReceived" "friendRequest" (oe_DeviceID event)
              (segment_or (HexEncodeToString sender) event) "" t
              (mkSafePayload name "Sent you a friend request" "" "" (HexEncodeToString sender) name 0).

Definition envelope_for (event : OutboxEvent) (db : DB) (e : Envelope) : Prop :=
  message_push event db e ∨ request_push event db e.

(** An event that is to be pushed at all. *)
Definition pushable (event : OutboxEvent) : Prop :=
  oe_EventType event = "mlsMessageReceived"%string
    ∧ default ""%string (get_string (oe_Payload event) "roomId") ≠ ""%string
    ∧ default ""%string (get_string (oe_Payload event) "messageId") ≠ ""%string
  ∨ oe_EventType event = "friend.requestReceived"%string
    ∧ default [] (get_bytes (oe_Payload event) "senderPublicKey") ≠ [].

Lemma LookupProfileName_reads c key : reads (LookupProfileName c key).
Proof. apply reads_preserves. intros db0. unfold LookupProfileName, GetProfile. solve_preserves. Qed.

Lemma LookupDevice_ok c device w d w' :
  LookupDevice c device w = (Ok (Some d), w') →
  w_db w' = w_db w ∧ d ∈ device_push_tokens (identity (w_db w)) ∧ dev_DeviceID d = device
  ∧ ∀ d', d' ∈ device_push_tokens (identity (w_db w)) → dev_DeviceID d' = device → dev_UpdatedAt d' ≤ dev_UpdatedAt d.
Proof.
  unfold LookupDevice. intros [Hd ->]%query_ok. split; [done|]. symmetry in Hd.
  set (rows := sql_select _ _) in Hd.
  destruct (order_by (desc dev_UpdatedAt) rows) as [|x l] eqn:Eo; [done|]. injection Hd as ->.
  assert (d ∈ rows) as Hin by (rewrite <- (elem_of_order_by (desc dev_UpdatedAt)), Eo; left).
  pose proof Hin as [Hdev Hd]%list_elem_of_filter. split_and!; [done|done|]. intros d' Hd' Hdev'.
  assert (StronglySorted (desc dev_UpdatedAt) (d :: l)) as Hs.
  { rewrite <- Eo. apply (StronglySorted_merge_sort (desc dev_UpdatedAt)). }
  assert (d' ∈ d :: l) as [->|Hl]%elem_of_cons; [rewrite <- Eo; by apply elem_of_order_by, list_elem_of_filter|lia|].
  apply StronglySorted_inv in Hs as [_ Hf]. rewrite Forall_forall in Hf. by apply Hf.
Qed.

Lemma LookupProfileName_named c key w name w' :
  LookupProfileName c key w = (Ok name, w') → name = ""%string ∨ named key (w_db w) name.
Proof.
  unfold LookupProfileName. intros (r & w1 & Ha%attempt_ok & Hk)%bind_ok. destruct r as [e|p].
  { destruct (Is _ _); [|done]. left. by injection Hk as <-. }
  assert (∃ row, row ∈ profiles (identity (w_db w)) ∧ p_public_key row = key ∧ p = profile_record row) as (row & Hrow & Hkey & ->).
  { unfold GetProfile in Ha. apply bind_ok in Ha as (o & w2 & Hq & Ho).
    apply wrapped_query_ok in Hq as [Eo _]. destruct o as [row|]; [|done]. injection Ho as <- _.
    symmetry in Eo. apply sql_row_Some in Eo as [? ?]. by exists row. }
  case_decide as Hd; [injection Hk as <- _; right; exists row; by split_and!; [..|left]|].
  case_decide as Hu; [|left; by injection Hk as <-]. injection Hk as <- _. right. exists row.
  split_and!; [done..|]. right. split; [|done]. destruct (decide (pr_DisplayName (profile_record row) = ""%string)); [done|tauto].
Qed.

Lemma resolve_name_named c key w name w' : resolve_name c key w = (Ok name, w') → name = ""%string ∨ named key (w_db w) name.
Proof.
  unfold resolve_name. intros (r & w1 & Ha%attempt_ok & Hk)%bind_ok. destruct r as [e|n]; injection Hk as <- _; [by left|].
  by eapply LookupProfileName_named.
Qed.

Lemma shown_name_named c key neutral w name w' :
  shown_name (resolve_name c) key neutral w = (Ok name, w') → name = neutral ∨ named key (w_db w) name.
Proof.
  unfold shown_name, fallbackString. intros (n & w1 & Hn%resolve_name_named & Hk)%bind_ok. injection Hk as <- _.
  case_decide; [by left|]. destruct Hn as [?|?]; [done|by right].
Qed.

Lemma fallbackTime_time event w t w' : fallbackTime (oe_CreatedAt event) w = (Ok t, w') → time_for event t.
Proof.
  unfold fallbackTime. case_decide; [|intros [= <- _]; by left]. intros [= <- _]. right. split; [done|by eexists].
Qed.

Lemma MapOutboxEvent_ok c event w r w' :
  (∀ key, reads (resolve_name c key)) → MapOutboxEvent (resolve_name c) event w = (Ok r, w') →
  w_db w' = w_db w ∧ (∀ e, r = Some e → envelope_for event (w_db w) e) ∧ (pushable event → is_Some r).
Proof.
  intros Hres. unfold MapOutboxEvent.
  assert (∀ key n, reads (shown_name (resolve_name c) key n)) as Hname.
  { intros key n w0. specialize (Hres key w0). unfold shown_name, bind. by destruct (resolve_name c key w0) as [[]]. }
  assert (∀ (t : Time), reads (fallbackTime t)) as Htime by (intros t w0; unfold fallbackTime; by case_decide).
  case_decide as H1.
  - unfold mapMessageEvent. case_decide as Hd.
    { intros [= <- <-]. split_and!; [done|done|]. intros [(_ & Hr & Hm)|[H2 _]]; [by destruct Hd|congruence]. }
    set (sender := default [] (get_bytes (oe_Payload event) "senderPublicKey")).
    intros (name & w1 & Hn & Hk)%bind_ok. apply bind_ok in Hk as (at_ & w2 & Ht & Hk). injection Hk as <- <-.
    assert (w_db w1 = w_db w ∧ (name = "New message"%string ∨ sender ≠ [] ∧ named sender (w_db w) name)) as [E1 Hshow].
    { destruct (decide (sender = [])); [injection Hn as <- <-; by split; [|left]|]. pose proof (Hname sender "New message"%string w) as Hw.
      rewrite Hn in Hw. split; [done|]. apply shown_name_named in Hn as [?|?]; [by left|by right]. }
    pose proof (Htime (oe_CreatedAt event) w1) as Hw. rewrite Ht in Hw. simpl in Hw. split_and!; [congruence| |by intros _; eexists].
    intros e [= <-]. left. split; [done|]. apply fallbackTime_time in Ht.
    destruct (get_string (oe_Payload event) "roomId") as [room|] eqn:Er; simpl in *; [|by destruct Hd; left].
    destruct (get_string (oe_Payload event) "messageId") as [id|] eqn:Em; simpl in *; [|by destruct Hd; right].
    exists room, id, name, at_. rewrite H1. split_and!; [done|by intros ->; destruct Hd; left|done|by intros ->; destruct Hd; right|done|done|done].
  - case_decide as H2.
    2:{ intros [= <- <-]. split_and!; [done|done|]. by intros [[? _]|[? _]]. }
    unfold mapFriendRequestEvent. case_decide as Hd.
    { intros [= <- <-]. split_and!; [done|done|]. by intros [[? _]|[_ ?]]. }
    intros (name & w1 & Hn & Hk)%bind_ok. apply bind_ok in Hk as (at_ & w2 & Ht & Hk). injection Hk as <- <-.
    pose proof (Hname (default [] (get_bytes (oe_Payload event) "senderPublicKey")) "New activity"%string w) as Hw1.
    pose proof (Htime (oe_CreatedAt event) w1) as Hw2. rewrite Hn in Hw1. rewrite Ht in Hw2. simpl in *.
    split_and!; [congruence| |by intros _; eexists]. intros e [= <-]. right. split; [done|].
    destruct (get_bytes (oe_Payload event) "senderPublicKey") as [sender|]; [|done]. simpl in *.
    exists sender, name, at_. rewrite H2. split_and!; [done|done|by eapply fallbackTime_time|by eapply shown_name_named|done].
Qed.

(** [m] reads and returns, whatever the world. *)
Definition returns {A} (m : M A) : Prop := ∀ w, ∃ a w', m w = (Ok a, w') ∧ w_db w' = w_db w.

Lemma returns_ret {A} (a : A) : returns (ret a).
Proof. intros w. by exists a, w. Qed.
Lemma returns_Now : returns Now.
Proof. intros w. by eexists _, _. Qed.

Lemma returns_bind {A B} (m : M A) (k : A → M B) : returns m → (∀ a, returns (k a)) → returns (bind m k).
Proof.
  intros Hm Hk w. destruct (Hm w) as (a & w1 & E1 & D1). destruct (Hk a w1) as (b & w2 & E2 & D2).
  exists b, w2. unfold bind. rewrite E1, E2. split; [done|congruence].
Qed.

Lemma returns_attempt {A} (m : M A) : reads m → (∀ w s, (m w).1 ≠ Panic s) → returns (attempt m).
Proof.
  intros Hr Hp w. specialize (Hr w). unfold attempt. destruct (m w) as [[a|e|s] w'] eqn:Em; simpl in *; [by eauto..|].
  specialize (Hp w s). by rewrite Em in Hp.
Qed.

Lemma GetProfile_no_panic c key w s : (GetProfile c key w).1 ≠ Panic s.
Proof.
  unfold GetProfile. apply bind_no_panic; [intros; apply wrap_no_panic; intros; apply query_no_panic|]. intros row w' s'. by destruct row.
Qed.

Lemma resolve_name_returns c key : returns (resolve_name c key).
Proof.
  unfold resolve_name. apply returns_bind; [|intros [e|name]; apply returns_ret].
  apply returns_attempt; [apply LookupProfileName_reads|]. intros w s. unfold LookupProfileName.
  apply bind_no_panic.
  - intros s'. unfold attempt. pose proof (GetProfile_no_panic c key w) as Hn.
    destruct (GetProfile c key w) as [[a|e|m] w']; [done|done|]. by destruct (Hn m).
  - intros [e|p] w' s'; [by destruct (Is _ _)|]. case_decide; [done|]. by case_decide.
Qed.

Lemma MapOutboxEvent_returns c event : returns (MapOutboxEvent (resolve_name c) event).
Proof.
  assert (∀ key n, returns (shown_name (resolve_name c) key n)) as Hname.
  { intros key n. apply returns_bind; [apply resolve_name_returns|intros; apply returns_ret]. }
  assert (∀ t, returns (fallbackTime t)) as Htime.
  { intros t. unfold fallbackTime. case_decide; [apply returns_Now|apply returns_ret]. }
  unfold MapOutboxEvent, mapMessageEvent, mapFriendRequestEvent.
  case_decide.
  - case_decide; [apply returns_ret|].
    apply returns_bind; [case_decide; [apply returns_ret|apply Hname]|intros name].
    apply returns_bind; [apply Htime|intros; apply returns_ret].
  - case_decide; [|apply returns_ret]. case_decide; [apply returns_ret|].
    apply returns_bind; [apply Hname|intros name]. apply returns_bind; [apply Htime|intros; apply returns_ret].
Qed.

(** The one registration of a device. *)
Definition sole_target (device : string) (db : DB) (token : string) : Prop :=
  push_target device db token
  ∧ ∀ d d', d ∈ device_push_tokens (identity db) → d' ∈ device_push_tokens (identity db) →
      dev_DeviceID d = device → dev_DeviceID d' = device → d = d'.

(** A registration that was found: its push goes out, or is not wanted. *)
Lemma process_device c event w e w1 d w2 :
  ¬ 1 < oe_Attempts event → MapOutboxEvent (resolve_name c) event w = (Ok (Some e), w1) →
  attempt (LookupDevice c (oe_DeviceID event)) w1 = (Ok (inr (Some d)), w2) →
  ∀ S : Sender, process c event w =
    (if decide (dev_IsEnabled d = true ∧ dev_PushToken d ≠ ""%string ∧ dev_Platform d = 2)
     then ignore_error (Send (dev_PushToken d) e) else ret tt) w2.
Proof.
  intros Ha Em El S. unfold process. rewrite decide_False by done. unfold bind at 1. rewrite Em. unfold bind at 1. rewrite El.
  destruct (dev_IsEnabled d); cbn [negb]; [|by rewrite decide_False by naive_solver].
  case_decide as H1; [by rewrite decide_False by naive_solver|]. case_decide as H2; [by rewrite decide_False by naive_solver|].
  rewrite decide_True; [done|]. split_and!; [done|done|]. destruct (decide (dev_Platform d = 2)); tauto.
Qed.

(** C32: What becomes of an event in the push notifier.  Either nothing is
    sent at all, or exactly one push is: for the first attempt of a message
    or a friend request, to the token of the device the event is for, which
    is its most recently updated registration, enabled, Android and with a
    token.  Every field of its envelope is what [message_push] or
    [request_push] allows: the identity of the event, its device, time and
    segment, the room, the key of the sender and the name the sender goes
    by, and fixed texts; nothing else of the payload.  The tables are only
    read, and an error of the sender is dropped.  And when no statement
    fails, the push of such an event does go out to a device with one
    registration that accepts it. *)
Theorem process_pushes c event w :
  ((∃ w1, w_db w1 = w_db w ∧ ∀ S : Sender, process c event w = (Ok tt, w1))
   ∨ ∃ token e w1, w_db w1 = w_db w ∧ oe_Attempts event ≤ 1 ∧ push_target (oe_DeviceID event) (w_db w) token
       ∧ envelope_for event (w_db w) e ∧ ∀ S : Sender, process c event w = ignore_error (Send token e) w1)
  ∧ (∀ token, quiet → oe_Attempts event ≤ 1 → pushable event → sole_target (oe_DeviceID event) (w_db w) token →
       ∃ e w1, w_db w1 = w_db w ∧ envelope_for event (w_db w) e
         ∧ ∀ S : Sender, process c event w = ignore_error (Send token e) w1).
Proof.
  destruct (MapOutboxEvent_returns c event w) as (mapped & w1 & Em & _).
  assert (∀ key, reads (resolve_name c key)) as Hres.
  { intros key w0. destruct (resolve_name_returns c key w0) as (a & w' & -> & ?). done. }
  destruct (MapOutboxEvent_ok _ _ _ _ _ Hres Em) as (Edb1 & Henv & Hpush).
  assert (returns (attempt (LookupDevice c (oe_DeviceID event)))) as Hl.
  { apply returns_attempt; [|intros; apply query_no_panic]. apply reads_preserves. intros db0. unfold LookupDevice. auto with preserves. }
  destruct (Hl w1) as (r & w2 & El & Edb2). assert (w_db w2 = w_db w) as Edb by congruence. apply attempt_ok in El as Er. split.
  - destruct (decide (1 < oe_Attempts event)) as [Ha|Ha]; [left; exists w; split; [done|]; intros S; unfold process; by rewrite decide_True|].
    destruct mapped as [e|].
    2:{ left. exists w1. split; [done|]. intros S. unfold process. rewrite decide_False by done. unfold bind at 1. by rewrite Em. }
    destruct r as [err|[d|]].
    1,3: left; exists w2; split; [done|]; intros S; unfold process; rewrite decide_False by done; unfold bind at 1; rewrite Em;
      unfold bind at 1; by rewrite El.
    pose proof (process_device c event w e w1 d w2 Ha Em El) as Hproc.
    destruct (LookupDevice_ok _ _ _ _ _ Er) as (_ & Hd & Hdev & Hlast). rewrite Edb1 in Hd, Hlast. case_decide as Hok.
    + right. destruct Hok as (He & Ht & Hp). exists (dev_PushToken d), e, w2.
      split_and!; [done|lia|by exists d|by apply Henv|exact Hproc].
    + left. by exists w2.
  - intros token Hq Ha Hpa [(d & Hd & Hdev & He & Hp & <- & Ht & _) Hone]. destruct (Hpush Hpa) as [e ->].
    assert (r = inr (Some d)) as ->.
    { unfold LookupDevice, attempt, query in El. rewrite Hq in El. injection El as <- _. f_equal.
      set (l := order_by _ _). assert (d ∈ l) as Hin by (apply elem_of_order_by, list_elem_of_filter; by rewrite Edb1).
      destruct l as [|x l'] eqn:El'; [by apply not_elem_of_nil in Hin|]. change (Some x = Some d). f_equal.
      assert (x ∈ sql_select (λ d, dev_DeviceID d = oe_DeviceID event) (device_push_tokens (identity (w_db w1)))) as Hx.
      { rewrite <- (elem_of_order_by (desc dev_UpdatedAt)). fold l. rewrite El'. left. }
      apply list_elem_of_filter in Hx as [Hxd Hx]. rewrite Edb1 in Hx. by apply Hone. }
    exists e, w2. split_and!; [done|by apply Henv|]. intros S.
    rewrite (process_device c event w e w1 d w2 ltac:(lia) Em El S). by rewrite decide_True.
Qed.

(** ** What a push can give away *)

(** Two events that may differ in everything but their envelope, the room,
    the sender and whether there is a message at all. *)
Definition same_to_push (a b : OutboxEvent) : Prop :=
  oe_EventID a = oe_EventID b ∧ oe_EventType a = oe_EventType b ∧ oe_DeviceID a = oe_DeviceID b
  ∧ oe_SegmentID a = oe_SegmentID b ∧ oe_CreatedAt a = oe_CreatedAt b ∧ (1 < oe_Attempts a ↔ 1 < oe_Attempts b)
  ∧ get_string (oe_Payload a) "roomId" = get_string (oe_Payload b) "roomId"
  ∧ get_bytes (oe_Payload a) "senderPublicKey" = get_bytes (oe_Payload b) "senderPublicKey"
  ∧ (default ""%string (get_string (oe_Payload a) "messageId") = ""%string
      ↔ default ""%string (get_string (oe_Payload b) "messageId") = ""%string).

(** No content leaks into pushes: the notifier cannot tell apart two
    events that agree on their identity, the room, the sender and the
    presence of a message, so the body of a message, its identifiers and
    every other field of the payload have no influence on what is sent,
    whatever the sender does with it. *)
Lemma push_hides_content (S : Sender) c a b w : same_to_push a b → process c a w = process c b w.
Proof.
  intros (H1 & H2 & H3 & H4 & H5 & H6 & H7 & H8 & H9).
  assert (∀ resolve w, MapOutboxEvent resolve a w = MapOutboxEvent resolve b w) as Hmap.
  { intros resolve w0. unfold MapOutboxEvent, mapMessageEvent, mapFriendRequestEvent.
    rewrite H1, H2, H3, H4, H5, H7, H8. case_decide; [|done].
    destruct (decide (_ ∨ default ""%string (get_string (oe_Payload a) "messageId") = ""%string)) as [Ha|Ha],
      (decide (_ ∨ default ""%string (get_string (oe_Payload b) "messageId") = ""%string)) as [Hb|Hb]; tauto. }
  unfold process. rewrite H3. destruct (decide (1 < oe_Attempts a)) as [Ha|Ha], (decide (1 < oe_Attempts b)) as [Hb|Hb];
    [done|tauto|tauto|]. unfold bind at 1. rewrite Hmap. done.
Qed.
End push.

(** ** The queue *)

(** What happens to the queue: an event arrives, or [Run] takes one. *)
Inductive queue_op : Type := QNotify (event : OutboxEvent) | QTake.

Definition queue_step (op : queue_op) (s : Queue * list OutboxEvent) : Queue * list OutboxEvent :=
  let '(q, taken) := s in
  match op with
  | QNotify event => (NotifyPush event q, taken)
  | QTake => match take_event q with Some (event, q') => (q', taken ++ [event]) | None => (q, taken) end
  end.

Definition queue_run (ops : list queue_op) (s : Queue * list OutboxEvent) : Queue * list OutboxEvent :=
  foldl (λ s op, queue_step op s) s ops.

Definition notified_events (ops : list queue_op) : list OutboxEvent :=
  omap (λ op, match op with QNotify event => Some event | QTake => None end) ops.

Record queue_ok (q : Queue) (taken arrived : list OutboxEvent) : Prop := {
  qo_bound : 0 < q_capacity q ∧ Z.of_nat (length (q_events q)) ≤ q_capacity q;
  qo_order : taken ++ q_events q `sublist_of` arrived;
  qo_all : Z.of_nat (length arrived) ≤ q_capacity q → taken ++ q_events q = arrived }.

Lemma queue_step_ok op q taken arrived :
  queue_ok q taken arrived →
  let s := queue_step op (q, taken) in
  queue_ok s.1 s.2 (arrived ++ notified_events [op]) ∧ q_capacity s.1 = q_capacity q.
Proof.
  intros [[Hc Hb] Ho Ha]. destruct op as [event|]; simpl.
  - unfold NotifyPush. case_decide as Hroom; simpl; (split; [|done]).
    + constructor; simpl.
      * rewrite length_app. simpl. lia.
      * rewrite app_assoc. by apply sublist_app.
      * rewrite length_app. simpl. intros Hn. rewrite app_assoc, Ha by lia. done.
    + constructor; [done|by apply sublist_inserts_r|]. rewrite length_app. simpl. intros Hn.
      rewrite <- Ha in Hn by lia. rewrite length_app in Hn. lia.
  - rewrite app_nil_r. unfold take_event. destruct (q_events q) as [|event events] eqn:Eq; simpl; (split; [|done]).
    + constructor; by rewrite ?Eq.
    + constructor; simpl in *; [lia|by rewrite <- app_assoc|by rewrite <- app_assoc].
Qed.

(** The queue of the notifier is a bounded FIFO: it never holds more than
    its capacity, what has been processed followed by what waits are events
    that arrived, in their order and each at most as often as it arrived,
    and nothing is dropped as long as no more events have arrived than the
    queue can hold. *)
Lemma push_queue_fifo queueSize ops :
  let '(q, taken) := queue_run ops (NewNotifier queueSize, []) in
  Z.of_nat (length (q_events q)) ≤ q_capacity q
  ∧ taken ++ q_events q `sublist_of` notified_events ops
  ∧ (Z.of_nat (length (notified_events ops)) ≤ q_capacity (NewNotifier queueSize) →
       taken ++ q_events q = notified_events ops).
Proof.
  assert (∀ ops q taken arrived, queue_ok q taken arrived →
    let s := queue_run ops (q, taken) in
    queue_ok s.1 s.2 (arrived ++ notified_events ops) ∧ q_capacity s.1 = q_capacity q) as Hrun.
  { clear. induction ops as [|op ops IH]; intros q taken arrived Hok; cbv zeta.
    { unfold notified_events. simpl. by rewrite app_nil_r. }
    pose proof (queue_step_ok op q taken arrived Hok) as Hs. cbv zeta in Hs.
    destruct (queue_step op (q, taken)) as [q' taken'] eqn:Es. cbn [fst snd] in Hs. destruct Hs as [Hs Ecap].
    specialize (IH q' taken' _ Hs). unfold queue_run in *. cbn [foldl]. rewrite Es.
    assert (notified_events (op :: ops) = notified_events [op] ++ notified_events ops) as ->.
    { unfold notified_events. by destruct op. }
    rewrite app_assoc. by rewrite <- Ecap. }
  assert (queue_ok (NewNotifier queueSize) [] []) as H0.
  { unfold NewNotifier. constructor; simpl; [case_decide; lia|done|done]. }
  specialize (Hrun ops _ _ _ H0). destruct (queue_run ops (NewNotifier queueSize, [])) as [q taken].
  cbn [fst snd] in Hrun. destruct Hrun as [[[_ Hb] Ho Ha] Ecap]. split_and!; [done|done|by rewrite <- Ecap].
Qed.

(** The texts of a notification are never blank. *)
Lemma notification_texts_shown e : notificationTitle e ≠ ""%string ∧ notificationBody e ≠ ""%string.
Proof. unfold notificationTitle, notificationBody. split; repeat (case_decide; [done|]); done. Qed.
