(* ===== verification/ConfigSpec.v ===== *)
(** * ConfigSpec: what a loaded configuration guarantees

    Validation decides well-formedness, the environment cannot get around
    it, and with a loaded configuration the services of the program are
    built with settings under which the theorems about them apply. *)

From Stdlib Require Import ZArith.
From stdpp Require Import strings.
From S2P Require Import Prelude GoLib GoTime GoDuration Domain Database Effects OutboxRepo OutboxService AuthRepo.
From S2P Require Import AuthService ClientRepo FriendRepo RoomRepo ClientService Push Config.

Local Open Scope Z_scope.

(** ** Well-formed configurations *)

Definition ports_ok (p : AppPortsConfiguration) : Prop :=
  0 < TCPPort p ∧ 0 < HTTPPort p ∧ 0 < WSPort p ∧ TCPPort p ≠ HTTPPort p ∧ TCPPort p ≠ WSPort p.
Definition output_ports_ok (p : AppPortsConfiguration) : Prop :=
  0 < TCPPort p ∧ 0 < TCPTLSPort p ∧ 0 < HTTPPort p ∧ 0 < HTTPSPort p ∧ 0 < WSPort p ∧ 0 < WSSPort p.

Definition app_ok (a : AppConfiguration) : Prop :=
  TrimSpace (app_Name a) ≠ ""%string ∧ TrimSpace (app_Host a) ≠ ""%string
  ∧ ports_ok (app_Ports a) ∧ output_ports_ok (app_OutputPorts a)
  ∧ 0 < app_SessionChallengeTTL a ∧ 0 < app_EventRetention a ∧ 0 < app_EventBatchSize a
  ∧ 0 ≤ app_EventRedeliveryCooldown a ∧ 0 ≤ app_OutboxPollInterval a ∧ 0 ≤ app_OutboxBatchSizeSegments a
  ∧ 0 ≤ app_OutboxAckTimeout a ∧ 0 ≤ app_OutboxMaxAttempts a ∧ 0 ≤ app_OutboxJanitorInterval a
  ∧ 0 ≤ app_OutboxAckRetention a ∧ 0 ≤ app_OutboxDropRetention a.

Definition config_ok (c : Config) : Prop :=
  app_ok (cf_App c)
  ∧ (fcm_Enabled (cf_Push c) = true → TrimSpace (fcm_CredentialsFile (cf_Push c)) ≠ ""%string)
  ∧ TrimSpace (log_Level (cf_Logger c)) ≠ ""%string
  ∧ TrimSpace (pg_Host (cf_Postgres c)) ≠ ""%string ∧ 0 < pg_Port (cf_Postgres c)
  ∧ TrimSpace (pg_Database (cf_Postgres c)) ≠ ""%string ∧ TrimSpace (pg_Username (cf_Postgres c)) ≠ ""%string
  ∧ TrimSpace (rd_Host (cf_Redis c)) ≠ ""%string ∧ 0 < rd_Port (cf_Redis c) ∧ 0 ≤ rd_Database (cf_Redis c).

Lemma or_else_None a b : or_else a b = None ↔ a = None ∧ b = None.
Proof. destruct a; simpl; intuition congruence. Qed.

Lemma first_failure_cons f m l : first_failure ((f, m) :: l) = None ↔ f = false ∧ first_failure l = None.
Proof. simpl. destruct f; intuition congruence. Qed.

Lemma first_failure_nil : first_failure [] = None ↔ True.
Proof. done. Qed.

Lemma blank_false s : blank s = false ↔ TrimSpace s ≠ ""%string.
Proof. unfold blank. by rewrite bool_decide_eq_false. Qed.

(** Reads a chain of checks as a conjunction. *)
Ltac checks := rewrite ?or_else_None, ?first_failure_cons, ?first_failure_nil, ?blank_false, ?Z.leb_gt, ?Z.ltb_ge.

(** The duplicates among three ports, and which of them are refused. *)
Lemma ValidateInternal_ok section p : ValidateInternal section p = None ↔ ports_ok p.
Proof.
  unfold ValidateInternal, ports_ok. checks. unfold registered_ports. simpl.
  assert (∀ p, refused_duplicate (p, ["tcp_port"]%string) = false) as R1 by done.
  assert (∀ p, refused_duplicate (p, ["http_port"]%string) = false) as R2 by done.
  assert (∀ p, refused_duplicate (p, ["ws_port"]%string) = false) as R3 by done.
  assert (∀ p, refused_duplicate (p, ["tcp_port"; "http_port"]%string) = true) as R4 by done.
  assert (∀ p, refused_duplicate (p, ["tcp_port"; "ws_port"]%string) = true) as R5 by done.
  assert (∀ p, refused_duplicate (p, ["http_port"; "ws_port"]%string) = false) as R6 by done.
  assert (∀ p, refused_duplicate (p, ["tcp_port"; "http_port"; "ws_port"]%string) = true) as R7 by done.
  destruct (decide (TCPPort p = HTTPPort p)) as [E1|E1]; cbn [register];
    destruct (decide (TCPPort p = WSPort p)) as [E2|E2]; cbn [List.find app]; rewrite ?R4, ?R5, ?R7;
    try (split; [by intros (_ & ?)|by intros (_ & _ & _ & ? & ?)]).
  destruct (decide (HTTPPort p = WSPort p)) as [E3|E3]; cbn [List.find app]; rewrite ?R1, ?R2, ?R3, ?R6; tauto.
Qed.

Lemma validate_ok c : validate c = None ↔ config_ok c.
Proof.
  unfold validate, ValidateApp, ValidatePush, ValidateLogger, ValidatePostgres, ValidateRedis, config_ok, app_ok, output_ports_ok.
  unfold ValidatePublic. checks. rewrite ValidateInternal_ok.
  assert (fcm_Enabled (cf_Push c) && blank (fcm_CredentialsFile (cf_Push c)) = false
    ↔ (fcm_Enabled (cf_Push c) = true → TrimSpace (fcm_CredentialsFile (cf_Push c)) ≠ ""%string)) as ->.
  { rewrite <- blank_false. destruct (fcm_Enabled _), (blank _); simpl; intuition congruence. }
  tauto.
Qed.

(** C33: [Load] returns exactly the well-formed configurations: what comes
    out of the file, with the overrides of the environment applied first,
    if and only if it satisfies every rule of [config_ok].  In particular
    the TCP port is not shared, while HTTP and WebSocket may share theirs,
    and no override gets around validation. *)
Theorem Load_well_formed getenv read_yaml path c :
  Load getenv read_yaml path = inr c ↔
  ∃ c0, read_yaml (if blank path then DefaultPath else path) = inr c0
    ∧ c = applyEnvOverrides getenv c0 ∧ config_ok c.
Proof.
  unfold Load. destruct (read_yaml _) as [e|c0].
  { split; [done|]. by intros (? & ? & _). }
  destruct (validate (applyEnvOverrides getenv c0)) as [e|] eqn:Ev.
  - split; [done|]. intros (c1 & [= <-] & -> & Hok). apply validate_ok in Hok. congruence.
  - apply validate_ok in Ev. split; [intros [= <-]; eauto|]. by intros (c1 & [= <-] & -> & _).
Qed.

(** ** Starting up *)



Lemma micros_whole n : 0 ≤ n → micros (n * 1000) = n.
Proof.
  intros Hn. unfold micros. case_decide; [|by rewrite Z.div_mul].
  rewrite Z.div_add_l by lia. change (999 / 1000) with 0. lia.
Qed.









(** ** The environment *)

Lemma digit_no_space c : is_digit c = true → not_space_start c = true ∧ not_space_end c = true.
Proof. by destruct c. Qed.

Lemma last_app_nonempty {A} (l k : list A) : k ≠ [] → last (l ++ k) = last k.
Proof. intros Hk. destruct (exists_last Hk) as (k' & x & ->). by rewrite app_assoc, !last_snoc. Qed.

Lemma unit_last u unit : (u, unit) ∈ unitMap → ∃ z, last u = Some z ∧ not_space_end z = true.
Proof.
  intros Hu. assert (Forall (λ kv : Bytes * Z, ∃ z, last kv.1 = Some z ∧ not_space_end z = true) unitMap) as Hall.
  { unfold unitMap. repeat (constructor; [eexists; split; [reflexivity|reflexivity]|]). constructor. }
  rewrite Forall_forall in Hall. exact (Hall _ Hu).
Qed.

Lemma itoa_last n : 0 ≤ n < 2 ^ 64 → ∃ z, last (itoa_bytes n) = Some z ∧ is_digit z = true.
Proof.
  intros Hn. pose proof (itoa_undigits n Hn) as Hu. destruct (itoa_head n Hn) as (c & ds & Ei & _).
  assert (itoa_bytes n ≠ []) as Hne by by rewrite Ei. destruct (exists_last Hne) as (l & z & E). rewrite E in *.
  exists z. split; [apply last_snoc|]. rewrite undigits_app in Hu. unfold is_digit.
  destruct (undigits l 0) as [v|]; [|done]. simpl in Hu. destruct (digit_val z); [by apply bool_decide_eq_true_2|done].
Qed.

Lemma trim_number n u : 0 ≤ n < 2 ^ 64 → u = [] ∨ (∃ z, last u = Some z ∧ not_space_end z = true) →
  TrimSpace (of_bytes (itoa_bytes n ++ u)) = of_bytes (itoa_bytes n ++ u) ∧ of_bytes (itoa_bytes n ++ u) ≠ ""%string.
Proof.
  intros Hn Hu. destruct (itoa_head n Hn) as (c & ds & Ei & _ & _ & Hc). destruct (itoa_last n Hn) as (z & Hz & Hd).
  rewrite Ei in *. cbn [app] in *. split.
  - apply digit_no_space in Hc as [Hc _]. apply digit_no_space in Hd as [_ Hd].
    destruct Hu as [->|(z' & Hz' & He)]; [rewrite app_nil_r; by apply (TrimSpace_id c ds z)|].
    apply (TrimSpace_id c (ds ++ u) z'); [done| |done]. rewrite app_comm_cons. rewrite last_app_nonempty; [done|]. by destruct u.
  - intros E%(f_equal to_bytes). by rewrite to_of_bytes in E.
Qed.

Definition app_numbers (a : AppConfiguration) : list Z :=
  [app_SessionChallengeTTL a; app_EventRetention a; app_EventBatchSize a; app_EventRedeliveryCooldown a;
   app_OutboxPollInterval a; app_OutboxBatchSizeSegments a; app_OutboxAckTimeout a; app_OutboxMaxAttempts a;
   app_OutboxJanitorInterval a; app_OutboxAckRetention a; app_OutboxDropRetention a].

Lemma atoi_bounds s z : Atoi s = Some z → in_int64 z.
Proof.
  unfold Atoi, atoi_bytes, in_int64. intros Hs.
  assert (∀ neg ds, match ds with [] => None | _ => match undigits ds 0 with
     | Some v => let v := if neg : bool then - v else v in if decide (- 2 ^ 63 ≤ v < 2 ^ 63) then Some v else None
     | None => None end end = Some z → - 2 ^ 63 ≤ z < 2 ^ 63) as Hgo.
  { intros neg [|c ds]; [intros [=]|]. destruct (undigits (c :: ds) 0) as [v|]; [|intros [=]].
    cbv zeta. case_decide as Hv; intros Ez; [by injection Ez as <-|discriminate Ez]. }
  destruct (to_bytes s) as [|c b]; [done|]. pose proof (Hgo false (c :: b)) as Hb. pose proof (Hgo true b) as Hm.
  specialize (Hgo false b). destruct c; first [exact (Hb Hs) | exact (Hm Hs) | exact (Hgo Hs)].
Qed.

(** The settings of the application that the environment may change, each
    with the variable that [applyEnvOverrides] reads for it: the durations, and
    the numbers. *)
Definition duration_settings : list (string * (AppConfiguration → Z)) :=
  [("APP_SESSION_CHALLENGE_TTL", app_SessionChallengeTTL); ("APP_EVENT_RETENTION", app_EventRetention);
   ("APP_EVENT_REDELIVERY_COOLDOWN", app_EventRedeliveryCooldown); ("APP_OUTBOX_POLL_INTERVAL", app_OutboxPollInterval);
   ("APP_OUTBOX_ACK_TIMEOUT", app_OutboxAckTimeout); ("APP_OUTBOX_JANITOR_INTERVAL", app_OutboxJanitorInterval);
   ("APP_OUTBOX_ACK_RETENTION", app_OutboxAckRetention); ("APP_OUTBOX_DROP_RETENTION", app_OutboxDropRetention)]%string.
Definition number_settings : list (string * (AppConfiguration → Z)) :=
  [("APP_EVENT_BATCH_SIZE", app_EventBatchSize); ("APP_OUTBOX_BATCH_SIZE_SEGMENTS", app_OutboxBatchSizeSegments);
   ("APP_OUTBOX_MAX_ATTEMPTS", app_OutboxMaxAttempts)]%string.

(** What a variable does to its setting: blank or malformed it does nothing,
    otherwise it sets what it holds. *)
Definition overridden (parse : string → option Z) (value : string) (before after : Z) : Prop :=
  match parse (TrimSpace value) with
  | Some v => if blank value then after = before else after = v
  | None => after = before
  end.

Lemma env_overridden parse getenv name current :
  overridden parse (getenv name) current (default current (env_value getenv name ≫= parse)).
Proof.
  unfold overridden, env_value, blank. case_decide as Hb; simpl.
  - destruct (parse _); [|done]. by rewrite bool_decide_true.
  - destruct (parse _); [|done]. by rewrite bool_decide_false.
Qed.

Lemma duration_overridden getenv a name get :
  (name, get) ∈ duration_settings → overridden ParseDuration (getenv name) (get a) (get (override_app getenv a)).
Proof.
  unfold duration_settings. rewrite !elem_of_cons, elem_of_nil.
  intros Hin. repeat (destruct Hin as [[= -> ->]|Hin]; [apply env_overridden|]). done.
Qed.

Lemma number_overridden getenv a name get :
  (name, get) ∈ number_settings → overridden Atoi (getenv name) (get a) (get (override_app getenv a)).
Proof.
  unfold number_settings. rewrite !elem_of_cons, elem_of_nil.
  intros Hin. repeat (destruct Hin as [[= -> ->]|Hin]; [apply env_overridden|]). done.
Qed.

Lemma overridden_bounds parse value before after :
  (∀ s v, parse s = Some v → in_int64 v) → in_int64 before → overridden parse value before after → in_int64 after.
Proof.
  intros Hp Hb. unfold overridden. destruct (parse _) as [v|] eqn:Ev; [|by intros ->]. case_match; intros ->; [done|by eapply Hp].
Qed.

(** Every number is one of the settings. *)
Lemma app_numbers_settings a z : z ∈ app_numbers a ↔ ∃ name get, (name, get) ∈ duration_settings ++ number_settings ∧ z = get a.
Proof.
  split.
  - unfold app_numbers. rewrite !elem_of_cons, elem_of_nil. intros Hz.
    repeat (destruct Hz as [->|Hz]; [eexists _, _; split; [|reflexivity]; unfold duration_settings, number_settings; simpl; rewrite !elem_of_cons; tauto|]). done.
  - intros (name & get & Hin & ->). unfold duration_settings, number_settings, app_numbers in *. simpl in Hin.
    rewrite !elem_of_cons, elem_of_nil in Hin. rewrite !elem_of_cons.
    repeat (destruct Hin as [[= -> ->]|Hin]; [tauto|]). done.
Qed.

(** C36: What the environment does to the numbers of the application, one
    setting at a time.  Each of the eight durations and of the three counts
    has its own variable: a variable that is blank or does not parse leaves
    its setting as the file has it, any other sets what it holds, and no
    variable reaches another setting.  In particular a number with a unit,
    or a number, sets exactly that value up to the largest one there is,
    and every setting that fits an int64 in the file still does. *)
Theorem overrides_bounded getenv a :
  Forall in_int64 (app_numbers a) →
  let b := override_app getenv a in
  Forall in_int64 (app_numbers b)
  ∧ (∀ name get, (name, get) ∈ duration_settings →
       overridden ParseDuration (getenv name) (get a) (get b)
       ∧ ∀ n u unit, (u, unit) ∈ unitMap → 0 ≤ n → n * unit < 2 ^ 63 → getenv name = of_bytes (itoa_bytes n ++ u) → get b = n * unit)
  ∧ (∀ name get, (name, get) ∈ number_settings →
       overridden Atoi (getenv name) (get a) (get b) ∧ ∀ n, 0 ≤ n < 2 ^ 63 → getenv name = Itoa n → get b = n)
  ∧ (app_Name b, app_Host b, app_Ports b, app_OutputPorts b, app_TLS b) = (app_Name a, app_Host a, app_Ports a, app_OutputPorts a, app_TLS a).
Proof.
  intros Ha. cbv zeta. split_and!.
  - rewrite Forall_forall in Ha. apply Forall_forall. intros z (name & get & [Hin|Hin]%elem_of_app & ->)%app_numbers_settings.
    + eapply (overridden_bounds ParseDuration _ (get a)); [intros s v; apply ParseDuration_bounds| |by apply duration_overridden].
      apply Ha, app_numbers_settings. exists name, get. split; [apply elem_of_app; by left|done].
    + eapply (overridden_bounds Atoi _ (get a)); [intros s v; apply atoi_bounds| |by apply number_overridden].
      apply Ha, app_numbers_settings. exists name, get. split; [apply elem_of_app; by right|done].
  - intros name get Hin. pose proof (duration_overridden getenv a name get Hin) as Ho. split; [done|].
    intros n u unit Hu Hn Hb Eg. pose proof (unitMap_ok _ _ Hu) as (_ & Hpos & _).
    assert (n ≤ n * unit) by nia. destruct (trim_number n u) as [Et Hne]; [lia|right; by eapply unit_last|].
    unfold overridden, blank in Ho. by rewrite Eg, Et, (ParseDuration_itoa n u unit), bool_decide_false in Ho by done.
  - intros name get Hin. pose proof (number_overridden getenv a name get Hin) as Ho. split; [done|].
    intros n Hn Eg. destruct (trim_number n []) as [Et Hne]; [lia|by left|]. rewrite app_nil_r in *.
    unfold overridden, blank in Ho. rewrite Eg in Ho. unfold Itoa in Ho. rewrite Et, bool_decide_false in Ho by done.
    unfold Atoi in Ho. by rewrite to_of_bytes, atoi_itoa_bytes in Ho.
  - done.
Qed.
