(* ===== verification/HandlerSpec.v ===== *)
(** * HandlerSpec: what the RPC handler promises

    Which packets are answered with success, what a connection knows about
    its user, which events ride along, and where these promises end. *)

From Stdlib Require Import ZArith.
From stdpp Require Import gmap.
From S2P Require Import Prelude GoLib GoTime Domain Database Effects Pagination OutboxRepo OutboxInv OutboxService.
From S2P Require Import AuthRepo AuthService AuthSpec ClientRepo FriendRepo RoomRepo ClientService RoomService.
From S2P Require Import Rpc Handler RoomSpec.

Local Open Scope Z_scope.

Section spec.
Context {E : Env} {C : Codec} {App : EventAppender} {L : EventAppenderLaws append_event} (h : Handler).

(** ** The state of a connection *)

(** A connection that has authenticated, or begun to, has a key of the right
    size. *)
Definition state_ok (s : sessionState) : Prop :=
  st_Authenticated s = true ∨ st_SessionID s ≠ uuid_Nil → length (st_UserPublicKey s) = PublicKeySize.

Lemma of_decoded_ok {A} (r : string + A) w a w' : of_decoded r w = (Ok a, w') → r = inr a ∧ w' = w.
Proof. destruct r; [done|]. by intros [= <- <-]. Qed.

Lemma Verify_ok key msg sig w b w' :
  Verify key msg sig w = (Ok b, w') → length key = PublicKeySize ∧ b = ed25519_verify key msg sig ∧ w' = w.
Proof. unfold Verify. case_decide; [|done]. by intros [= <- <-]. Qed.

Lemma RequestAuthChallenge_key cfg c input w out w' :
  RequestAuthChallenge cfg c input w = (Ok out, w') → length (rac_UserPublicKey input) = PublicKeySize.
Proof. unfold RequestAuthChallenge. case_decide as Hl; [done|]. intros _. done. Qed.

(** The session of a challenge is stored, and nobody has proven it. *)
Lemma RequestAuthChallenge_session cfg c input w out w' :
  RequestAuthChallenge cfg c input w = (Ok out, w') →
  ∃ s, s ∈ auth_sessions (identity (w_db w')) ∧ ses_SessionID s = rac_SessionID out ∧ ses_IsAuthenticated s = false.
Proof.
  unfold RequestAuthChallenge. repeat (case_decide; [done|]). intros (now & w1 & _ & Hk)%bind_ok.
  apply bind_ok in Hk as (nonce & w2 & _ & Hk). apply bind_ok in Hk as (bytes & w3 & _ & Hk).
  apply bind_ok in Hk as (payload & w4 & _ & Hk). apply bind_ok in Hk as (id & w5 & _ & Hk).
  apply bind_ok in Hk as ([] & w6 & Hc & Hk). injection Hk as <- <-. simpl. revert Hc.
  unfold CreateSession, wrap_error, exec_, exec. destruct (fault_at _); [done|]. unfold stmt_insert_session, on_table.
  destruct (if decide _ then _ else _) as [host|]; [|done].
  destruct (insert_checked _ _ _ _ _) as [e|t] eqn:Ei; [done|]. intros [= <-].
  apply insert_checked_Some in Ei as (-> & _ & _). simpl. eexists. split; [apply elem_of_app; right; left|done].
Qed.

Lemma SolveAuthChallenge_key cfg c id sig w out w' :
  SolveAuthChallenge cfg c id sig w = (Ok out, w') →
  ∃ s w1, GetSession c id w = (Ok s, w1) ∧ length (ses_UserPublicKey s) = PublicKeySize
    ∧ ed25519_verify (ses_UserPublicKey s) (ses_ChallengePayload s) sig = true.
Proof.
  unfold SolveAuthChallenge. case_decide; [done|]. intros (s & w1 & Hs & Hk)%bind_ok.
  apply bind_ok in Hk as (now & w2 & _ & Hk). case_decide; [done|].
  apply bind_ok in Hk as (ok & w3 & Hv & Hk). apply Verify_ok in Hv as (Hl & -> & _).
  exists s, w1. split; [done|]. split; [done|]. by destruct (ed25519_verify _ _ _).
Qed.

Lemma hoare_attempt {A} P (m : M A) (Q : A → DB → Prop) R :
  hoare P m Q R → hoare P (attempt m) (λ r, match r with inl _ => R | inr a => Q a end) R.
Proof.
  intros Hm w Hw. specialize (Hm w Hw). unfold attempt. by destruct (m w) as [[a|e|s] w'].
Qed.

Lemma hoare_reads {A} (P : DB → Prop) (m : M A) : preserves P m → hoare P m (λ _, P) P.
Proof. apply preserves_hoare. Qed.

(** A computation that starts by failing does nothing. *)
Lemma hoare_raises {A} (P : DB → Prop) (m : M A) Q :
  (∀ w, P (w_db w) → w_db (m w).2 = w_db w ∧ ∀ a, (m w).1 ≠ Ok a) → hoare P m Q P.
Proof.
  intros Hm w Hw. destruct (Hm w Hw) as [Ew Hn]. destruct (m w) as [[a|e|s] w']; simpl in *.
  - by destruct (Hn a).
  - by rewrite Ew.
  - by rewrite Ew.
Qed.

(** ** Whose signature a packet needs *)

Definition signer_key (payload : RequestPayload) (state : sessionState) (db : DB) (key : Bytes) : Prop :=
  if st_Authenticated state then key = st_UserPublicKey state
  else if decide (pl_RPCCall payload = "requestAuthChallenge"%string) then
    ∃ p, cbor_requestAuth (pl_Parameters payload) = inr p ∧ key = rq_UserPublicKey p
  else if decide (pl_RPCCall payload = "solveAuthChallenge"%string) then
    ∃ p s, cbor_solveAuth (pl_Parameters payload) = inr p
      ∧ sql_row (λ s, ses_SessionID s = sv_SessionID p) (auth_sessions (identity db)) = Some s
      ∧ key = ses_UserPublicKey s
  else st_SessionID state ≠ uuid_Nil ∧ key = st_UserPublicKey state.

(** The packet decodes and carries a signature of its payload under the key
    it needs. *)
Definition signed_packet (packet : RequestPacket) (state : sessionState) (db : DB) : Prop :=
  ∃ payload key, DecodePayload (pk_Payload packet) = inr payload ∧ signer_key payload state db key
    ∧ length key = PublicKeySize ∧ ed25519_verify key (pk_Payload packet) (pk_Signature packet) = true.

Lemma GetSession_row c id db0 :
  hoare (λ db, db = db0) (GetSession c id)
    (λ s db, db = db0 ∧ sql_row (λ s, ses_SessionID s = id) (auth_sessions (identity db0)) = Some s)
    (λ db, db = db0).
Proof.
  intros w Hw. unfold GetSession, bind, wrap_error, query. destruct (fault_at _); [done|]. simpl.
  destruct (sql_row _ _) as [s|] eqn:Es; simpl; [|done]. by rewrite Hw in Es.
Qed.

Lemma of_decoded_hoare {A} P (r : string + A) :
  hoare P (of_decoded r) (λ a db, P db ∧ r = inr a) P.
Proof. destruct r; intros w Hw; done. Qed.

Lemma resolveSigner_key c payload state db0 :
  hoare (λ db, db = db0) (resolveSigner c payload state)
    (λ key db, db = db0 ∧ signer_key payload state db0 key) (λ db, db = db0).
Proof.
  unfold resolveSigner, signer_key. destruct (st_Authenticated state); [by apply hoare_ret|].
  case_decide.
  { eapply hoare_bind; [apply of_decoded_hoare|]. intros p. apply hoare_ret. intros db [-> Hp]. eauto. }
  case_decide.
  { eapply hoare_bind; [apply of_decoded_hoare|]. intros p.
    intros w [Hw Hp]. unfold bind, LookupSession. pose proof (GetSession_row c (sv_SessionID p) db0 w Hw) as Hs.
    destruct (GetSession c (sv_SessionID p) w) as [[s|e|m] w1]; [|done|done].
    simpl. destruct Hs as [-> Hs]. eauto 8. }
  case_decide; [by apply hoare_ret|by apply hoare_raise].
Qed.

(** Nobody's signature: the call itself fails before it writes. *)
Lemma handle_call_unsigned c payload state w :
  state_ok state → signer_key payload state (w_db w) [] → refused (handle_call h c payload state) w.
Proof.
  intros Hok Hkey. unfold signer_key in Hkey.
  destruct (st_Authenticated state) eqn:Ea.
  { specialize (Hok (or_introl Ea)). by rewrite <- Hkey in Hok. }
  unfold handle_call. case_decide.
  { destruct Hkey as (p & Hp & Hk). unfold call_requestAuthChallenge. rewrite Hp.
    apply refused_bind_r; [done|]. intros p' w' [= <- <-].
    apply refused_bind_l. unfold RequestAuthChallenge. cbn [rac_UserPublicKey]. rewrite <- Hk. apply refused_raise. }
  case_decide.
  { destruct Hkey as (p & s & Hp & Hs & Hk). unfold call_solveAuthChallenge. rewrite Hp.
    apply refused_bind_r; [done|]. intros p' w' [= <- <-]. apply refused_bind_l.
    unfold SolveAuthChallenge. case_decide; [apply refused_raise|].
    pose proof (GetSession_row c (sv_SessionID p) (w_db w) w eq_refl) as Hg.
    unfold refused, bind. destruct (GetSession c (sv_SessionID p) w) as [[s'|e|m] w1]; [|done|done].
    destruct Hg as [Ew Hs']. rewrite Hs in Hs'. injection Hs' as <-. unfold Now. case_decide; [done|].
    unfold Verify. rewrite <- Hk. simpl. done. }
  destruct Hkey as [Hid Hkey]. specialize (Hok (or_intror Hid)). by rewrite <- Hkey in Hok.
Qed.

(** The response, the next state and the error of a refused packet. *)
Definition rejected (state : sessionState) (db : DB) (r : outcome (ResponsePacket * sessionState * option error) * World) : Prop :=
  w_db r.2 = db ∧ ∀ response next err, r.1 = Ok (response, next, err) → next = state ∧ is_Some err.

Lemma fail_packet_rejected payload err state w : rejected state (w_db w) (fail_packet payload err state w).
Proof.
  unfold fail_packet, errorResponse, rejected. destruct (mapError err). split; [done|].
  by intros ??? [= <- <- <-].
Qed.

(** C7: A packet without a valid signature of the key it needs is answered
    with an error, or not at all: it leaves every table and the state of its
    connection as they were. *)
Theorem unsigned_packet_rejected c packet state w :
  state_ok state → ¬ signed_packet packet state (w_db w) →
  rejected state (w_db w) (handlePacket h c packet state w).
Proof.
  intros Hok Hns. unfold handlePacket. destruct (DecodePayload (pk_Payload packet)) as [msg|payload] eqn:Ed.
  { split; [done|]. by intros ??? [= <- <- <-]. }
  pose proof (hoare_attempt _ _ _ _ (resolveSigner_key c payload state (w_db w)) w eq_refl) as Hs.
  unfold bind at 1. destruct (attempt _ w) as [[[e|key]|e|m] w1]; cbn beta iota in Hs |- *.
  - rewrite <- Hs. apply fail_packet_rejected.
  - destruct Hs as [Ew Hkey]. rewrite <- Ew in Hns, Hkey |- *. case_decide as Hnil.
    + subst key. change (bind (ret true) ?k w1) with (k true w1). cbn [negb]. cbv beta iota.
      pose proof (handle_call_unsigned c payload state w1 Hok Hkey) as [Edb Hno].
      unfold bind at 1, attempt. destruct (handle_call h c payload state w1) as [[a|e|m] w2]; simpl in Edb, Hno.
      * by destruct (Hno a).
      * rewrite <- Edb. apply fail_packet_rejected.
      * by split.
    + unfold bind at 1, Verify. case_decide as Hl; [|by split].
      simpl. destruct (ed25519_verify key _ _) eqn:Ev; [|apply fail_packet_rejected].
      destruct Hns. exists payload, key. done.
  - by split.
  - by split.
Qed.

(** ** What a packet does to the state of its connection *)

Definition session_row (id : UUID) (db : DB) : option Session :=
  sql_row (λ s, ses_SessionID s = id) (auth_sessions (identity db)).

Lemma solve_tx_session cfg id now c db0 :
  hoare (λ db, db = db0) (solve_tx cfg id now c)
    (λ s db, ∃ s0, session_row id db0 = Some s0 ∧ s = ses_set_authenticated now s0 ∧ session_row id db = Some s)
    (λ _, True).
Proof.
  set (marked (s : Session) db := session_row id db = Some s
         ∧ ∃ s0, session_row id db0 = Some s0 ∧ s = ses_set_authenticated now s0).
  unfold solve_tx. apply (hoare_bind _ _ _ marked).
  { unfold MarkAuthenticated. apply (hoare_bind _ _ _ (λ r db, session_row id db = r
      ∧ r = ses_set_authenticated now <$> session_row id db0)).
    - apply hoare_wrap_error, hoare_exec; [done|]. intros db row db' -> [= <- <-]. unfold session_row. simpl.
      split; [done|]. by apply sql_row_update_same.
    - intros [s|]; [|by apply hoare_raise]. apply hoare_ret. intros db [Hs Hr]. split; [done|].
      destruct (session_row id db0); [|done]. injection Hr as ->. eauto. }
  intros s. apply (hoare_skip (marked s)); [|done|intros _].
  { apply (TouchProfile_sessions (marked s)). intros db db' Es [H1 H2]. split; [|done].
    unfold session_row in *. by rewrite Es. }
  apply (hoare_skip (marked s)); [apply preserves_NewUUID|done|intros eid].
  apply (hoare_skip (marked s)); [|done|intros _].
  { apply (preserves_append (marked s)). intros db db' [Ei _] [H1 H2]. split; [|done].
    unfold session_row in *. by rewrite Ei. }
  apply hoare_ret. intros db [H1 (s0 & H2 & H3)]. eauto.
Qed.

Lemma SolveAuthChallenge_session cfg c id sig db0 :
  hoare (λ db, db = db0) (SolveAuthChallenge cfg c id sig)
    (λ out db, sac_IsAuthenticated out = true ∧ ∃ s, session_row id db = Some s ∧ ses_IsAuthenticated s = true
       ∧ sac_UserPublicKey out = ses_UserPublicKey s ∧ length (ses_UserPublicKey s) = PublicKeySize
       ∧ ed25519_verify (ses_UserPublicKey s) (ses_ChallengePayload s) sig = true) (λ _, True).
Proof.
  unfold SolveAuthChallenge. case_decide; [by apply hoare_raise|].
  set (P s db := db = db0 ∧ session_row id db0 = Some s).
  apply (hoare_bind _ _ _ P).
  { eapply hoare_conseq; [apply (GetSession_row c id db0)|done|by intros ?? [-> ?]|done]. }
  intros s. apply (hoare_skip (P s)); [apply preserves_Now|done|intros now].
  case_decide; [by apply hoare_raise|].
  set (ok_of := ed25519_verify (ses_UserPublicKey s) (ses_ChallengePayload s) sig).
  apply (hoare_bind _ _ _ (λ ok db, P s db ∧ length (ses_UserPublicKey s) = PublicKeySize ∧ ok = ok_of)).
  { intros w Hw. unfold Verify. by case_decide. }
  intros ok. destruct ok; [|by apply hoare_raise]. cbn [negb]. cbv beta iota.
  intros w ([Hw Hs] & Hl & Hok).
  assert (hoare (λ db, db = db0) (let* session := WithinTransaction c (solve_tx cfg (ses_SessionID s) now) in
    ret (mkSolveAuthChallengeOutput true (ses_UserPublicKey session) now))
    (λ out db, sac_IsAuthenticated out = true ∧ ∃ s, session_row id db = Some s ∧ ses_IsAuthenticated s = true
       ∧ sac_UserPublicKey out = ses_UserPublicKey s ∧ length (ses_UserPublicKey s) = PublicKeySize
       ∧ ed25519_verify (ses_UserPublicKey s) (ses_ChallengePayload s) sig = true) (λ _, True)) as Hh; [|by apply Hh].
  apply (hoare_bind _ _ _ (λ s' db, ∃ s0, session_row id db0 = Some s0 ∧ s' = ses_set_authenticated now s0
    ∧ session_row id db = Some s')).
  { apply hoare_WithinTransaction; [|done]. pose proof (sql_row_Some _ _ _ Hs) as [_ ->]. apply solve_tx_session. }
  intros r. apply hoare_ret. intros db (s0 & Hs0 & -> & Hr). rewrite Hs in Hs0.
  injection Hs0 as <-. split; [done|]. by exists (ses_set_authenticated now s).
Qed.

Lemma profileCompleted_reads c user : reads (profileCompleted h c user).
Proof.
  apply reads_preserves. intros db0.
  assert (preserves (λ db, db = db0) (SvcGetProfile c user)) as Hp
    by (unfold SvcGetProfile, GetProfile, GetActiveBanStatus; solve_preserves).
  unfold profileCompleted. solve_preserves.
Qed.

(** The transitions of a connection on a call that succeeds; [db] is the
    database afterwards.  Only a solved challenge authenticates. *)
Inductive conn_step (payload : RequestPayload) (state : sessionState) (db : DB) : sessionState → Prop :=
  | conn_challenge p id :
      pl_RPCCall payload = "requestAuthChallenge"%string → cbor_requestAuth (pl_Parameters payload) = inr p →
      length (rq_UserPublicKey p) = PublicKeySize →
      conn_step payload state db
        (mkSessionState id (rq_UserPublicKey p) (rq_DeviceID p) (st_Authenticated state)
           (st_ProfileCompleted state) (st_SubscriptionIDs state))
  | conn_solve p s completed :
      pl_RPCCall payload = "solveAuthChallenge"%string → cbor_solveAuth (pl_Parameters payload) = inr p →
      session_row (sv_SessionID p) db = Some s → ses_IsAuthenticated s = true →
      length (ses_UserPublicKey s) = PublicKeySize →
      ed25519_verify (ses_UserPublicKey s) (ses_ChallengePayload s) (sv_Signature p) = true →
      conn_step payload state db
        (mkSessionState (sv_SessionID p) (ses_UserPublicKey s) (ses_DeviceID s) true completed
           (st_SubscriptionIDs state))
  | conn_subscribe id :
      pl_RPCCall payload = "subscribeToEvents"%string →
      conn_step payload state db (st_set_subscriptions (st_SubscriptionIDs state ++ [id]) state)
  | conn_profile completed :
      pl_RPCCall payload = "updateProfile"%string → st_Authenticated state = true →
      conn_step payload state db (st_set_profile completed state)
  | conn_same : conn_step payload state db state.

Lemma conn_step_ok payload state db next : conn_step payload state db next → state_ok state → state_ok next.
Proof. destruct 1; unfold state_ok in *; simpl; auto. Qed.

Lemma call_solve_step c payload state w params next w' :
  pl_RPCCall payload = "solveAuthChallenge"%string →
  call_solveAuthChallenge h c payload state w = (Ok (params, next), w') →
  conn_step payload state (w_db w') next.
Proof.
  intros Hc. unfold call_solveAuthChallenge. intros (p & w1 & [Hp ->]%of_decoded_ok & Hk)%bind_ok.
  apply bind_ok in Hk as (out & w2 & Ho & Hk).
  pose proof (SolveAuthChallenge_session (h_authService h) c (sv_SessionID p) (sv_Signature p) (w_db w) w eq_refl) as Hs.
  rewrite Ho in Hs. destruct Hs as (Ha & s & Hrow & Hauth & Hkey & Hl & Hv). rewrite Ha, Hkey in Hk.
  apply bind_ok in Hk as (next' & w3 & Hn & Hk). injection Hk as <- <- <-.
  apply bind_ok in Hn as (s' & w4 & Hs' & Hn).
  pose proof (GetSession_row c (sv_SessionID p) (w_db w2) w2 eq_refl) as Hg. unfold LookupSession in Hs'.
  rewrite Hs' in Hg. destruct Hg as [E4 Hg]. fold (session_row (sv_SessionID p) (w_db w2)) in Hg.
  rewrite Hrow in Hg. injection Hg as <-.
  apply bind_ok in Hn as (completed & w5 & Hcomp & Hn). injection Hn as <- <-.
  pose proof (profileCompleted_reads c (ses_UserPublicKey s) w4) as E5. rewrite Hcomp in E5. simpl in E5.
  apply conn_solve; try done. by rewrite E5, E4.
Qed.

Lemma call_step c payload state w params next w' :
  handle_call h c payload state w = (Ok (params, next), w') → conn_step payload state (w_db w') next.
Proof.
  unfold handle_call. case_decide as Hc1.
  { unfold call_requestAuthChallenge. intros (p & w1 & [Hp ->]%of_decoded_ok & Hk)%bind_ok.
    apply bind_ok in Hk as (out & w2 & Ho & Hk). injection Hk as <- <- <-.
    apply RequestAuthChallenge_key in Ho. by apply conn_challenge. }
  case_decide as Hc2; [by apply call_solve_step|].
  case_decide as Hc3.
  { unfold call_subscribeToEvents. intros (p & w1 & [Hp ->]%of_decoded_ok & Hk)%bind_ok.
    apply bind_ok in Hk as (out & w2 & Ho & Hk). injection Hk as <- <- <-. by apply conn_subscribe. }
  case_decide as Hc4.
  { intros (p & w1 & _ & Hk)%bind_ok. apply bind_ok in Hk as (out & w2 & _ & Hk).
    injection Hk as <- <- <-. apply conn_same. }
  case_decide as Hc5.
  { unfold call_acknowledgeEvent. destruct (negb _); [done|]. intros (p & w1 & _ & Hk)%bind_ok.
    apply bind_ok in Hk as (id & w2 & _ & Hk). apply bind_ok in Hk as ([] & w3 & _ & Hk).
    injection Hk as <- <- <-. apply conn_same. }
  unfold handleClientAPICall. destruct (h_clientService h) as [cfg|]; [|done].
  destruct (st_Authenticated state) eqn:Ea; [|done]. cbn [negb]. case_decide; [done|].
  intros (p & w1 & _ & Hk)%bind_ok. apply bind_ok in Hk as (resp & w2 & _ & Hk). case_decide.
  - apply bind_ok in Hk as (completed & w3 & _ & Hk). injection Hk as <- <- <-. by apply conn_profile.
  - injection Hk as <- <- <-. apply conn_same.
Qed.

Lemma fail_packet_ok payload err state w response next e w' :
  fail_packet payload err state w = (Ok (response, next, e), w') → next = state ∧ is_Some e.
Proof. unfold fail_packet, errorResponse. destruct (mapError err). by intros [= <- <- <- <-]. Qed.

Lemma handlePacket_transition c packet state w response next err w' :
  handlePacket h c packet state w = (Ok (response, next, err), w') →
  match err with
  | Some _ => next = state
  | None => ∃ payload, DecodePayload (pk_Payload packet) = inr payload ∧ conn_step payload state (w_db w') next
  end.
Proof.
  unfold handlePacket. destruct (DecodePayload (pk_Payload packet)) as [msg|payload]; [by intros [= <- <- <- <-]|].
  intros (signer & w1 & _ & Hk)%bind_ok. destruct signer as [e|key].
  { by apply fail_packet_ok in Hk as [-> [? ->]]. }
  apply bind_ok in Hk as (signed & w2 & _ & Hk). destruct (negb signed).
  { by apply fail_packet_ok in Hk as [-> [? ->]]. }
  apply bind_ok in Hk as (result & w3 & Hcall & Hk). apply attempt_ok in Hcall. destruct result as [e|[params n]].
  { by apply fail_packet_ok in Hk as [-> [? ->]]. }
  injection Hk as <- <- <- <-. exists payload. split; [done|]. exact (call_step _ _ _ _ _ _ _ Hcall).
Qed.

(** C8: The life of a connection.  A packet that is answered without an error
    moves its connection along one of the transitions of [conn_step] for the
    call it carries, which keeps the key of the connection well formed and
    authenticates it only by a solved challenge; one that is answered with
    an error leaves the connection where it was. *)
Theorem connection_transitions c packet state w response next err w' :
  handlePacket h c packet state w = (Ok (response, next, err), w') →
  match err with
  | Some _ => next = state
  | None => ∃ payload, DecodePayload (pk_Payload packet) = inr payload ∧ conn_step payload state (w_db w') next
      ∧ (state_ok state → state_ok next)
      ∧ (st_Authenticated next = true → st_Authenticated state = true
           ∨ pl_RPCCall payload = "solveAuthChallenge"%string ∧ state_ok next)
  end.
Proof.
  intros Hk%handlePacket_transition. destruct err; [done|]. destruct Hk as (payload & Hd & Hstep).
  exists payload. split_and!; [done|exact Hstep|by eapply conn_step_ok|].
  intros Ha. destruct Hstep; simpl in *; auto. right. split; [done|]. by intros _.
Qed.

(** ** Batches and connections *)

Lemma handlePacket_state_ok c packet state w response next err w' :
  handlePacket h c packet state w = (Ok (response, next, err), w') → state_ok state → state_ok next.
Proof.
  intros Hk%handlePacket_transition. destruct err; [by subst|]. destruct Hk as (payload & _ & Hstep).
  by eapply conn_step_ok.
Qed.

Lemma packets_loop_ok c packets : ∀ state status w responses last status' w',
  packets_loop h c packets state status w = (Ok (responses, last, status'), w') →
  length responses = length packets ∧ status ≤ status' ∧ (state_ok state → state_ok last).
Proof.
  induction packets as [|packet packets IH]; intros state status w responses last status' w'; simpl.
  { intros [= <- <- <- <-]. split_and!; [done|lia|done]. }
  intros ([[response next] err] & w1 & Hp & Hk)%bind_ok. apply bind_ok in Hk as ([[rs l] st] & w2 & Hl & Hk).
  injection Hk as <- <- <- <-. apply IH in Hl as (Hn & Hs & Hok).
  pose proof (handlePacket_state_ok _ _ _ _ _ _ _ _ Hp) as Hstate.
  split_and!; [simpl; lia| |auto]. assert (status ≤ maxStatus status StatusBadRequest) as Hm.
  { unfold maxStatus. destruct (status <? _) eqn:E1; [apply Z.ltb_lt in E1|]; lia. }
  destruct err; lia.
Qed.

Lemma handlePackets_ok c packets state sent w responses next status sent' w' :
  handlePackets h c packets state sent w = (Ok (responses, next, status, sent'), w') →
  (state_ok state → state_ok next)
  ∧ ∃ answers events, responses = answers ++ events ∧ length answers = length packets
    ∧ (st_Authenticated next = false → events = []).
Proof.
  unfold handlePackets. intros ([[rs last] st] & w1 & Hl & Hk)%bind_ok.
  apply packets_loop_ok in Hl as (Hn & _ & Hok).
  assert (∀ events, responses = rs ++ events → next = last → (st_Authenticated last = false → events = []) →
    (state_ok state → state_ok next)
    ∧ ∃ answers events, responses = answers ++ events ∧ length answers = length packets
      ∧ (st_Authenticated next = false → events = [])) as Hgo by (intros events -> -> ?; eauto 8).
  assert (∀ k, k = ret (rs, last, st, sent) ∨
      (∃ m, st_Authenticated last = true ∧ k = bind m (λ r : error + list Event, match r with
         | inl _ => ret (rs, last, maxStatus st StatusInternalServerError, sent)
         | inr events => ret (rs ++ (event_packet <$> events), last, st, sent) end)) →
    k w1 = (Ok (responses, next, status, sent'), w') →
    (state_ok state → state_ok next)
    ∧ ∃ answers events, responses = answers ++ events ∧ length answers = length packets
      ∧ (st_Authenticated next = false → events = [])) as Huser.
  { intros k [->|(m & Ha & ->)] Hret.
    - injection Hret as <- <- <- <- <-. apply (Hgo []); [by rewrite app_nil_r|done|done].
    - apply bind_ok in Hret as ([e|events] & w2 & _ & Hret); injection Hret as <- <- <- <- <-.
      + apply (Hgo []); [by rewrite app_nil_r|done|done].
      + apply (Hgo (event_packet <$> events)); [done|done|congruence]. }
  destruct (h_outboxService h) as [outbox|].
  - case_decide as Hd.
    + apply bind_ok in Hk as ([[e|events] s2] & w2 & _ & Hk); injection Hk as <- <- <- <- <-.
      * apply (Hgo []); [by rewrite app_nil_r|done|done].
      * apply (Hgo events); [done|done|]. destruct Hd. congruence.
    + refine (Huser _ _ Hk). destruct (st_Authenticated last); [right; by eexists|by left].
  - refine (Huser _ _ Hk). destruct (st_Authenticated last); [right; by eexists|by left].
Qed.

(** The states of all HTTP connections. *)
Definition scopes_ok (s : scopes) : Prop := map_Forall (λ _ scope, state_ok (cn_state scope)) s.

Lemma no_state_ok : state_ok no_state.
Proof. by intros [?|[]]. Qed.

Lemma get_scope_ok id s : scopes_ok s → state_ok (cn_state (get_scope id s)).
Proof.
  intros Hs. unfold get_scope. destruct (s !! id) as [scope|] eqn:Es; [exact (Hs _ _ Es)|apply no_state_ok].
Qed.

(** HTTP connections are isolated: a request reads and changes the state
    of its own connection only, keeps every state well formed, and once a
    connection is closed its identifier starts from nothing again. *)
Lemma http_connections_isolated c connectionID body s w status payload s' w' :
  scopes_ok s → handleHTTP h c connectionID body s w = (Ok (status, payload, s'), w') →
  scopes_ok s' ∧ (∀ id, connectionID ≠ Some id → s' !! id = s !! id)
  ∧ (∀ id, TrimSpace id ≠ ""%string → scopes_ok (OnHTTPConnectionClosed id s')
       ∧ get_scope id (OnHTTPConnectionClosed id s') = mkConnectionSession no_state ∅
       ∧ ∀ id', id' ≠ id → OnHTTPConnectionClosed id s' !! id' = s' !! id').
Proof.
  intros Hs Hk. assert (scopes_ok s' ∧ ∀ id, connectionID ≠ Some id → s' !! id = s !! id) as [Hs' Hf].
  { unfold handleHTTP in Hk. destruct connectionID as [cid|]; [|by injection Hk as <- <- <- <-].
    apply bind_ok in Hk as ([[[[rs next] st] sent] n] & w1 & Hb & Hk).
    assert (state_ok next) as Hn.
    { unfold handleBatch in Hb. destruct (decode_batch _) as [msg|packets].
      - injection Hb as <- <- <- <- <- <-. by apply get_scope_ok.
      - apply bind_ok in Hb as ([[[rs' next'] st'] sent''] & w2 & Hp & Hb). injection Hb as <- <- <- <- <- <-.
        apply handlePackets_ok in Hp as [Hp _]. by apply Hp, get_scope_ok. }
    assert (scopes_ok (<[cid:=mkConnectionSession next sent]> s)) as Hins by by apply map_Forall_insert_2.
    assert (∀ id, Some cid ≠ Some id → <[cid:=mkConnectionSession next sent]> s !! id = s !! id) as Hne.
    { intros id Hid. apply lookup_insert_ne. congruence. }
    destruct (cbor_responses rs); [|by injection Hk as <- <- <- <-].
    apply bind_ok in Hk as (u & w2 & _ & Hk). by injection Hk as <- <- <- <-. }
  split_and!; [done|done|]. intros id Hid. unfold OnHTTPConnectionClosed. rewrite decide_False by done.
  split_and!.
  - by apply map_Forall_delete.
  - unfold get_scope. setoid_rewrite lookup_delete_eq. done.
  - intros id' Hne. by apply lookup_delete_ne.
Qed.

(** ** Calls that are gated *)

Definition open_calls : list string :=
  ["requestAuthChallenge"; "solveAuthChallenge"; "subscribeToEvents"; "unsubscribeFromEvents"]%string.

Definition client_methods : list string :=
  profileMethods ++ deviceMethods ++ friendMethods ++ roomMethods ++ memberMethods ++ invitationMethods
    ++ ["sendMessage"%string] ++ overviewMethods.

Lemma dispatch_unknown cfg c call params state :
  call ∉ client_methods → dispatchClientMethod cfg c call params state = raise (not_implemented call).
Proof.
  unfold client_methods. rewrite !not_elem_of_app, list_elem_of_singleton. intros (? & ? & ? & ? & ? & ? & ? & ?).
  unfold dispatchClientMethod. by repeat (rewrite decide_False by done).
Qed.

(** A session that is authenticated, in the tables. *)
Definition live_session (id : UUID) (db : DB) : Prop :=
  ∃ s, s ∈ auth_sessions (identity db) ∧ ses_SessionID s = id ∧ ses_IsAuthenticated s = true.

(** Why a call is refused. *)
Definition gated (payload : RequestPayload) (state : sessionState) (db : DB) : Prop :=
  let call := pl_RPCCall payload in
  ((call ∉ open_calls)
    ∧ (st_Authenticated state = false
       ∨ (st_ProfileCompleted state = false ∧ (call ∉ ["acknowledgeEvent"; "updateProfile"]%string))
       ∨ (call ∉ "acknowledgeEvent"%string :: client_methods)))
  ∨ (call = "subscribeToEvents"%string ∧ ¬ live_session (st_SessionID state) db).

Lemma subscribe_refused c payload state w :
  ¬ live_session (st_SessionID state) (w_db w) → refused (call_subscribeToEvents h c payload state) w.
Proof.
  intros Hno. unfold call_subscribeToEvents. apply refused_bind_r; [by destruct (cbor_subscribe _)|].
  intros u w1 [_ ->]%of_decoded_ok. apply refused_bind_l. unfold SubscribeToEvents.
  pose proof (GetSession_row c (st_SessionID state) (w_db w) w eq_refl) as Hrow. unfold refused, bind.
  destruct (GetSession c (st_SessionID state) w) as [[s|e|m] w2]; simpl in *; [|done|done].
  destruct Hrow as [Edb [Hin Hid]%sql_row_Some]. destruct (ses_IsAuthenticated s) eqn:Ea; [|done]. destruct Hno. by exists s.
Qed.

(** C9: Which calls are gated.  The calls that ask for and solve a challenge
    need no session.  [subscribeToEvents] is refused and writes nothing when
    the session of the connection is not authenticated in the tables.  Every
    other call but [unsubscribeFromEvents] is refused and writes nothing
    when its connection is not authenticated, when the profile is incomplete
    and the call is neither an acknowledgement nor the update of the
    profile, and when no such method exists.  [unsubscribeFromEvents] is not
    gated: what it does to the tables does not depend on who asks. *)
Theorem calls_are_gated c payload state w :
  (gated payload state (w_db w) → refused (handle_call h c payload state) w)
  ∧ (pl_RPCCall payload = "unsubscribeFromEvents"%string →
       ∀ state', (handle_call h c payload state' w).2 = (handle_call h c payload state w).2).
Proof.
  split.
  2:{ intros Hc state'. assert (∀ st, handle_call h c payload st = call_unsubscribeFromEvents c payload st) as Hcall
        by (intros st; unfold handle_call; rewrite Hc; reflexivity).
      rewrite !Hcall. unfold call_unsubscribeFromEvents, bind.
      destruct (of_decoded _ w) as [[p|e|m] w1]; [|done|done]. by destruct (UnsubscribeFromEvents _ _ w1) as [[t|e|m] w2]. }
  intros [[Hopen Hgate]|[Hsub Hno]].
  2:{ assert (handle_call h c payload state = call_subscribeToEvents h c payload state) as ->
        by (unfold handle_call; rewrite Hsub; reflexivity). by apply subscribe_refused. }
  revert Hopen Hgate. unfold open_calls. rewrite !not_elem_of_cons. intros (H1 & H2 & H3 & H4 & _) Hgate. unfold handle_call.
  rewrite !(decide_False (P := _ = _)) by done. case_decide as Hack.
  { rewrite Hack in Hgate. destruct Hgate as [Ha|[[_ [? _]]|[? _]]]; [|done|done].
    unfold call_acknowledgeEvent. rewrite Ha. apply refused_raise. }
  unfold handleClientAPICall. destruct (h_clientService h) as [cfg|]; [|apply refused_raise].
  destruct (st_Authenticated state); [|apply refused_raise]. cbn [negb].
  case_decide as Hp; [apply refused_raise|]. destruct Hgate as [Ha|[[Ha Hn]|Hn]]; [done| |].
  - destruct Hp. split; [done|]. by destruct Hn as (_ & ? & _).
  - apply refused_bind_r; [by destruct (decodeMapParameters _)|]. intros params w' _. apply refused_bind_l.
    destruct Hn as [_ Hn]. rewrite dispatch_unknown by done. apply refused_raise.
Qed.

(** ** Keys the handler trusts too early *)

(** A connection that is not authenticated can make the handler panic: a
    challenge request names a key that is neither empty nor of the right
    size, and the signature is verified under it unchecked. *)
Lemma malformed_key_panics c packet state payload p w :
  st_Authenticated state = false → DecodePayload (pk_Payload packet) = inr payload →
  pl_RPCCall payload = "requestAuthChallenge"%string → cbor_requestAuth (pl_Parameters payload) = inr p →
  rq_UserPublicKey p ≠ [] → length (rq_UserPublicKey p) ≠ PublicKeySize →
  handlePacket h c packet state w = (Panic "ed25519: bad public key length", w).
Proof.
  intros Ha Hd Hc Hp Hne Hl. unfold handlePacket. rewrite Hd. unfold bind at 1, attempt, resolveSigner.
  rewrite Ha, Hc. cbn [decide]. rewrite decide_True by done. rewrite Hp. simpl. rewrite decide_False by done.
  unfold bind, Verify. by rewrite decide_False.
Qed.

(** The connection has a new, unauthenticated session under the key and the
    device of a challenge request. *)
Definition rebound (p : requestAuthChallengeParams) (next : sessionState) (db : DB) : Prop :=
  st_UserPublicKey next = rq_UserPublicKey p ∧ st_DeviceID next = rq_DeviceID p
  ∧ ∃ s, s ∈ auth_sessions (identity db) ∧ ses_SessionID s = st_SessionID next ∧ ses_IsAuthenticated s = false.

(** An authenticated connection that requests a challenge takes over the
    key and the device named in its parameters and stays authenticated,
    although the session it now carries is a new one that nobody has
    proven. *)
Lemma challenge_rebinds_connection c packet state w response next w' payload :
  handlePacket h c packet state w = (Ok (response, next, None), w') → st_Authenticated state = true →
  DecodePayload (pk_Payload packet) = inr payload → pl_RPCCall payload = "requestAuthChallenge"%string →
  st_Authenticated next = true
  ∧ ∃ p, cbor_requestAuth (pl_Parameters payload) = inr p ∧ rebound p next (w_db w').
Proof.
  unfold handlePacket. intros Hk Ha Hd Hc. rewrite Hd in Hk.
  apply bind_ok in Hk as (signer & w1 & _ & Hk). destruct signer as [e|key].
  { by apply fail_packet_ok in Hk as [-> [? ?]]. }
  apply bind_ok in Hk as (signed & w2 & _ & Hk). destruct (negb signed).
  { by apply fail_packet_ok in Hk as [-> [? ?]]. }
  apply bind_ok in Hk as (result & w3 & Hcall & Hk). apply attempt_ok in Hcall. destruct result as [e|[params n]].
  { by apply fail_packet_ok in Hk as [-> [? ?]]. }
  injection Hk as <- <- <-. unfold handle_call in Hcall. rewrite Hc, decide_True in Hcall by done.
  unfold call_requestAuthChallenge in Hcall. apply bind_ok in Hcall as (p & w4 & [Hp ->]%of_decoded_ok & Hcall).
  apply bind_ok in Hcall as (out & w5 & Ho & Hcall). injection Hcall as <- <- <-. simpl. split; [done|].
  apply RequestAuthChallenge_session in Ho as (s & Hs & Hid & Hau).
  exists p. split; [done|]. split_and!; [done|done|by exists s].
Qed.
End spec.
