(* ===== verification/PanicSpec.v ===== *)
(** * PanicSpec: what can panic

    The panics of the model are those of [ed25519.Verify] on a key of the
    wrong size, of a loop that runs out of fuel, and those of the event
    appender and of the notifier, which the handler calls and which may
    panic as they like here.  One kind of packet apart, no operation has a
    panic of its own. *)

From Stdlib Require Import ZArith.
From stdpp Require Import gmap.
From S2P Require Import Prelude GoLib GoTime Domain Database Effects Pagination OutboxRepo OutboxService.
From S2P Require Import AuthRepo AuthService AuthSpec ClientRepo FriendRepo RoomRepo ClientService RoomService.
From S2P Require Import Rpc Handler ClockSpec FriendSpec RoomSpec HandlerSpec.

Local Open Scope Z_scope.

Section calm.
(** The panics that are somebody else's. *)
Context {E : Env} (B : string → Prop).

Definition calm_at {A} (m : M A) (w : World) : Prop := ∀ msg, (m w).1 = Panic msg → B msg.
Definition calm {A} (m : M A) : Prop := ∀ w, calm_at m w.

Lemma calm_ret {A} (a : A) : calm (ret a).
Proof. done. Qed.
Lemma calm_raise {A} e : calm (@raise A e).
Proof. done. Qed.
Lemma calm_Now : calm Now.
Proof. done. Qed.
Lemma calm_NewUUID : calm NewUUID.
Proof. done. Qed.
Lemma calm_ReadRandom : calm ReadRandom.
Proof. done. Qed.
Lemma calm_emit n : calm (emit n).
Proof. done. Qed.
Lemma calm_query {A} c (f : DB → A) : calm (query c f).
Proof. intros w msg. by intros ?%query_no_panic. Qed.
Lemma calm_exec {A} c (f : DB → error + (A * DB)) : calm (exec c f).
Proof. intros w msg. by intros ?%exec_no_panic. Qed.

(** A sequence, from the world it starts in. *)
Lemma calm_at_bind {A A'} (m : M A) (k : A → M A') w :
  calm_at m w → (∀ a w1, m w = (Ok a, w1) → calm_at (k a) w1) → calm_at (bind m k) w.
Proof.
  intros Hm Hk msg. unfold bind. specialize (Hm msg). destruct (m w) as [[a|e|s] w1] eqn:Em; [by eapply Hk|done|].
  intros [= ->]. by apply Hm.
Qed.

Lemma calm_bind {A A'} (m : M A) (k : A → M A') : calm m → (∀ a, calm (k a)) → calm (bind m k).
Proof. intros Hm Hk w. apply calm_at_bind; [apply Hm|]. intros. apply Hk. Qed.

Lemma calm_at_attempt {A} (m : M A) w : calm_at m w → calm_at (attempt m) w.
Proof. intros Hm msg. specialize (Hm msg). unfold attempt. destruct (m w) as [[a|e|s] w']; [done|done|]. intros [= ->]. by apply Hm. Qed.
Lemma calm_attempt {A} (m : M A) : calm m → calm (attempt m).
Proof. intros Hm w. apply calm_at_attempt, Hm. Qed.
Lemma calm_wrap_error {A} p (m : M A) : calm m → calm (wrap_error p m).
Proof. intros Hm w msg. specialize (Hm w msg). unfold wrap_error. destruct (m w) as [[a|e|s] w']; [done|done|]. intros [= ->]. by apply Hm. Qed.
Lemma calm_ignore_error {A} (m : M A) : calm m → calm (ignore_error m).
Proof. intros Hm. apply calm_bind; [by apply calm_attempt|intros; apply calm_ret]. Qed.

Lemma calm_for_each {A} (l : list A) body : (∀ x, calm (body x)) → calm (for_each l body).
Proof. intros Hb. induction l; simpl; [apply calm_ret|by apply calm_bind]. Qed.
Lemma calm_map_each {A A'} (l : list A) (body : A → M A') : (∀ x, calm (body x)) → calm (map_each l body).
Proof.
  intros Hb. induction l as [|x l IH]; simpl; [apply calm_ret|].
  apply calm_bind; [done|intros]. apply calm_bind; [done|intros]. apply calm_ret.
Qed.

Lemma calm_WithinTransaction {A} c (fn : Ctx → M A) : calm (fn InTx) → calm (WithinTransaction c fn).
Proof.
  intros Hfn w msg. destruct c; [|apply Hfn]. simpl. destruct (fault_at _); [done|]. specialize (Hfn (tick_stmt w) msg).
  destruct (fn InTx (tick_stmt w)) as [[a|e|s] w']; [by destruct (fault_at _)|done|]. intros [= ->]. by apply Hfn.
Qed.
Lemma calm_WithinTransactionCapturing {V} c (fn : Ctx → M (V * option error)) :
  calm (fn InTx) → calm (WithinTransactionCapturing c fn).
Proof.
  intros Hfn w msg. destruct c; [|apply Hfn]. simpl. destruct (fault_at _); [done|]. specialize (Hfn (tick_stmt w) msg).
  destruct (fn InTx (tick_stmt w)) as [[[v [e|]]|e|s] w']; [done|by destruct (fault_at _)|done|].
  intros [= ->]. by apply Hfn.
Qed.
End calm.

Create HintDb calm.
#[export] Hint Resolve calm_ret calm_raise calm_Now calm_NewUUID calm_ReadRandom calm_emit calm_query calm_exec : calm.

Ltac calmly :=
  intros; cbv beta zeta; cbn [negb];
  lazymatch goal with
  | |- calm _ (bind _ _) => apply calm_bind; [calmly|calmly]
  | |- calm _ (attempt _) => apply calm_attempt; calmly
  | |- calm _ (wrap_error _ _) => apply calm_wrap_error; calmly
  | |- calm _ (ignore_error _) => apply calm_ignore_error; calmly
  | |- calm _ (for_each _ _) => apply calm_for_each; calmly
  | |- calm _ (map_each _ _) => apply calm_map_each; calmly
  | |- calm _ (WithinTransaction _ _) => apply calm_WithinTransaction; calmly
  | |- calm _ (WithinTransactionCapturing _ _) => apply calm_WithinTransactionCapturing; calmly
  | |- calm _ (match ?x with _ => _ end) => case x; calmly
  | |- calm ?B (λ w, ?m w) => change (calm B m); calmly
  | |- calm _ ?m => first [solve [auto with calm nocore] | let f := head_of m in progress unfold f; calmly]
  end.

Section operations.
Context {E : Env} {App : EventAppender} {C : Codec} (h : Handler).

(** The appender may fail and panic, but writes the event tables only. *)
Context (append_writes : ∀ c e w, other_tables (w_db w) (w_db (append_event c e w).2)).
Context (batch_ok : ∀ cfg, h_clientService h = Some cfg → 0 < cfg_EventBatchSize cfg).

(** A panic of the event appender, or of the notifier of the outbox. *)
Definition foreign (msg : string) : Prop :=
  (∃ c e w, (append_event c e w).1 = Panic msg)
  ∨ ∃ s n key w, h_outboxService h = Some s ∧ os_notifier s = Some n ∧ (n_NotifyKey n key w).1 = Panic msg.

#[local] Abbreviation calm := (calm foreign).
#[local] Abbreviation calm_at := (calm_at foreign).

Lemma calm_append_event c e : calm (append_event c e).
Proof. intros w msg Hp. left. by exists c, e, w. Qed.
#[local] Hint Resolve calm_append_event : calm.

(** Recording events leaves the friends alone. *)
Lemma appendEvents_social cfg c users ty p w : social (w_db (appendEvents cfg c users ty p w).2) = social (w_db w).
Proof.
  revert w. unfold appendEvents. induction users as [|u users IH]; intros w; [done|]. simpl.
  assert (social (w_db (ignore_error (appendEvent cfg c u ty p) w).2) = social (w_db w)) as E1.
  { assert (social (w_db (appendEvent cfg c u ty p w).2) = social (w_db w)) as E0.
    { unfold appendEvent. case_decide; [done|]. unfold bind, Now, NewUUID. destruct (append_writes c (mkEvent (uuid_at (w_uuid w)) u None ty p (clock_at (w_clock w)) (clock_at (w_clock w) + cfg_EventRetention cfg) None (clock_at (w_clock w)))
        (mkWorld (w_db w) (S (w_clock w)) (S (w_uuid w)) (w_random w) (w_stmt w) (w_trace w))) as (_ & Es & _). exact Es. }
    unfold ignore_error, attempt, bind. by destruct (appendEvent cfg c u ty p w) as [[a|e|m] w1]. }
  unfold bind at 1. destruct (ignore_error _ w) as [[u1|e|m] w1]; cbn [snd] in *; [|done|done]. by rewrite IH.
Qed.

(** The loop over the friend list ends before its fuel does. *)
Lemma calm_notify_friends cfg fuel c user p : ∀ offset w,
  0 < cfg_EventBatchSize cfg →
  let n := Z.of_nat (length (sql_select (λ f, fr_UserPublicKey f = user) (friends (social (w_db w))))) in
  0 ≤ offset ≤ n → n < Z.of_nat fuel * cfg_EventBatchSize cfg + offset →
  calm_at (notify_friends cfg fuel c user p offset) w.
Proof.
  induction fuel as [|fuel IH]; intros offset w Hb n Ho Hn; [lia|]. cbn [notify_friends].
  unfold RepoListFriends. intros msg. unfold bind at 1, query. destruct (fault_at _); [done|]. set (page := limit_offset _ _ _).
  unfold bind at 1.
  assert (calm (appendEvents cfg c (fr_FriendPublicKey <$> page) "profile.updated" p)) as Hnp by calmly.
  specialize (Hnp (tick_stmt w) msg).
  pose proof (appendEvents_social cfg c (fr_FriendPublicKey <$> page) "profile.updated" p (tick_stmt w)) as Es.
  destruct (appendEvents _ _ _ _ _ _) as [[u|e|m] w1]; simpl in *; [|done|exact Hnp].
  case_decide as Hfull; [done|]. apply IH; rewrite ?Es; fold n; [done| |lia].
  assert (Z.of_nat (length page) ≤ n - offset) as Hl.
  { unfold page. rewrite length_limit_offset. unfold order_by. rewrite merge_sort_Permutation. lia. }
  lia.
Qed.

Lemma calm_update_profile cfg c user username displayName avatarHash bio :
  0 < cfg_EventBatchSize cfg → calm (SvcUpdateProfile cfg c user username displayName avatarHash bio).
Proof.
  intros Hb. unfold SvcUpdateProfile. repeat (apply calm_bind; [|intros]); [calmly|calmly| |calmly].
  intros w. apply calm_notify_friends; [done|lia|]. unfold friend_fuel, sql_select.
  pose proof (list.length_filter (λ f, fr_UserPublicKey f = user) (friends (social (w_db w)))). nia.
Qed.
#[local] Hint Resolve calm_update_profile : calm.

(** ** The handler *)

Lemma calm_acknowledge c payload state : calm (call_acknowledgeEvent h c payload state).
Proof.
  unfold call_acknowledgeEvent. case_eq (h_outboxService h); [intros s Eh|intros _; calmly].
  assert (∀ device, calm (notify s (λ n, n_NotifyKey n device))) as Hn.
  { intros device w msg. unfold notify. destruct (os_notifier s) as [n|] eqn:En; [|done]. intros Hp. right. by exists s, n, device, w. }
  calmly.
Qed.
#[local] Hint Resolve calm_acknowledge : calm.

Lemma calm_client_call c payload state : calm (handleClientAPICall h c payload state).
Proof.
  unfold handleClientAPICall. case_eq (h_clientService h); [intros cfg Eh|intros _; calmly].
  pose proof (batch_ok cfg Eh). unfold dispatchClientMethod. calmly.
Qed.
#[local] Hint Resolve calm_client_call : calm.
Lemma calm_at_Verify key message sig w : length key = PublicKeySize → calm_at (Verify key message sig) w.
Proof. intros Hl msg. unfold Verify. by rewrite decide_True. Qed.

(** A stored session has a key that can be verified under. *)
Lemma calm_at_solve cfg c id sig w : sessions_ok (w_db w) → calm_at (SolveAuthChallenge cfg c id sig) w.
Proof.
  intros Hok. unfold SolveAuthChallenge. case_decide; [done|].
  apply calm_at_bind; [assert (calm (GetSession c id)) as Hc by calmly; apply Hc|]. intros s w1 Hs.
  assert (length (ses_UserPublicKey s) = PublicKeySize) as Hl.
  { pose proof (GetSession_row c id (w_db w) w eq_refl) as Hrow. rewrite Hs in Hrow. destruct Hrow as [_ Hrow].
    apply sql_row_Some in Hrow as [Hin _]. by apply (so_key _ Hok). }
  apply calm_at_bind; [done|]. intros now w2 _. case_decide; [done|].
  apply calm_at_bind; [by apply calm_at_Verify|]. intros ok w3 _. destruct (negb ok); [done|].
  apply calm_at_bind; [|done]. assert (calm (WithinTransaction c (solve_tx cfg (ses_SessionID s) now))) as Hc by calmly.
  apply Hc.
Qed.

Lemma calm_at_call c payload state w : sessions_ok (w_db w) → calm_at (handle_call h c payload state) w.
Proof.
  intros Hok. unfold handle_call. case_decide.
  { assert (calm (call_requestAuthChallenge h c payload state)) as Hc by calmly. apply Hc. }
  case_decide.
  { unfold call_solveAuthChallenge. apply calm_at_bind; [by destruct (cbor_solveAuth _)|]. intros p w1 [_ ->]%of_decoded_ok.
    apply calm_at_bind; [by apply calm_at_solve|]. intros out w2 _.
    match goal with |- PanicSpec.calm_at _ ?m w2 => assert (calm m) as Hc by calmly end. apply Hc. }
  match goal with |- PanicSpec.calm_at _ ?m w => assert (calm m) as Hc; [|apply Hc] end.
  case_decide; [calmly|]. case_decide; [calmly|]. case_decide; [apply calm_acknowledge|apply calm_client_call].
Qed.

(** The key that is verified under without a look at its size. *)
Definition malformed_challenge (packet : RequestPacket) (state : sessionState) : Prop :=
  st_Authenticated state = false ∧ ∃ payload p, DecodePayload (pk_Payload packet) = inr payload
    ∧ pl_RPCCall payload = "requestAuthChallenge"%string ∧ cbor_requestAuth (pl_Parameters payload) = inr p
    ∧ rq_UserPublicKey p ≠ [] ∧ length (rq_UserPublicKey p) ≠ PublicKeySize.

(** A key that a packet needs is of the right size, or nobody's, or named
    by a malformed challenge. *)
Lemma signer_key_sound packet payload state db key :
  sessions_ok db → state_ok state → DecodePayload (pk_Payload packet) = inr payload → signer_key payload state db key →
  key = [] ∨ length key = PublicKeySize ∨ malformed_challenge packet state.
Proof.
  intros Hok Hst Hd Hkey. destruct (decide (key = [])) as [|Hne]; [by left|right].
  destruct (decide (length key = PublicKeySize)) as [|Hl]; [by left|right].
  unfold signer_key in Hkey. destruct (st_Authenticated state) eqn:Ha; [subst key; by destruct Hl; apply Hst; left|].
  case_decide as Hc; [destruct Hkey as (p & Hp & ->); by split; [|exists payload, p]|].
  case_decide; [|destruct Hkey as [Hid ->]; by destruct Hl; apply Hst; right].
  destruct Hkey as (p & s & _ & Hs & ->). apply sql_row_Some in Hs as [Hin _]. by destruct Hl; apply (so_key _ Hok).
Qed.

Lemma packet_outcome c packet state w :
  sessions_ok (w_db w) → state_ok state → malformed_challenge packet state ∨ calm_at (handlePacket h c packet state) w.
Proof.
  intros Hok Hst. unfold handlePacket. destruct (DecodePayload (pk_Payload packet)) as [m|payload] eqn:Hd; [by right|].
  assert (calm (attempt (resolveSigner c payload state))) as Hres by calmly.
  assert (∀ err w0, calm_at (fail_packet payload err state) w0) as Hfail.
  { intros err w0. assert (calm (fail_packet payload err state)) as Hc by calmly. apply Hc. }
  destruct (attempt (resolveSigner c payload state) w) as [[[e|key]|e|m] w1] eqn:Es.
  - right. apply calm_at_bind; [apply Hres|]. rewrite Es. intros a w2 [= <- <-]. apply Hfail.
  - pose proof (resolveSigner_key c payload state (w_db w) w eq_refl) as Hkey. apply attempt_ok in Es as Er. rewrite Er in Hkey.
    destruct Hkey as [Edb Hkey]. destruct (signer_key_sound packet payload state (w_db w) key Hok Hst Hd Hkey) as [Hk|[Hk|Hm]]; [| |by left].
    all: right; apply calm_at_bind; [apply Hres|]; rewrite Es; intros a w2 [= <- <-].
    all: apply calm_at_bind; [case_decide; [done|by apply calm_at_Verify]|]; intros signed w3 Hs.
    all: assert (w_db w3 = w_db w) as E3 by (case_decide; [injection Hs as _ <-|apply Verify_ok in Hs as (_ & _ & ->)]; done).
    all: destruct (negb signed); [apply Hfail|].
    all: apply calm_at_bind; [apply calm_at_attempt, calm_at_call; by rewrite E3|].
    all: intros r w4 _; destruct r as [e|[params next]]; [apply Hfail|done].
  - right. apply calm_at_bind; [apply Hres|]. by rewrite Es.
  - right. apply calm_at_bind; [apply Hres|]. by rewrite Es.
Qed.

(** A packet is answered or makes the handler panic. *)
Lemma handlePacket_no_error c packet state w e : (handlePacket h c packet state w).1 ≠ Err e.
Proof.
  unfold handlePacket. destruct (DecodePayload _) as [m|payload]; [done|].
  assert (∀ err w0, (fail_packet payload err state w0).1 ≠ Err e) as Hfail.
  { intros err w0. unfold fail_packet, errorResponse. by destruct (mapError err). }
  unfold bind at 1, attempt at 1. destruct (resolveSigner c payload state w) as [[key|err|m] w1]; [|apply Hfail|done].
  unfold bind at 1. case_decide; [|unfold Verify; case_decide; [|done]]; simpl; try (destruct (negb _); [apply Hfail|]);
    unfold bind at 1, attempt; destruct (handle_call h c payload state w1) as [[[params next]|err|m] w2]; done || apply Hfail.
Qed.

(** C28: What can panic.  A packet that comes over a connection that is not
    authenticated and requests a challenge for a key that is neither empty
    nor of the right size makes the handler panic, whatever state the
    program is in.  That is the only panic of its own: any other panic of
    the handler is one of the event appender or of the outbox notifier that
    it calls, and every other packet is answered, whatever it holds and
    whatever statement fails. *)
Theorem only_malformed_keys_panic c packet state w :
  sessions_ok (w_db w) → state_ok state →
  (malformed_challenge packet state → (handlePacket h c packet state w).1 = Panic "ed25519: bad public key length")
  ∧ (∀ msg, (handlePacket h c packet state w).1 = Panic msg → malformed_challenge packet state ∨ foreign msg)
  ∧ ((∀ msg, ¬ foreign msg) → ¬ malformed_challenge packet state →
       ∃ response next err, (handlePacket h c packet state w).1 = Ok (response, next, err)).
Proof.
  intros Hok Hst.
  assert (∀ msg, (handlePacket h c packet state w).1 = Panic msg → malformed_challenge packet state ∨ foreign msg) as Hp.
  { intros msg Hpanic. destruct (packet_outcome c packet state w Hok Hst) as [|Hn]; [by left|right; by apply Hn]. }
  split; [|split; [exact Hp|]].
  - intros (Ha & payload & p & Hd & Hc & Hdec & Hne & Hl). by erewrite malformed_key_panics.
  - intros Hno Hm. pose proof (handlePacket_no_error c packet state w) as Hne.
    destruct (handlePacket h c packet state w) as [[[[response next] err]|e|msg] w1]; [by exists response, next, err|by destruct (Hne e)|].
    by destruct (Hp msg eq_refl) as [?|?%Hno].
Qed.
End operations.
