(* ===== verification/HandlerPull.v ===== *)
(** * HandlerPull: the events that ride along with the responses

    [pullOutboxPackets] sends a device what is in flight for it, and a
    connection what it has not been sent before: the map of sent events
    bridges the time between a delivery and the end of its lease. *)

From Stdlib Require Import ZArith.
From stdpp Require Import gmap.
From S2P Require Import Prelude GoLib GoTime Domain Database Effects Pagination OutboxRepo OutboxInv OutboxService.
From S2P Require Import OutboxSpec AuthRepo AuthService ClientRepo FriendRepo RoomRepo ClientService RoomService.
From S2P Require Import Rpc Handler RoomSpec HandlerSpec.

Local Open Scope Z_scope.

(** ** The loop over the events in flight *)

(** The connection has been sent the event and its lease is not over. *)
Definition live (now : Time) (sent : sentEvents) (id : UUID) : Prop :=
  ∃ until, sent !! id = Some until ∧ now < until.

#[export] Instance live_dec now sent id : Decision (live now sent id).
Proof.
  unfold live. destruct (sent !! id) as [until|] eqn:Es.
  - destruct (decide (now < until)); [left; eauto|right]. by intros (? & [= <-] & ?).
  - right. by intros (? & ? & _).
Defined.

Definition packet_of (event : OutboxEvent) : ResponsePacket :=
  mkResponsePacket (oe_EventID event) None (oe_EventType event) (oe_Payload event).

Definition note_sent (event : OutboxEvent) (sent : sentEvents) : sentEvents :=
  match oe_InflightUntil event with Some u => <[oe_EventID event := u]> sent | None => sent end.

Lemma send_unseen_cons now event evs sent :
  send_unseen now (event :: evs) sent =
  if decide (live now sent (oe_EventID event)) then send_unseen now evs sent
  else let '(packets, sent') := send_unseen now evs (note_sent event sent) in (packet_of event :: packets, sent').
Proof.
  simpl. destruct (sent !! oe_EventID event) as [until|] eqn:Es.
  - case_decide as Hl.
    + rewrite decide_True; [done|]. by exists until.
    + rewrite decide_False; [done|]. intros (? & Es' & ?). rewrite Es in Es'. by simplify_eq.
  - rewrite decide_False; [done|]. intros (? & Es' & ?). by rewrite Es in Es'.
Qed.

(** An event in flight beyond [now]. *)
Definition leased_beyond (now : Time) (event : OutboxEvent) : Prop :=
  ∃ until, oe_InflightUntil event = Some until ∧ now < until.

Lemma note_sent_live now event sent :
  leased_beyond now event → live now (note_sent event sent) (oe_EventID event).
Proof.
  intros (until & Eu & Hu). unfold live, note_sent. rewrite Eu. exists until. split; [apply lookup_insert_eq|done].
Qed.

Lemma note_sent_keeps event sent id : oe_EventID event ≠ id → note_sent event sent !! id = sent !! id.
Proof. intros Hne. unfold note_sent. destruct (oe_InflightUntil event); [by apply lookup_insert_ne|done]. Qed.

Lemma send_unseen_length now evs : ∀ sent, (length (send_unseen now evs sent).1 ≤ length evs)%nat.
Proof.
  induction evs as [|event evs IH]; intros sent; [done|]. rewrite send_unseen_cons. case_decide.
  - specialize (IH sent). simpl. lia.
  - specialize (IH (note_sent event sent)). destruct (send_unseen _ _ _). simpl in *. lia.
Qed.

(** What a connection knows before and after the loop, and what it sends. *)
Lemma send_unseen_spec now evs : ∀ sent packets sent',
  Forall (leased_beyond now) evs → send_unseen now evs sent = (packets, sent') →
  NoDup (rs_RequestID <$> packets)
  ∧ (∀ p, p ∈ packets → ¬ live now sent (rs_RequestID p) ∧ ∃ event, event ∈ evs ∧ p = packet_of event
       ∧ sent' !! oe_EventID event = oe_InflightUntil event)
  ∧ (∀ event, event ∈ evs → live now sent' (oe_EventID event))
  ∧ (∀ id, live now sent id → sent' !! id = sent !! id)
  ∧ (∀ event, event ∈ evs → live now sent (oe_EventID event) ∨ oe_EventID event ∈ rs_RequestID <$> packets).
Proof.
  induction evs as [|event evs IH]; intros sent packets sent' Hl.
  { intros [= <- <-]. split_and!; [constructor|by intros p ?%not_elem_of_nil|by intros e ?%not_elem_of_nil|done|
      by intros e ?%not_elem_of_nil]. }
  apply Forall_cons in Hl as [He Hl]. rewrite send_unseen_cons. case_decide as Hlive.
  - intros (Hnd & Hp & Ha & Hk & Hc)%IH; [|done]. split_and!; [done| | |done|].
    + intros p (Hn & ev & Hev & -> & Eu)%Hp. split; [done|]. exists ev. split_and!; [by right|done|done].
    + intros ev [->|Hev]%elem_of_cons; [|auto]. destruct Hlive as (u & Eu & Hu). exists u.
      rewrite Hk; [done|by exists u].
    + intros ev [->|Hev]%elem_of_cons; [by left|auto].
  - destruct (send_unseen now evs (note_sent event sent)) as [ps s'] eqn:Erec. intros [= <- <-].
    apply IH in Erec as (Hnd & Hp & Ha & Hk & Hc); [|done].
    assert (∀ id, live now sent id → live now (note_sent event sent) id
              ∧ note_sent event sent !! id = sent !! id) as Hmono.
    { intros id Hid. assert (note_sent event sent !! id = sent !! id) as Ekeep.
      { apply note_sent_keeps. by intros <-. } split; [|done]. unfold live. by rewrite Ekeep. }
    split_and!.
    + simpl. constructor; [|done]. intros (p & Ep & Hin)%list_elem_of_fmap.
      destruct (Hp p Hin) as [Hn _]. rewrite <- Ep in Hn. by destruct (Hn (note_sent_live now event sent He)).
    + intros p [->|Hin]%elem_of_cons.
      * split; [done|]. exists event. split_and!; [left|done|]. rewrite Hk by by apply note_sent_live.
        destruct He as (u & Eu & _). unfold note_sent. rewrite Eu. apply lookup_insert_eq.
      * destruct (Hp p Hin) as (Hn & ev & Hev & -> & Eu). split; [by intros [? _]%Hmono|].
        exists ev. split_and!; [by right|done|done].
    + intros ev [->|Hev]%elem_of_cons; [|auto]. pose proof (note_sent_live now event sent He) as Hn.
      destruct Hn as (u & Eu & Hu). exists u. rewrite Hk; [done|by exists u].
    + intros id Hid. destruct (Hmono id Hid) as [H1 H2]. by rewrite Hk.
    + intros ev [->|Hev]%elem_of_cons; [right; by left|]. simpl.
      destruct (Hc ev Hev) as [(u & Eu & Hu)|Hin]; [|right; by right].
      destruct (decide (oe_EventID ev = oe_EventID event)) as [Eq|Hne]; [right; rewrite Eq; by left|].
      left. exists u. split; [|done]. rewrite <- Eu. symmetry. by apply note_sent_keeps, not_eq_sym.
Qed.

(** ** Pulling *)

Section pull.
Context {E : Env} {C : Codec} {App : EventAppender} (h : Handler).
Context (clock_monotone : ∀ i j, (i ≤ j)%nat → clock_at i ≤ clock_at j).
Context (outbox : OutboxService) (Hn : notifier_ok outbox) (Hh : h_outboxService h = Some outbox).

Lemma map_each_scan rows : ∀ w evs w', map_each rows (λ o, scanOutboxEvent (Some o)) w = (Ok evs, w') →
  w' = w ∧ length evs = length rows ∧ ∀ ev, ev ∈ evs → ∃ o p, o ∈ rows ∧ cbor_Unmarshal_map (ob_payload o) = Some p ∧ ev = event_of o p.
Proof.
  induction rows as [|o rows IH]; intros w evs w'; cbn [map_each].
  { intros [= <- <-]. split_and!; [done|done|by intros ev ?%not_elem_of_nil]. }
  intros (ev & w1 & Hs & Hk)%bind_ok. rewrite scanOutboxEvent_Some in Hs.
  destruct (cbor_Unmarshal_map (ob_payload o)) as [p|] eqn:Ep; [|done]. injection Hs as <- <-.
  apply bind_ok in Hk as (rest & w2 & (-> & Hl & Hin)%IH & Hk). injection Hk as <- <-. split_and!; [done|simpl; lia|].
  intros ev [->|Hev]%elem_of_cons; [exists o, p; by split_and!; [left|..]|].
  destruct (Hin ev Hev) as (o' & p' & Ho & Hp & ->). exists o', p'. by split_and!; [right|..].
Qed.

(** A row in flight for the device, beyond [now], and its event. *)
Definition in_flight_for (device : string) (now : Time) (db : DB) (event : OutboxEvent) : Prop :=
  ∃ o p, o ∈ Database.outbox (events db) ∧ ob_device_id o = device ∧ ob_status o = StatusInFlight
    ∧ opt_gt (ob_inflight_until o) now ∧ cbor_Unmarshal_map (ob_payload o) = Some p ∧ event = event_of o p.

Lemma ServiceListInflight_ok c device lim w evs w' :
  0 < lim → ServiceListInflight outbox c device lim w = (Ok evs, w') →
  w_db w' = w_db w ∧ (w_clock w ≤ w_clock w')%nat ∧ Z.of_nat (length evs) ≤ lim
  ∧ Forall (in_flight_for device (clock_at (w_clock w)) (w_db w)) evs.
Proof.
  intros Hlim. unfold ServiceListInflight. case_decide; [done|]. rewrite decide_False by lia.
  intros (now & w1 & [= <- <-] & Hk)%bind_ok. unfold ListInflight in Hk.
  apply bind_ok in Hk as (rows & w2 & Hq & (-> & Hlen & Hin)%map_each_scan).
  unfold wrap_error, query in Hq. destruct (fault_at _); [done|]. injection Hq as <- <-. simpl. split_and!; [done|lia| |].
  - rewrite Hlen. apply length_limit. lia.
  - apply Forall_forall. intros ev (o & p & Ho & Hp & ->)%Hin.
    apply elem_of_limit, elem_of_order_by, list_elem_of_filter in Ho as [(H1 & H2 & H3) Ho]. by exists o, p.
Qed.

Lemma in_flight_leased device now now' db ev :
  now' ≤ now → in_flight_for device now db ev → leased_beyond now' ev.
Proof.
  intros Hle (o & p & _ & _ & _ & Hu & _ & ->). unfold leased_beyond. simpl.
  destruct (ob_inflight_until o) as [u|]; [|done]. simpl in Hu. exists u. split; [done|lia].
Qed.

Lemma DispatchOnce_clock c w : (w_clock w ≤ w_clock (DispatchOnce outbox c w).2)%nat.
Proof.
  unfold DispatchOnce. unfold bind at 1, Now. set (w0 := mkWorld _ _ _ _ _ _). set (now := clock_at (w_clock w)).
  set (tx := WithinTransaction c _). assert (silent tx) as Hs by (apply silent_WithinTransaction, ClaimPending_silent).
  destruct (Hs w0) as [_ Hc]. change (w_clock w0) with (S (w_clock w)) in Hc. unfold bind at 1.
  destruct (tx w0) as [[evs|e|m] w1]; simpl in *; [|lia|lia].
  destruct (for_each_ok evs (announce outbox) w1) as (w2 & Ew & [_ Hw]); [intros; by apply announce_ok|].
  unfold bind. rewrite Ew. simpl. lia.
Qed.

Lemma prune_sent_live now sent id : live now (prune_sent now sent) id ↔ live now sent id.
Proof.
  unfold live, prune_sent. split; intros (u & Eu & Hu); exists u; (split; [|done]).
  - by apply map_lookup_filter_Some in Eu as [? _].
  - by apply map_lookup_filter_Some.
Qed.

Lemma prune_sent_keeps now sent id : live now sent id → prune_sent now sent !! id = sent !! id.
Proof. intros (u & Eu & Hu). rewrite Eu. by apply map_lookup_filter_Some. Qed.

(** The events a pull offers to the connection. *)
Lemma pull_events c device w evs w' :
  (let* events := ServiceListInflight outbox c device 128 in
   match events with
   | [] => DispatchOnce outbox c ;;; ServiceListInflight outbox c device 128
   | _ => ret events
   end) w = (Ok evs, w') →
  Z.of_nat (length evs) ≤ 128 ∧ Forall (in_flight_for device (clock_at (w_clock w)) (w_db w')) evs.
Proof.
  assert (∀ (k k' : nat) db ev, (k ≤ k')%nat → in_flight_for device (clock_at k') db ev →
    in_flight_for device (clock_at k) db ev) as Hweak.
  { intros k k' db ev Hkk (o & p & Ho & H1 & H2 & Hu & H3 & H4). exists o, p. split_and!; try done.
    pose proof (clock_monotone k k' Hkk). destruct (ob_inflight_until o); [|done]. simpl in *. lia. }
  intros (evs1 & w1 & Hl & Hk)%bind_ok.
  destruct (ServiceListInflight_ok c device 128 w evs1 w1) as (Edb & Hc & Hlen & Hf); [done|done|].
  destruct evs1 as [|ev evs1].
  - apply bind_ok in Hk as (n & w2 & Hd & Hk). pose proof (DispatchOnce_clock c w1) as Hc2. rewrite Hd in Hc2.
    destruct (ServiceListInflight_ok c device 128 w2 evs w') as (Edb' & _ & Hlen' & Hf'); [done|done|].
    split; [done|]. rewrite Edb'.
    eapply Forall_impl; [exact Hf'|]. intros ev. apply Hweak. simpl in Hc2. lia.
  - injection Hk as <- <-. by rewrite Edb.
Qed.

(** One pull, for whoever makes it. *)
Lemma pull_spec c device sent w r sent' w' :
  device ≠ ""%string → pullOutboxPackets h c device sent w = (Ok (r, sent'), w') →
  let now := clock_at (w_clock w) in
  (∀ id, live now sent id → sent' !! id = sent !! id)
  ∧ ∀ packets, r = inr packets →
      NoDup (rs_RequestID <$> packets) ∧ Z.of_nat (length packets) ≤ 128
      ∧ ∀ p, p ∈ packets → ¬ live now sent (rs_RequestID p)
          ∧ ∃ ev, in_flight_for device now (w_db w') ev ∧ p = packet_of ev
              ∧ sent' !! rs_RequestID p = oe_InflightUntil ev ∧ live now sent' (rs_RequestID p).
Proof.
  intros Hdev. unfold pullOutboxPackets. rewrite Hh, decide_False by done.
  intros (now & w1 & [= <- <-] & Hk)%bind_ok. cbv zeta.
  apply bind_ok in Hk as (r' & w2 & Ha%attempt_ok & Hk). destruct r' as [e|evs].
  { injection Hk as <- <- <-. split; [by intros id ?%prune_sent_keeps|done]. }
  set (w0 := mkWorld _ _ _ _ _ _) in Ha. set (now := clock_at (w_clock w)) in *.
  pose proof (pull_events c device w0 evs w2 Ha) as [Hlen Hf].
  assert (Forall (in_flight_for device now (w_db w2)) evs) as Hf'.
  { eapply Forall_impl; [exact Hf|]. intros ev (o & p & Ho & H1 & H2 & Hu & H3 & H4). exists o, p. split_and!; try done.
    assert (now ≤ clock_at (w_clock w0)) by (apply clock_monotone; simpl; lia).
    destruct (ob_inflight_until o); [|done]. simpl in *. lia. }
  assert (Forall (leased_beyond now) evs) as Hleased.
  { eapply Forall_impl; [exact Hf'|]. intros ev. by apply in_flight_leased. }
  destruct (send_unseen now evs (prune_sent now sent)) as [packets s1] eqn:Es. injection Hk as <- <- <-.
  pose proof (send_unseen_length now evs (prune_sent now sent)) as Hps. rewrite Es in Hps. simpl in Hps.
  apply send_unseen_spec in Es as (Hnd & Hp & Hall & Hkeep & _); [|done]. split.
  - intros id Hid. rewrite Hkeep by by apply prune_sent_live. by apply prune_sent_keeps.
  - intros ps [= <-]. split_and!; [done|lia|]. intros p (Hnl & ev & Hev & -> & Eu)%Hp.
    rewrite prune_sent_live in Hnl. split; [done|]. exists ev. rewrite Forall_forall in Hf'.
    split_and!; [by apply Hf'|done|exact Eu|by apply Hall].
Qed.

(** C10: The events that ride along.  A pull for a device sends at most 128
    events, each one in flight for that device and none twice; it never
    sends an event the connection has been sent before within the lease of
    that delivery, and remembers the lease of every event it sends.  What
    the connection remembers of running leases survives, on errors too. *)
Theorem events_ride_once c device sent w r sent' w' :
  device ≠ ""%string → pullOutboxPackets h c device sent w = (Ok (r, sent'), w') →
  let now := clock_at (w_clock w) in
  (∀ id, live now sent id → sent' !! id = sent !! id)
  ∧ ∀ packets, r = inr packets →
      NoDup (rs_RequestID <$> packets) ∧ Z.of_nat (length packets) ≤ 128
      ∧ ∀ p, p ∈ packets → ¬ live now sent (rs_RequestID p)
          ∧ ∃ ev, in_flight_for device now (w_db w') ev ∧ p = packet_of ev
              ∧ sent' !! rs_RequestID p = oe_InflightUntil ev ∧ live now sent' (rs_RequestID p).
Proof. apply pull_spec. Qed.
End pull.
