(* ===== verification/Delivery.v ===== *)
(** * Delivery: from [SendMessage] to the packets of a connection

    The parts composed: the client service appends an event for each member
    of a room, the repository queues it for each device of the member, the
    dispatcher leases the head of a segment, and the pull of a connection
    sends what is in flight for its device. *)

From Stdlib Require Import ZArith.
From stdpp Require Import gmap.
From S2P Require Import Prelude GoLib GoTime Domain Database Effects Pagination OutboxRepo OutboxInv OutboxService.
From S2P Require Import OutboxSpec OutboxRace AuthRepo AuthService ClientRepo FriendRepo RoomRepo ClientService RoomService.
From S2P Require Import Rpc Handler RoomSpec HandlerPull.

Local Open Scope Z_scope.

(** ** Appending to the queue *)

(** What the client service relies on beyond [EventAppenderLaws]: a normal
    return has queued the event, and drawn no identifier. *)
Definition same_queue (db db' : DB) : Prop :=
  identity db' = identity db ∧ outbox (events db') = outbox (events db)
  ∧ outbox_segments (events db') = outbox_segments (events db).
Class QueueingLaws {E : Env} (A : EventAppender) : Prop :=
  append_queues_event : ∀ c e w w', A c e w = (Ok tt, w') →
    w_uuid w' = w_uuid w
    ∧ ∃ w1 w2, same_queue (w_db w) (w_db w1) ∧ appendOutbox c e w1 = (Ok tt, w2) ∧ w_db w' = w_db w2.

Section identifiers.
Context {E : Env}.

Definition draws_none {A} (m : M A) : Prop := ∀ w, w_uuid (m w).2 = w_uuid w.

Lemma draws_none_bind {A B} (m : M A) (k : A → M B) : draws_none m → (∀ a, draws_none (k a)) → draws_none (bind m k).
Proof.
  intros Hm Hk w. specialize (Hm w). unfold bind. destruct (m w) as [[a|e|s] w1]; [|done|done]. by rewrite Hk.
Qed.
Lemma draws_none_wrap {A} p (m : M A) : draws_none m → draws_none (wrap_error p m).
Proof. intros Hm w. specialize (Hm w). unfold wrap_error. by destruct (m w) as [[]]. Qed.
Lemma draws_none_query {A} c (f : DB → A) : draws_none (query c f).
Proof. intros w. unfold query. by destruct (fault_at _). Qed.
Lemma draws_none_exec {A} c (f : DB → error + (A * DB)) : draws_none (exec c f).
Proof. intros w. unfold exec. destruct (fault_at _); [done|]. by destruct (f _) as [|[]]. Qed.
Lemma draws_none_for_each {A} (l : list A) body : (∀ x, draws_none (body x)) → draws_none (for_each l body).
Proof. intros Hb. induction l as [|x l IH]; [done|]. by apply draws_none_bind. Qed.

Lemma AppendEvent_draws_none c e : draws_none (AppendEvent c e).
Proof.
  unfold AppendEvent, appendOutbox, listTargetDeviceIDs, append_device.
  apply draws_none_bind; [apply draws_none_wrap, draws_none_exec|intros u].
  apply draws_none_bind; [apply draws_none_wrap, draws_none_query|]. intros [|d l]; [done|].
  apply draws_none_bind; [by destruct (cbor_Marshal_map _)|intros p]. apply draws_none_for_each. intros x.
  apply draws_none_bind; [|intros v]; apply draws_none_wrap, draws_none_exec.
Qed.

#[export] Instance AppendEvent_queues : QueueingLaws AppendEvent.
Proof.
  intros c e w w' Er. split; [pose proof (AppendEvent_draws_none c e w) as H; by rewrite Er in H|].
  unfold AppendEvent in Er. apply bind_ok in Er as (u & w1 & Ei & Ea). exists w1, w'. split; [|by split].
  unfold wrap_error, exec_, exec, stmt_insert_event in Ei; destruct (fault_at _); [done|];
    destruct (insert_checked _ _ _ _ _) as [err|t]; [done|]; by injection Ei as _ <-.
Qed.

(** A bus that is told draws no identifier. *)
#[export] Instance NotifyingAppend_queues bus :
  (∀ b, bus = Some b → ∀ key, draws_none (n_NotifyKey b key) ∧ ∀ w, w_db (n_NotifyKey b key w).2 = w_db w) →
  QueueingLaws (NotifyingAppend bus).
Proof.
  intros Hb c e w w' Er. unfold NotifyingAppend in Er. apply bind_ok in Er as ([] & w1 & Ea & Ek).
  destruct (AppendEvent_queues c e w w1 Ea) as (Eu & w2 & w3 & Hq & Ho & Edb).
  assert (w_uuid w' = w_uuid w1 ∧ w_db w' = w_db w1) as [-> ->].
  { destruct bus as [b|]; [|by injection Ek as <-]. case_decide; [|by injection Ek as <-].
    destruct (Hb b eq_refl (keyString (ev_UserPublicKey e))) as [H1 H2]. specialize (H1 w1). specialize (H2 w1).
    by rewrite Ek in H1, H2. }
  split; [done|]. by exists w2, w3.
Qed.
End identifiers.

(** ** One device and one segment *)

Section queue.
Context {E : Env} (dev S : string).

(** An undelivered event waits as the head of the segment. *)
Definition at_head (P : OutboxRow → Prop) (db : DB) : Prop :=
  ∃ o s, o ∈ outbox (events db) ∧ P o ∧ s ∈ outbox_segments (events db) ∧ sg_in dev S s
         ∧ sg_head_event_id s = Some (ob_event_id o).
Definition headless (db : DB) : Prop :=
  ∀ s, s ∈ outbox_segments (events db) → sg_in dev S s → sg_head_event_id s = None.

Lemma at_head_mono (P Q : OutboxRow → Prop) db : (∀ o, P o → Q o) → at_head P db → at_head Q db.
Proof. intros HPQ (o & s & Ho & HP & H). exists o, s. eauto. Qed.

Lemma upsert_keeps_head P s db db' : stmt_upsert_segment s db = inr db' → at_head P db → at_head P db'.
Proof.
  intros [= <-] (o & s0 & Ho & HP & Hs & Hin & Hh). unfold sql_upsert. cbn. case_decide.
  - exists o, (if decide (same_segment s s0) then merge_segment s0 s else s0). split_and!; [done|done| | |].
    + cbn. apply elem_of_sql_update. exists s0. split; [done|]. case_decide; auto.
    + case_decide; [|done]. exact Hin.
    + case_decide; [|done]. cbn. by rewrite Hh.
  - exists o, s0. split_and!; [done|done|cbn; apply elem_of_app; by left|done|done].
Qed.

Lemma insert_keeps_head P r db db' : stmt_insert_outbox r db = inr db' → at_head P db → at_head P db'.
Proof.
  unfold stmt_insert_outbox. destruct (violated _); [done|]. intros [= <-] (o & s & Ho & H).
  exists o, s. split; [|exact H]. cbn. unfold sql_insert_ignore. case_decide; [done|]. apply elem_of_app. by left.
Qed.

Lemma append_device_keeps_head P c event bytes seg x : preserves (at_head P) (append_device c event bytes seg x).
Proof.
  unfold append_device. apply preserves_bind; [|intros []]; apply preserves_wrap_error, preserves_exec_; intros db db' H Hs.
  - by eapply insert_keeps_head.
  - by eapply upsert_keeps_head.
Qed.

Lemma appendOutbox_keeps_head P c event : preserves (at_head P) (appendOutbox c event).
Proof.
  unfold appendOutbox, listTargetDeviceIDs. apply preserves_bind; [apply preserves_wrap_error, preserves_query|].
  intros [|d l]; [apply preserves_ret|]. apply preserves_bind; [apply preserves_of_option|intros bytes].
  apply preserves_for_each. intros x _. apply append_device_keeps_head.
Qed.

(** The row that an append makes for the device. *)
Definition queued_row (event : Event) (bytes : Bytes) : OutboxRow :=
  mkOutboxRow (outboxEventID (ev_EventID event) dev) dev S (ev_EventType event) bytes StatusPending
    (ev_AvailableAt event) None 0 (ev_CreatedAt event) (ev_ExpiresAt event) None None None.

Context (event : Event) (inj : ∀ d d', outboxEventID (ev_EventID event) d = outboxEventID (ev_EventID event) d' → d = d').

(** The segment gets the event for its head when it has none. *)
Lemma upsert_heads s t :
  sg_in dev S s → (∀ s', s' ∈ t → sg_in dev S s' → sg_head_event_id s' = None) →
  ∃ s', s' ∈ sql_upsert same_segment merge_segment s t ∧ sg_in dev S s' ∧ sg_head_event_id s' = sg_head_event_id s.
Proof.
  intros Hin Hh. unfold sql_upsert. case_decide as Hex.
  - apply Exists_exists in Hex as (s0 & Hs0 & Hsame). pose proof Hsame as [E1 E2]. destruct Hin as [Ed Es].
    assert (sg_in dev S s0) as Hin0 by (split; congruence).
    exists (merge_segment s0 s). split; [|split; [exact Hin0|cbn; by rewrite (Hh s0)]].
    apply elem_of_sql_update. exists s0. split; [done|]. by left.
  - exists s. split; [apply elem_of_app; right; by apply list_elem_of_singleton|done].
Qed.

(** The segments of other devices change, this one does not. *)
Lemma upsert_elsewhere s t s' :
  sg_device_id s ≠ dev → s' ∈ sql_upsert same_segment merge_segment s t → sg_in dev S s' → s' ∈ t.
Proof.
  intros Hne Hs' [Ed _]. unfold sql_upsert in Hs'. case_decide.
  - apply elem_of_sql_update in Hs' as (s0 & Hs0 & [[[E1 _] ->]|[_ ->]]); [|done]. destruct Hne. cbn in Ed. congruence.
  -  apply elem_of_app in Hs' as [?| ->%list_elem_of_singleton]; [done|]. by destruct Hne.
Qed.

Lemma append_device_heads c bytes x :
  hoare (λ db, headless db ∧ unqueued event dev db) (append_device c event bytes S x)
    (λ _ db, if decide (x = dev) then at_head (eq (queued_row event bytes)) db else headless db ∧ unqueued event dev db)
    (λ _, True).
Proof.
  unfold append_device.
  apply (hoare_bind _ _ _ (λ _ db, headless db ∧ if decide (x = dev) then queued_row event bytes ∈ outbox (events db) else unqueued event dev db)).
  - apply hoare_wrap_error, hoare_exec_; [done|]. intros db db' [Hh Hu]. unfold stmt_insert_outbox.
    destruct (violated _); [done|]. intros [= <-]. split; [exact Hh|]. cbn. unfold sql_insert_ignore.
    destruct (decide (x = dev)) as [->|Hne]; case_decide as Hex.
    + apply Exists_exists in Hex as (o & Ho & Hid). by destruct (Hu o Ho).
    + apply elem_of_app. right. by apply list_elem_of_singleton.
    + exact Hu.
    + intros o [Ho| ->%list_elem_of_singleton]%elem_of_app; [by apply Hu|]. cbn. by intros ?%inj.
  - intros []. apply hoare_wrap_error, hoare_exec_; [done|]. intros db db' [Hh Hr] [= <-].
    destruct (decide (x = dev)) as [->|Hne]; cbn.
    + edestruct (upsert_heads (mkSegmentRow dev S (Some (outboxEventID (ev_EventID event) dev)) None (ev_CreatedAt event)))
        as (s & Hs & Hin & Hhd); [done|exact Hh|]. by exists (queued_row event bytes), s.
    + split; [|exact Hr]. intros s Hs Hin. apply Hh; [|done]. by eapply (upsert_elsewhere (mkSegmentRow x S _ None _)); [exact Hne|exact Hs|].
Qed.

Lemma append_loop_heads c bytes l :
  hoare (λ db, headless db ∧ unqueued event dev db) (for_each l (append_device c event bytes S))
    (λ _ db, if decide (dev ∈ l) then at_head (eq (queued_row event bytes)) db else headless db) (λ _, True).
Proof.
  induction l as [|x l IH]; cbn [for_each].
  { apply hoare_ret. intros db [Hh _]. rewrite decide_False by apply not_elem_of_nil. done. }
  eapply hoare_bind; [apply append_device_heads|]. intros [].
  destruct (decide (x = dev)) as [->|Hne].
  - eapply (hoare_conseq _ (at_head (eq (queued_row event bytes)))); [|done| |done].
    + apply preserves_hoare, preserves_for_each. intros y _. apply append_device_keeps_head.
    + intros u db H. by rewrite decide_True by left.
  - eapply hoare_conseq; [exact IH|done| |done]. intros u db H. destruct (decide (dev ∈ l)) as [Hin|Hin].
    + by rewrite decide_True by by right.
    + rewrite decide_False; [done|]. by intros [->|?]%elem_of_cons.
Qed.

(** An append puts the event at the head of a segment that has none, for
    each device of its user, and leaves the devices of others alone. *)
Lemma appendOutbox_heads c :
  outboxSegmentID event = S →
  hoare (λ db, headless db ∧ unqueued event dev db) (appendOutbox c event)
    (λ _ db, headless db ∨ ∃ bytes, cbor_Marshal_map (ev_Payload event) = Some bytes ∧ at_head (eq (queued_row event bytes)) db)
    (λ _, True)
  ∧ hoare (λ db, headless db ∧ unqueued event dev db ∧ dev ∈ select_devices (ev_UserPublicKey event) db) (appendOutbox c event)
      (λ _ db, ∃ bytes, cbor_Marshal_map (ev_Payload event) = Some bytes ∧ at_head (eq (queued_row event bytes)) db)
      (λ _, True).
Proof.
  intros HS. set (ok db := ∃ bytes, cbor_Marshal_map (ev_Payload event) = Some bytes ∧ at_head (eq (queued_row event bytes)) db).
  enough (hoare (λ db, headless db ∧ unqueued event dev db) (appendOutbox c event) (λ _ db, headless db ∨ ok db) (λ _, True)
    ∧ ∀ devices, dev ∈ devices →
        hoare (λ db, (headless db ∧ unqueued event dev db) ∧ select_devices (ev_UserPublicKey event) db = devices)
          (appendOutbox c event) (λ _, ok) (λ _, True)) as [H1 H2].
  { split; [exact H1|]. intros w (Hh & Hu & Hd). by apply (H2 _ Hd). }
  unfold appendOutbox, listTargetDeviceIDs. rewrite HS. split; [|intros devices Hin].
  - eapply hoare_bind; [by apply hoare_wrap_error, hoare_query|]. intros l.
    apply (hoare_pre _ (λ db, headless db ∧ unqueued event dev db)); [by intros db [? _]|].
    destruct l as [|d l]; [apply hoare_ret; intros db [? _]; by left|].
    eapply hoare_bind; [by apply hoare_of_option|]. intros bytes. apply hoare_pure. intros Eb.
    eapply hoare_conseq; [apply append_loop_heads|done| |done]. intros u db H.
    destruct (decide (dev ∈ d :: l)); [right; by exists bytes|by left].
  - eapply hoare_bind; [by apply hoare_wrap_error, hoare_query|]. intros l.
    apply (hoare_pre _ (λ db, (headless db ∧ unqueued event dev db) ∧ l = devices)); [by intros db [[? <-] ->]|].
    apply hoare_pure. intros ->. destruct devices as [|d l]; [by apply not_elem_of_nil in Hin|].
    eapply hoare_bind; [by apply hoare_of_option|]. intros bytes. apply hoare_pure. intros Eb.
    eapply hoare_conseq; [apply append_loop_heads|done| |done]. intros u db H.
    destruct (decide (dev ∈ d :: l)); [by exists bytes|done].
Qed.
End queue.

Section rows.
Context {E : Env}.

(** The identifiers in the queue after an append. *)
Lemma appendOutbox_ids (Q : UUID → Prop) c event :
  (∀ d, Q (outboxEventID (ev_EventID event) d)) →
  preserves (λ db, ∀ o, o ∈ outbox (events db) → Q (ob_event_id o)) (appendOutbox c event).
Proof.
  intros HQ. unfold appendOutbox, listTargetDeviceIDs. apply preserves_bind; [apply preserves_wrap_error, preserves_query|].
  intros [|d l]; [apply preserves_ret|]. apply preserves_bind; [apply preserves_of_option|intros bytes].
  apply preserves_for_each. intros x _. unfold append_device.
  apply preserves_bind; [|intros []]; apply preserves_wrap_error, preserves_exec_; intros db db' H.
  - unfold stmt_insert_outbox. destruct (violated _); [done|]. intros [= <-] o. cbn. unfold sql_insert_ignore.
    case_decide; [apply H|]. intros [Ho| ->%list_elem_of_singleton]%elem_of_app; [by apply H|apply HQ].
  - intros [= <-]. exact H.
Qed.
End rows.

(** ** Sending *)

Section send.
Context {E : Env} {App : EventAppender} {L : EventAppenderLaws append_event} {Q : QueueingLaws append_event} (cfg : ClientConfig).

(** Outbox identifiers, hashes of an event identifier and a device, do not
    collide, and those to come are not in the queue. *)
Definition distinct_ids : Prop := ∀ j k d d',
  outboxEventID (uuid_at j) d = outboxEventID (uuid_at k) d' → j = k ∧ d = d'.
Definition ids_ahead (w : World) : Prop := ∀ o k d,
  o ∈ outbox (events (w_db w)) → (w_uuid w ≤ k)%nat → ob_event_id o ≠ outboxEventID (uuid_at k) d.

(** The row of an event that was appended between two worlds. *)
Definition sent_row (dev S ty : string) (payload : GoMap) (w w' : World) (o : OutboxRow) : Prop :=
  ob_in dev S o ∧ ob_event_type o = ty ∧ cbor_Marshal_map payload = Some (ob_payload o)
  ∧ ob_status o = StatusPending ∧ ob_attempts o = 0
  ∧ (∃ k, (w_clock w ≤ k < w_clock w')%nat ∧ ob_send_after o = clock_at k ∧ ob_expires_at o = clock_at k + cfg_EventRetention cfg)
  ∧ ∃ j, (w_uuid w ≤ j)%nat ∧ ob_event_id o = outboxEventID (uuid_at j) dev.

Lemma sent_row_later dev S ty p w w1 w2 o :
  (w_clock w1 ≤ w_clock w2)%nat → sent_row dev S ty p w w1 o → sent_row dev S ty p w w2 o.
Proof.
  intros Hle (H1 & H2 & H3 & H4 & H5 & (k & Hk & H6) & H7). repeat (split; [done|]). split; [|done].
  exists k. split; [lia|done].
Qed.

(** The segment of an event depends on its type and payload alone. *)
Definition segment_of (ty : string) (p : GoMap) : string := outboxSegmentID (mkEvent 0%N [] None ty p 0 0 None 0).

(** What the loop over the members keeps. *)
Record sending (dev : string) (ty : string) (p : GoMap) (w w1 : World) : Prop := {
  sending_identity : identity (w_db w1) = identity (w_db w);
  sending_clock : (w_clock w ≤ w_clock w1)%nat;
  sending_uuid : (w_uuid w ≤ w_uuid w1)%nat;
  sending_ids : ids_ahead w1;
  sending_head : headless dev (segment_of ty p) (w_db w1)
                 ∨ at_head dev (segment_of ty p) (sent_row dev (segment_of ty p) ty p w w1) (w_db w1) }.

Lemma appendEvent_sends dev c m ty p w w1 w2 :
  distinct_ids → sending dev ty p w w1 → appendEvent cfg c m ty p w1 = (Ok tt, w2) →
  sending dev ty p w w2
  ∧ (at_head dev (segment_of ty p) (sent_row dev (segment_of ty p) ty p w w1) (w_db w1)
     ∨ (length m = PublicKeySize ∧ dev ∈ select_devices m (w_db w))
     → at_head dev (segment_of ty p) (sent_row dev (segment_of ty p) ty p w w2) (w_db w2)).
Proof.
  intros Hids [Hi Hc Hu Ha Hh]. unfold appendEvent. case_decide as Hlen.
  { intros [= <-]. split; [by split|]. by intros [?|[? _]]. }
  unfold bind, Now, NewUUID. set (e := mkEvent _ _ _ _ _ _ _ _ _). set (w1' := mkWorld _ _ _ _ _ _). intros Er.
  pose proof (append_clock c e w1') as Hck. pose proof (append_frame c e w1') as (Hid & _).
  destruct (append_queues_event c e w1' w2 Er) as (Eu & v1 & v2 & (Q1 & Q2 & Q3) & Ho & Edb).
  rewrite Er in Hck, Hid. simpl in Hck, Hid. change (w_uuid w1') with (S (w_uuid w1)) in Eu.
  set (T := segment_of ty p) in *. set (P1 := sent_row dev T ty p w w1) in *. set (P2 := sent_row dev T ty p w w2).
  assert (∀ o, P1 o → P2 o) as Hmono by (intros o; apply sent_row_later; lia).
  assert (∀ d d', outboxEventID (ev_EventID e) d = outboxEventID (ev_EventID e) d' → d = d') as Hinj
    by (intros d d' [_ ?]%Hids; done).
  assert (unqueued e dev (w_db v1)) as Hun by (intros o; rewrite Q2; intros Hin; exact (Ha o (w_uuid w1) dev Hin (Nat.le_refl _))).
  assert (∀ bytes, cbor_Marshal_map (ev_Payload e) = Some bytes → ∀ o, queued_row dev T e bytes = o → P2 o) as Hrow.
  { intros bytes Eb o <-. split_and!; [done|done|done|done|done| |].
    - exists (w_clock w1). split; [lia|done].
    - exists (w_uuid w1). split; [lia|done]. }
  destruct (appendOutbox_heads dev T e Hinj c eq_refl) as [Hany Hdev].
  assert (at_head dev T P1 (w_db w1) → at_head dev T P2 (w_db w2)) as Hkeep.
  { intros (o & s & Hx). rewrite Edb. apply (at_head_mono _ _ P1); [done|].
    pose proof (appendOutbox_keeps_head dev T P1 c e v1) as Hk. rewrite Ho in Hk. apply Hk.
    exists o, s. rewrite Q2, Q3. exact Hx. }
  assert (headless dev T (w_db w1) → headless dev T (w_db v1)) as Hless by (intros H s; rewrite Q3; apply H).
  split; [split|].
  - congruence.
  - lia.
  - lia.
  - intros o k d Hin Hk.
    pose proof (appendOutbox_ids (λ id, ∀ k d, (w_uuid w2 ≤ k)%nat → id ≠ outboxEventID (uuid_at k) d) c e) as Hnew.
    assert (∀ d k, (w_uuid w2 ≤ k)%nat → ∀ d', outboxEventID (ev_EventID e) d ≠ outboxEventID (uuid_at k) d') as Hown.
    { intros d1 k1 Hk1 d2 Eq. destruct (Hids (w_uuid w1) k1 d1 d2 Eq) as [Ek _]. lia. }
    specialize (Hnew (λ d k d0 Hk, Hown d k Hk d0) v1). rewrite Ho in Hnew. simpl in Hnew.
    rewrite Edb in Hin. apply Hnew; [|done|done]. intros o1. rewrite Q2. intros Hin1 k1 d1 Hk1. apply (Ha o1 k1 d1 Hin1). lia.
  - destruct Hh as [Hh|Hh]; [|right; by apply Hkeep].
    specialize (Hany v1 (conj (Hless Hh) Hun)). rewrite Ho in Hany. rewrite Edb.
    destruct Hany as [?|(bytes & Eb & Hat)]; [by left|right]. by eapply at_head_mono; [apply (Hrow bytes Eb)|].
  - intros [Hat|[Hm Hd]]; [by apply Hkeep|]. destruct Hh as [Hh|Hh]; [|by apply Hkeep].
    assert (dev ∈ select_devices (ev_UserPublicKey e) (w_db v1)) as Hd'.
    { unfold select_devices in *. rewrite Q1. simpl. by rewrite Hi. }
    specialize (Hdev v1 (conj (Hless Hh) (conj Hun Hd'))). rewrite Ho in Hdev. rewrite Edb.
    destruct Hdev as (bytes & Eb & Hat). by eapply at_head_mono; [apply (Hrow bytes Eb)|].
Qed.

Lemma send_loop_heads dev c members m ty p w w1 w2 :
  distinct_ids → sending dev ty p w w1 →
  for_each members (λ member, appendEvent cfg c member ty p) w1 = (Ok tt, w2) →
  sending dev ty p w w2
  ∧ (at_head dev (segment_of ty p) (sent_row dev (segment_of ty p) ty p w w1) (w_db w1)
     ∨ (m ∈ members ∧ length m = PublicKeySize ∧ dev ∈ select_devices m (w_db w))
     → at_head dev (segment_of ty p) (sent_row dev (segment_of ty p) ty p w w2) (w_db w2)).
Proof.
  intros Hids. revert w1. induction members as [|x members IH]; intros w1 Hs; cbn [for_each].
  { intros [= <-]. split; [done|]. by intros [?|[?%not_elem_of_nil _]]. }
  intros ([] & w1' & Hx & Hl)%bind_ok. destruct (appendEvent_sends dev c x ty p w w1 w1' Hids Hs Hx) as [Hs' Hat].
  destruct (IH w1' Hs' Hl) as [Hs2 Hat2]. split; [done|]. intros [H|[Hm Hd]]; apply Hat2.
  - left. apply Hat. by left.
  - apply elem_of_cons in Hm as [->|Hm]; [left; apply Hat; by right|by right].
Qed.

Lemma message_recipients_silent user room : silent (message_recipients Background user room).
Proof. unfold message_recipients, ListActiveRoomMemberPublicKeys, IsDirectRoom, AreFriends. solve_silent. Qed.

Lemma message_recipients_draws user room : draws_none (message_recipients Background user room).
Proof.
  unfold message_recipients, ListActiveRoomMemberPublicKeys, IsDirectRoom, AreFriends.
  apply draws_none_bind; [apply draws_none_query|intros ms]. case_decide; [done|].
  apply draws_none_bind; [apply draws_none_query|intros [|]]; [|done]. case_decide; [done|].
  destruct (others user ms) as [|peer l]; [done|]. case_decide; [done|].
  apply draws_none_bind; [apply draws_none_query|by intros [|]].
Qed.

(** A message that is accepted waits at the head of the segment of its room
    for each device of each member, if the segment had no head. *)
Lemma SendMessage_heads dev user room cid body m a w w' :
  distinct_ids → ids_ahead w → SendMessage cfg Background user room cid body w = (Ok a, w') →
  m ∈ member_keys room (w_db w) → length m = PublicKeySize → dev ∈ select_devices m (w_db w) →
  (∀ mid, headless dev (segment_of "mlsMessageReceived" (message_payload room mid cid user body)) (w_db w)) →
  ∃ mid, a !! 0%nat = Some ("messageId"%string, AUUID mid) ∧ (w_clock w ≤ w_clock w')%nat
    ∧ let p := message_payload room mid cid user body in
      at_head dev (segment_of "mlsMessageReceived" p) (sent_row dev (segment_of "mlsMessageReceived" p) "mlsMessageReceived" p w w') (w_db w').
Proof.
  intros Hids Ha Hsend Hm Hlen Hd Hh. unfold SendMessage in Hsend.
  apply bind_ok in Hsend as (now & w1 & En & Hsend). injection En as _ Ew1.
  apply bind_ok in Hsend as (ms & w2 & Er & Hsend).
  pose proof (message_recipients_silent user room) as Hsil. specialize (Hsil w1). rewrite Er in Hsil. destruct Hsil as [_ Hck].
  pose proof (message_recipients_draws user room w1) as Hu. rewrite Er in Hu.
  apply message_recipients_ok in Er as (-> & _ & Edb). subst w1. simpl in Hck, Hu, Edb, Hsend.
  apply bind_ok in Hsend as (mid & w3 & Em & Hsend). injection Em as Emid Ew3.
  apply bind_ok in Hsend as ([] & w4 & Hl & Hsend). injection Hsend as <- <-.
  set (p := message_payload room mid cid user body) in *. assert (sending dev "mlsMessageReceived" p w w3) as Hs.
  { subst w3. split; simpl; [by rewrite Edb|lia|lia| |left; rewrite Edb; apply Hh].
    intros o k d. simpl. rewrite Edb. intros Hin Hk. apply (Ha o k d Hin). lia. }
  destruct (send_loop_heads dev _ _ m _ p w w3 w4 Hids Hs Hl) as [[_ Hc _ _ _] Hat].
  exists mid. split; [done|]. split; [done|]. apply Hat. right. by split_and!.
Qed.
End send.
