(* ===== verification/DeliverySpec.v ===== *)
(** * DeliverySpec: a message arrives

    What the dispatcher claims and a pull sends, whole: nothing that is due
    is left out while there is room for it.  With [Delivery] this makes the
    path of a message from its sender to the devices of the members. *)

From Stdlib Require Import ZArith.
From stdpp Require Import gmap.
From S2P Require Import Prelude GoLib GoTime Domain Database Effects Pagination OutboxRepo OutboxInv OutboxService.
From S2P Require Import OutboxSpec OutboxOrder OutboxReach AuthRepo AuthService ClientRepo FriendRepo RoomRepo ClientService.
From S2P Require Import RoomService Rpc Handler RoomSpec HandlerPull Delivery.

Local Open Scope Z_scope.

(** ** Limits *)

(** A limit that is not reached leaves nothing out. *)
Lemma limit_whole {R} (le : R → R → Prop) `{!∀ a b, Decision (le a b)} l t r :
  Z.of_nat (length t) ≤ l → r ∈ t → r ∈ limit l (order_by le t).
Proof.
  intros Hl Hr. unfold limit. rewrite take_ge; [by apply elem_of_order_by|].
  unfold order_by. rewrite merge_sort_Permutation. lia.
Qed.

Section claims.
Context {E : Env}.

(** ** Claiming *)

Lemma DispatchOnce_claims_all s w n w' y :
  notifier_ok s → db_wf (w_db w) → cfg_ok (os_cfg s) → DispatchOnce s Background w = (Ok n, w') →
  let now := clock_at (w_clock w) in
  y ∈ select_candidates now (BatchSizeSegments (os_cfg s)) (w_db w) → now < cand_expiresAt y →
  cand_attempts y + 1 ≤ MaxAttempts (os_cfg s) →
  ∃ ev, claimed now (AckTimeout (os_cfg s)) (MaxAttempts (os_cfg s)) y ev (w_db w').
Proof.
  intros Hs Hwf Hcfg Hd now Hy He Ha. unfold DispatchOnce in Hd.
  apply bind_ok in Hd as (now' & w1 & En & Hd). injection En as <- Ew1.
  apply bind_ok in Hd as (evs & w2 & Ht & Hd).
  apply bind_ok in Hd as ([] & w3 & Hl & [= <- <-]).
  destruct (announce_loop_ok s Hs evs w2) as (w3' & El & [Edb _]). rewrite El in Hl. injection Hl as <-.
  unfold WithinTransaction in Ht. destruct (fault_at _); [done|].
  destruct (ClaimPending InTx _ _ _ _ (tick_stmt w1)) as [[evs'|e|m] v] eqn:Ec; [|done|done].
  destruct (fault_at _); [done|]. injection Ht as -> <-. rewrite Edb.
  assert (w_db (tick_stmt w1) = w_db w) as Eq by by subst w1.
  apply (ClaimPending_claims_all _ _ _ _ _ _ _ y) in Ec as (ev & _ & Hcl); [by exists ev| | | | |];
    rewrite ?Eq; try done. by destruct Hcfg.
Qed.

(** Claiming changes the keys of no segment. *)
Lemma ClaimPending_segments c now batch timeout maxA K :
  preserves (λ db, sg_key <$> outbox_segments (events db) = K) (ClaimPending c now batch timeout maxA).
Proof.
  assert (∀ P `{!∀ s, Decision (P s)} f db, (∀ s, sg_key (f s) = sg_key s) →
    sg_key <$> outbox_segments (events db) = K →
    sg_key <$> sql_update P f (outbox_segments (events db)) = K) as Hupd.
  { intros P HP f db Hf HK. by rewrite fmap_sql_update. }
  unfold ClaimPending, claim_one, dropSegmentTail, scanOutboxEvent. solve_preserves.
  - apply preserves_exec_. intros db db' HK [= <-]. exact HK.
  - apply preserves_exec_. intros db db' HK [= <-]. by apply Hupd.
  - apply preserves_exec. intros db row db' HK [= _ <-]. exact HK.
  - apply preserves_exec_. intros db db' HK [= <-]. by apply Hupd.
Qed.

(** It changes neither the identifiers of events nor what they say. *)
Definition same_content (o o' : OutboxRow) : Prop :=
  ob_event_id o' = ob_event_id o ∧ ob_event_type o' = ob_event_type o ∧ ob_payload o' = ob_payload o.

Lemma ClaimPending_content c now batch timeout maxA (T : list OutboxRow) :
  preserves (λ db, ∀ o', o' ∈ outbox (events db) → ∃ o, o ∈ T ∧ same_content o o') (ClaimPending c now batch timeout maxA).
Proof.
  assert (∀ P `{!∀ o, Decision (P o)} f db, (∀ o, same_content o (f o)) →
    (∀ o', o' ∈ outbox (events db) → ∃ o, o ∈ T ∧ same_content o o') →
    ∀ o', o' ∈ sql_update P f (outbox (events db)) → ∃ o, o ∈ T ∧ same_content o o') as Hupd.
  { intros P HP f db Hf HI o' (o1 & Ho1 & [[_ ->]|[_ ->]])%elem_of_sql_update; [|by apply HI].
    destruct (HI o1 Ho1) as (o & Ho & E1 & E2 & E3). destruct (Hf o1) as (F1 & F2 & F3).
    exists o. split; [done|]. split_and!; congruence. }
  unfold ClaimPending, claim_one, dropSegmentTail, scanOutboxEvent. solve_preserves.
  - apply preserves_exec_. intros db db' HI [= <-]. by apply Hupd.
  - apply preserves_exec_. intros db db' HI [= <-]. exact HI.
  - apply preserves_exec. intros db row db' HI [= _ <-]. by apply Hupd.
  - apply preserves_exec_. intros db db' HI [= <-]. exact HI.
Qed.

Lemma DispatchOnce_preserves P s :
  notifier_ok s → (∀ now batch timeout maxA, preserves P (ClaimPending InTx now batch timeout maxA)) →
  preserves P (DispatchOnce s Background).
Proof.
  intros Hs HP w Hw. destruct (DispatchOnce_tx s Hs w) as [-> _]. by apply preserves_WithinTransaction; [apply HP|].
Qed.

(** ** What is in flight for a device *)

Definition segments_of (dev : string) (db : DB) : list (string * string) :=
  filter (λ k, k.1 = dev) (sg_key <$> outbox_segments (events db)).

Definition flying (dev : string) (now : Time) (o : OutboxRow) : Prop :=
  ob_device_id o = dev ∧ ob_status o = StatusInFlight ∧ opt_gt (ob_inflight_until o) now.
#[export] Instance flying_dec dev now o : Decision (flying dev now o).
Proof. unfold flying. apply _. Defined.

(** At most one event for each segment. *)
Lemma flying_bounded dev now db :
  db_wf db → (length (sql_select (flying dev now) (outbox (events db))) ≤ length (segments_of dev db))%nat.
Proof.
  intros Hwf. set (l := sql_select _ _). set (key := λ o, (ob_device_id o, ob_segment_id o)).
  rewrite <- (length_fmap key l). apply submseteq_length, NoDup_submseteq.
  - apply NoDup_fmap_2_strong.
    + intros o o' [(_ & Hs & _) Ho]%list_elem_of_filter [(_ & Hs' & _) Ho']%list_elem_of_filter [= Ed Es].
      by apply (inflight_unique (events db)).
    + apply NoDup_filter, (NoDup_fmap_1 ob_event_id), Hwf.
  - intros k (o & -> & [(Hd & Hs & _) Ho]%list_elem_of_filter)%list_elem_of_fmap.
    apply list_elem_of_filter. split; [done|].
    destruct (wf_inflight _ Hwf o Ho Hs) as (s & Hin & [E1 E2] & _). apply list_elem_of_fmap.
    exists s. unfold key, sg_key. split; [congruence|done].
Qed.

(** The listing leaves nothing out while there is room. *)
Lemma ServiceListInflight_all s c dev lim w evs w' o :
  0 < lim → Z.of_nat (length (segments_of dev (w_db w))) ≤ lim → db_wf (w_db w) →
  ServiceListInflight s c dev lim w = (Ok evs, w') →
  o ∈ outbox (events (w_db w)) → flying dev (clock_at (w_clock w)) o →
  ∃ p, cbor_Unmarshal_map (ob_payload o) = Some p ∧ event_of o p ∈ evs.
Proof.
  intros Hlim Hlen Hwf Hl Ho Hf. unfold ServiceListInflight in Hl. case_decide; [done|]. rewrite decide_False in Hl by lia.
  apply bind_ok in Hl as (now & w1 & En & Hl). injection En as <- <-. unfold ListInflight in Hl.
  apply bind_ok in Hl as (rows & w2 & Hq & Hm). unfold wrap_error, query in Hq. destruct (fault_at _); [done|].
  injection Hq as Hrows _. cbn in Hrows.
  assert (o ∈ rows) as Hin.
  { rewrite <- Hrows. apply limit_whole; [|by apply list_elem_of_filter].
    pose proof (flying_bounded dev (clock_at (w_clock w)) (w_db w) Hwf) as Hb.
    apply (Z.le_trans _ (Z.of_nat (length (sql_select (flying dev (clock_at (w_clock w))) (outbox (events (w_db w))))))); [done|lia]. }
  assert (Forall2 (λ o ev, ∃ p, cbor_Unmarshal_map (ob_payload o) = Some p ∧ ev = event_of o p) rows evs) as HF.
  { eapply map_each_Forall2; [|exact Hm]. intros x v ev v' Hx. cbv beta in Hx. rewrite scanOutboxEvent_Some in Hx.
    destruct (cbor_Unmarshal_map (ob_payload x)) as [p|]; [|done]. injection Hx as <- <-. by exists p. }
  destruct (Forall2_elem _ _ _ o HF Hin) as (ev & Hev & p & Hp & ->). by exists p.
Qed.

(** Nothing in flight, nothing listed. *)
Lemma ServiceListInflight_none s c dev lim w evs w' :
  (∀ o, o ∈ outbox (events (w_db w)) → ¬ flying dev (clock_at (w_clock w)) o) → 0 < lim →
  ServiceListInflight s c dev lim w = (Ok evs, w') → evs = [].
Proof.
  intros Hn Hlim Hl. apply ServiceListInflight_ok in Hl as (_ & _ & _ & Hf); [|done].
  destruct evs as [|ev evs]; [done|]. apply Forall_cons in Hf as [(o & p & Ho & Hd & Hs & Hu & _) _].
  by destruct (Hn o Ho).
Qed.
End claims.

(** ** A pull *)

Section pull.
Context {E : Env} {C : Codec} {App : EventAppender} (h : Handler).
Context (clock_monotone : ∀ i j, (i ≤ j)%nat → clock_at i ≤ clock_at j).
Context (s : OutboxService) (Hn : notifier_ok s) (Hh : h_outboxService h = Some s) (Hcfg : cfg_ok (os_cfg s)).

(** There is room for everything that is due, and for everything in flight
    for the device, and nothing is on its way to it. *)
Record lightly_loaded (dev : string) (v : World) : Prop := {
  ll_wf : db_wf (w_db v);
  ll_heads : Z.of_nat (length (segment_heads (w_db v))) ≤ BatchSizeSegments (os_cfg s);
  ll_segments : Z.of_nat (length (segments_of dev (w_db v))) ≤ 128;
  ll_idle : ∀ o, o ∈ outbox (events (w_db v)) → ¬ flying dev (clock_at (w_clock v)) o }.

(** A pull for an idle device dispatches once, and sends what is in flight
    for the device then. *)
Lemma pull_dispatches dev sent v packets sent' v' :
  dev ≠ ""%string →
  (∀ o, o ∈ outbox (events (w_db v)) → ¬ flying dev (clock_at (w_clock v)) o) →
  pullOutboxPackets h Background dev sent v = (Ok (inr packets, sent'), v') →
  ∃ v3 n v4 evs, w_db v3 = w_db v ∧ w_db v' = w_db v4
    ∧ ((w_clock v ≤ w_clock v3)%nat ∧ (w_clock v3 ≤ w_clock v4)%nat ∧ (w_clock v4 ≤ w_clock v')%nat)
    ∧ DispatchOnce s Background v3 = (Ok n, v4) ∧ ServiceListInflight s Background dev 128 v4 = (Ok evs, v')
    ∧ Forall (leased_beyond (clock_at (w_clock v))) evs
    ∧ send_unseen (clock_at (w_clock v)) evs (prune_sent (clock_at (w_clock v)) sent) = (packets, sent').
Proof.
  intros Hdev Hidle Hpull.
  unfold pullOutboxPackets in Hpull. rewrite Hh, decide_False in Hpull by done.
  apply bind_ok in Hpull as (now & v1 & En & Hpull). injection En as <- Ev1. cbv zeta in Hpull.
  apply bind_ok in Hpull as (r & v2 & Hr%attempt_ok & Hpull). destruct r as [e|evs]; [by injection Hpull|].
  set (now := clock_at (w_clock v)) in *.
  destruct (send_unseen now evs (prune_sent now sent)) as [ps s1] eqn:Es. injection Hpull as <- <- <-.
  assert (w_db v1 = w_db v ∧ w_clock v1 = S (w_clock v)) as [Edb1 Ec1] by (by subst v1).
  apply bind_ok in Hr as (evs0 & v3 & Hl0 & Hr).
  pose proof (ServiceListInflight_ok s Background dev 128 v1 evs0 v3 eq_refl Hl0) as (Edb3 & Hc3 & _).
  assert (evs0 = []) as ->.
  { eapply (ServiceListInflight_none s Background dev 128 v1); [|done|exact Hl0]. rewrite Edb1.
    intros o1 Ho1 (Hd1 & Hs1 & Hu1). apply (Hidle o1 Ho1). split_and!; [done|done|].
    pose proof (clock_monotone (w_clock v) (w_clock v1) ltac:(lia)).
    destruct (ob_inflight_until o1); [|done]. simpl in *. lia. }
  apply bind_ok in Hr as (n & v4 & Hd & Hl). exists v3, n, v4, evs.
  pose proof (DispatchOnce_clock s Hn Background v3) as Hc4. rewrite Hd in Hc4. simpl in Hc4.
  pose proof (ServiceListInflight_ok s Background dev 128 v4 evs v2 eq_refl Hl) as (Edb2 & Hc2 & _ & Hfl).
  split_and!; [congruence|done|lia|lia|lia|done|done| |done].
  eapply Forall_impl; [exact Hfl|]. intros ev'. apply in_flight_leased.
  pose proof (clock_monotone (w_clock v) (w_clock v4) ltac:(lia)). unfold now. lia.
Qed.

(** What a dispatch keeps: the keys of the segments, and the invariant. *)
Lemma DispatchOnce_segments v n v' :
  DispatchOnce s Background v = (Ok n, v') →
  sg_key <$> outbox_segments (events (w_db v')) = sg_key <$> outbox_segments (events (w_db v)).
Proof.
  intros Hd.
  pose proof (DispatchOnce_preserves _ s Hn (λ now batch timeout maxA, ClaimPending_segments InTx now batch timeout maxA _) v eq_refl) as Hk.
  by rewrite Hd in Hk.
Qed.

Lemma DispatchOnce_wf v n v' : DispatchOnce s Background v = (Ok n, v') → db_wf (w_db v) → db_wf (w_db v').
Proof. intros Hd. pose proof (outbox_step_wf s Hn v _ (step_dispatch s v)) as Hw. by rewrite Hd in Hw. Qed.

(** A head that may be sent is in flight after the dispatch, and says what
    it said before. *)
Lemma DispatchOnce_claims_head v n v' o g :
  db_wf (w_db v) → Z.of_nat (length (segment_heads (w_db v))) ≤ BatchSizeSegments (os_cfg s) →
  o ∈ outbox (events (w_db v)) → ob_status o = StatusPending → ob_attempts o = 0 →
  g ∈ outbox_segments (events (w_db v)) → sg_head_event_id g = Some (ob_event_id o) →
  ob_send_after o ≤ clock_at (w_clock v) < ob_expires_at o → DispatchOnce s Background v = (Ok n, v') →
  ∃ o', o' ∈ outbox (events (w_db v')) ∧ same_content o o' ∧ ob_in (ob_device_id o) (ob_segment_id o) o'
    ∧ ob_status o' = StatusInFlight ∧ ob_inflight_until o' = Some (clock_at (w_clock v) + AckTimeout (os_cfg s)).
Proof.
  intros Hwf Hheads Ho Host Hoa Hg Hgh [Hsend Hexp] Hd.
  destruct (DispatchOnce_claims_all s v n v' (to_candidate (g, o)) Hn) as (ev & g0 & o0 & payload & Hy & _ & _ & _ & Hin0 & _ & Hcl & _);
    [done|done|exact Hd| |cbn; lia|cbn; destruct Hcfg as (_ & _ & Hmax & _); lia|].
  { unfold select_candidates. apply list_elem_of_fmap_2, limit_whole.
    - etrans; [|exact Hheads]. apply inj_le, list.length_filter.
    - apply list_elem_of_filter. split; [right; left; by split|by apply elem_of_segment_heads]. }
  set (o' := ob_set_claimed _ _ o0) in *. injection Hy as _ _ E3 _ _ _ _. exists o'. split; [exact Hcl|].
  destruct (wf_head_in _ Hwf g _ o Hg Hgh Ho eq_refl) as [Hgd Hgs]. cbn in Hin0. destruct Hin0 as [Hd0 Hs0].
  split; [|split; [split; cbn; congruence|done]].
  pose proof (DispatchOnce_preserves (λ db, ∀ o1, o1 ∈ outbox (events db) → ∃ o2, o2 ∈ outbox (events (w_db v)) ∧ same_content o2 o1)
    s Hn (λ now batch timeout maxA, ClaimPending_content InTx now batch timeout maxA _) v) as Hcont.
  rewrite Hd in Hcont. cbn in Hcont. destruct (Hcont ltac:(intros o1 Ho1; by exists o1) o' Hcl) as (o2 & Ho2 & Hsame).
  assert (o2 = o) as -> by (apply (event_unique _ _ _ Hwf); [done|done|]; destruct Hsame as (F1 & _); cbn in F1; congruence).
  done.
Qed.

(** What is in flight for the device when a connection lists it, and was not
    sent on the connection before, is sent. *)
Lemma flying_sent dev sent now v evs v' packets sent' o :
  db_wf (w_db v) → Z.of_nat (length (segments_of dev (w_db v))) ≤ 128 →
  ServiceListInflight s Background dev 128 v = (Ok evs, v') → Forall (leased_beyond now) evs →
  send_unseen now evs (prune_sent now sent) = (packets, sent') →
  o ∈ outbox (events (w_db v)) → flying dev (clock_at (w_clock v)) o → sent !! ob_event_id o = None →
  ∃ p, p ∈ packets ∧ rs_RequestID p = ob_event_id o ∧ rs_EventType p = ob_event_type o
    ∧ cbor_Unmarshal_map (ob_payload o) = Some (rs_Parameters p).
Proof.
  intros Hwf Hsegs Hl Hleased Es Ho Hfly Hsent.
  destruct (ServiceListInflight_all s Background dev 128 v evs v' o) as (p & Hp & Hev); [done..|].
  apply send_unseen_spec in Es as (_ & Hpk & _ & _ & Hall); [|exact Hleased].
  destruct (Hall _ Hev) as [Hlive|Hin].
  { apply (proj1 (prune_sent_live _ _ _)) in Hlive as (u & Eu & _).
    assert (Some u = None) by (etrans; [symmetry; exact Eu|exact Hsent]). done. }
  apply list_elem_of_fmap in Hin as (pk & Eid & Hpkin). exists pk. destruct (Hpk pk Hpkin) as (_ & ev' & Hev' & -> & _).
  pose proof (ServiceListInflight_ok s Background dev 128 v evs v' eq_refl Hl) as (_ & _ & _ & Hfl).
  rewrite Forall_forall in Hfl. destruct (Hfl ev' Hev') as (o1 & p1 & Ho1 & _ & _ & _ & Hp1 & ->).
  assert (o1 = o) as -> by (apply (event_unique _ _ _ Hwf); [done|done|exact (eq_sym Eid)]). done.
Qed.

(** An event that waits at the head of a segment, may be sent and has not
    been sent before is sent by the next pull. *)
Lemma pull_sends dev sent v packets sent' v' o g :
  dev ≠ ""%string → lightly_loaded dev v →
  o ∈ outbox (events (w_db v)) → ob_device_id o = dev → ob_status o = StatusPending → ob_attempts o = 0 →
  g ∈ outbox_segments (events (w_db v)) → sg_head_event_id g = Some (ob_event_id o) →
  ob_send_after o ≤ clock_at (w_clock v) → clock_at (w_clock v') < ob_expires_at o →
  clock_at (w_clock v') < clock_at (w_clock v) + AckTimeout (os_cfg s) →
  sent !! ob_event_id o = None →
  pullOutboxPackets h Background dev sent v = (Ok (inr packets, sent'), v') →
  ∃ p, p ∈ packets ∧ rs_RequestID p = ob_event_id o ∧ rs_EventType p = ob_event_type o
    ∧ cbor_Unmarshal_map (ob_payload o) = Some (rs_Parameters p).
Proof.
  intros Hdev [Hwf Hheads Hsegs Hidle] Ho Hod Host Hoa Hg Hgh Hsend Hexp Hack Hsent Hpull.
  destruct (pull_dispatches dev sent v packets sent' v' Hdev Hidle Hpull)
    as (v3 & n & v4 & evs & Edb & Edb2 & (Hc3 & Hc4 & Hc2) & Hd & Hl & Hleased & Es).
  pose proof (clock_monotone _ _ Hc3). pose proof (clock_monotone _ _ Hc4). pose proof (clock_monotone _ _ Hc2).
  pose proof Hd as Hcl. apply (DispatchOnce_claims_head v3 n v4 o g) in Hcl
    as (o' & Ho' & (C1 & C2 & C3) & [Hd' _] & Hst' & Hu'); rewrite ?Edb; [|done..|lia].
  assert (segments_of dev (w_db v4) = segments_of dev (w_db v)) as Eseg.
  { unfold segments_of. f_equal. by rewrite (DispatchOnce_segments v3 n v4 Hd), Edb. }
  rewrite <- C1, <- C2, <- C3. rewrite <- C1 in Hsent.
  apply (flying_sent dev sent (clock_at (w_clock v)) v4 evs v' packets sent'); try done.
  - apply (DispatchOnce_wf v3 n); [done|by rewrite Edb].
  - by rewrite Eseg.
  - split_and!; [congruence|done|]. rewrite Hu'. cbn. lia.
Qed.

(** ** A message, from end to end *)

Context {L : EventAppenderLaws append_event} {Q : QueueingLaws append_event} (cfg : ClientConfig).

Lemma segment_of_message room mid cid user body :
  TrimSpace (uuid_String room) ≠ ""%string →
  segment_of "mlsMessageReceived" (message_payload room mid cid user body) = uuid_String room.
Proof.
  intros Ht. unfold segment_of, outboxSegmentID. cbv zeta.
  match goal with |- context [get_string ?p "roomId"] => assert (get_string p "roomId" = Some (uuid_String room)) as -> by done end.
  by rewrite decide_True.
Qed.

(** C2: A message arrives.  Let a member send a message to a room, and let
    the segment of the room have no event waiting for a device of a member.
    If [SendMessage] answers, and a connection of the device then pulls
    successfully while there is room for what is due and nothing else is on
    its way to the device, then the packets of this pull include the
    message: its type, and the payload of the message with its identifier
    as it was answered to the sender, as the queue has encoded it.  The
    hypotheses bound the time between the two by the retention of events,
    and the time of the pull by the acknowledgement timeout; identifiers do
    not collide and are new to the queue and to the connection. *)
Theorem message_arrives dev user room cid body member a sent packets sent' w w1 v v' :
  distinct_ids → ids_ahead w → TrimSpace (uuid_String room) ≠ ""%string →
  SendMessage cfg Background user room cid body w = (Ok a, w1) →
  member ∈ member_keys room (w_db w) → length member = PublicKeySize → dev ∈ select_devices member (w_db w) →
  headless dev (uuid_String room) (w_db w) →
  w_db v = w_db w1 → (w_clock w1 ≤ w_clock v)%nat → lightly_loaded dev v →
  (∀ j, (w_uuid w ≤ j)%nat → sent !! outboxEventID (uuid_at j) dev = None) →
  pullOutboxPackets h Background dev sent v = (Ok (inr packets, sent'), v') →
  clock_at (w_clock v') < clock_at (w_clock w) + cfg_EventRetention cfg →
  clock_at (w_clock v') < clock_at (w_clock v) + AckTimeout (os_cfg s) →
  ∃ mid p bytes, a !! 0%nat = Some ("messageId"%string, AUUID mid) ∧ p ∈ packets
    ∧ rs_EventType p = "mlsMessageReceived"%string
    ∧ cbor_Marshal_map (message_payload room mid cid user body) = Some bytes
    ∧ cbor_Unmarshal_map bytes = Some (rs_Parameters p).
Proof.
  intros Hids Hahead Ht Hsend Hm Hlen Hd Hless Edb Hck Hload Hsent Hpull Hret Hack.
  destruct (SendMessage_heads cfg dev user room cid body member a w w1 Hids Hahead Hsend Hm Hlen Hd) as (mid & Ea & _ & Hat).
  { intros mid. by rewrite segment_of_message. }
  cbv zeta in Hat. rewrite segment_of_message in Hat by done.
  destruct Hat as (o & g & Ho & ((Hod & _) & Hty & Hpl & Hst & Hatt & (k & Hk & Hsa & Hex) & j & Hj & Hid) & Hg & _ & Hgh).
  assert (dev ≠ ""%string) as Hdev.
  { unfold select_devices in Hd. apply elem_of_order_by, elem_of_remove_dups, list_elem_of_filter in Hd. by destruct Hd. }
  pose proof (clock_monotone (w_clock w) k ltac:(lia)) as Hk1. pose proof (clock_monotone k (w_clock v) ltac:(lia)) as Hk2.
  destruct (pull_sends dev sent v packets sent' v' o g) as (p & Hp & _ & Ep & Hdec);
    rewrite ?Edb; try done; [lia|lia|rewrite Hid; by apply Hsent|].
  exists mid, p, (ob_payload o). split_and!; [done|done|by rewrite Ep|done|done].
Qed.
End pull.
