(* ===== verification/DeliveryBacklog.v ===== *)
(** * DeliveryBacklog: a queue drains in order

    A device that pulls and acknowledges what it has received gets the
    events that wait in one of its segments one by one, oldest first, and
    nothing is left. *)

From Stdlib Require Import ZArith.
From stdpp Require Import gmap.
From S2P Require Import Prelude GoLib GoTime Domain Database Effects Pagination OutboxRepo OutboxInv OutboxService.
From S2P Require Import OutboxSpec OutboxOrder OutboxReach AuthRepo AuthService ClientRepo FriendRepo RoomRepo ClientService.
From S2P Require Import RoomService Rpc Handler RoomSpec HandlerPull ClockSpec Delivery DeliverySpec.

Local Open Scope Z_scope.

(** ** What a dispatch leaves alone *)

Section keeps.
Context {E : Env}.

(** The rows of a segment, but for one event. *)
Definition same_but (dev seg : string) (id : option UUID) (db0 db : DB) : Prop :=
  ∀ o, ob_in dev seg o → id ≠ Some (ob_event_id o) → o ∈ outbox (events db0) ↔ o ∈ outbox (events db).

(** A candidate of another segment, or the event itself, which is claimed. *)
Definition spares (now maxA : Z) (dev seg : string) (id : option UUID) (db0 : DB) (x : candidate) : Prop :=
  (cand_key x ≠ (dev, seg) ∧ ∀ o, o ∈ outbox (events db0) → ob_in dev seg o → ob_event_id o ≠ cand_eventID x)
  ∨ (id = Some (cand_eventID x) ∧ now < cand_expiresAt x ∧ cand_attempts x + 1 ≤ maxA).

Lemma claim_one_same_but now timeout maxA dev seg id db0 x :
  spares now maxA dev seg id db0 x → preserves (same_but dev seg id db0) (claim_one InTx now timeout maxA x).
Proof.
  intros Hx. unfold claim_one, dropSegmentTail, scanOutboxEvent. case_decide as Hdead; solve_preserves.
  - destruct Hx as [[Hk _]|(_ & ? & ?)]; [|lia].
    apply preserves_exec_. intros db db' Hs [= <-] o Hin Hne. rewrite (Hs o Hin Hne). cbn. rewrite elem_of_sql_update.
    split; [intros Ho; exists o; split; [done|right; split; [|done]]|].
    + intros ([E1 E2] & _). apply Hk. destruct Hin. unfold cand_key. congruence.
    + intros (o0 & Ho0 & [[([E1 E2] & _) ->]|[_ ->]]); [|done]. destruct Hk, Hin as [F1 F2]. cbn in F1, F2. unfold cand_key. congruence.
  - apply preserves_exec_. intros db db' Hs [= <-]. exact Hs.
  - apply preserves_exec. intros db row db' Hs [= _ <-] o Hin Hne. rewrite (Hs o Hin Hne). cbn. rewrite elem_of_sql_update. split.
    + intros Ho. exists o. split; [done|right; split; [|done]]. destruct Hx as [[_ Hn]|(-> & _)]; [|congruence].
      apply Hn; [by apply Hs|done].
    + intros (o0 & Ho0 & [[Eid ->]|[_ ->]]); [|done]. cbn in Hin, Hne. destruct Hx as [[_ Hn]|(-> & _)]; [|congruence].
      destruct (Hn o0); [by apply Hs|done|done].
  - apply preserves_exec_. intros db db' Hs [= <-]. exact Hs.
Qed.

(** Events in flight for a device have the lease of this dispatch. *)
Definition leased_until (dev : string) (until : Time) (db : DB) : Prop :=
  ∀ o, o ∈ outbox (events db) → ob_device_id o = dev → ob_status o = StatusInFlight → ob_inflight_until o = Some until.

Lemma claim_one_leased_until now timeout maxA dev x :
  preserves (leased_until dev (now + timeout)) (claim_one InTx now timeout maxA x).
Proof.
  unfold claim_one, dropSegmentTail, scanOutboxEvent. case_decide; solve_preserves.
  - apply preserves_exec_. intros db db' Hs [= <-] o (o0 & Ho0 & [[_ ->]|[_ ->]])%elem_of_sql_update; [done|by apply Hs].
  - apply preserves_exec_. intros db db' Hs [= <-]. exact Hs.
  - apply preserves_exec. intros db row db' Hs [= _ <-] o (o0 & Ho0 & [[_ ->]|[_ ->]])%elem_of_sql_update; [done|by apply Hs].
  - apply preserves_exec_. intros db db' Hs [= <-]. exact Hs.
Qed.

(** Every event was there before, and one that is not delivered was not
    delivered before. *)
Definition were_live (rows : list OutboxRow) (db : DB) : Prop :=
  ∀ o, o ∈ outbox (events db) →
    (∃ o0, o0 ∈ rows ∧ ob_event_id o0 = ob_event_id o ∧ ob_device_id o0 = ob_device_id o)
    ∧ (ob_live o → ∃ o0, o0 ∈ rows ∧ ob_event_id o0 = ob_event_id o ∧ ob_live o0).

Lemma claim_one_were_live now timeout maxA rows x :
  (now < cand_expiresAt x → ∃ o0, o0 ∈ rows ∧ ob_event_id o0 = cand_eventID x ∧ ob_live o0) →
  preserves (were_live rows) (claim_one InTx now timeout maxA x).
Proof.
  intros Hx. unfold claim_one, dropSegmentTail, scanOutboxEvent. case_decide as Hdead; solve_preserves.
  - apply preserves_exec_. intros db db' Hs [= <-] o (o0 & Ho0 & [[_ ->]|[_ ->]])%elem_of_sql_update; [|by apply Hs].
    split; [by apply (Hs o0)|by intros []].
  - apply preserves_exec_. intros db db' Hs [= <-]. exact Hs.
  - apply preserves_exec. intros db row db' Hs [= _ <-] o (o0 & Ho0 & [[Eid ->]|[_ ->]])%elem_of_sql_update; [|by apply Hs].
    split; [by apply (Hs o0)|]. intros _. cbn. rewrite Eid. apply Hx. lia.
  - apply preserves_exec_. intros db db' Hs [= <-]. exact Hs.
Qed.

(** What every claim of a candidate preserves, a dispatch does. *)
Lemma ClaimPending_each (I : DB → Prop) now batch timeout maxA w :
  (∀ x, x ∈ select_candidates now batch (w_db w) → preserves I (claim_one InTx now timeout maxA x)) →
  I (w_db w) → I (w_db (ClaimPending InTx now batch timeout maxA w).2).
Proof.
  intros Hx Hw. unfold ClaimPending. case_decide; [done|]. unfold bind at 1, wrap_error, query.
  destruct (fault_at _); [done|].
  assert (preserves I (let* claimed := map_each (select_candidates now batch (w_db w)) (claim_one InTx now timeout maxA) in
                       ret (omap id claimed))) as Hall; [|exact (Hall (tick_stmt w) Hw)].
  apply preserves_bind; [|intros; apply preserves_ret].
  revert Hx. generalize (select_candidates now batch (w_db w)). intros l. induction l as [|x l IH]; intros Hx; [apply preserves_ret|].
  cbn [map_each]. apply preserves_bind; [apply Hx; left|intros y].
  apply preserves_bind; [apply IH; intros x' Hx'; apply Hx; by right|intros ys; apply preserves_ret].
Qed.

Lemma DispatchOnce_each s (I : DB → Prop) w :
  notifier_ok s →
  (∀ x, x ∈ select_candidates (clock_at (w_clock w)) (BatchSizeSegments (os_cfg s)) (w_db w) →
     preserves I (claim_one InTx (clock_at (w_clock w)) (AckTimeout (os_cfg s)) (MaxAttempts (os_cfg s)) x)) →
  I (w_db w) → I (w_db (DispatchOnce s Background w).2).
Proof.
  intros Hs Hx Hw. destruct (DispatchOnce_tx s Hs w) as [-> _]. simpl. destruct (fault_at _); [done|].
  pose proof (ClaimPending_each I _ (BatchSizeSegments (os_cfg s)) _ _ (tick_stmt (after_now w)) Hx Hw) as H.
  destruct (ClaimPending _ _ _ _ _ _) as [[a|e|m] w1]; [|done|done]. simpl. by destruct (fault_at _).
Qed.
End keeps.

(** ** Acknowledging what was received *)

Section acknowledging.
Context {E : Env} (s : OutboxService) (Hn : notifier_ok s) (dev : string).
Context (clock_monotone : ∀ i j, (i ≤ j)%nat → clock_at i ≤ clock_at j).

(** The events of a list are delivered to the device; no other is touched. *)
Record delivered (ids : list UUID) (db db' : DB) : Prop := {
  dl_live : ∀ o, o ∈ outbox (events db') → ob_live o →
    o ∈ outbox (events db) ∧ (ob_device_id o = dev → ob_event_id o ∉ ids);
  dl_kept : ∀ o, o ∈ outbox (events db) → ob_event_id o ∉ ids → o ∈ outbox (events db');
  dl_keys : sg_key <$> outbox_segments (events db') = sg_key <$> outbox_segments (events db) }.

Lemma AcknowledgeOutbox_delivers now id w w' :
  db_wf (w_db w) → AcknowledgeOutbox InTx now id dev "" w = (Ok tt, w') → delivered [id] (w_db w) (w_db w').
Proof.
  intros Hwf Ha. unfold AcknowledgeOutbox in Ha. apply bind_ok in Ha as (row & w1 & [Er E1]%wrapped_query_ok & Ha).
  assert (∀ o, o ∈ outbox (events (w_db w)) → ob_live o →
    (row = None ∨ ∃ o1, row = Some o1 ∧ ob_status o1 = StatusAcked) → ob_device_id o = dev → ob_event_id o ∉ [id]) as Hno.
  { intros o Ho Hlive Hrow Hd Eo%list_elem_of_singleton. destruct Hrow as [->|(o1 & -> & Hst)]; symmetry in Er.
    - rewrite sql_row_None in Er. by destruct (Er o Ho).
    - apply sql_row_Some in Er as [Ho1 [Eid _]]. rewrite (event_unique _ o1 o Hwf Ho1 Ho) in Hst by congruence.
      destruct Hlive; unfold StatusAcked, StatusPending, StatusInFlight in *; congruence. }
  assert (∀ w0, w_db w0 = w_db w → (row = None ∨ ∃ o1, row = Some o1 ∧ ob_status o1 = StatusAcked) →
    delivered [id] (w_db w) (w_db w0)) as Hsame.
  { intros w0 -> Hrow. split; [intros o Ho Hl; split; [done|]; by apply Hno|done|done]. }
  destruct row as [o1|]; [|injection Ha as <-; apply Hsame; auto].
  rewrite decide_False in Ha by (by intros []). case_decide as Hst; [injection Ha as <-; apply Hsame; eauto|].
  apply bind_ok in Ha as (u & w2 & E2%wrapped_exec_ok & Ha). injection E2 as E2. rewrite E1 in E2.
  apply bind_ok in Ha as (hd & w3 & [_ E3]%wrapped_query_ok & Ha). rewrite <- E2 in E3. clear E2.
  assert (∀ P `{!∀ s, Decision (P s)} f w0, (∀ s, sg_key (f s) = sg_key s) →
    w_db w0 = set_outbox_segments (sql_update P f (outbox_segments (events (w_db w3)))) (w_db w3) →
    delivered [id] (w_db w) (w_db w0)) as Hend.
  { intros P HP f w0 Hf ->. rewrite E3. split; cbn.
    - intros o Ho Hl. destruct (acked_rows_live _ _ _ _ Ho Hl) as [Ho' Hne]. split; [done|]. intros _ Eo%list_elem_of_singleton. by apply Hne.
    - intros o Ho Hne. apply (acked_rows_keep id now); [done|]. intros Eo. apply Hne. rewrite Eo. left.
    - exact (fmap_sql_update sg_key P f (outbox_segments (events (w_db w))) Hf). }
  case_decide.
  - apply bind_ok in Ha as (nxt & w4 & [_ E4]%wrapped_query_ok & Ha%wrapped_exec_ok). injection Ha as Ha. rewrite E4 in Ha.
    by eapply Hend; [|exact (eq_sym Ha)].
  - apply wrapped_exec_ok in Ha. injection Ha as Ha. by eapply Hend; [|exact (eq_sym Ha)].
Qed.

Lemma Acknowledge_delivers id w w' :
  db_wf (w_db w) → Acknowledge s Background id dev "" w = (Ok tt, w') → delivered [id] (w_db w) (w_db w').
Proof.
  intros Hwf. unfold Acknowledge. case_decide; [done|]. case_decide; [done|].
  intros ([] & w1 & Ht & Hk)%bind_ok. destruct (notify_key_ok s dev w1 Hn) as (w2 & El & [Edb _]). rewrite El in Hk. injection Hk as <-.
  rewrite Edb. unfold WithinTransaction in Ht. destruct (fault_at _); [done|].
  destruct ((let* now := Now in AcknowledgeOutbox InTx now id dev "") (tick_stmt w)) as [[[]|e|m] v] eqn:Ea; [|done|done].
  destruct (fault_at _); [done|]. injection Ht as <-. cbn. apply bind_ok in Ea as (now & v1 & En & Ea). injection En as _ <-.
  by eapply (AcknowledgeOutbox_delivers now id (after_now (tick_stmt w))).
Qed.
Lemma delivered_trans ids ids' db0 db1 db2 :
  delivered ids db0 db1 → delivered ids' db1 db2 → delivered (ids ++ ids') db0 db2.
Proof.
  intros [L1 K1 S1] [L2 K2 S2]. split; [|intros o Ho Hne; rewrite elem_of_app in Hne; apply K2; [apply K1|]; tauto|congruence].
  intros o Ho Hl. destruct (L2 o Ho Hl) as [Ho1 Hd2]. destruct (L1 o Ho1 Hl) as [Ho0 Hd1]. split; [done|].
  intros Hd. rewrite elem_of_app. intros [?|?]; [by apply Hd1|by apply Hd2].
Qed.

(** The client acknowledges the packets of a pull, one by one. *)
Definition acknowledge_all (packets : list ResponsePacket) : M unit :=
  for_each packets (λ p, Acknowledge s Background (rs_RequestID p) dev "").

Lemma acknowledge_all_delivers packets w w' :
  in_order w → acknowledge_all packets w = (Ok tt, w') →
  in_order w' ∧ (w_clock w ≤ w_clock w')%nat ∧ delivered (rs_RequestID <$> packets) (w_db w) (w_db w').
Proof.
  unfold acknowledge_all. revert w. induction packets as [|p packets IH]; intros w Hw; cbn [for_each fmap list_fmap].
  { intros [= <-]. split_and!; [done|done|]. split; [|done|done]. intros o Ho _. split; [done|]. intros _. apply not_elem_of_nil. }
  intros ([] & w1 & Ha & Hl)%bind_ok.
  pose proof (ordered_step_in_order s Hn clock_monotone w _ (ostep_ack s (rs_RequestID p) dev "" w) Hw) as Hw1. rewrite Ha in Hw1. simpl in Hw1.
  pose proof (Acknowledge_delivers _ _ _ (proj1 Hw) Ha) as Hd.
  assert (w_clock w ≤ w_clock w1)%nat as Hc.
  { pose proof (advances_Acknowledge s Background (rs_RequestID p) dev "" Hn w) as Hadv. by rewrite Ha in Hadv. }
  destruct (IH w1 Hw1 Hl) as (Hw' & Hc' & Hd'). split_and!; [done|lia|]. exact (delivered_trans [_] _ _ _ _ Hd Hd').
Qed.
End acknowledging.

(** ** What a connection knows it has sent *)

Lemma send_unseen_known now evs : ∀ sent packets sent' id,
  send_unseen now evs sent = (packets, sent') → is_Some (sent' !! id) →
  is_Some (sent !! id) ∨ id ∈ rs_RequestID <$> packets.
Proof.
  induction evs as [|ev evs IH]; intros sent packets sent' id; [intros [= <- <-]; by left|].
  rewrite send_unseen_cons. case_decide; [by apply IH|].
  destruct (send_unseen now evs (note_sent ev sent)) as [ps s'] eqn:Er. intros [= <- <-] Hid.
  destruct (IH _ _ _ id Er Hid) as [Hk|Hin]; [|right; by right].
  destruct (decide (oe_EventID ev = id)) as [<-|Hne]; [right; by left|]. left. by rewrite note_sent_keeps in Hk.
Qed.

(** A segment has at most one head. *)
Lemma segment_heads_bound db : db_wf db → (length (segment_heads db) ≤ length (outbox_segments (events db)))%nat.
Proof.
  intros Hwf. rewrite <- (length_fmap (λ p, sg_key p.1)), <- (length_fmap sg_key).
  apply submseteq_length, NoDup_submseteq; [by apply segment_heads_keys|].
  intros k ([g o] & -> & (Hg & _)%elem_of_segment_heads)%list_elem_of_fmap. by apply list_elem_of_fmap_2.
Qed.

(** ** Rounds *)

Section rounds.
Context {E : Env} {App : EventAppender} (h : Handler).
Context (clock_monotone : ∀ i j, (i ≤ j)%nat → clock_at i ≤ clock_at j).
Context (s : OutboxService) (Hn : notifier_ok s) (Hh : h_outboxService h = Some s) (Hcfg : cfg_ok (os_cfg s)).
Context (dev seg : string) (Hdev : dev ≠ ""%string).

(** A device that pulls over one connection and acknowledges every packet of
    a pull before the next one; between two rounds the rest of the program
    leaves the tables of the outbox alone. *)
Inductive drains : sentEvents → World → list (list ResponsePacket) → sentEvents → World → Prop :=
  | drains_done sent w : drains sent w [] sent w
  | drains_other sent w w1 rounds sent' w' :
      events (w_db w1) = events (w_db w) → (w_clock w ≤ w_clock w1)%nat →
      drains sent w1 rounds sent' w' → drains sent w rounds sent' w'
  | drains_round sent w packets sent1 w1 w2 rounds sent' w' :
      pullOutboxPackets h Background dev sent w = (Ok (inr packets, sent1), w1) →
      clock_at (w_clock w1) < clock_at (w_clock w) + AckTimeout (os_cfg s) →
      acknowledge_all s dev packets w1 = (Ok tt, w2) →
      drains sent1 w2 rounds sent' w' → drains sent w (packets :: rounds) sent' w'.

(** The events [l] wait in the segment, oldest first, until [T]; nothing is
    on its way to the device, and nothing that waits for it was sent before
    on the connection. *)
Record queue (T : Time) (l : list OutboxRow) (sent : sentEvents) (w : World) : Prop := {
  q_order : in_order w;
  q_room : Z.of_nat (length (outbox_segments (events (w_db w)))) ≤ Z.min (BatchSizeSegments (os_cfg s)) 128;
  q_idle : ∀ o, o ∈ outbox (events (w_db w)) → ob_device_id o = dev → ob_status o ≠ StatusInFlight;
  q_rows : ∀ o, (o ∈ outbox (events (w_db w)) ∧ ob_in dev seg o ∧ ob_live o) ↔ o ∈ l;
  q_waits : Forall (λ o, ob_status o = StatusPending ∧ ob_attempts o = 0
    ∧ ob_send_after o ≤ clock_at (w_clock w) ∧ T < ob_expires_at o) l;
  q_sorted : StronglySorted (λ a b, ob_created_at a < ob_created_at b) l;
  q_unsent : ∀ o, o ∈ outbox (events (w_db w)) → ob_device_id o = dev → ob_live o → sent !! ob_event_id o = None }.

Lemma queue_other T l sent w w1 :
  queue T l sent w → events (w_db w1) = events (w_db w) → (w_clock w ≤ w_clock w1)%nat → queue T l sent w1.
Proof.
  intros [Q1 Q2 Q3 Q4 Q5 Q6 Q7] He Hc. split; rewrite ?He; try done.
  - exact (ordered_step_in_order s Hn clock_monotone w w1 (ostep_other s w w1 He Hc) Q1).
  - eapply Forall_impl; [exact Q5|]. intros o (? & ? & ? & ?). split_and!; [done|done| |done].
    pose proof (clock_monotone _ _ Hc). lia.
Qed.

(** The head of the segment is the first event of the queue. *)
Lemma queue_head T o l sent w g :
  queue T (o :: l) sent w → clock_at (w_clock w) ≤ T →
  g ∈ outbox_segments (events (w_db w)) → sg_in dev seg g → sg_head_event_id g = Some (ob_event_id o).
Proof.
  intros [[Hwf Hsv] _ _ Q4 Q5 Q6 _] HT Hg Hgin. apply Forall_cons in Q5 as [(Hst & _ & _ & Hexp) _].
  destruct (proj2 (Q4 o) ltac:(left)) as (Ho & [Hd Hs] & Hl).
  destruct (sv_covers _ _ Hsv o Ho Hl ltac:(lia)) as (g' & r & Hg' & Hg'in & Hr & Hh' & Hle).
  rewrite Hd, Hs in Hg'in. rewrite (segment_unique _ dev seg g g' Hwf) by done. rewrite Hh'. do 2 f_equal.
  destruct (sv_live _ _ Hsv g' _ Hg' Hh') as (r' & Hr' & Er & Hlr). rewrite (event_unique _ r' r Hwf) in Hlr by done.
  destruct (wf_head_in _ Hwf g' _ r Hg' Hh' Hr eq_refl) as [E1 E2].
  assert (r ∈ o :: l) as Hin by (apply Q4; destruct Hg'in; split_and!; [done|split; congruence|done]).
  apply elem_of_cons in Hin as [->|Hin]; [done|]. apply StronglySorted_inv in Q6 as [_ Hall].
  rewrite Forall_forall in Hall. specialize (Hall r Hin). lia.
Qed.

(** What a dispatch does to the queue: its first event is claimed. *)
Lemma queue_spared T l sent w x :
  queue T l sent w → clock_at (w_clock w) ≤ T →
  x ∈ select_candidates (clock_at (w_clock w)) (BatchSizeSegments (os_cfg s)) (w_db w) →
  spares (clock_at (w_clock w)) (MaxAttempts (os_cfg s)) dev seg (ob_event_id <$> head l) (w_db w) x.
Proof.
  intros HQ HT (g & o1 & -> & Hg & Ho1 & Hgh & Hdue)%select_candidates_inv.
  pose proof HQ as [[Hwf Hsv] _ _ Q4 Q5 _ _].
  destruct (wf_head_in _ Hwf g _ o1 Hg Hgh Ho1 eq_refl) as [E1 E2].
  destruct (decide (sg_in dev seg g)) as [Hin|Hin].
  - right. destruct (sv_live _ _ Hsv g _ Hg Hgh) as (r & Hr & Er & Hlr). rewrite (event_unique _ r o1 Hwf) in Hlr by done.
    assert (o1 ∈ l) as Ho1l by (apply Q4; destruct Hin; split_and!; [done|split; congruence|done]).
    destruct l as [|o l]; [by apply not_elem_of_nil in Ho1l|]. pose proof (queue_head T o l sent w g HQ HT Hg Hin) as Hh'.
    rewrite Hgh in Hh'. injection Hh' as Eid. cbn. rewrite Eid. split; [done|].
    rewrite Forall_forall in Q5. destruct (Q5 o1 Ho1l) as (_ & Ha & _ & He). rewrite Ha. destruct Hcfg as (_ & _ & Hmax & _). lia.
  - left. split; [intros [= E3 E4]; apply Hin; by split|]. intros o Ho [F1 F2] Eid. cbn in Eid.
    rewrite (event_unique _ o o1 Hwf Ho Ho1 Eid) in F1, F2. apply Hin. split; congruence.
Qed.

(** The tables after a pull that dispatched, and what it has sent. *)
Record pulled (l : list OutboxRow) (sent : sentEvents) (packets : list ResponsePacket) (sent1 : sentEvents) (db db1 : DB) : Prop := {
  pl_keys : sg_key <$> outbox_segments (events db1) = sg_key <$> outbox_segments (events db);
  pl_rest : same_but dev seg (ob_event_id <$> head l) db db1;
  pl_live : were_live (outbox (events db)) db1;
  pl_sent : ∀ o, o ∈ outbox (events db1) → ob_device_id o = dev → ob_status o = StatusInFlight →
    ob_event_id o ∈ rs_RequestID <$> packets;
  pl_flying : ∀ id, id ∈ rs_RequestID <$> packets →
    ∃ o, o ∈ outbox (events db1) ∧ ob_event_id o = id ∧ ob_status o = StatusInFlight;
  pl_known : ∀ id, is_Some (sent1 !! id) → is_Some (sent !! id) ∨ id ∈ rs_RequestID <$> packets;
  pl_first : ∀ o, head l = Some o → ∃ p, p ∈ packets ∧ rs_RequestID p = ob_event_id o ∧ rs_EventType p = ob_event_type o
    ∧ cbor_Unmarshal_map (ob_payload o) = Some (rs_Parameters p) }.

Lemma queue_were_live T l sent w n w' :
  queue T l sent w → DispatchOnce s Background w = (Ok n, w') → were_live (outbox (events (w_db w))) (w_db w').
Proof.
  intros [[Hwf Hsv] _ _ _ _ _ _] Hd.
  pose proof (DispatchOnce_each s (were_live (outbox (events (w_db w)))) w Hn) as H. rewrite Hd in H. apply H.
  - intros x (g & o & -> & Hg & Ho & Hgh & _)%select_candidates_inv. apply claim_one_were_live. intros _.
    destruct (sv_live _ _ Hsv g _ Hg Hgh) as (r & Hr & Er & Hl). by exists r.
  - intros o Ho. split; [by exists o|by exists o].
Qed.

(** An event of the device that is not delivered after the dispatch was not
    sent on the connection. *)
Lemma queue_unsent T l sent w db' o :
  queue T l sent w → were_live (outbox (events (w_db w))) db' →
  o ∈ outbox (events db') → ob_device_id o = dev → ob_live o → sent !! ob_event_id o = None.
Proof.
  intros [[Hwf _] _ _ _ _ _ Q7] Hw Ho Hd Hl. destruct (Hw o Ho) as [(o0 & H0 & E0 & F0) Hlive].
  destruct (Hlive Hl) as (o1 & H1 & E1 & Hl1). rewrite (event_unique _ o1 o0 Hwf) in Hl1 by congruence || done.
  rewrite <- E0. apply Q7; [done|congruence|done].
Qed.

(** Whatever is in flight for the device after the dispatch was leased by
    it, and a pull has room for all of it. *)
Lemma queue_leases T l sent w n w' :
  queue T l sent w → DispatchOnce s Background w = (Ok n, w') →
  leased_until dev (clock_at (w_clock w) + AckTimeout (os_cfg s)) (w_db w').
Proof.
  intros HQ Hd.
  pose proof (DispatchOnce_each s (leased_until dev (clock_at (w_clock w) + AckTimeout (os_cfg s))) w Hn) as Hi. rewrite Hd in Hi.
  apply Hi; [intros x _; apply claim_one_leased_until|]. intros o Ho Hod Hst. by destruct (q_idle _ _ _ _ HQ o Ho Hod).
Qed.
Lemma queue_segments T l sent w n w' :
  queue T l sent w → DispatchOnce s Background w = (Ok n, w') → Z.of_nat (length (segments_of dev (w_db w'))) ≤ 128.
Proof.
  intros HQ Hd. pose proof (q_room _ _ _ _ HQ). unfold segments_of. rewrite (DispatchOnce_segments s Hn w n w' Hd).
  pose proof (list.length_filter (λ k : string * string, k.1 = dev) (sg_key <$> outbox_segments (events (w_db w)))) as Hf.
  rewrite length_fmap in Hf. lia.
Qed.

Lemma pull_round T l sent w packets sent1 w1 :
  queue T l sent w → clock_at (w_clock w1) ≤ T →
  pullOutboxPackets h Background dev sent w = (Ok (inr packets, sent1), w1) →
  clock_at (w_clock w1) < clock_at (w_clock w) + AckTimeout (os_cfg s) →
  in_order w1 ∧ (w_clock w ≤ w_clock w1)%nat ∧ pulled l sent packets sent1 (w_db w) (w_db w1).
Proof.
  intros HQ HT Hpull Hack.
  destruct (pull_dispatches h clock_monotone s Hn Hh dev sent w packets sent1 w1 Hdev)
    as (v3 & n & v4 & evs & Edb & Edb1 & (Hc3 & Hc4 & Hc1) & Hd & Hl & Hleased & Es); [|done|].
  { intros o Ho (Hod & Hst & _). by apply (q_idle _ _ _ _ HQ o Ho Hod). }
  pose proof (clock_monotone _ _ Hc3). pose proof (clock_monotone _ _ Hc4). pose proof (clock_monotone _ _ Hc1).
  assert (queue T l sent v3) as HQ3 by (apply (queue_other T l sent w); [done|by rewrite Edb|done]).
  pose proof HQ3 as [Hord Hroom _ Hrows Hwaits _ _].
  assert (in_order v4) as Hord4.
  { pose proof (ordered_step_in_order s Hn clock_monotone v3 _ (ostep_dispatch s v3) Hord) as Ho. by rewrite Hd in Ho. }
  pose proof (queue_were_live T l sent v3 n v4 HQ3 Hd) as Hlive.
  pose proof (queue_leases T l sent v3 n v4 HQ3 Hd) as Hlease. pose proof (queue_segments T l sent v3 n v4 HQ3 Hd) as Hsegs.
  assert (∀ o, o ∈ outbox (events (w_db v4)) → ob_device_id o = dev → ob_status o = StatusInFlight →
    ∃ p, p ∈ packets ∧ rs_RequestID p = ob_event_id o ∧ rs_EventType p = ob_event_type o
      ∧ cbor_Unmarshal_map (ob_payload o) = Some (rs_Parameters p)) as Hsends.
  { intros o Ho Hod Hst. apply (flying_sent s dev sent (clock_at (w_clock w)) v4 evs w1 packets sent1 o);
      [apply Hord4|done..| |].
    - split_and!; [done|done|]. rewrite (Hlease o Ho Hod Hst). cbn. lia.
    - apply (queue_unsent T l sent v3 (w_db v4)); try done. by right. }
  split_and!; [exact (ordered_step_in_order s Hn clock_monotone v4 w1 (ostep_other s v4 w1 ltac:(by rewrite Edb1) Hc1) Hord4)|lia|].
  rewrite Edb1, <- Edb. split; [exact (DispatchOnce_segments s Hn v3 n v4 Hd)| |done| | | |].
  - pose proof (DispatchOnce_each s (same_but dev seg (ob_event_id <$> head l) (w_db v3)) v3 Hn) as Hi. rewrite Hd in Hi.
    apply Hi; [|by intros o]. intros x Hx. apply claim_one_same_but. eapply queue_spared; [exact HQ3|lia|exact Hx].
  - intros o Ho Hod Hst. destruct (Hsends o Ho Hod Hst) as (p & Hp & <- & _). by apply list_elem_of_fmap_2.
  - intros id (p & -> & Hp)%list_elem_of_fmap. apply send_unseen_spec in Es as (_ & Hpk & _); [|done].
    destruct (Hpk p Hp) as (_ & ev & Hev & -> & _).
    pose proof (ServiceListInflight_ok s Background dev 128 v4 evs w1 eq_refl Hl) as (_ & _ & _ & Hfl).
    rewrite Forall_forall in Hfl. destruct (Hfl ev Hev) as (o & pl & Ho & _ & Hst & _ & _ & ->). by exists o.
  - intros id Hid. destruct (send_unseen_known _ _ _ _ _ id Es Hid) as [[u Hu]|?]; [left|by right].
    unfold prune_sent in Hu. apply map_lookup_filter_Some in Hu as [Hu _]. by exists u.
  - intros o Ehd. destruct l as [|o1 l]; [done|]. injection Ehd as ->. apply Forall_cons in Hwaits as [(W1 & W2 & W3 & W4) _].
    destruct (proj2 (Hrows o) ltac:(left)) as (Ho & [Hod Hos] & Hol). destruct Hord as [Hwf Hsv].
    destruct (sv_covers _ _ Hsv o Ho Hol ltac:(lia)) as (g & r & Hg & Hgin & _). rewrite Hod, Hos in Hgin.
    pose proof (queue_head T o l sent v3 g HQ3 ltac:(lia) Hg Hgin) as Hgh.
    destruct (DispatchOnce_claims_head s Hn Hcfg v3 n v4 o g) as (o' & Ho' & (C1 & C2 & C3) & [Hd' _] & Hst' & _); try done; [|lia|].
    { pose proof (segment_heads_bound (w_db v3) Hwf). lia. }
    destruct (Hsends o' Ho') as (p & Hp & F1 & F2 & F3); [congruence|done|]. exists p. by rewrite <- C1, <- C2, <- C3.
Qed.

(** After the acknowledgements the queue is one event shorter. *)
Lemma acknowledged_queue T l sent w packets sent1 w1 w2 :
  queue T l sent w → in_order w1 → (w_clock w ≤ w_clock w1)%nat → pulled l sent packets sent1 (w_db w) (w_db w1) →
  acknowledge_all s dev packets w1 = (Ok tt, w2) → queue T (tail l) sent1 w2.
Proof.
  intros HQ Hord1 Hc1 [P1 P2 P3 P4 P5 P6 P7] Hacks.
  apply (acknowledge_all_delivers s Hn dev clock_monotone) in Hacks as (Hord2 & Hc2 & [D1 D2 D3]); [|done].
  pose proof HQ as [[Hwf Hsv] Hroom Hidle Hrows Hwaits Hsorted Hun].
  assert (∀ o, o ∈ tail l → head l ≠ None ∧ ob_event_id <$> head l ≠ Some (ob_event_id o)) as Htail.
  { intros o Ho. destruct l as [|o1 l]; [by apply not_elem_of_nil in Ho|]. split; [done|]. intros [= Eid].
    assert (o1 = o) as -> by (apply (event_unique _ _ _ Hwf); [apply Hrows; left|apply Hrows; by right|done]).
    apply StronglySorted_inv in Hsorted as [_ Hall]. rewrite Forall_forall in Hall. specialize (Hall o Ho). lia. }
  assert (∀ o, o ∈ tail l → o ∈ l) as Hsub by (destruct l; [done|by right]).
  assert (∀ o, head l = Some o → ob_event_id o ∈ rs_RequestID <$> packets) as Hfirst.
  { intros o Eo. destruct (P7 o Eo) as (p & Hp & <- & _). by apply list_elem_of_fmap_2. }
  split.
  - done.
  - rewrite <- (length_fmap sg_key), D3, P1, length_fmap. done.
  - intros o Ho Hd Hst. destruct (D1 o Ho ltac:(by right)) as [Ho1 Hni]. by apply (Hni Hd), P4.
  - intros o. split.
    + intros (Ho & Hin & Hl). destruct (D1 o Ho Hl) as [Ho1 Hni]. specialize (Hni (proj1 Hin)).
      assert (ob_event_id <$> head l ≠ Some (ob_event_id o)) as Hne.
      { destruct (head l) as [o0|] eqn:Ehd; [|done]. intros [= Eid]. apply Hni. rewrite <- Eid. by apply Hfirst. }
      assert (o ∈ l) as Hol by (apply Hrows; split_and!; [by apply P2|done|done]).
      destruct l as [|o0 l]; [done|]. apply elem_of_cons in Hol as [->|Hol]; [by destruct Hne|done].
    + intros Ho. destruct (proj2 (Hrows o) (Hsub o Ho)) as (Ho0 & Hin & Hl). destruct (Htail o Ho) as [_ Hne].
      assert (o ∈ outbox (events (w_db w1))) as Ho1 by by apply P2. split_and!; [|done|done]. apply D2; [done|].
      intros (o1 & H1 & Eid & Hst)%P5. rewrite (event_unique _ o1 o (proj1 Hord1) H1 Ho1 Eid) in Hst.
      rewrite Forall_forall in Hwaits. destruct (Hwaits o (Hsub o Ho)) as (Hp & _). rewrite Hp in Hst. done.
  - rewrite Forall_forall in Hwaits |- *. intros o Ho. destruct (Hwaits o (Hsub o Ho)) as (? & ? & ? & ?).
    split_and!; [done|done| |done]. pose proof (clock_monotone (w_clock w) (w_clock w2) ltac:(lia)). lia.
  - destruct l as [|o l]; [done|]. by apply StronglySorted_inv in Hsorted as [? _].
  - intros o Ho Hd Hl. destruct (D1 o Ho Hl) as [Ho1 Hni]. destruct (sent1 !! ob_event_id o) eqn:Ek; [|done].
    destruct (P6 (ob_event_id o) ltac:(by rewrite Ek)) as [[u Hu]|Hin]; [|by destruct (Hni Hd)].
    rewrite (queue_unsent T l sent w (w_db w1) o) in Hu; done.
Qed.

Lemma acknowledge_all_clock packets : advances (acknowledge_all s dev packets).
Proof. apply advances_for_each. intros p. by apply advances_Acknowledge. Qed.

Lemma drains_clock sent w rounds sent' w' : drains sent w rounds sent' w' → (w_clock w ≤ w_clock w')%nat.
Proof.
  induction 1 as [sent w|sent w w1 rounds sent' w' He Hc _ IH|sent w packets sent1 w1 w2 rounds sent' w' Hp _ Ha _ IH]; [done|lia|].
  assert (∀ o, h_outboxService h = Some o → notifier_ok o) as Hno by (rewrite Hh; by intros o [= <-]).
  pose proof (advances_pull h Hno Background dev sent w) as H1. rewrite Hp in H1. simpl in H1.
  pose proof (acknowledge_all_clock packets w1) as H2. rewrite Ha in H2. simpl in H2. lia.
Qed.

(** C3: A queue drains in order.  Let events wait for a device in one of its
    segments, with nothing on its way to the device, in a state that appends
    in order of creation have left ([in_order]), and with room for the heads
    of all segments in one dispatch.  If the device pulls over one
    connection and acknowledges the packets of every pull before the next,
    and all of these calls succeed, each pull within the acknowledgement
    timeout and all of it before the events expire, then the i-th pull
    delivers the i-th oldest event of the segment, with its type and its
    payload, whatever the other segments of the device deliver beside it;
    and afterwards exactly the events whose turn has not come are left. *)
Theorem backlog_drains l sent w rounds sent' w' :
  queue (clock_at (w_clock w')) l sent w → drains sent w rounds sent' w' →
  (∀ i o packets, l !! i = Some o → rounds !! i = Some packets →
     ∃ p, p ∈ packets ∧ rs_RequestID p = ob_event_id o ∧ rs_EventType p = ob_event_type o
       ∧ cbor_Unmarshal_map (ob_payload o) = Some (rs_Parameters p))
  ∧ ∀ o, (o ∈ outbox (events (w_db w')) ∧ ob_in dev seg o ∧ ob_live o) ↔ o ∈ drop (length rounds) l.
Proof.
  intros HQ Hrun. set (T := clock_at (w_clock w')) in HQ. assert (clock_at (w_clock w') ≤ T) as HT by done. clearbody T.
  revert l HQ. induction Hrun as [sent w|sent w w1 rounds sent' w' He Hc Hrun IH|sent w packets sent1 w1 w2 rounds sent' w' Hp Ha Hk Hrun IH];
    intros l HQ.
  - split; [by intros i o packets _ ?|]. apply HQ.
  - apply IH; [done|]. by eapply queue_other.
  - pose proof (drains_clock _ _ _ _ _ Hrun) as Hc. pose proof (acknowledge_all_clock packets w1) as Hc1. rewrite Hk in Hc1. simpl in Hc1.
    destruct (pull_round T l sent w packets sent1 w1) as (Hord & Hc0 & Hpl); [done| |done..|].
    { pose proof (clock_monotone (w_clock w1) (w_clock w') ltac:(lia)). lia. }
    destruct (IH HT (tail l)) as [Hin Hleft]; [by eapply acknowledged_queue|]. split.
    + intros [|i] o ps Hl Hr; simpl in Hr.
      * injection Hr as <-. apply Hpl. by destruct l.
      * apply (Hin i o ps); [by destruct l|done].
    + intros o. rewrite Hleft. destruct l; simpl; [by rewrite drop_nil|done].
Qed.
End rounds.
