(* ===== verification/StreamSpec.v ===== *)
(** * StreamSpec: connections that stay open

    The reader and the push goroutine of a connection share one memory of
    what has been sent, so that an event is not sent again while its lease
    runs. *)

From Stdlib Require Import ZArith.
From stdpp Require Import gmap strings relations.
From S2P Require Import Prelude GoLib GoTime Domain Database Effects Pagination OutboxRepo OutboxInv OutboxService.
From S2P Require Import OutboxSpec AuthRepo AuthService ClientRepo FriendRepo RoomRepo ClientService RoomService.
From S2P Require Import EventBus Rpc Handler Stream ClockSpec RoomSpec HandlerSpec HandlerPull.

Local Open Scope Z_scope.

Section stream.
Context {E : Env} {C : Codec} {App : EventAppender} {L : EventAppenderLaws append_event}.
Context (h : Handler) (tr : transport) (h_bus : bool).
Context (clock_monotone : ∀ i j : nat, (i ≤ j)%nat → clock_at i ≤ clock_at j).
Context (outbox : OutboxService) (outbox_laws : notifier_ok outbox) (Hh : h_outboxService h = Some outbox).

#[local] Abbreviation step := (stream_step h tr h_bus).
#[local] Abbreviation run := (rtc (any_step h tr h_bus)).

Definition now_of (w : World) : Time := clock_at (w_clock w).

Lemma clock_le w w' : (w_clock w ≤ w_clock w')%nat → now_of w ≤ now_of w'.
Proof. apply clock_monotone. Qed.

(** ** What is remembered *)

(** What is still leased at the end is remembered. *)
Definition keeps (w' : World) (sent sent' : sentEvents) : Prop :=
  ∀ id until, sent !! id = Some until → now_of w' < until → sent' !! id = Some until.

(** An event was not leased to the connection before and is noted. *)
Definition fresh_in (w' : World) (sent sent' : sentEvents) (p : ResponsePacket) : Prop :=
  (∀ until, sent !! rs_RequestID p = Some until → until ≤ now_of w') ∧ is_Some (sent' !! rs_RequestID p).

Lemma keeps_refl w' sent : keeps w' sent sent.
Proof. by intros id until. Qed.

Lemma pull_remembers c device sent w r sent' w' :
  pullOutboxPackets h c device sent w = (Ok (r, sent'), w') →
  keeps w' sent sent' ∧ ∀ packets, r = inr packets → ∀ p, p ∈ packets → fresh_in w' sent sent' p.
Proof.
  intros Hp. pose proof (advances_pull h ltac:(intros s Hs; rewrite Hh in Hs; by injection Hs as <-) c device sent w) as Hc.
  rewrite Hp in Hc. cbn [snd] in Hc. apply clock_le in Hc. destruct (decide (device = ""%string)) as [->|Hdev].
  - unfold pullOutboxPackets in Hp. rewrite Hh, decide_True in Hp by done. injection Hp as <- <- <-.
    split; [apply keeps_refl|]. intros packets [= <-] p Hin. by apply not_elem_of_nil in Hin.
  - destruct (pull_spec h clock_monotone outbox outbox_laws Hh c device sent w r sent' w' Hdev Hp) as [Hkeep Hpackets].
    unfold keeps, fresh_in, now_of in *. split.
    + intros id until Hu Hlt. rewrite Hkeep; [done|]. exists until. split; [done|lia].
    + intros packets Er p Hin. destruct (Hpackets packets Er) as (_ & _ & Hall).
      destruct (Hall p Hin) as (Hnl & _ & _ & _ & _ & (until & Hu & _)). split; [|by exists until].
      intros until' Hu'. destruct (decide (until' ≤ clock_at (w_clock w'))) as [|Hgt]; [done|]. exfalso. apply Hnl.
      exists until'. split; [done|lia].
Qed.

(** ** Batches *)

Lemma handlePacket_rpc c packet state w response next err w' :
  handlePacket h c packet state w = (Ok (response, next, err), w') → rs_EventType response = "rpcCallResponse"%string.
Proof.
  unfold handlePacket. destruct (DecodePayload _) as [msg|payload].
  { intros (id & w1 & _ & [= <- _ _])%bind_ok. done. }
  assert (∀ err0 w0, fail_packet payload err0 state w0 = (Ok (response, next, err), w') →
    rs_EventType response = "rpcCallResponse"%string) as Hfail.
  { intros err0 w0. unfold fail_packet, errorResponse. destruct (mapError err0) as [code message].
    intros (resp & w1 & (id & w2 & _ & [= <- _])%bind_ok & [= <- _ _])%bind_ok. done. }
  intros (signer & w1 & _ & Hk)%bind_ok. destruct signer as [e|signer]; [by eapply Hfail|].
  apply bind_ok in Hk as (signed & w2 & _ & Hk). destruct (negb signed); [by eapply Hfail|].
  apply bind_ok in Hk as (result & w3 & _ & Hk). destruct result as [e|[params next']]; [by eapply Hfail|].
  apply bind_ok in Hk as (id & w4 & _ & [= <- _ _]). done.
Qed.

Definition is_rpc (p : ResponsePacket) : Prop := rs_EventType p = "rpcCallResponse"%string.

Lemma packets_loop_rpc c packets : ∀ state status w responses next status' w',
  packets_loop h c packets state status w = (Ok (responses, next, status'), w') → Forall is_rpc responses.
Proof.
  induction packets as [|packet packets IH]; intros state status w responses next status' w'; cbn [packets_loop].
  { intros [= <- _ _ _]. constructor. }
  intros ([[response st] err] & w1 & Hp%handlePacket_rpc & Hk)%bind_ok.
  apply bind_ok in Hk as ([[rest last] st'] & w2 & Hr%IH & [= <- _ _ _]). by constructor.
Qed.

(** A batch for a device: what it remembers and what it sends. *)
Lemma batch_remembers c raw state sent w responses next status sent' n w' :
  handleBatch h c raw state sent w = (Ok (responses, next, status, sent', n), w') →
  keeps w' sent sent' ∧ ∀ p, p ∈ responses → ¬ is_rpc p → st_DeviceID next ≠ ""%string → fresh_in w' sent sent' p.
Proof.
  unfold handleBatch. destruct (decode_batch raw) as [msg|packets].
  { intros (id & w1 & _ & [= <- <- _ <- _ <-])%bind_ok. split; [apply keeps_refl|].
    intros p ->%list_elem_of_singleton Hn. by destruct Hn. }
  intros ([[[rs nx] st] se] & w1 & Hp & [= <- <- _ <- _ <-])%bind_ok. unfold handlePackets in Hp.
  apply bind_ok in Hp as ([[rpcs cur] st1] & w2 & Hl & Hk). apply packets_loop_rpc in Hl as Hrpc.
  assert (∀ p, p ∈ rpcs → ¬ is_rpc p → fresh_in w1 sent se p) as Hno.
  { intros p Hin Hn. rewrite Forall_forall in Hrpc. by destruct (Hn (Hrpc p Hin)). }
  rewrite Hh in Hk. case_decide as Hdev.
  - apply bind_ok in Hk as ([pulled s1] & w3 & Hpull%pull_remembers & Hk). destruct Hpull as [Hkeep Hfresh].
    destruct pulled as [e|events]; injection Hk as <- <- _ <- <-; (split; [done|]); intros p Hin Hn _; [by apply Hno|].
    apply elem_of_app in Hin as [Hin|Hin]; [by apply Hno|by eapply Hfresh].
  - destruct (st_Authenticated cur).
    + apply bind_ok in Hk as (r & w3 & _ & Hk).
      destruct r as [e|events]; injection Hk as <- <- _ <- <-; (split; [apply keeps_refl|]); intros p Hin Hn Hd; [by apply Hno|].
      by destruct Hdev.
    + injection Hk as <- <- _ <- <-. split; [apply keeps_refl|]. intros p Hin Hn Hd. by apply Hno.
Qed.
(** ** Steps of the connection *)

Lemma outbox_ok s : h_outboxService h = Some s → notifier_ok s.
Proof. rewrite Hh. by intros [= <-]. Qed.

(** What a step hands over to the wire on behalf of the outbox. *)
Definition sends (l : stream_label) (s : system) (p : ResponsePacket) : Prop :=
  match l, s with
  | LRead _, Live cn _ _ => ∃ responses requests bytesIn, cx_reader cn = Responding responses requests bytesIn
      ∧ p ∈ responses ∧ ¬ is_rpc p ∧ st_DeviceID (cx_state cn) ≠ ""%string
  | LPushPull, Live cn _ _ => ∃ pu packets, cx_push cn = Some pu ∧ pu_phase pu = Writing packets ∧ p ∈ packets
  | _, _ => False
  end.

(** A step that leaves the memory alone, from the world [w1] it got to. *)
Definition idle (cn : Conn) (w1 : World) (s : system) : Prop :=
  match s with Live cn' _ w' => cx_sent cn' = cx_sent cn ∧ w' = w1 | Dead _ => True end.

Lemma stop_idle p phase cn b w : idle cn w (stop p phase cn b w).
Proof. unfold stop. destruct (pu_stopped p); [done|]. by destruct (Unsubscribe _ _ _). Qed.

Lemma returns_idle result cn b w : idle cn w (reader_returns result cn b w).
Proof. unfold reader_returns. simpl. destruct (cx_push cn) as [p|]; [|done]. apply (stop_idle p (pu_phase p) (cx_set_reader (Returned result) (cx_cancel cn))). Qed.

Lemma panics_idle msg cn b w : idle cn w (reader_panics tr msg cn b w).
Proof. unfold reader_panics. by destruct tr. Qed.

Lemma idle_remembers cn w w1 s cn' b' w' :
  idle cn w1 s → (w_clock w ≤ w_clock w1)%nat → s = Live cn' b' w' →
  (w_clock w ≤ w_clock w')%nat ∧ keeps w' (cx_sent cn) (cx_sent cn').
Proof. intros Hi Hc ->. destruct Hi as [-> ->]. split; [done|apply keeps_refl]. Qed.

Lemma write_failed_remembers requests bytesIn cn b w cn' b' w' :
  write_failed h tr requests bytesIn cn b w = Live cn' b' w' →
  (w_clock w ≤ w_clock w')%nat ∧ keeps w' (cx_sent cn) (cx_sent cn').
Proof.
  unfold write_failed. pose proof (advances_recordUsage h Background (cx_state cn) requests bytesIn 0 w) as Hc.
  destruct tr; [intros Es; by eapply idle_remembers; [apply returns_idle| |exact Es]|].
  destruct (recordUsage _ _ _ _ _ _ w) as [[[]|e|msg] w1]; cbn [snd] in Hc; [..|done];
    intros Es; by eapply idle_remembers; [apply returns_idle| |exact Es].
Qed.

Lemma read_remembers raw cn b w cn' b' w' :
  read_batch h tr h_bus raw cn b w = Live cn' b' w' →
  (w_clock w ≤ w_clock w')%nat ∧ keeps w' (cx_sent cn) (cx_sent cn')
  ∧ ∀ p, sends (LRead raw) (Live cn' b' w') p → fresh_in w' (cx_sent cn) (cx_sent cn') p.
Proof.
  unfold read_batch. pose proof (advances_handleBatch h outbox_ok Background raw (cx_state cn) (cx_sent cn) w) as Hc.
  destruct (handleBatch _ _ _ _ _ w) as [[[[[[responses next] status] sent] n]|e|msg] w1] eqn:Eb; cbn [snd] in Hc; [|done|].
  - apply batch_remembers in Eb as [Hkeep Hfresh].
    assert (∀ cn1 b1, (if st_Authenticated next && bool_decide (is_Some (h_outboxService h))
        then startPush h h_bus (cx_set_batch next sent cn) b else (cx_set_batch next sent cn, b)) = (cn1, b1) →
        cx_sent cn1 = sent ∧ cx_state cn1 = next) as Hstart.
    { intros cn1 b1. destruct (st_Authenticated next && _); [|by intros [= <- _]]. unfold startPush.
      case_decide; [by intros [= <- _]|]. destruct (SubscribeKey _ _) as [[ch id] b2]. by intros [= <- _]. }
    cbv zeta. destruct (if _ : bool then _ else _) as [cn1 b1]. destruct (Hstart cn1 b1 eq_refl) as [Es Et].
    intros [= <- <- <-]. cbn [cx_sent cx_set_reader]. rewrite Es. split_and!; [done|done|].
    intros p (rs & m & k & [= <- _ _] & Hin & Hn & Hd). simpl in Hd. rewrite Et in Hd. by apply Hfresh.
  - unfold reader_panics. destruct tr; [|done]. intros [= <- <- <-]. split_and!; [done|apply keeps_refl|].
    by intros p (rs & m & k & [=] & _).
Qed.

Lemma push_pull_remembers p cn b w cn' b' w' :
  push_pull h p cn b w = Live cn' b' w' →
  (w_clock w ≤ w_clock w')%nat ∧ keeps w' (cx_sent cn) (cx_sent cn')
  ∧ ∀ packet, sends LPushPull (Live cn' b' w') packet → fresh_in w' (cx_sent cn) (cx_sent cn') packet.
Proof.
  unfold push_pull. pose proof (advances_pull h outbox_ok Background (pu_device p) (cx_sent cn) w) as Hc.
  destruct (pullOutboxPackets _ _ _ _ w) as [[[r sent]|e|msg] w1] eqn:Ep; cbn [snd] in Hc; [|done|done].
  apply pull_remembers in Ep as [Hkeep Hfresh].
  destruct r as [e|[|packet0 packets]]; intros [= <- <- <-]; (split_and!; [done|done|]); intros packet (pu & ps & [= <-] & [= ] & Hin).
  subst ps. by eapply Hfresh.
Qed.

Lemma write_remembers responses requests bytesIn sent cn b w cn' b' w' :
  write_batch h tr responses requests bytesIn sent cn b w = Live cn' b' w' →
  (w_clock w ≤ w_clock w')%nat ∧ keeps w' (cx_sent cn) (cx_sent cn').
Proof.
  unfold write_batch. destruct (cbor_responses responses) as [encoded|]; [|apply write_failed_remembers].
  destruct sent; [|apply write_failed_remembers].
  pose proof (advances_recordUsage h Background (cx_state cn) requests bytesIn (Z.of_nat (length encoded)) w) as Hc.
  destruct (recordUsage _ _ _ _ _ _ w) as [[[]|e|msg] w1]; cbn [snd] in Hc;
    [intros [= <- <- <-]; split; [done|apply keeps_refl]..|].
  intros Es. by eapply idle_remembers; [apply (panics_idle msg (cx_wrote responses cn) b w1)| |exact Es].
Qed.

Lemma push_write_remembers p packets sent cn b w cn' b' w' :
  push_write h p packets sent cn b w = Live cn' b' w' →
  (w_clock w ≤ w_clock w')%nat ∧ keeps w' (cx_sent cn) (cx_sent cn').
Proof.
  assert (∀ s, s = Live cn' b' w' → s = stop p Stopped (cx_cancel cn) b w →
    (w_clock w ≤ w_clock w')%nat ∧ keeps w' (cx_sent cn) (cx_sent cn')) as Hstop.
  { intros s Es ->. by eapply idle_remembers; [apply (stop_idle p Stopped (cx_cancel cn) b w)| |exact Es]. }
  unfold push_write. destruct (cbor_responses packets) as [encoded|]; [|by intros; eapply Hstop].
  destruct sent; [|by intros; eapply Hstop].
  pose proof (advances_recordUserUsage h Background (pu_user p) 0 0 (Z.of_nat (length encoded)) w) as Hc.
  destruct (recordUserUsage _ _ _ _ _ _ w) as [[[]|e|msg] w1]; cbn [snd] in Hc; [| |done];
    intros [= <- <- <-]; (split; [done|apply keeps_refl]).
Qed.

Lemma step_remembers l cn b w cn' b' w' :
  step l (Live cn b w) (Live cn' b' w') →
  (w_clock w ≤ w_clock w')%nat ∧ keeps w' (cx_sent cn) (cx_sent cn')
  ∧ ∀ p, sends l (Live cn' b' w') p → fresh_in w' (cx_sent cn) (cx_sent cn') p.
Proof.
  intros Hs. remember (Live cn b w) as s eqn:Es. remember (Live cn' b' w') as s' eqn:Es'.
  assert (∀ s1 w1, idle cn w1 s1 → (w_clock w ≤ w_clock w1)%nat → s1 = Live cn' b' w' →
    (w_clock w ≤ w_clock w')%nat ∧ keeps w' (cx_sent cn) (cx_sent cn') ∧ ∀ p, False → fresh_in w' (cx_sent cn) (cx_sent cn') p) as Hidle.
  { intros s1 w1 Hi Hc ?. split; [by eapply idle_remembers|split; [by eapply idle_remembers|done]]. }
  destruct Hs; injection Es as -> -> ->; rewrite ?Es' in *.
  - by eapply read_remembers.
  - destruct (write_remembers _ _ _ _ _ _ _ _ _ _ Es'). split_and!; [done..|by intros p []].
  - eapply Hidle; [apply returns_idle| |exact Es']. done.
  - eapply Hidle; [|done|exact Es']. unfold push_check. destruct (push_cancelled cn p); [apply stop_idle|done].
  - by eapply push_pull_remembers.
  - destruct (push_write_remembers _ _ _ _ _ _ _ _ _ Es'). split_and!; [done..|by intros q []].
  - injection Es' as <- <- <-. split_and!; [done|apply keeps_refl|by intros q []].
  - injection Es' as <- <- <-. split_and!; [done|apply keeps_refl|by intros q []].
  - eapply Hidle; [apply stop_idle|done|exact Es'].
  - injection Es' as <- <- <-. match goal with Hr : rely _ _ _ _ |- _ => destruct Hr as (_ & _ & _ & _ & Hc) end.
    split_and!; [done|apply keeps_refl|by intros q []].
Qed.
Lemma step_from_live l s s' : step l s s' → ∃ cn b w, s = Live cn b w.
Proof. destruct 1; eauto. Qed.

Lemma keeps_trans w1 w2 s0 s1 s2 : now_of w1 ≤ now_of w2 → keeps w1 s0 s1 → keeps w2 s1 s2 → keeps w2 s0 s2.
Proof. intros Hle H1 H2 id until Hu Hlt. apply H2; [|done]. apply H1; [done|lia]. Qed.

Lemma run_remembers s s' : run s s' → ∀ cn b w cn' b' w', s = Live cn b w → s' = Live cn' b' w' →
  (w_clock w ≤ w_clock w')%nat ∧ keeps w' (cx_sent cn) (cx_sent cn').
Proof.
  induction 1 as [s|s1 s2 s3 [l Hs] Hr IH]; intros cn b w cn' b' w' -> Es.
  { injection Es as -> -> ->. split; [done|apply keeps_refl]. }
  destruct s2 as [cn2 b2 w2|msg].
  - destruct (step_remembers _ _ _ _ _ _ _ Hs) as (Hc1 & Hk1 & _). destruct (IH _ _ _ _ _ _ eq_refl Es) as [Hc2 Hk2].
    split; [lia|]. eapply keeps_trans; [by apply clock_le|exact Hk1|exact Hk2].
  - subst s3. inversion Hr as [|? ? ? [l' Hs'] _]; subst. by destruct (step_from_live _ _ _ Hs') as (? & ? & ? & ?).
Qed.

(** C11: Nothing is sent twice while it is leased.  When a connection that
    stays open hands an event of its device to the wire, with a batch or
    with a push, it notes the end of the lease, and when it hands the same
    event to the wire again, that time has passed, whatever the reader, the
    push goroutine and the rest of the program do in between. *)
Theorem leased_events_sent_once l1 l2 s1 cn2 b2 w2 s3 cn4 b4 w4 p1 p2 :
  step l1 s1 (Live cn2 b2 w2) → sends l1 (Live cn2 b2 w2) p1 →
  run (Live cn2 b2 w2) s3 →
  step l2 s3 (Live cn4 b4 w4) → sends l2 (Live cn4 b4 w4) p2 →
  rs_RequestID p1 = rs_RequestID p2 →
  ∃ until, cx_sent cn2 !! rs_RequestID p1 = Some until ∧ until ≤ now_of w4.
Proof.
  intros Hs1 Hp1 Hr Hs2 Hp2 Eid.
  destruct (step_from_live _ _ _ Hs1) as (cn1 & b1 & w1 & ->). destruct (step_from_live _ _ _ Hs2) as (cn3 & b3 & w3 & ->).
  destruct (step_remembers _ _ _ _ _ _ _ Hs1) as (_ & _ & Hf1). destruct (Hf1 p1 Hp1) as [_ [until Hu]].
  destruct (run_remembers _ _ Hr _ _ _ _ _ _ eq_refl eq_refl) as [_ Hk].
  destruct (step_remembers _ _ _ _ _ _ _ Hs2) as (Hc & _ & Hf2). destruct (Hf2 p2 Hp2) as [Hfresh _].
  apply clock_le in Hc. exists until. split; [done|]. destruct (decide (until ≤ now_of w3)) as [|Hgt]; [lia|].
  apply Hfresh. rewrite <- Eid. apply Hk; [done|lia].
Qed.
End stream.
