(* ===== verification/StreamBus.v ===== *)
(** * StreamBus: the push goroutine of a connection and its subscription

    The subscription of a connection is on the bus exactly as long as the
    push goroutine needs it, the goroutine serves the first device of the
    connection, and it ends with the connection. *)

From Stdlib Require Import ZArith.
From stdpp Require Import gmap strings relations.
From S2P Require Import Prelude GoLib GoTime Domain Database Effects OutboxRepo OutboxService AuthRepo AuthService.
From S2P Require Import ClientRepo ClientService EventBus Rpc Handler HandlerPull Stream.

Local Open Scope Z_scope.

(** ** The bus, seen from one subscription *)

Lemma listeners_insert key id ch m b :
  listeners key (mkBus (<[key := m]> (subs b)) (next b) (chans b)) !! id = Some ch ↔ m !! id = Some ch.
Proof. unfold listeners. cbn [subs]. by rewrite lookup_insert_eq. Qed.

Lemma receive_frame ch b b' : receive_chan ch b = Some b' →
  subs b' = subs b ∧ next b' = next b ∧ length (chans b') = length (chans b).
Proof.
  unfold receive_chan. destruct (chans b !! ch) as [c|]; [|done]. destruct (ch_full c); [intros [= <-]|destruct (ch_closed c); [|done]; by intros [= <-]].
  simpl. by rewrite length_insert.
Qed.

(** A new subscription is under its key, with an identifier nobody has. *)
Lemma SubscribeKey_listens key b ch id b' :
  bus_ok b → Z.of_nat (length (chans b)) + 1 < 2 ^ 64 → SubscribeKey key b = (ch, id, b') →
  bus_ok b' ∧ listeners key b' !! id = Some ch ∧ Z.of_N id = next b' ∧ next b < Z.of_N id
  ∧ length (chans b') = S (length (chans b))
  ∧ (∀ key' id' ch', listeners key' b !! id' = Some ch' → listeners key' b' !! id' = Some ch').
Proof.
  intros Hok Hb Es. pose proof (SubscribeKey_ok key b Hok Hb) as Hok'. rewrite Es in Hok'. cbn [snd] in Hok'.
  destruct Hok as [[Hn Hn'] Hids _ _ _]. unfold SubscribeKey in Es. rewrite wrap_unsigned_id in Es by lia. injection Es as <- <- <-.
  cbn [next chans]. split_and!; [done| |lia|lia|rewrite length_app; simpl; lia|].
  - unfold listeners at 1. cbn [subs]. rewrite lookup_insert_eq. simpl. apply lookup_insert_eq.
  - intros key' id' ch' Hl. unfold listeners at 1. cbn [subs]. destruct (decide (key' = key)) as [->|Hne].
    + rewrite lookup_insert_eq. simpl. rewrite lookup_insert_ne; [done|]. intros <-.
      apply listeners_lookup in Hl as (m & Hm & Hl). destruct (Hids _ _ _ _ Hm Hl) as [Hid Hlt]. lia.
    + rewrite lookup_insert_ne by by apply not_eq_sym. done.
Qed.

(** Unsubscribing takes away that one registration and no other. *)
Lemma Unsubscribe_listeners key id b b' :
  bus_ok b → Unsubscribe key id b = Done b' → ∀ key' id' ch,
  listeners key' b' !! id' = Some ch ↔ listeners key' b !! id' = Some ch ∧ ¬ (key' = key ∧ id' = id).
Proof.
  intros Hok Hu key' id' ch. unfold Unsubscribe in Hu.
  destruct (subs b !! key) as [m|] eqn:Em.
  2:{ injection Hu as <-. rewrite listeners_lookup. split; [|tauto]. intros (m & Hm & Hl). split; [eauto|]. intros [-> _]. congruence. }
  set (subs' := if decide (delete id m = ∅) then delete key (subs b) else <[key := delete id m]> (subs b)) in Hu.
  assert (subs b' = subs') as Es.
  { destruct (m !! id) as [ch0|]; [|by injection Hu as <-]. unfold close_chan in Hu. simpl in Hu.
    destruct (chans b !! ch0) as [c|]; [|done]. destruct (ch_closed c); [done|]. by injection Hu as <-. }
  unfold listeners. rewrite Es. unfold subs'. destruct (decide (key' = key)) as [->|Hne].
  - rewrite Em. simpl. case_decide as Hd.
    + rewrite lookup_delete_eq. simpl. rewrite lookup_empty. split; [done|]. intros [Hl Hn].
      assert (delete id m !! id' = Some ch) as Hl' by (rewrite lookup_delete_ne; [done|]; intros ->; by apply Hn).
      rewrite Hd in Hl'. by rewrite lookup_empty in Hl'.
    + rewrite lookup_insert_eq. simpl. rewrite lookup_delete_Some. split; [intros [Hi Hl]; split; [done|]; by intros [_ ->]|].
      intros [Hl Hn]. split; [|done]. intros ->. by apply Hn.
  - assert (default ∅ ((if decide (delete id m = ∅) then delete key (subs b) else <[key:=delete id m]> (subs b)) !! key')
      = default ∅ (subs b !! key')) as ->.
    { case_decide; [by rewrite lookup_delete_ne by by apply not_eq_sym|by rewrite lookup_insert_ne by by apply not_eq_sym]. }
    split; [|by intros [? _]]. intros Hl. split; [done|by intros [? _]].
Qed.

Section stream.
Context {E : Env} {C : Codec} {App : EventAppender} (h : Handler) (tr : transport) (h_bus : bool).

#[local] Abbreviation step := (stream_step h tr h_bus).
#[local] Abbreviation run := (rtc (any_step h tr h_bus)).

(** ** The invariant *)

(** The bus lists the connection under its device until [stop] has run. *)
Definition push_ok (cn : Conn) (b : Bus) (p : Push) : Prop :=
  Z.of_N (pu_id p) ≤ next b
  ∧ (∀ key ch, listeners key b !! pu_id p = Some ch ↔ pu_stopped p = false ∧ key = pu_device p ∧ ch = pu_chan p)
  ∧ (pu_phase p = Stopped → pu_stopped p = true) ∧ (pu_stopped p = true → cx_cancelled cn = true).

Record stream_ok (cn : Conn) (b : Bus) : Prop := {
  so_bus : bus_ok b;
  so_push : ∀ p, cx_push cn = Some p → push_ok cn b p;
  so_reader : ∀ result, cx_reader cn = Returned result → cx_cancelled cn = true;
  so_locked : cx_sent_locked cn = true → cx_cancelled cn = true }.

Lemma push_cancelled_ok cn b p : push_ok cn b p → push_cancelled cn p = cx_cancelled cn.
Proof.
  intros (_ & _ & _ & Hc). unfold push_cancelled. destruct (pu_stopped p); [|by rewrite orb_false_r].
  by rewrite Hc.
Qed.

(** The connection after a step of its own: the invariant, and the push it
    had, if it had one. *)
Definition same_push (cn cn' : Conn) : Prop :=
  ∀ p, cx_push cn = Some p → ∃ p', cx_push cn' = Some p' ∧ pu_device p' = pu_device p ∧ pu_user p' = pu_user p
    ∧ pu_chan p' = pu_chan p ∧ pu_id p' = pu_id p.

Definition good (cn : Conn) (s : system) : Prop :=
  match s with Live cn' b' _ => stream_ok cn' b' ∧ same_push cn cn' | Dead _ => True end.

Lemma stop_good p phase cn b w :
  stream_ok cn b → cx_push cn = Some p → cx_cancelled cn = true →
  good cn (stop p phase cn b w).
Proof.
  intros [Hb Hp Hr Hl] Ep Ec. destruct (Hp p Ep) as (Hid & Hlist & Hst & Hcan). unfold stop.
  assert (∀ p1, same_push cn (cx_set_push (Some (pu_set_phase phase p1)) cn) ↔
    pu_device p1 = pu_device p ∧ pu_user p1 = pu_user p ∧ pu_chan p1 = pu_chan p ∧ pu_id p1 = pu_id p) as Hsame.
  { intros p1. unfold same_push. simpl. rewrite Ep. split.
    - intros H. by destruct (H p eq_refl) as (? & [= <-] & ?).
    - intros H ? [= <-]. eauto. }
  destruct (pu_stopped p) eqn:Es.
  - split; [|by apply Hsame]. constructor; simpl; [done| |done|done].
    intros ? [= <-]. split_and!; simpl; [done|by rewrite Es|done|done].
  - destruct (Unsubscribe_ok (pu_device p) (pu_id p) b Hb) as (b' & Eu & Hb' & _). rewrite Eu.
    split; [|by apply Hsame]. constructor; simpl; [done| |done|done].
    intros ? [= <-]. split_and!; simpl; [|intros key ch|done|done].
    + unfold Unsubscribe in Eu. destruct (subs b !! _) as [m|]; [|by injection Eu as <-].
      destruct (m !! _) as [ch0|]; [|by injection Eu as <-]. unfold close_chan in Eu. simpl in Eu.
      destruct (chans b !! ch0) as [c|]; [|done]. destruct (ch_closed c); [done|]. by injection Eu as <-.
    + rewrite (Unsubscribe_listeners _ _ _ _ Hb Eu), Hlist. intuition congruence.
Qed.
(** What does not touch the push, the reader or the way out. *)
Lemma stream_ok_same cn cn' b :
  stream_ok cn b → cx_push cn' = cx_push cn → cx_cancelled cn' = cx_cancelled cn → cx_sent_locked cn' = cx_sent_locked cn →
  (∀ result, cx_reader cn' = Returned result → cx_cancelled cn' = true) → stream_ok cn' b.
Proof.
  intros [Hb Hp Hr Hl] E1 E2 E3 H4. constructor; [done| |done|by rewrite E2, E3].
  intros p. rewrite E1. intros Hpp%Hp. unfold push_ok in *. by rewrite E2.
Qed.

Lemma stream_ok_cancel cn b : stream_ok cn b → stream_ok (cx_cancel cn) b.
Proof.
  intros [Hb Hp Hr Hl]. constructor; simpl; [done| |done|done]. intros p (H1 & H2 & H3 & _)%Hp. by split_and!.
Qed.

Lemma at_phase_ok phase p cn b :
  stream_ok cn b → cx_push cn = Some p → phase ≠ Stopped → stream_ok (at_phase phase p cn) b.
Proof.
  intros [Hb Hp Hr Hl] Ep Hph. destruct (Hp p Ep) as (H1 & H2 & _ & H4). constructor; simpl; [done| |done|done].
  intros ? [= <-]. by split_and!.
Qed.

Lemma same_push_refl cn cn' : cx_push cn' = cx_push cn → same_push cn cn'.
Proof. intros Ep p Hp. exists p. by rewrite Ep. Qed.

Lemma at_phase_same phase p cn cn' : cx_push cn = Some p → same_push cn (at_phase phase p cn').
Proof. intros Ep ?. rewrite Ep. intros [= <-]. eexists. split; [done|]. by split_and!. Qed.

Lemma good_from cn cn1 s : same_push cn cn1 → good cn1 s → good cn s.
Proof.
  intros H1. destruct s as [cn' b' w'|]; [|done]. intros [Hok H2]. split; [done|].
  intros p (p1 & E1 & ? & ? & ? & ?)%H1. destruct (H2 p1 E1) as (p2 & E2 & ? & ? & ? & ?).
  exists p2. split_and!; [done|congruence..].
Qed.

Lemma returns_good result cn b w : stream_ok cn b → good cn (reader_returns result cn b w).
Proof.
  intros Hok. unfold reader_returns. set (cn1 := cx_set_reader (Returned result) (cx_cancel cn)).
  assert (stream_ok cn1 b) as Hok1 by by apply (stream_ok_same (cx_cancel cn)); [apply stream_ok_cancel|..].
  destruct (cx_push cn1) as [p|] eqn:Ep; [|by split; [|apply same_push_refl]].
  apply good_from with cn1; [by apply same_push_refl|]. by apply stop_good.
Qed.

Lemma panics_good msg cn b w : stream_ok (cx_cancel cn) b → good cn (reader_panics tr msg cn b w).
Proof.
  intros Hok. unfold reader_panics. destruct tr; [|done]. split; [|by apply same_push_refl].
  by apply (stream_ok_same (cx_cancel cn)).
Qed.

Lemma startPush_ok cn b cn' b' :
  stream_ok cn b → startPush h h_bus cn b = (cn', b') → Z.of_nat (length (chans b')) < 2 ^ 64 →
  stream_ok cn' b' ∧ same_push cn cn' ∧ cx_reader cn' = cx_reader cn ∧ (length (chans b) ≤ length (chans b'))%nat.
Proof.
  intros Hok Es Hb. unfold startPush in Es. case_decide as Hd; [injection Es as <- <-; by split_and!; [|apply same_push_refl|..]|].
  destruct (SubscribeKey _ b) as [[ch id] b1] eqn:Esub. injection Es as <- <-.
  assert (cx_push cn = None) as Ep by (destruct (cx_push cn); [destruct Hd; left; by eexists|done]).
  destruct Hok as [Hbus Hp Hr Hl].
  assert (length (chans b1) = S (length (chans b))) as Elen.
  { unfold SubscribeKey in Esub. injection Esub as _ _ <-. simpl. rewrite length_app. simpl. lia. }
  destruct (SubscribeKey_listens _ _ _ _ _ Hbus ltac:(lia) Esub) as (Hb1 & Hlis & Hid & Hlt & _ & _).
  split_and!; [|intros p; by rewrite Ep|done|lia].
  constructor; simpl; [done| |done|done]. intros ? [= <-]. split_and!; simpl; [lia| |done|done].
  intros key ch'. split; [|by intros (_ & -> & ->)]. intros Hl'.
  apply listeners_lookup in Hl' as (m & Hm & Hmi). apply listeners_lookup in Hlis as (m0 & Hm0 & Hmi0).
  assert (key = st_DeviceID (cx_state cn)) as -> by (by apply (bo_once b1 Hb1 key _ m m0 id); eauto).
  split_and!; [done|done|congruence].
Qed.
(** ** Every step *)

Lemma write_failed_good requests bytesIn cn b w : stream_ok cn b → good cn (write_failed h tr requests bytesIn cn b w).
Proof.
  intros Hok. unfold write_failed. destruct tr eqn:Et; [by apply returns_good|].
  destruct (recordUsage _ _ _ _ _ _ w) as [[[]|e|msg] w1]; [by apply returns_good..|done].
Qed.

Lemma write_good responses requests bytesIn sent cn b w :
  stream_ok cn b → good cn (write_batch h tr responses requests bytesIn sent cn b w).
Proof.
  intros Hok. unfold write_batch. destruct (cbor_responses responses) as [encoded|]; [|by apply write_failed_good].
  destruct sent; [|by apply write_failed_good].
  assert (good cn (Live (cx_set_reader Reading (cx_wrote responses cn)) b w)) as Hgo.
  { split; [|by apply same_push_refl]. by apply (stream_ok_same cn). }
  destruct (recordUsage _ _ _ _ _ _ w) as [[[]|e|msg] w1]; [done..|].
  apply good_from with (cx_wrote responses cn); [by apply same_push_refl|]. apply panics_good.
  by apply (stream_ok_same (cx_cancel cn)); [apply stream_ok_cancel|..].
Qed.

Lemma push_write_good p packets sent cn b w :
  stream_ok cn b → cx_push cn = Some p → good cn (push_write h p packets sent cn b w).
Proof.
  intros Hok Ep. assert (good cn (stop p Stopped (cx_cancel cn) b w)) as Hstop.
  { apply good_from with (cx_cancel cn); [by apply same_push_refl|]. apply stop_good; [by apply stream_ok_cancel|done|done]. }
  unfold push_write. destruct (cbor_responses packets) as [encoded|]; [|done]. destruct sent; [|done].
  assert (∀ w1, good cn (Live (at_phase Looping p (cx_wrote packets cn)) b w1)) as Hgo.
  { intros w1. split; [|by apply at_phase_same]. apply at_phase_ok; [|done|done].
    apply (stream_ok_same cn); try done. apply Hok. }
  by destruct (recordUserUsage _ _ _ _ _ _ w) as [[[]|e|msg] w1].
Qed.

Lemma push_pull_good p cn b w : stream_ok cn b → cx_push cn = Some p → good cn (push_pull h p cn b w).
Proof.
  intros Hok Ep. unfold push_pull.
  assert (∀ phase sent w1, phase ≠ Stopped → good cn (Live (at_phase phase p (cx_set_sent sent cn)) b w1)) as Hgo.
  { intros phase sent w1 Hph. split; [|by apply at_phase_same]. apply at_phase_ok; [|done|done].
    apply (stream_ok_same cn); try done. apply Hok. }
  destruct (pullOutboxPackets _ _ _ _ w) as [[[r sent]|e|msg] w1]; [|done|done].
  by destruct r as [e|[|packet packets]]; apply Hgo.
Qed.

Lemma read_good raw cn b w :
  stream_ok cn b → cx_reader cn = Reading →
  (∀ cn' b' w', read_batch h tr h_bus raw cn b w = Live cn' b' w' → Z.of_nat (length (chans b')) < 2 ^ 64) →
  good cn (read_batch h tr h_bus raw cn b w).
Proof.
  intros Hok Er Hb. unfold read_batch in *.
  destruct (handleBatch _ _ _ _ _ w) as [[[[[[responses next] status] sent] n]|e|msg] w1]; [|done|].
  - cbv zeta in *. set (cn1 := cx_set_batch next sent cn) in *.
    assert (stream_ok cn1 b) as Hok1 by (apply (stream_ok_same cn); try done; apply Hok).
    destruct (st_Authenticated next && _).
    + destruct (startPush h h_bus cn1 b) as [cn2 b2] eqn:Es. specialize (Hb _ _ _ eq_refl).
      destruct (startPush_ok _ _ _ _ Hok1 Es Hb) as (Hok2 & Hsame & _ & _). split.
      * by apply (stream_ok_same cn2).
      * intros p Hp. apply Hsame. done.
    + split; [by apply (stream_ok_same cn1)|by apply same_push_refl].
  - apply good_from with (cx_hold_lock cn); [by apply same_push_refl|]. apply panics_good.
    destruct (stream_ok_cancel cn b Hok) as [H1 H2 H3 H4]. by constructor.
Qed.

Lemma environment_good cn b b' w w' w1 : stream_ok cn b → rely b b' w w' → kept cn b b' → good cn (Live cn b' w1).
Proof.
  intros [Hb Hp Hr Hl] (Hok & Hlen & Hnext & Hnew & _) Hkept. split; [|by apply same_push_refl].
  constructor; [by apply Hok| |done|done]. intros p Ep. destruct (Hp p Ep) as (H1 & H2 & H3 & H4). split_and!; [lia| |done|done].
  intros key ch. split.
  - intros [Hk|Hk]%Hnew; [by apply H2|lia].
  - intros (Hst & -> & ->). apply Hkept; [by unfold subscription; rewrite Ep, Hst|]. by apply H2.
Qed.

Lemma step_good l cn b w s' :
  stream_ok cn b → step l (Live cn b w) s' →
  (∀ cn' b' w', s' = Live cn' b' w' → Z.of_nat (length (chans b')) < 2 ^ 64) → good cn s'.
Proof.
  intros Hok Hs Hb. remember (Live cn b w) as s eqn:Es. destruct Hs; injection Es as -> -> ->.
  - by apply read_good.
  - by apply write_good.
  - by apply returns_good.
  - unfold push_check. destruct (push_cancelled cn p) eqn:Ec.
    + apply stop_good; [done|done|]. by erewrite <- push_cancelled_ok; [|by apply Hok].
    + split; [by apply at_phase_ok|by apply at_phase_same].
  - by apply push_pull_good.
  - by apply push_write_good.
  - destruct (receive_frame _ _ _ H1) as (Esub & Enext & _). split; [|by apply at_phase_same]. apply at_phase_ok; [|done|done].
    destruct Hok as [H1' H2' H3' H4']. constructor; [by eapply receive_chan_ok| |done|done].
    intros q Eq. destruct (H2' q Eq) as (A1 & A2 & A3 & A4). split_and!; [by rewrite Enext| |done|done].
    intros key ch. unfold listeners. rewrite Esub. apply A2.
  - split; [by apply at_phase_ok|by apply at_phase_same].
  - apply stop_good; [done|done|]. by erewrite <- push_cancelled_ok; [|by apply Hok].
  - by eapply environment_good.
Qed.
(** ** Runs *)

Lemma Unsubscribe_length key id b b' : Unsubscribe key id b = Done b' → length (chans b') = length (chans b).
Proof.
  unfold Unsubscribe. destruct (subs b !! key) as [m|]; [|by intros [= <-]].
  destruct (m !! id) as [ch|]; [|by intros [= <-]]. unfold close_chan. simpl. destruct (chans b !! ch) as [c|]; [|done].
  destruct (ch_closed c); [done|]. intros [= <-]. simpl. by rewrite length_insert.
Qed.

(** Channels are only added. *)
Definition no_fewer (b : Bus) (s : system) : Prop :=
  match s with Live _ b' _ => (length (chans b) ≤ length (chans b'))%nat | Dead _ => True end.

Lemma no_fewer_same cn b w : no_fewer b (Live cn b w).
Proof. simpl. lia. Qed.
#[local] Hint Resolve no_fewer_same : core.

Lemma stop_chans p phase cn b w : no_fewer b (stop p phase cn b w).
Proof.
  unfold stop. destruct (pu_stopped p); [done|]. destruct (Unsubscribe _ _ b) as [b'|] eqn:Eu; [|done].
  simpl. by rewrite (Unsubscribe_length _ _ _ _ Eu).
Qed.

Lemma returns_chans result cn b w : no_fewer b (reader_returns result cn b w).
Proof. unfold reader_returns. destruct (cx_push _); [apply stop_chans|done]. Qed.

Lemma panics_chans msg cn b w : no_fewer b (reader_panics tr msg cn b w).
Proof. unfold reader_panics. by destruct tr. Qed.

Lemma startPush_chans cn b : (length (chans b) ≤ length (chans (startPush h h_bus cn b).2))%nat.
Proof.
  unfold startPush. case_decide; [done|]. unfold SubscribeKey. simpl. rewrite length_app. lia.
Qed.

Lemma write_failed_chans requests bytesIn cn b w : no_fewer b (write_failed h tr requests bytesIn cn b w).
Proof.
  unfold write_failed. pose proof (returns_chans None cn b w). destruct tr; [done|].
  destruct (recordUsage _ _ _ _ _ _ w) as [[[]|e|msg] w1]; [apply returns_chans..|done].
Qed.

Lemma step_chans l cn b w s' : step l (Live cn b w) s' → no_fewer b s'.
Proof.
  intros Hs. remember (Live cn b w) as s eqn:Es. destruct Hs; injection Es as -> -> ->.
  - unfold read_batch. destruct (handleBatch _ _ _ _ _ w) as [[[[[[responses next] status] sent] n]|e|msg] w1]; [|done|apply panics_chans].
    cbv zeta. destruct (st_Authenticated next && _); [|done].
    pose proof (startPush_chans (cx_set_batch next sent cn) b) as Hc. by destruct (startPush _ _ _ b) as [cn2 b2].
  - unfold write_batch. destruct (cbor_responses responses); [|apply write_failed_chans]. destruct sent; [|apply write_failed_chans].
    destruct (recordUsage _ _ _ _ _ _ w) as [[[]|e|msg] w1]; [done..|apply panics_chans].
  - apply returns_chans.
  - unfold push_check. destruct (push_cancelled cn p); [apply stop_chans|done].
  - unfold push_pull. destruct (pullOutboxPackets _ _ _ _ w) as [[[[e|[|packet packets]] sent]|e|msg] w1]; done.
  - unfold push_write. destruct (cbor_responses packets); [|apply stop_chans]. destruct sent; [|apply stop_chans].
    by destruct (recordUserUsage _ _ _ _ _ _ w) as [[[]|e|msg] w1].
  - simpl. by destruct (receive_frame _ _ _ H1) as (_ & _ & ->).
  - done.
  - apply stop_chans.
  - by destruct H as (_ & ? & _).
Qed.

Lemma run_chans s s' : run s s' → ∀ cn b w, s = Live cn b w → no_fewer b s'.
Proof.
  induction 1 as [s|s1 s2 s3 [l Hs] Hr IH]; intros cn b w ->; [simpl; lia|].
  apply step_chans in Hs as Hc. destruct s2 as [cn2 b2 w2|msg].
  - specialize (IH _ _ _ eq_refl). simpl in Hc. destruct s3; simpl in *; [lia|done].
  - inversion Hr as [|? ? ? [l' Hs'] _]; subst; [done|]. inversion Hs'.
Qed.

Definition few (s : system) : Prop := match s with Live _ b _ => Z.of_nat (length (chans b)) < 2 ^ 64 | Dead _ => True end.

Lemma run_good s s' : run s s' → ∀ cn b w, s = Live cn b w → stream_ok cn b → few s' → good cn s'.
Proof.
  induction 1 as [s|s1 s2 s3 [l Hs] Hr IH]; intros cn b w -> Hok Hb; [by split; [|apply same_push_refl]|].
  destruct s2 as [cn2 b2 w2|msg].
  - pose proof (run_chans _ _ Hr _ _ _ eq_refl) as Hc.
    assert (s3 = s3 ∧ ((∃ msg, s3 = Dead msg) ∨ Z.of_nat (length (chans b2)) < 2 ^ 64)) as [_ [[msg ->]|Hb2]]; [|done|].
    { split; [done|]. destruct s3 as [cn3 b3 w3|msg]; [right; simpl in *; lia|left; eauto]. }
    assert (good cn (Live cn2 b2 w2)) as [Hok2 Hsame] by (eapply step_good; [exact Hok|exact Hs|by intros ? ? ? [= <- <- <-]]).
    apply good_from with cn2; [done|]. by eapply IH.
  - inversion Hr as [|? ? ? [l' Hs'] _]; subst; [done|]. inversion Hs'.
Qed.

Lemma new_conn_ok b : bus_ok b → stream_ok new_conn b.
Proof. by constructor. Qed.

(** The channel of a push goroutine is the only one registered under its
    identifier, under its device, until [stop] has run; then there is none. *)
Definition registered (device : string) (p : Push) (b : Bus) : Prop :=
  ∀ key ch, listeners key b !! pu_id p = Some ch ↔ pu_stopped p = false ∧ key = device ∧ ch = pu_chan p.

(** ** Where the push goroutine comes from *)

(** A state the bus could serve: authenticated, with a device. *)
Definition servable (st : sessionState) : Prop :=
  h_bus = true ∧ is_Some (h_outboxService h) ∧ st_Authenticated st = true ∧ st_DeviceID st ≠ ""%string.

(** The batch that starts the goroutine, between [cn0] and [cn1]: there was
    none, the connection could not be served before it, can be after it, and
    the goroutine is for that device and that user. *)
Definition starts_push (cn0 : Conn) (b0 : Bus) (w0 : World) (cn1 : Conn) (b1 : Bus) (w1 : World) (p : Push) : Prop :=
  ∃ raw responses st status sent n,
    cx_reader cn0 = Reading ∧ cx_push cn0 = None ∧ ¬ servable (cx_state cn0)
    ∧ handleBatch h Background raw (cx_state cn0) (cx_sent cn0) w0 = (Ok (responses, st, status, sent, n), w1)
    ∧ step (LRead raw) (Live cn0 b0 w0) (Live cn1 b1 w1)
    ∧ servable st ∧ cx_state cn1 = st ∧ cx_push cn1 = Some p ∧ pu_device p = st_DeviceID st ∧ pu_user p = st_UserPublicKey st.

Definition started (b0 : Bus) (w0 : World) (s : system) : Prop :=
  ∃ cn b w cn' b' w' p, run (Live new_conn b0 w0) (Live cn b w) ∧ starts_push cn b w cn' b' w' p ∧ run (Live cn' b' w') s.

(** No goroutine yet, and nobody to serve. *)
Definition idle_push (s : system) : Prop :=
  match s with Live cn _ _ => cx_push cn = None ∧ ¬ servable (cx_state cn) | Dead _ => True end.

Lemma returns_idle_push result cn b w : idle_push (Live cn b w) → idle_push (reader_returns result cn b w).
Proof. intros [Ep Hs]. unfold reader_returns. simpl. by rewrite Ep. Qed.

Lemma panics_idle_push msg cn b w : idle_push (Live cn b w) → idle_push (reader_panics tr msg cn b w).
Proof. unfold reader_panics. by destruct tr. Qed.

Lemma write_failed_idle_push requests bytesIn cn b w :
  idle_push (Live cn b w) → idle_push (write_failed h tr requests bytesIn cn b w).
Proof.
  intros Hi. unfold write_failed. destruct tr eqn:Et; [by apply returns_idle_push|].
  destruct (recordUsage _ _ _ _ _ _ w) as [[[]|e|msg] w1]; [by apply returns_idle_push..|done].
Qed.

Lemma startPush_starts cn b cn' b' :
  is_Some (h_outboxService h) → startPush h h_bus cn b = (cn', b') → cx_push cn = None →
  st_Authenticated (cx_state cn) = true →
  cx_state cn' = cx_state cn
  ∧ ((cx_push cn' = None ∧ ¬ servable (cx_state cn))
     ∨ servable (cx_state cn) ∧ ∃ p, cx_push cn' = Some p ∧ pu_device p = st_DeviceID (cx_state cn)
         ∧ pu_user p = st_UserPublicKey (cx_state cn)).
Proof.
  intros Ho Es Ep Ha. unfold startPush in Es. case_decide as Hd.
  - injection Es as <- <-. split; [done|left]. split; [done|]. intros (Hbus & _ & _ & Hdev).
    destruct Hd as [Hd|[Hd|[Hd|Hd]]]; [by rewrite Ep in Hd; destruct Hd|congruence|done|]. rewrite Hd in Ho. by destruct Ho.
  - destruct (SubscribeKey _ b) as [[ch id] b1]. injection Es as <- <-. split; [done|right]. split; [|by eexists].
    split; [|split_and!; [done|done|]]; [destruct h_bus; [done|]|intros Hdev]; destruct Hd; [right; by left|right; right; by left].
Qed.

Lemma read_starts raw cn b w :
  cx_reader cn = Reading → cx_sent_locked cn = false → idle_push (Live cn b w) →
  idle_push (read_batch h tr h_bus raw cn b w)
  ∨ ∃ cn' b' w' p, read_batch h tr h_bus raw cn b w = Live cn' b' w' ∧ starts_push cn b w cn' b' w' p.
Proof.
  intros Er El [Ep Hs]. pose proof (step_read h tr h_bus raw cn b w Er El) as Hstep. unfold read_batch in *.
  destruct (handleBatch _ _ _ _ _ w) as [[[[[[responses next] status] sent] n]|e|msg] w1] eqn:Eb;
    [|by left|left; by apply panics_idle_push].
  cbv zeta in *. set (cn1 := cx_set_batch next sent cn) in *.
  destruct (st_Authenticated next) eqn:Ea; cbn [andb] in *; [|left; split; [done|]; intros (_ & _ & Hn & _); simpl in Hn; congruence].
  case_bool_decide as Ho; [|left; split; [done|]; by intros (_ & Hn & _)].
  destruct (startPush h h_bus cn1 b) as [cn2 b2] eqn:Est.
  destruct (startPush_starts cn1 b cn2 b2 Ho Est Ep Ea) as [Estate [[Hnone Hno]|(Hyes & p & Hp & Hdev & Huser)]].
  - left. split; [done|]. cbn [cx_state cx_set_reader]. by rewrite Estate.
  - right. eexists _, _, _, p. split; [done|]. exists raw, responses, next, status, sent, n. by split_and!.
Qed.

Lemma step_starts b0 w0 l cn b w s' :
  run (Live new_conn b0 w0) (Live cn b w) → step l (Live cn b w) s' → idle_push (Live cn b w) →
  idle_push s' ∨ started b0 w0 s'.
Proof.
  intros Hr Hs Hi. destruct Hi as [Ep Hno]. remember (Live cn b w) as s eqn:Es. destruct Hs; injection Es as -> -> ->; try congruence.
  - destruct (read_starts raw cn b w) as [?|(cn' & b' & w' & p & -> & Hst)]; [done..|by left|right].
    by exists cn, b, w, cn', b', w', p.
  - left. unfold write_batch. destruct (cbor_responses responses); [|by apply write_failed_idle_push].
    destruct sent; [|by apply write_failed_idle_push].
    destruct (recordUsage _ _ _ _ _ _ w) as [[[]|e|msg] w1]; [done..|by apply panics_idle_push].
  - left. by apply returns_idle_push.
  - by left.
Qed.

Lemma run_starts b0 w0 s : run (Live new_conn b0 w0) s → idle_push s ∨ started b0 w0 s.
Proof.
  revert s. apply rtc_ind_r.
  - left. split; [done|]. by intros (_ & _ & ? & _).
  - intros s s' Hr [l Hs] [Hi|(cn & b & w & cn' & b' & w' & p & H1 & H2 & H3)].
    + destruct s as [cn b w|msg]; [by eapply step_starts|inversion Hs].
    + right. exists cn, b, w, cn', b', w', p. split_and!; [done|done|]. eapply rtc_r; [exact H3|by exists l].
Qed.

(** The goroutine is still for the device and the user it was started for,
    and its channel is on the bus for them until [stop] has run. *)
Definition still_serves (p : Push) (cn : Conn) (b : Bus) : Prop :=
  ∃ p', cx_push cn = Some p' ∧ pu_device p' = pu_device p ∧ pu_user p' = pu_user p ∧ pu_chan p' = pu_chan p ∧ pu_id p' = pu_id p
    ∧ registered (pu_device p) p' b ∧ (pu_phase p' = Stopped → pu_stopped p' = true).

Lemma run_still_serves cn b w cn' b' w' p :
  stream_ok cn b → cx_push cn = Some p → run (Live cn b w) (Live cn' b' w') → few (Live cn' b' w') → still_serves p cn' b'.
Proof.
  intros Hok Ep Hr Hf. destruct (run_good _ _ Hr _ _ _ eq_refl Hok Hf) as [Hok' Hsame].
  destruct (Hsame p Ep) as (p' & Ep' & Edev & Euser & Ech & Eid). exists p'. split_and!; [done..| |].
  - intros key ch. destruct (so_push _ _ Hok' p' Ep') as (_ & Hl & _). by rewrite Hl, Edev.
  - by destruct (so_push _ _ Hok' p' Ep') as (_ & _ & ? & _).
Qed.

(** What a pull of the goroutine hands over to the wire. *)
Definition pulls (p : Push) (cn : Conn) (b : Bus) (w : World) : Prop :=
  ∀ cn' b' w' p' packets packet,
    step LPushPull (Live cn b w) (Live cn' b' w') → cx_push cn' = Some p' → pu_phase p' = Writing packets → packet ∈ packets →
    ∃ ev, in_flight_for (pu_device p) (clock_at (w_clock w)) (w_db w') ev ∧ packet = packet_of ev.

Lemma pulls_own_device outbox cn b w p :
  (∀ i j : nat, (i ≤ j)%nat → clock_at i ≤ clock_at j) → notifier_ok outbox → h_outboxService h = Some outbox →
  cx_push cn = Some p → pu_device p ≠ ""%string → pulls p cn b w.
Proof.
  intros Hmono Hn Hh Ep Hdev cn' b' w' p' packets packet Hs Ep' Eph Hin.
  remember (Live cn b w) as s eqn:Es. remember (Live cn' b' w') as s' eqn:Es'. remember LPushPull as l eqn:El.
  destruct Hs as [| | | |q cn1 b1 w1 Eq _ _| | | | |]; try done. injection Es as -> -> ->.
  assert (q = p) as -> by congruence. unfold push_pull in Es'.
  destruct (pullOutboxPackets _ _ _ _ w) as [[[r sent]|e|msg] w2] eqn:Epull; [|done|done].
  destruct (pull_spec h Hmono outbox Hn Hh Background (pu_device p) (cx_sent cn) w r sent w2 Hdev Epull) as [_ Hp].
  destruct r as [e|[|pk pks]]; injection Es' as <- <- <-; injection Ep' as <-; try done.
  injection Eph as <-. destruct (Hp _ eq_refl) as (_ & _ & Hall). destruct (Hall packet Hin) as (_ & ev & Hev & -> & _). eauto.
Qed.

(** C12: The push goroutine serves the device of the first batch that left
    the connection authenticated with one, whoever authenticates on it
    later.  As long as there is no goroutine, the connection has not been
    in a state that could be served.  When there is one, a batch started
    it that took the connection from a state that could not be served to
    one that is authenticated with a device, the device and the user of the
    goroutine; from then on it keeps both, its channel is the only one
    registered under its identifier, under its device, until [stop] has
    run, after which there is none, and [stop] has run when it has
    returned; and whatever it pulls for the wire is an event in flight for
    that device. *)
Theorem subscription_follows_push outbox b0 w0 cn1 b1 w1 :
  (∀ i j : nat, (i ≤ j)%nat → clock_at i ≤ clock_at j) → notifier_ok outbox → h_outboxService h = Some outbox →
  bus_ok b0 → run (Live new_conn b0 w0) (Live cn1 b1 w1) → few (Live cn1 b1 w1) →
  match cx_push cn1 with
  | None => ¬ servable (cx_state cn1)
  | Some p1 =>
      (∃ cn b w cn' b' w' p, run (Live new_conn b0 w0) (Live cn b w) ∧ starts_push cn b w cn' b' w' p
         ∧ run (Live cn' b' w') (Live cn1 b1 w1) ∧ pu_device p1 = pu_device p ∧ pu_user p1 = pu_user p)
      ∧ (∀ cn2 b2 w2, run (Live cn1 b1 w1) (Live cn2 b2 w2) → few (Live cn2 b2 w2) → still_serves p1 cn2 b2)
      ∧ pulls p1 cn1 b1 w1
  end.
Proof.
  intros Hmono Hn Hh Hb0 Hr Hf.
  destruct (run_good _ _ Hr _ _ _ eq_refl (new_conn_ok b0 Hb0) Hf) as [Hok1 _].
  destruct (run_starts _ _ _ Hr) as [[-> Hno]|(cn & b & w & cn' & b' & w' & p & H1 & H2 & H3)]; [done|].
  pose proof H2 as (raw & rs & st & status & sent & n & _ & _ & _ & _ & Hstep & (_ & _ & _ & Hdev) & _ & Ep & Edev & _).
  assert (run (Live new_conn b0 w0) (Live cn' b' w')) as Hr' by (eapply rtc_r; [exact H1|by eexists]).
  assert (few (Live cn' b' w')) as Hf' by (pose proof (run_chans _ _ H3 _ _ _ eq_refl) as Hc; simpl in *; lia).
  destruct (run_good _ _ Hr' _ _ _ eq_refl (new_conn_ok b0 Hb0) Hf') as [Hok' _].
  destruct (run_still_serves _ _ _ _ _ _ p Hok' Ep H3 Hf) as (p1 & Ep1 & E1 & E2 & _). rewrite Ep1. split_and!.
  - exists cn, b, w, cn', b', w', p. by split_and!.
  - intros cn2 b2 w2 Hr2 Hf2. exact (run_still_serves cn1 b1 w1 cn2 b2 w2 p1 Hok1 Ep1 Hr2 Hf2).
  - apply (pulls_own_device outbox cn1 b1 w1 p1 Hmono Hn Hh Ep1). by rewrite E1, Edev.
Qed.

(** ** The end *)

(** The steps of the push goroutine. *)
Inductive push_step : system → system → Prop :=
  | push_step_of l s s' :
      step l s s' → match l with LPushCheck | LPushPull | LPushWrite _ | LPushWake => True | _ => False end → push_step s s'.

(** How many steps it has left at most once it is told to end. *)
Definition push_rank (s : system) : nat :=
  match s with
  | Live cn _ _ =>
      match cx_push cn with
      | Some p => match pu_phase p with Locking => 3 | Writing _ | Waiting => 2 | Looping => 1 | Stopped => 0 end
      | None => 0
      end
  | Dead _ => 0
  end.

Definition told_to_end (s : system) : Prop :=
  match s with Live cn b _ => stream_ok cn b ∧ cx_cancelled cn = true ∧ few s | Dead _ => True end.

(** Where it can be stuck: on the lock of a reader that panicked. *)
Definition stuck_on_lock (s : system) : Prop :=
  ∃ cn b w p, s = Live cn b w ∧ cx_push cn = Some p ∧ pu_phase p = Locking ∧ cx_sent_locked cn = true.

(** A push step that is on its way out: the number of channels, the order
    to end and a smaller rank. *)
Definition on_the_way (b : Bus) (rank : nat) (s : system) : Prop :=
  match s with
  | Live cn b' _ => length (chans b') = length (chans b) ∧ cx_cancelled cn = true ∧ (push_rank s < rank)%nat
  | Dead _ => (0 < rank)%nat
  end.

Lemma stop_on_the_way rank p cn b w : cx_cancelled cn = true → (0 < rank)%nat → on_the_way b rank (stop p Stopped cn b w).
Proof.
  intros Hc Hr. unfold stop. destruct (pu_stopped p); [by split_and!|].
  destruct (Unsubscribe _ _ b) as [b'|] eqn:Eu; [|done]. by split_and!; [eapply Unsubscribe_length|..].
Qed.

Lemma push_step_ends cn b w s' :
  stream_ok cn b → cx_cancelled cn = true → push_step (Live cn b w) s' → on_the_way b (push_rank (Live cn b w)) s'.
Proof.
  intros Hok Hc Hp. remember (Live cn b w) as s eqn:Es. destruct Hp as [l s s' Hs Hl]. unfold push_rank at 1.
  destruct Hs as [| | |p cn' b' w' Ep Eph|p cn' b' w' Ep Eph _|p packets sent cn' b' w' Ep Eph|p cn' b' b2 w' Ep Eph Hrec|p cn' b' w' Ep Eph
    |p cn' b' w' Ep Eph Hcan|]; try done; injection Es as -> -> ->; rewrite Ep, Eph.
  - unfold push_check, push_cancelled. rewrite Hc. simpl. apply stop_on_the_way; [done|lia].
  - unfold push_pull. destruct (pullOutboxPackets _ _ _ _ w) as [[[[e|[|packet packets]] sent]|e|msg] w1];
      (split_and!; simpl; (done || lia)) || (simpl; lia).
  - assert (on_the_way b 2 (stop p Stopped (cx_cancel cn) b w)) as Hstop by (apply stop_on_the_way; [done|lia]).
    unfold push_write. destruct (cbor_responses packets); [|done]. destruct sent; [|done].
    destruct (recordUserUsage _ _ _ _ _ _ w) as [[[]|e|msg] w1]; (split_and!; simpl; (done || lia)) || (simpl; lia).
  - split_and!; simpl; [by destruct (receive_frame _ _ _ Hrec) as (_ & _ & ?)|done|lia].
  - split_and!; simpl; (done || lia).
  - apply stop_on_the_way; [done|lia].
Qed.

Lemma push_steps_end n s s' : nsteps push_step n s s' → told_to_end s → (n ≤ push_rank s)%nat ∧ told_to_end s'.
Proof.
  induction 1 as [s|n s1 s2 s3 Hs Hr IH]; intros Ht; [split; [lia|done]|].
  destruct s1 as [cn b w|msg]; [|by inversion Hs as [? ? ? Hst]; inversion Hst]. destruct Ht as (Hok & Hc & Hf).
  pose proof (push_step_ends _ _ _ _ Hok Hc Hs) as Hw. inversion Hs as [l ? ? Hst Hl]; subst.
  destruct s2 as [cn2 b2 w2|msg].
  - destruct Hw as (Hlen & Hc2 & Hrank).
    assert (told_to_end (Live cn2 b2 w2)) as Ht2.
    { split; [|split; [done|unfold few in *; lia]].
      destruct (step_good _ _ _ _ _ Hok Hst) as [Hok2 _]; [|done]. intros ? ? ? [= <- <- <-]. unfold few in *; lia. }
    destruct (IH Ht2). split; [lia|done].
  - inversion Hr as [|? ? ? ? Hd]; subst; [unfold on_the_way in Hw; split; [lia|done]|].
    inversion Hd as [? ? ? Hd']. inversion Hd'.
Qed.

(** It can go on unless it has returned or waits for the lock. *)
Lemma push_goes_on cn b w p :
  cx_push cn = Some p → pu_phase p ≠ Stopped → (pu_phase p = Locking → cx_sent_locked cn = false) →
  ∃ s', push_step (Live cn b w) s'.
Proof.
  intros Ep Hst Hlock. destruct (pu_phase p) as [| |packets| |] eqn:Eph; [| | | |done]; eexists; eapply push_step_of.
  - by eapply step_push_check.
  - done.
  - by eapply step_push_pull; [| |apply Hlock].
  - done.
  - by eapply (step_push_write _ _ _ p packets true).
  - done.
  - by eapply step_push_timer.
  - done.
Qed.

Lemma returned_push_rests cn b w p :
  cx_push cn = Some p → pu_phase p = Stopped → ¬ ∃ s', push_step (Live cn b w) s'.
Proof.
  intros Ep Eph (s' & Hp). remember (Live cn b w) as s eqn:Es. destruct Hp as [l s s' Hs Hl].
  destruct Hs; try done; injection Es as -> -> ->; congruence.
Qed.

(** C13: The push goroutine ends with its connection.  From the moment the
    connection is cancelled it makes at most three more steps of its own;
    when it makes no more, it has returned and nothing on the bus is left
    of it, or it waits for ever for the lock of a reader that panicked in
    the middle of a batch. *)
Theorem push_goroutine_ends b0 w0 cn b w n s :
  bus_ok b0 → run (Live new_conn b0 w0) (Live cn b w) → Z.of_nat (length (chans b)) < 2 ^ 64 →
  cx_cancelled cn = true → nsteps push_step n (Live cn b w) s →
  (n ≤ 3)%nat
  ∧ ((¬ ∃ s', push_step s s') →
       (∃ msg, s = Dead msg) ∨ stuck_on_lock s
       ∨ ∃ cn' b' w', s = Live cn' b' w'
           ∧ ∀ p, cx_push cn' = Some p → pu_phase p = Stopped ∧ ∀ key, listeners key b' !! pu_id p = None).
Proof.
  intros Hb0 Hr Hf Hc Hn. destruct (run_good _ _ Hr _ _ _ eq_refl (new_conn_ok b0 Hb0) Hf) as [Hok _].
  destruct (push_steps_end _ _ _ Hn) as [Hle Ht]; [by split_and!|]. split.
  { etrans; [exact Hle|]. simpl. destruct (cx_push cn) as [p|]; [destruct (pu_phase p); lia|lia]. }
  intros Hend. destruct s as [cn' b' w'|msg]; [right|left; eauto]. destruct Ht as (Hok' & Hc' & _).
  destruct (cx_push cn') as [p|] eqn:Ep; [|right; exists cn', b', w'; split; [done|by rewrite Ep]].
  destruct (pu_phase p) eqn:Eph; try (exfalso; apply Hend; by eapply push_goes_on; [exact Ep|by rewrite Eph|by rewrite Eph]).
  - destruct (cx_sent_locked cn') eqn:El; [left; by exists cn', b', w', p|].
    exfalso. apply Hend. by eapply push_goes_on; [exact Ep|by rewrite Eph|].
  - right. exists cn', b', w'. split; [done|]. rewrite Ep. intros q [= <-]. split; [done|]. intros key.
    destruct (so_push _ _ Hok' p Ep) as (_ & Hl & Hst & _). destruct (listeners key b' !! pu_id p) as [ch|] eqn:El; [|done].
    apply Hl in El as [Hns _]. rewrite Hst in Hns; done.
Qed.
End stream.
