(* ===== verification/RuntimeSpec.v ===== *)
(** * RuntimeSpec: greetings and HTTP sessions

    The banner of a TCP connection tells every client the ports of the
    configuration, and the sessions of the RPC handler live exactly as long
    as the HTTP connections they belong to. *)

From Stdlib Require Import ZArith.
From stdpp Require Import gmap strings relations.
From S2P Require Import Prelude GoLib GoTime GoDuration Domain Database Effects OutboxRepo OutboxService AuthRepo.
From S2P Require Import AuthService ClientRepo FriendRepo RoomRepo ClientService RoomService Push Config Rpc Handler.
From S2P Require Import Runtime.

Local Open Scope Z_scope.

(** ** Reading a banner *)

(** What a client makes of four bytes, and of a banner. *)
Definition Uint32 (b : Bytes) : Z := foldl (λ v x, v * 256 + byte_val x) 0 b.

Definition read_banner (b : Bytes) : option (list bool * AppPortsConfiguration) :=
  match b with
  | flags :: rest =>
      if decide (length rest = 24%nat) then
        let port k := Uint32 (take 4 (drop (4 * k) rest)) in
        Some (Z.testbit (byte_val flags) <$> [0; 1; 2; 3; 4; 5],
              mkPorts (port 0%nat) (port 1%nat) (port 2%nat) (port 3%nat) (port 4%nat) (port 5%nat))
      else None
  | [] => None
  end.

Definition ports_list (p : AppPortsConfiguration) : list Z :=
  [TCPPort p; TCPTLSPort p; HTTPPort p; HTTPSPort p; WSPort p; WSSPort p].
Definition map_ports (f : Z → Z) (p : AppPortsConfiguration) : AppPortsConfiguration :=
  mkPorts (f (TCPPort p)) (f (TCPTLSPort p)) (f (HTTPPort p)) (f (HTTPSPort p)) (f (WSPort p)) (f (WSSPort p)).

Lemma PutUint32_length v : length (PutUint32 v) = 4%nat.
Proof. done. Qed.

Lemma Uint32_PutUint32 v : 0 ≤ v < 2 ^ 32 → Uint32 (PutUint32 v) = v.
Proof.
  intros Hv. unfold Uint32, PutUint32. cbn [foldl]. rewrite !byte_val_of, !Z.shiftr_div_pow2 by lia.
  change (2 ^ 24) with 16777216. change (2 ^ 16) with 65536. change (2 ^ 8) with 256. change (2 ^ 32) with 4294967296 in Hv.
  Z.to_euclidean_division_equations. lia.
Qed.

Lemma uint32_range v : 0 ≤ uint32 v < 2 ^ 32.
Proof. apply wrap_unsigned_range. lia. Qed.

Lemma banner_flags p :
  Z.testbit (byte_val (nth 0 (tcpDiscoveryBanner p) "000"%byte)) <$> [0; 1; 2; 3; 4; 5]
  = (λ port, bool_decide (0 < port)) <$> ports_list p.
Proof.
  assert (∀ bit port flags, set_flag bit port flags = if bool_decide (0 < port) then Z.lor flags (Z.shiftl 1 bit) else flags) as Hset.
  { intros. unfold set_flag. case_decide as Hp; [by rewrite bool_decide_true|by rewrite bool_decide_false]. }
  unfold tcpDiscoveryBanner, ports_list. cbv zeta. rewrite !Hset. cbn [nth fmap list_fmap].
  repeat match goal with |- context [bool_decide (0 < ?port)] => generalize (bool_decide (0 < port)); intros [] end; reflexivity.
Qed.

Lemma read_tcpDiscoveryBanner p :
  length (tcpDiscoveryBanner p) = 25%nat
  ∧ read_banner (tcpDiscoveryBanner p) = Some ((λ port, bool_decide (0 < port)) <$> ports_list p, map_ports uint32 p).
Proof.
  split; [done|]. pose proof (banner_flags p) as Hf. unfold tcpDiscoveryBanner in *. cbv zeta in *.
  set (flags := set_flag 5 _ _) in *. clearbody flags. cbn [nth] in Hf. unfold read_banner. rewrite Hf. clear Hf.
  rewrite decide_True by done.
  assert (∀ v b, b = PutUint32 (uint32 v) → Uint32 b = uint32 v) as Hport.
  { intros v b ->. apply Uint32_PutUint32, uint32_range. }
  unfold map_ports. do 3 f_equal; by apply Hport.
Qed.

(** ** Writing it *)

Section writers.
Context {W : Type} `{WriterLaws W}.

(** As much fuel as bytes is enough, and what arrives is a prefix, the whole
    payload when there is no error. *)
Lemma writeAll_delivers fuel : ∀ payload (w : W), (length payload ≤ fuel)%nat →
  ∃ err w' k, writeAll fuel payload w = (WEnd err, w') ∧ received w' = received w ++ take k payload
    ∧ (err = None → take k payload = payload).
Proof.
  induction fuel as [|fuel IH]; intros payload w Hf.
  { destruct payload; [|simpl in Hf; lia]. exists None, w, 0%nat. by rewrite app_nil_r. }
  destruct payload as [|b payload]; [exists None, w, 0%nat; by rewrite app_nil_r|].
  cbn [writeAll]. set (p := b :: payload) in *. destruct (Write p w) as [[n err] w1] eqn:Ew.
  destruct (Write_prefix _ _ _ _ _ Ew) as [Hn Hrec].
  destruct err as [e|]; [by exists (Some e), w1, (Z.to_nat n)|].
  case_decide as Hz; [exists (Some ErrShortWrite), w1, (Z.to_nat n); by split_and!|].
  rewrite decide_True by done.
  destruct (IH (drop (Z.to_nat n) p) w1) as (err & w2 & k & -> & Hr2 & Hall).
  { rewrite length_drop. unfold p in *. simpl in *. lia. }
  exists err, w2, (Z.to_nat n + k)%nat. split; [done|]. rewrite Hr2, Hrec, <- app_assoc.
  assert (take (Z.to_nat n + k) p = take (Z.to_nat n) p ++ take k (drop (Z.to_nat n) p)) as ->.
  { rewrite <- (take_drop (Z.to_nat n) p) at 1. rewrite take_app_add'; [done|]. rewrite length_take. lia. }
  split; [done|]. intros He. by rewrite (Hall He), take_drop.
Qed.

(** Every TCP client can find the other listeners: a connection is
    greeted with 25 bytes from which a client reads the configured ports,
    each with a flag that says whether it is in use, modulo 2^32 and so
    exactly when they fit.  Writing the greeting always comes to an end;
    what the client has then is a prefix of it, and all of it unless the
    write failed. *)
Lemma discovery_banner_delivered ports (w : W) :
  ∃ err w' k, greet true ports w = Some (WEnd err, w')
    ∧ received w' = received w ++ take k (tcpDiscoveryBanner ports)
    ∧ (err = None → received w' = received w ++ tcpDiscoveryBanner ports)
    ∧ length (tcpDiscoveryBanner ports) = 25%nat
    ∧ read_banner (tcpDiscoveryBanner ports)
        = Some ((λ port, bool_decide (0 < port)) <$> ports_list ports, map_ports uint32 ports)
    ∧ (Forall (λ port, 0 ≤ port < 2 ^ 32) (ports_list ports) → map_ports uint32 ports = ports).
Proof.
  destruct (writeAll_delivers (length (tcpDiscoveryBanner ports)) (tcpDiscoveryBanner ports) w) as (err & w' & k & Ew & Hr & Hall); [done|].
  exists err, w', k. destruct (read_tcpDiscoveryBanner ports) as [Hlen Hread]. split_and!; [|done| |done|done|].
  - unfold greet. cbn [negb]. cbv zeta. by rewrite Ew.
  - intros He. by rewrite Hr, (Hall He).
  - destruct ports as [p1 p2 p3 p4 p5 p6]. unfold ports_list. rewrite !Forall_cons. intros (H1 & H2 & H3 & H4 & H5 & H6 & _).
    unfold map_ports, uint32. cbn. by rewrite !wrap_unsigned_id.
Qed.
End writers.

(** ** Sessions of HTTP connections *)

Section http.
Context {E : Env} {C : Codec} {App : EventAppender} (h : Handler).

Lemma handleHTTP_scopes c connectionID body s w status payload s' w' :
  handleHTTP h c (Some connectionID) body s w = (Ok (status, payload, s'), w') →
  ∃ scope, s' = <[connectionID := scope]> s.
Proof.
  unfold handleHTTP. intros ([[[[responses next] st] sent] count] & w1 & _ & Hk)%bind_ok.
  destruct (cbor_responses responses) as [encoded|]; [|injection Hk as _ _ <- _; eauto].
  apply bind_ok in Hk as (u & w2 & _ & Hk). injection Hk as _ _ <- _. eauto.
Qed.

(** Identifiers are not shared, and every session has its connection. *)
Record server_ok (s : HTTPServer) : Prop := {
  sv_ids : ∀ conn conn' id, hs_ids s !! conn = Some id → hs_ids s !! conn' = Some id → conn = conn';
  sv_nonblank : ∀ conn id, hs_ids s !! conn = Some id → TrimSpace id ≠ ""%string;
  sv_scopes : ∀ id, is_Some (hs_scopes s !! id) → ∃ conn, hs_ids s !! conn = Some id }.

Lemma nonblank_id id : TrimSpace id ≠ ""%string → HTTPConnectionIDFromContext (Some id) = Some id.
Proof. unfold HTTPConnectionIDFromContext. intros Hid. rewrite decide_False; [done|]. by intros ->. Qed.

Lemma http_step_ok e s s' : http_step h e s s' → server_ok s → server_ok s'.
Proof.
  intros Hs [Hids Hblank Hsc]. destruct Hs as [conn cid ids ids' s w w' Hnew Hc Hb Hfresh|conn cid body st pl ids s s' w w' Hcid Hh|conn state ids s w|];
    cbn [hs_ids hs_scopes] in *; unfold scopes, connIDs in *; [| | |by constructor].
  - unfold ConnContext in Hc. apply bind_ok in Hc as (id & w1 & _ & Hc). injection Hc as -> <- _. constructor; cbn [hs_ids hs_scopes]; unfold scopes, connIDs in *.
    + intros c c' i [(<- & <-)|[Hne Hl]]%lookup_insert_Some [(<- & Ei)|[Hne' Hl']]%lookup_insert_Some; [done| | |by eapply Hids].
      * by destruct (Hfresh c').
      * subst i. by destruct (Hfresh c).
    + intros c i [(<- & <-)|[Hne Hl]]%lookup_insert_Some; [done|by eapply Hblank].
    + intros i (c & Hl)%Hsc. exists c. rewrite lookup_insert_ne; [done|]. intros ->. congruence.
  - pose proof (Hblank _ _ Hcid) as Hb. rewrite (nonblank_id _ Hb) in Hh. apply handleHTTP_scopes in Hh as [scope ->].
    constructor; cbn [hs_ids hs_scopes]; unfold scopes in *; [done|done|]. intros i [x Hl]. destruct (decide (i = cid)) as [->|Hne]; [by exists conn|].
    apply Hsc. rewrite lookup_insert_ne in Hl by by apply not_eq_sym. by eexists.
  - assert (server_ok (mkHTTPServer ids s w)) as Hsame by by constructor.
    assert (server_ok (mkHTTPServer (delete conn ids)
      (match ids !! conn with Some connectionID => OnHTTPConnectionClosed connectionID s | None => s end) w)) as Hclosed.
    { constructor; cbn [hs_ids hs_scopes]; unfold scopes, connIDs in *.
      - intros c c' i [_ Hl]%lookup_delete_Some [_ Hl']%lookup_delete_Some. by eapply Hids.
      - intros c i [_ Hl]%lookup_delete_Some. by eapply Hblank.
      - intros i Hi. destruct (ids !! conn) as [cid|] eqn:Ec.
        + unfold OnHTTPConnectionClosed in Hi. rewrite decide_False in Hi by by eapply Hblank.
          destruct Hi as [x [Hne Hl]%lookup_delete_Some]. destruct (Hsc i) as [c Hc]; [by eexists|].
          exists c. rewrite lookup_delete_ne; [done|]. intros <-. congruence.
        + destruct (Hsc i Hi) as [c Hc]. exists c. rewrite lookup_delete_ne; [done|]. intros <-. congruence. }
    by destruct state.
Qed.

Definition http_run (s s' : HTTPServer) : Prop := rtc (λ s s', ∃ e, http_step h e s s') s s'.

(** C40: HTTP sessions live exactly as long as their connections.  In every
    reachable state each session belongs to one open connection and no two
    connections share one; a new connection starts without a session, a
    request touches the session of its own connection only, and a
    connection that is closed, or taken over by a WebSocket, leaves none. *)
Theorem http_sessions_follow_connections w0 s e s' :
  http_run (mkHTTPServer ∅ ∅ w0) s → http_step h e s s' →
  server_ok s ∧ server_ok s'
  ∧ match e with
    | HAccept conn => ∃ id, hs_ids s' !! conn = Some id ∧ hs_scopes s' !! id = None
    | HRequest conn _ _ _ => ∀ other id, other ≠ conn → hs_ids s !! other = Some id → hs_scopes s' !! id = hs_scopes s !! id
    | HState conn StateClosed | HState conn StateHijacked =>
        ∀ id, hs_ids s !! conn = Some id → hs_scopes s' !! id = None ∧ hs_ids s' !! conn = None
    | _ => hs_scopes s' = hs_scopes s ∧ hs_ids s' = hs_ids s
    end.
Proof.
  intros Hr Hs.
  assert (server_ok s) as Hok.
  { assert (server_ok (mkHTTPServer ∅ ∅ w0)) as H0.
    { constructor; cbn [hs_ids hs_scopes]; unfold connIDs, scopes; [intros ? ? ? Hl|intros ? ? Hl|intros ? [? Hl]]; by rewrite lookup_empty in Hl. }
    clear Hs. induction Hr as [|? ? ? [e' Hs] _ IH]; [done|]. apply IH. by eapply http_step_ok. }
  split; [done|]. split; [by eapply http_step_ok|]. pose proof Hok as [Hids Hblank Hsc].
  destruct Hs as [conn cid ids ids' s w w' Hnew Hc Hb Hfresh|conn cid body st pl ids s s' w w' Hcid Hh|conn state ids s w|];
    cbn [hs_ids hs_scopes] in *; unfold scopes, connIDs in *; [| | |done].
  - unfold ConnContext in Hc. apply bind_ok in Hc as (id & w1 & _ & Hc). injection Hc as -> <- _. exists cid.
    split; [apply lookup_insert_eq|]. destruct (s !! cid) eqn:El; [|done].
    destruct (Hsc cid) as [other Ho]; [by eexists|]. by destruct (Hfresh other).
  - rewrite (nonblank_id _ (Hblank _ _ Hcid)) in Hh. apply handleHTTP_scopes in Hh as [scope ->].
    intros other id Hne Ho. unfold scopes in *. rewrite lookup_insert_ne; [done|]. intros ->. apply Hne. by eapply Hids.
  - assert (∀ id, ids !! conn = Some id → OnHTTPConnectionClosed id s !! id = None ∧ delete conn ids !! conn = None) as Hclosed.
    { intros id Hid. unfold OnHTTPConnectionClosed. rewrite decide_False by by eapply Hblank. unfold scopes. split; apply lookup_delete_eq. }
    destruct state; cbn [ConnState hs_ids hs_scopes]; unfold connIDs in *; try done; intros id Hid; cbv beta iota zeta; cbn [hs_ids hs_scopes]; rewrite Hid; by apply Hclosed.
Qed.
End http.
