(* ===== verification/ProcessSpec.v ===== *)
(** * ProcessSpec: the supervision of the process

    Every run of the process is finite, and it can rest only while it serves
    or once it has exited: a failure or a signal always leads to the exit. *)

From Stdlib Require Import ZArith Lia.
From stdpp Require Import strings.
From S2P Require Import Prelude GoLib GoTime GoDuration Domain Database Effects OutboxRepo OutboxService AuthRepo.
From S2P Require Import AuthService ClientRepo FriendRepo RoomRepo ClientService RoomService Push Config Dsn Rpc.
From S2P Require Import Handler Runtime Process.

Local Open Scope Z_scope.

(** ** Lists of goroutines *)

Lemma elem_of_insert {A} (l : list A) i x y : y ∈ <[i := x]> l → y = x ∨ y ∈ l.
Proof.
  intros [j Hj]%list_elem_of_lookup. apply list_lookup_insert_Some in Hj as [(-> & -> & _)|[_ Hj]]; [by left|].
  right. by eapply list_elem_of_lookup_2.
Qed.

Lemma elem_of_alter {A} (f : A → A) (l : list A) i y : y ∈ alter f i l → ∃ x, x ∈ l ∧ (y = x ∨ y = f x).
Proof.
  intros [j Hj]%list_elem_of_lookup. rewrite list_lookup_alter in Hj. case_decide as Hd.
  - apply fmap_Some in Hj as (x & Hx & ->). exists x. split; [by eapply list_elem_of_lookup_2|by right].
  - exists y. split; [by eapply list_elem_of_lookup_2|by left].
Qed.

Lemma fmap_alter_same {A B} (g : A → B) (f : A → A) (l : list A) i :
  (∀ x, g (f x) = g x) → g <$> alter f i l = g <$> l.
Proof. intros Hf. revert i. induction l as [|x l IH]; intros [|i]; cbn; [done..|by rewrite Hf|f_equal; apply IH]. Qed.

Lemma fmap_insert_same {A B} (g : A → B) (l : list A) i x y :
  l !! i = Some x → g y = g x → g <$> <[i := y]> l = g <$> l.
Proof.
  intros Hx Hg. rewrite list_fmap_insert, Hg. apply list_insert_id. by rewrite list_lookup_fmap, Hx.
Qed.

(** The sum of a weight over a list. *)
Definition total {A} (weight : A → nat) (l : list A) : nat := sum_list (weight <$> l).
#[global] Arguments total : simpl never.

Lemma total_cons {A} (weight : A → nat) x l : total weight (x :: l) = (weight x + total weight l)%nat.
Proof. done. Qed.

Lemma total_insert {A} (weight : A → nat) l i x y :
  l !! i = Some x → (total weight (<[i := y]> l) + weight x = total weight l + weight y)%nat.
Proof.
  revert i. induction l as [|z l IH]; intros [|i]; [done..| |].
  - intros [= ->]. change (<[0%nat := y]> (x :: l)) with (y :: l). rewrite !total_cons. lia.
  - change (<[S i := y]> (z :: l)) with (z :: <[i := y]> l). intros Hi%IH. rewrite !total_cons. lia.
Qed.

Lemma total_app {A} (weight : A → nat) l k : total weight (l ++ k) = (total weight l + total weight k)%nat.
Proof. induction l as [|x l IH]; [done|]. cbn [app]. rewrite !total_cons, IH. lia. Qed.

(** ** What is left to do *)

Definition loop_weight (l : listener) : nat :=
  match ln_loop l with Starting => 3 | Serving => 2 | Failing _ => 1 | Returned => 0 end.
Definition worker_weight (wk : worker_at) : nat :=
  match wk with Working => 3 | Failed _ => 2 | Sending _ => 1 | Stopped => 0 end.
Definition run_weight (run : run_at) : nat :=
  match run with
  | RunStart => 14 | RunListening _ => 13 | RunHTTP ports => 2 + 4 * length ports
  | RunSelect => 2 | RunReturns _ => 1 | RunDone => 0
  end.
Definition main_weight (m : main_at) : nat :=
  match m with
  | Selecting => 9 | Stopping _ => 8 | Locking => 7 | Closing tcp http _ => 1 + length tcp + 2 * length http
  | Draining http _ => 2 + 2 * length http | Exited _ => 0
  end.

Definition runtime_weight (r : Runtime) : nat :=
  run_weight (rt_run r) + total loop_weight (rt_tcpListeners r) + total loop_weight (rt_httpServers r).
Definition weight (p : Process) : nat :=
  (if pr_cancelled p then 0 else 1) + total worker_weight (pr_workers p) + runtime_weight (pr_runtime p) + main_weight (pr_main p).

Section spec.
Variable cfg : AppConfiguration.

Definition tcp_addr : string := JoinHostPort (app_Host cfg) (TCPPort (app_Ports cfg)).
Definition http_ports : list Z := uniquePorts (HTTPPort (app_Ports cfg)) (WSPort (app_Ports cfg)).
Definition http_addr (port : Z) : string := JoinHostPort (app_Host cfg) port.

(** What [startAll] has started when the loop over the ports has come to
    [ports]. *)
Definition has_started (done : list Z) (r : Runtime) : Prop :=
  ln_addr <$> rt_tcpListeners r = [tcp_addr] ∧ ln_addr <$> rt_httpServers r = http_addr <$> done.
Definition has_nothing (r : Runtime) : Prop := rt_tcpListeners r = [] ∧ rt_httpServers r = [].

Definition shape (r : Runtime) : Prop :=
  match rt_run r with
  | RunStart => has_nothing r
  | RunListening addr => has_nothing r ∧ addr = tcp_addr
  | RunHTTP ports => ports ≠ [] ∧ ∃ done, http_ports = done ++ ports ∧ has_started done r
  | RunSelect => has_started http_ports r
  | RunReturns _ | RunDone => has_nothing r ∨ has_started http_ports r
  end.

Lemma http_ports_length : (1 ≤ length http_ports ≤ 2)%nat.
Proof. unfold http_ports, uniquePorts. case_decide; simpl; lia. Qed.

Lemma shape_bounded r : shape r → (length (rt_tcpListeners r) ≤ 1 ∧ length (rt_httpServers r) ≤ 2)%nat.
Proof.
  pose proof http_ports_length as Hp.
  assert (∀ done, (length done ≤ 2)%nat → has_started done r →
    (length (rt_tcpListeners r) ≤ 1 ∧ length (rt_httpServers r) ≤ 2)%nat) as Hs.
  { intros done Hd [Ht Hh]. apply (f_equal length) in Ht, Hh. rewrite !length_fmap in Ht. rewrite !length_fmap in Hh. simpl in Ht. lia. }
  assert (has_nothing r → (length (rt_tcpListeners r) ≤ 1 ∧ length (rt_httpServers r) ≤ 2)%nat) as Hn.
  { intros [-> ->]. simpl. lia. }
  unfold shape. destruct (rt_run r).
  - exact Hn.
  - intros [H _]. by apply Hn.
  - intros (_ & done & Eq & H). eapply Hs; [|exact H]. rewrite Eq, length_app in Hp. lia.
  - apply Hs. lia.
  - intros [H|H]; [by apply Hn|]. eapply Hs; [|exact H]. lia.
  - intros [H|H]; [by apply Hn|]. eapply Hs; [|exact H]. lia.
Qed.

(** Only the addresses of the listeners matter to it. *)
Lemma shape_ext r r' :
  ln_addr <$> rt_tcpListeners r' = ln_addr <$> rt_tcpListeners r →
  ln_addr <$> rt_httpServers r' = ln_addr <$> rt_httpServers r →
  rt_run r' = rt_run r → shape r → shape r'.
Proof.
  intros Ht Hh Hr.
  assert (has_nothing r → has_nothing r') as Hn.
  { intros [Et Eh]. rewrite Et in Ht. rewrite Eh in Hh. split; by eapply fmap_nil_inv. }
  assert (∀ done, has_started done r → has_started done r') as Hs by (intros done [? ?]; split; congruence).
  unfold shape. rewrite Hr. destruct (rt_run r).
  - exact Hn.
  - intros [H ->]. split; [by apply Hn|done].
  - intros (Hp & started & Eq & H). split; [done|]. exists started. split; [done|by apply Hs].
  - apply Hs.
  - intros [H|H]; [left; by apply Hn|right; by apply Hs].
  - intros [H|H]; [left; by apply Hn|right; by apply Hs].
Qed.

(** ** The goroutine of a listener *)

Definition returns_ok (returns : error → listener → option listener) : Prop :=
  ∀ err l l', returns err l = Some l' →
    ln_addr l' = ln_addr l ∧ ln_closed l' = ln_closed l ∧ (loop_weight l' < loop_weight l)%nat
    ∧ (ln_loop l' = Returned → ln_closed l = true).

Lemma accept_returns_ok : returns_ok accept_returns.
Proof.
  intros err l l'. unfold accept_returns, loop_weight. destruct (ln_loop l) eqn:El; try done.
  case_bool_decide as Hb; [|done]. intros [= <-]. destruct (Is err net_ErrClosed); cbn; split_and!; (done || lia || auto).
Qed.

Lemma serve_returns_ok : returns_ok serve_returns.
Proof.
  intros err l l'. unfold serve_returns, loop_weight. destruct (ln_loop l) eqn:El; try done.
  - destruct (Is err http_ErrServerClosed); destruct (ln_closed l) eqn:Ec; cbn; try done; intros [= <-]; cbn; split_and!; (done || lia).
  - case_bool_decide as Hb; [|done]. intros [= <-]. destruct (Is err http_ErrServerClosed); cbn; split_and!; (done || lia || auto).
Qed.

(** One of the two lists and its update. *)
Definition list_of (http : bool) : Runtime → list listener := if http then rt_httpServers else rt_tcpListeners.
Definition set_list (http : bool) : list listener → Runtime → Runtime := if http then set_http else set_tcp.

Definition all_listeners (r : Runtime) : list listener := rt_tcpListeners r ++ rt_httpServers r.

Lemma all_set_list http ls r l : l ∈ all_listeners (set_list http ls r) → l ∈ ls ∨ l ∈ all_listeners r.
Proof. unfold all_listeners. rewrite !elem_of_app. destruct http; cbn; tauto. Qed.

Lemma list_of_all http r l : l ∈ list_of http r → l ∈ all_listeners r.
Proof. unfold all_listeners. destruct http; cbn; rewrite elem_of_app; auto. Qed.

Lemma set_list_addr http ls r : ln_addr <$> ls = ln_addr <$> list_of http r → shape r → shape (set_list http ls r).
Proof. intros H. apply shape_ext; by destruct http. Qed.

Lemma set_list_weight http ls r :
  (runtime_weight (set_list http ls r) + total loop_weight (list_of http r) = runtime_weight r + total loop_weight ls)%nat.
Proof.
  unfold runtime_weight. destruct http; cbn [set_list list_of set_http set_tcp rt_run rt_tcpListeners rt_httpServers]; lia.
Qed.

(** What a step of such a goroutine does to the runtime. *)
Lemma loop_step_spec http returns i a r r' :
  returns_ok returns → loop_step returns (list_of http r) (set_list http) i a r = Some r' →
  (shape r → shape r') ∧ rt_run r' = rt_run r ∧ (runtime_weight r' < runtime_weight r)%nat
  ∧ (rt_errCh r' = None → rt_errCh r = None)
  ∧ (∀ l', l' ∈ all_listeners r' → l' ∈ all_listeners r ∨
       ∃ l, l ∈ all_listeners r ∧ ln_closed l' = ln_closed l
         ∧ (ln_loop l' = Returned → ln_closed l = true ∨ rt_errCh r' ≠ None)).
Proof.
  intros Hok. unfold loop_step. destruct (list_of http r !! i) as [l|] eqn:El; [|done]. cbn.
  assert (l ∈ all_listeners r) as Hl by (eapply list_of_all, list_elem_of_lookup_2, El).
  assert (∀ l', ln_addr l' = ln_addr l → ln_closed l' = ln_closed l → (loop_weight l' < loop_weight l)%nat →
    let r1 := set_list http (<[i := l']> (list_of http r)) r in
    (shape r → shape r1) ∧ rt_run r1 = rt_run r ∧ (runtime_weight r1 < runtime_weight r)%nat ∧ rt_errCh r1 = rt_errCh r
    ∧ ∀ x, x ∈ all_listeners r1 → x = l' ∨ x ∈ all_listeners r) as Hput.
  { intros l' Ha Hc Hw. cbv zeta. split_and!.
    - apply set_list_addr. by apply (fmap_insert_same _ _ _ l).
    - by destruct http.
    - pose proof (set_list_weight http (<[i := l']> (list_of http r)) r). pose proof (total_insert loop_weight _ _ l l' El). lia.
    - by destruct http.
    - intros x [Hx|Hx]%all_set_list; [|by right]. apply elem_of_insert in Hx as [->|Hx]; [by left|].
      right. by eapply list_of_all. }
  destruct a as [|err|].
  - destruct (ln_loop l) eqn:Elp; try done. destruct (ln_closed l) eqn:Ec; [done|]. intros [= <-].
    destruct (Hput (ln_at l Serving)) as (H1 & H2 & H3 & H4 & H5); [done..|unfold loop_weight; rewrite Elp; cbn; lia|].
    split_and!; [done..|by rewrite H4|]. intros x [->|Hx]%H5; [|by left]. right. by exists l.
  - destruct (returns err l) as [l'|] eqn:Er; [|done]. intros [= <-]. destruct (Hok _ _ _ Er) as (Ha & Hc & Hw & Hret).
    destruct (Hput l') as (H1 & H2 & H3 & H4 & H5); [done..|].
    split_and!; [done..|by rewrite H4|]. intros x [->|Hx]%H5; [|by left]. right. exists l. split_and!; [done..|]. auto.
  - destruct (ln_loop l) as [| |err|] eqn:Elp; try done. intros [= <-].
    destruct (Hput (ln_at l Returned)) as (H1 & H2 & H3 & H4 & H5); [done..|unfold loop_weight; rewrite Elp; cbn; lia|].
    set (r1 := set_list _ _ _) in *.
    assert (rt_errCh (reportError err r1) ≠ None) as He by (unfold reportError; by destruct (rt_errCh r1) eqn:E1; cbn; rewrite ?E1).
    assert (all_listeners (reportError err r1) = all_listeners r1) as Eall by (unfold reportError; by destruct (rt_errCh r1)).
    assert (rt_run (reportError err r1) = rt_run r1) as Erun by (unfold reportError; by destruct (rt_errCh r1)).
    split_and!; [|by rewrite Erun| |done|].
    + intros Hs. apply (shape_ext r1); [unfold reportError; by destruct (rt_errCh r1)..|by apply H1].
    + assert (runtime_weight (reportError err r1) = runtime_weight r1) as -> by (unfold reportError; by destruct (rt_errCh r1)). done.
    + rewrite Eall. intros x [->|Hx]%H5; [|by left]. right. exists l. split_and!; [done..|]. by right.
Qed.
(** ** The process *)

(** Something has happened that [main] reacts to, or has reacted to. *)
Definition alarmed (p : Process) : Prop := pr_cancelled p = true ∨ pr_errs p ≠ None ∨ pr_main p ≠ Selecting.

Record process_ok (p : Process) : Prop := {
  ok_shape : shape (pr_runtime p);
  ok_workers : length (pr_workers p) = 3%nat;
  ok_run : rt_run (pr_runtime p) = RunDone ∨ rt_run (pr_runtime p) = RunReturns None → alarmed p;
  ok_stopped : Stopped ∈ pr_workers p → alarmed p;
  ok_returned : ∀ l, l ∈ all_listeners (pr_runtime p) → ln_loop l = Returned →
    alarmed p ∨ rt_errCh (pr_runtime p) ≠ None ∨ ∃ err, rt_run (pr_runtime p) = RunReturns (Some err);
  ok_closed : ∀ l, l ∈ all_listeners (pr_runtime p) → ln_closed l = true → pr_main p ≠ Selecting }.

(** No goroutine but [main] takes anything back that [main] reacts to. *)
Definition keeps_alarm (p p' : Process) : Prop :=
  pr_cancelled p' = pr_cancelled p ∧ pr_main p' = pr_main p ∧ (pr_errs p' = None → pr_errs p = None).

Lemma keeps_alarmed p p' : keeps_alarm p p' → alarmed p → alarmed p'.
Proof. unfold alarmed. intros (-> & -> & He) [?|[Hn|?]]; [by left| |by right; right]. right. left. by intros ?%He. Qed.

Lemma loop_event_ok http returns i a p r' :
  returns_ok returns → loop_step returns (list_of http (pr_runtime p)) (set_list http) i a (pr_runtime p) = Some r' →
  process_ok p → process_ok (on_runtime r' p) ∧ (weight (on_runtime r' p) < weight p)%nat.
Proof.
  intros Hok Hs [H1 H2 H3 H4 H5 H6]. destruct (loop_step_spec _ _ _ _ _ _ Hok Hs) as (Hsh & Hr & Hw & He & Hl).
  destruct p as [c errs r ws m]. cbn in *. split; [constructor; cbn|unfold weight; cbn; lia].
  - by apply Hsh.
  - done.
  - by rewrite Hr.
  - done.
  - intros l Hin Hret. rewrite Hr. destruct (Hl l Hin) as [Hin'|(l0 & Hin' & _ & Hret')].
    + destruct (H5 l Hin' Hret) as [?|[Hn|?]]; [by left| |by right; right]. right. left. by intros ?%He.
    + destruct (Hret' Hret) as [Hc|?]; [|by right; left]. left. right. right. by eapply H6.
  - intros l Hin Hc. destruct (Hl l Hin) as [Hin'|(l0 & Hin' & Ec & _)]; [by eapply H6|]. eapply H6; [exact Hin'|congruence].
Qed.

Lemma send_err_spec err p p' :
  send_err err p = Some p' → pr_errs p = None ∧ p' = on_errs (Some err) p.
Proof. unfold send_err. destruct (pr_errs p); [done|]. by intros [= <-]. Qed.

Lemma worker_event_ok k a p p' :
  worker_step k a p = Some p' → process_ok p → process_ok p' ∧ (weight p' < weight p)%nat.
Proof.
  intros Hs [H1 H2 H3 H4 H5 H6]. unfold worker_step in Hs. destruct (pr_workers p !! k) as [wk|] eqn:Ek; [|done]. cbn in Hs.
  assert (∃ wk', (worker_weight wk' < worker_weight wk)%nat ∧ keeps_alarm p p' ∧ pr_runtime p' = pr_runtime p
    ∧ pr_workers p' = <[k := wk']> (pr_workers p) ∧ (wk' = Stopped → alarmed p')) as (wk' & Hw & Hk & Er & Ew & Hst).
  { destruct wk as [|err|err|], a; try done.
    - exists (Failed err). destruct (pr_cancelled p) eqn:Ec; case_decide; try done; injection Hs as <-; (split; [simpl; lia|]); done.
    - injection Hs as <-. destruct (pr_cancelled p) eqn:Ec; [exists Stopped|exists (Sending err)]; (split; [simpl; lia|]); [|done].
      split_and!; [done..|]. intros _. by left.
    - apply send_err_spec in Hs as [He ->]. exists Stopped. split; [simpl; lia|]. split_and!; [by split_and!|done..|].
      intros _. right. by left. }
  pose proof (total_insert worker_weight _ _ _ wk' Ek) as Ht.
  split; [constructor|unfold weight; destruct Hk as (-> & -> & _); rewrite Er, Ew; lia].
  - by rewrite Er.
  - by rewrite Ew, length_insert.
  - rewrite Er. intros H. by eapply keeps_alarmed, H3.
  - rewrite Ew. intros [Hx|Hx]%elem_of_insert; [by apply Hst|by eapply keeps_alarmed, H4].
  - rewrite Er. intros l Hin Hret. destruct (H5 l Hin Hret) as [Ha|?]; [left; by eapply keeps_alarmed, Ha|by right].
  - rewrite Er. destruct Hk as (_ & -> & _). exact H6.
Qed.

(** The goroutine of [Run] starts listeners, and passes errors on. *)
Lemma run_keeps_ok p p' :
  process_ok p → keeps_alarm p p' → pr_workers p' = pr_workers p → shape (pr_runtime p') →
  (rt_run (pr_runtime p') = RunDone ∨ rt_run (pr_runtime p') = RunReturns None → alarmed p') →
  (∀ l, l ∈ all_listeners (pr_runtime p') →
     l ∈ all_listeners (pr_runtime p) ∨ ln_loop l ≠ Returned ∧ ln_closed l = false) →
  (rt_errCh (pr_runtime p) ≠ None ∨ (∃ err, rt_run (pr_runtime p) = RunReturns (Some err)) →
     alarmed p' ∨ rt_errCh (pr_runtime p') ≠ None ∨ ∃ err, rt_run (pr_runtime p') = RunReturns (Some err)) →
  process_ok p'.
Proof.
  intros [H1 H2 H3 H4 H5 H6] Hk Ew Hsh Hrun Hl Hch. constructor; [done|by rewrite Ew|done| | |].
  - rewrite Ew. intros Hx. by eapply keeps_alarmed, H4.
  - intros l Hin Hret. destruct (Hl l Hin) as [Hin'|[? _]]; [|done].
    destruct (H5 l Hin' Hret) as [Ha|Hr]; [left; by eapply keeps_alarmed, Ha|by apply Hch].
  - intros l Hin Hc. destruct Hk as (_ & -> & _). destruct (Hl l Hin) as [Hin'|[_ ?]]; [by eapply H6|congruence].
Qed.

Lemma run_event_ok a p p' :
  run_step cfg a p = Some p' → process_ok p → process_ok p' ∧ (weight p' < weight p)%nat.
Proof.
  intros Hs Hp. pose proof (ok_shape p Hp) as Hsh. pose proof http_ports_length as Hlen.
  unfold run_step in Hs. destruct p as [c errs [tcp http ch at_] ws m]. cbn in Hs, Hsh.
  destruct at_ as [|addr|[|port rest]| |[err|]|], a as [oe| | | | |]; cbn in Hs, Hsh; try done.
  - injection Hs as <-. unfold listens. destruct oe as [err|]; (split; [|unfold weight; cbn; lia]);
      (eapply run_keeps_ok; [exact Hp|done|done| | | |]); cbn.
    + by left.
    + by intros [?|?].
    + intros l Hl. by left.
    + intros _. right. right. by eexists.
    + done.
    + by intros [?|?].
    + intros l Hl. by left.
    + intros [?|[? ?]]; [by right; left|done].
  - injection Hs as <-. destruct Hsh as [[Et Eh] ->]. cbn in Et, Eh. subst tcp http.
    split; [|unfold weight, runtime_weight, keeps, total; cbn; fold http_ports; lia].
    eapply run_keeps_ok; [exact Hp|done|done| | | |]; cbn.
    + split; [unfold uniquePorts; by case_decide|]. by exists [].
    + by intros [?|?].
    + intros l [->|?%not_elem_of_nil]%elem_of_cons; [by right|done].
    + intros [?|[? ?]]; [by right; left|done].
  - injection Hs as <-. destruct Hsh as (_ & started & Eq & Et & Eh). cbn in Et, Eh.
    split.
    + eapply run_keeps_ok; [exact Hp|done|done| | | |]; cbn.
      * assert (has_started (started ++ [port]) (startHTTPServer cfg port rest (mkRuntime tcp http ch (RunHTTP (port :: rest))))) as Hst.
        { split; [done|]. cbn. by rewrite !fmap_app, Eh. }
        destruct rest as [|port' rest]; cbn; [by rewrite Eq|]. split; [done|]. exists (started ++ [port]).
        split; [by rewrite Eq, <- app_assoc|done].
      * destruct rest; by intros [?|?].
      * intros l. unfold all_listeners. cbn. rewrite !elem_of_app, list_elem_of_singleton.
        intros [?|[?| ->]]; [left; by left|left; by right|by right].
      * intros [?|[? ?]]; [by right; left|done].
    + unfold weight, runtime_weight. cbn. rewrite total_app. change (total loop_weight [mkListener (JoinHostPort (app_Host cfg) port) false Starting]) with 3%nat.
      destruct rest; cbn; lia.
  - destruct c; [|done]. injection Hs as <-. split; [|unfold weight, runtime_weight; cbn; lia].
    eapply run_keeps_ok; [exact Hp|done|done| | | |]; cbn.
    + by right.
    + intros _. by left.
    + intros l Hl. by left.
    + intros _. left. by left.
  - destruct ch as [err|]; [|done]. injection Hs as <-. split; [|unfold weight, runtime_weight; cbn; lia].
    eapply run_keeps_ok; [exact Hp|done|done| | | |]; cbn.
    + by right.
    + by intros [?|?].
    + intros l Hl. by left.
    + intros _. right. right. by eexists.
  - apply send_err_spec in Hs as [He ->]. cbn in He. subst errs. split; [|unfold weight, runtime_weight; cbn; lia].
    eapply run_keeps_ok; [exact Hp|by split_and!|done| | | |]; cbn.
    + done.
    + intros _. right. by left.
    + intros l Hl. by left.
    + intros _. left. right. by left.
  - injection Hs as <-. split; [|unfold weight, runtime_weight; cbn; lia].
    assert (alarmed (mkProcess c errs (mkRuntime tcp http ch RunDone) ws m)) as Ha.
    { pose proof (ok_run _ Hp) as Hr. by apply Hr; right. }
    eapply run_keeps_ok; [exact Hp|done|done| | | |]; cbn.
    + done.
    + by intros _.
    + intros l Hl. by left.
    + intros _. by left.
Qed.
(** Once [main] has left its [select], only the lists matter. *)
Lemma main_keeps_ok p p' :
  process_ok p → pr_main p' ≠ Selecting → pr_workers p' = pr_workers p → shape (pr_runtime p') → process_ok p'.
Proof.
  intros [_ H2 _ _ _ _] Hm Ew Hsh. assert (alarmed p') as Ha by (right; by right).
  constructor; [done|by rewrite Ew|done|done|by left|done].
Qed.

Lemma close_shape http i r :
  shape r → shape (set_list http (alter ln_close i (list_of http r)) r)
    ∧ runtime_weight (set_list http (alter ln_close i (list_of http r)) r) = runtime_weight r.
Proof.
  intros Hs. split; [apply set_list_addr; [by apply fmap_alter_same|done]|].
  pose proof (set_list_weight http (alter ln_close i (list_of http r)) r) as Hw.
  assert (total loop_weight (alter ln_close i (list_of http r)) = total loop_weight (list_of http r)) as Et
    by (unfold total; by rewrite (fmap_alter_same loop_weight)). lia.
Qed.

Lemma main_event_ok a p p' :
  main_step a p = Some p' → process_ok p → process_ok p' ∧ (weight p' < weight p)%nat.
Proof.
  intros Hs Hp. pose proof (ok_shape p Hp) as Hsh. pose proof (shape_bounded _ Hsh) as [Ht Hh].
  unfold main_step, select_step, shutdown_step in Hs. destruct p as [c errs r ws m]. cbn in Hs, Hsh, Ht, Hh.
  destruct m as [|err| |[|i tcp] [|j http] se|http se|st], a; cbn in Hs; try done.
  - destruct errs; [|done]. injection Hs as <-. split; [by eapply main_keeps_ok|unfold weight; cbn; lia].
  - destruct c; [|done]. injection Hs as <-. split; [by eapply main_keeps_ok|unfold weight; cbn; lia].
  - injection Hs as <-. split; [by eapply main_keeps_ok|unfold weight; cbn; destruct c; lia].
  - injection Hs as <-. split; [by eapply main_keeps_ok|]. unfold weight. cbn. rewrite !length_seq. lia.
  - injection Hs as <-. split; [by eapply main_keeps_ok|unfold weight; cbn; lia].
  - injection Hs as <-. destruct (close_shape true j r Hsh) as [Hc Hw]. cbn in Hc, Hw.
    split; [by eapply main_keeps_ok|unfold weight; cbn; rewrite Hw; lia].
  - injection Hs as <-. destruct (close_shape false i r Hsh) as [Hc Hw]. cbn in Hc, Hw.
    split; [by eapply main_keeps_ok|unfold weight; cbn; rewrite Hw; lia].
  - injection Hs as <-. destruct (close_shape false i r Hsh) as [Hc Hw]. cbn in Hc, Hw.
    split; [by eapply main_keeps_ok|unfold weight; cbn; rewrite Hw; lia].
  - injection Hs as <-. split; [by eapply main_keeps_ok|unfold weight; cbn; lia].
Qed.

Lemma signal_ok p : pr_cancelled p = false → process_ok p → process_ok (cancel p) ∧ (weight (cancel p) < weight p)%nat.
Proof.
  intros Ec [H1 H2 H3 H4 H5 H6]. assert (alarmed (cancel p)) as Ha by by left.
  split; [constructor; cbn; auto|unfold weight; cbn; rewrite Ec; lia].
Qed.

Lemma step_ok e p p' : step cfg e p = Some p' → process_ok p → process_ok p' ∧ (weight p' < weight p)%nat.
Proof.
  unfold step. destruct (exited p); [done|]. destruct e as [|a|i a|i a|k a|a].
  - destruct (pr_cancelled p) eqn:Ec; [done|]. intros [= <-]. by apply signal_ok.
  - apply run_event_ok.
  - destruct (loop_step _ _ _ _ _ _) as [r'|] eqn:Es; [|done]. intros [= <-].
    exact (loop_event_ok false _ _ _ _ _ accept_returns_ok Es).
  - destruct (loop_step _ _ _ _ _ _) as [r'|] eqn:Es; [|done]. intros [= <-].
    exact (loop_event_ok true _ _ _ _ _ serve_returns_ok Es).
  - apply worker_event_ok.
  - apply main_event_ok.
Qed.

Lemma run_ok es : ∀ p p', run cfg es p = Some p' → process_ok p → process_ok p' ∧ (weight p' + length es ≤ weight p)%nat.
Proof.
  induction es as [|e es IH]; intros p p'; cbn.
  - intros [= <-] Hp. split; [done|lia].
  - destruct (step cfg e p) as [p1|] eqn:Es; [|done]. cbn. intros Hr Hp.
    destruct (step_ok _ _ _ Es Hp) as [Hp1 Hw1]. destruct (IH _ _ Hr Hp1) as [? ?]. split; [done|lia].
Qed.

Lemma started_ok : process_ok started.
Proof.
  constructor; cbn; try done.
  - by intros [?|?].
  - intros [?|[?|[?|?%not_elem_of_nil]%elem_of_cons]%elem_of_cons]%elem_of_cons; done.
  - by intros l ?%not_elem_of_nil.
  - by intros l ?%not_elem_of_nil.
Qed.

(** ** Rest *)

(** The process as it is meant to be: every listener serves, every loop
    works, nothing has failed. *)
Definition serving (p : Process) : Prop :=
  p = mkProcess false None
        (mkRuntime [mkListener tcp_addr false Serving]
           ((λ port, mkListener (http_addr port) false Serving) <$> http_ports) None RunSelect)
        [Working; Working; Working] Selecting.

(** The events that need nobody but the goroutines: no signal, no failure. *)
Definition own_event (e : event) : bool :=
  match e with
  | ESignal | EWorker _ (WReturns _) | ERun (RListens (Some _)) => false
  | EAccept _ (LReturns err) => Is err net_ErrClosed
  | EServe _ (LReturns err) => Is err http_ErrServerClosed
  | _ => true
  end.

Definition goes_on (p : Process) : Prop := ∃ e p', own_event e = true ∧ step cfg e p = Some p'.

Lemma all_or_one {A} (P Q : A → Prop) (l : list A) :
  (∀ x, x ∈ l → P x ∨ Q x) → (∀ x, x ∈ l → P x) ∨ ∃ i x, l !! i = Some x ∧ Q x.
Proof.
  induction l as [|x l IH]; intros H; [left; by intros x ?%not_elem_of_nil|].
  destruct (H x) as [Hx|Hx]; [by left| |right; by exists 0%nat, x].
  destruct IH as [Hl|(i & y & Hi & Hy)]; [intros y Hy; apply H; by right| |right; by exists (S i), y].
  left. intros y [->|Hy]%elem_of_cons; [done|by apply Hl].
Qed.

Lemma all_serving (ls : list listener) :
  (∀ l, l ∈ ls → ln_loop l = Serving ∧ ln_closed l = false) →
  ls = (λ addr, mkListener addr false Serving) <$> (ln_addr <$> ls).
Proof.
  induction ls as [|[a c lp] ls IH]; intros H; [done|]. cbn.
  destruct (H (mkListener a c lp)) as [E1 E2]; [by left|]. cbn in E1, E2. subst. f_equal. apply IH.
  intros l Hl. apply H. by right.
Qed.

(** A listener that does not serve can go on, as long as none is closed. *)
Lemma listener_goes_on http p i l :
  exited p = false → list_of http (pr_runtime p) !! i = Some l → ln_closed l = false →
  ln_loop l ≠ Serving → ln_loop l ≠ Returned → goes_on p.
Proof.
  intros Hex Hi Hc Hs Hr.
  assert (∃ a, (a = LListens ∨ a = LReports) ∧ ∀ returns, ∃ r',
    loop_step returns (list_of http (pr_runtime p)) (set_list http) i a (pr_runtime p) = Some r') as (a & Ha & Hst).
  { unfold loop_step. rewrite Hi. cbn. destruct (ln_loop l) as [| |err|]; try done.
    - exists LListens. split; [by left|]. intros _. rewrite Hc. by eexists.
    - exists LReports. split; [by right|]. intros _. by eexists. }
  destruct http.
  - destruct (Hst serve_returns) as [r' Hr']. exists (EServe i a), (on_runtime r' p).
    split; [by destruct Ha as [->| ->]|]. unfold step. rewrite Hex. cbn in Hr'. by rewrite Hr'.
  - destruct (Hst accept_returns) as [r' Hr']. exists (EAccept i a), (on_runtime r' p).
    split; [by destruct Ha as [->| ->]|]. unfold step. rewrite Hex. cbn in Hr'. by rewrite Hr'.
Qed.
Lemma main_goes_on p : pr_main p ≠ Selecting → exited p = false → goes_on p.
Proof.
  intros Hm Hex. assert (∃ a p', main_step a p = Some p') as (a & p' & Hs).
  { unfold main_step, select_step, shutdown_step. destruct p as [c errs r ws m]. cbn in *.
    destruct m as [|err| |[|i tcp] [|j http] se|http se|st]; try done;
      [exists MStops|exists MCopies|exists MExits|exists MBegins|exists (MCloses None)|exists (MCloses None)|exists (MReturns None)];
      by eexists. }
  exists (EMain a), p'. split; [done|]. unfold step. by rewrite Hex.
Qed.

Lemma select_goes_on p : pr_main p = Selecting → pr_cancelled p = true ∨ pr_errs p ≠ None → goes_on p.
Proof.
  intros Hm Ha. assert (exited p = false) as Hex by (unfold exited; by rewrite Hm).
  destruct Ha as [Hc|He].
  - exists (EMain MCancelled). eexists. split; [done|]. unfold step. rewrite Hex. unfold main_step, select_step, shutdown_step. by rewrite Hm, Hc.
  - destruct (pr_errs p) as [err|] eqn:Ee; [|done]. exists (EMain MReceives). eexists. split; [done|].
    unfold step. rewrite Hex. unfold main_step, select_step, shutdown_step. by rewrite Hm, Ee.
Qed.

Lemma run_goes_on p :
  process_ok p → exited p = false → ¬ alarmed p →
  goes_on p ∨ rt_run (pr_runtime p) = RunSelect ∧ rt_errCh (pr_runtime p) = None.
Proof.
  intros Hp Hex Hna. pose proof (ok_shape p Hp) as Hsh. pose proof (ok_run p Hp) as Hr.
  assert (pr_errs p = None) as He by (destruct (pr_errs p) eqn:E; [destruct Hna; right; left; by rewrite E|done]).
  assert ((∃ a p', own_event (ERun a) = true ∧ run_step cfg a p = Some p') → goes_on p) as Hgo.
  { intros (a & p' & Ho & Hs). exists (ERun a), p'. split; [done|]. unfold step. by rewrite Hex. }
  unfold run_step, send_err in Hgo. destruct p as [c errs [tcp http ch at_] ws m]. cbn in *. subst errs.
  destruct at_ as [|addr|[|port rest]| |[err|]|].
  - left. apply Hgo. exists (RListens None). by eexists.
  - left. apply Hgo. exists RKeeps. by eexists.
  - by destruct Hsh.
  - left. apply Hgo. exists RStartsHTTP. by eexists.
  - destruct ch as [err|]; [|by right]. left. apply Hgo. exists RFailed. by eexists.
  - left. apply Hgo. exists RSends. by eexists.
  - destruct Hna. by apply Hr; right.
  - destruct Hna. by apply Hr; left.
Qed.

Lemma worker_goes_on k wk p :
  exited p = false → pr_errs p = None → pr_workers p !! k = Some wk → wk ≠ Working → wk ≠ Stopped → goes_on p.
Proof.
  intros Hex He Hk Hw Hs. assert (∃ a p', own_event (EWorker k a) = true ∧ worker_step k a p = Some p') as (a & p' & Ho & Hst).
  { unfold worker_step. rewrite Hk. cbn. destruct wk as [|err|err|]; try done.
    - exists WChecks. by eexists.
    - exists WSends. eexists. split; [done|]. unfold send_err. cbn. by rewrite He. }
  exists (EWorker k a), p'. split; [done|]. unfold step. by rewrite Hex.
Qed.

Lemma rest p : process_ok p → exited p = true ∨ serving p ∨ goes_on p.
Proof.
  intros Hp. destruct (exited p) eqn:Hex; [by left|right].
  destruct (pr_main p) eqn:Em; [|right; apply main_goes_on; [by rewrite Em|done]..].
  destruct (pr_cancelled p) eqn:Ec; [right; apply select_goes_on; auto|].
  destruct (pr_errs p) as [err|] eqn:Ee; [right; apply select_goes_on; [done|right; by rewrite Ee]|].
  assert (¬ alarmed p) as Hna.
  { unfold alarmed. rewrite Ec, Ee, Em. by intros [?|[?|?]]. }
  destruct (run_goes_on p Hp Hex Hna) as [?|[Hr Hch]]; [by right|].
  destruct Hp as [Hsh Hlen _ Hst Hret Hcl]. destruct p as [c errs [tcp http ch at_] ws m]. cbn in *. subst.
  destruct (all_or_one (λ wk, wk = Working) (λ wk, wk ≠ Working ∧ wk ≠ Stopped) ws) as [Hw|(k & wk & Hk & Hw1 & Hw2)].
  { intros wk Hwk. destruct wk; [by left|by right|by right|]. by destruct Hna; apply Hst. }
  2: { right. by eapply worker_goes_on. }
  assert (∀ h, (∀ l, l ∈ list_of h (mkRuntime tcp http None RunSelect) → ln_loop l = Serving ∧ ln_closed l = false)
    ∨ goes_on (mkProcess false None (mkRuntime tcp http None RunSelect) ws Selecting)) as Hloops.
  { intros h. destruct (all_or_one (λ l, ln_loop l = Serving ∧ ln_closed l = false)
      (λ l, ln_closed l = false ∧ ln_loop l ≠ Serving ∧ ln_loop l ≠ Returned)
      (list_of h (mkRuntime tcp http None RunSelect))) as [?|(i & l & Hi & Hc & H1 & H2)]; [|by left|].
    - intros l Hl%list_of_all. destruct (ln_closed l) eqn:Elc; [by destruct (Hcl l)|].
      destruct (ln_loop l) eqn:Elp; [by right|by left|by right|].
      destruct (Hret l Hl Elp) as [?|[?|[? ?]]]; done.
    - right. by eapply listener_goes_on. }
  destruct (Hloops false) as [Ht|?]; [|by right]. destruct (Hloops true) as [Hh|?]; [|by right]. left.
  cbn in Ht, Hh. destruct Hsh as [Et Eh]. cbn in Et, Eh. unfold serving.
  rewrite (all_serving tcp Ht), (all_serving http Hh), Et, Eh. f_equal; [by rewrite <- list_fmap_compose|].
  destruct ws as [|w1 [|w2 [|w3 [|]]]]; try done. by rewrite (Hw w1), (Hw w2), (Hw w3) by (rewrite !elem_of_cons; auto).
Qed.

(** C37: The process always settles.  However the goroutines of [main] and
    of the runtime are scheduled, whatever fails and whenever a signal
    arrives, at most 33 events can happen; and as long as the process has
    not exited, a goroutine can go on by itself, unless everything serves
    and works and nothing has failed.  So no failure and no signal is lost
    between the channels: each of them leads to the exit. *)
Theorem supervision_settles es p :
  run cfg es started = Some p →
  (length es ≤ 33)%nat ∧ (exited p = true ∨ serving p ∨ goes_on p).
Proof.
  intros Hr. destruct (run_ok _ _ _ Hr started_ok) as [Hp Hw].
  change (weight started) with 33%nat in Hw. split; [lia|by apply rest].
Qed.
End spec.
