(* ===== verification/ProcessExit.v ===== *)
(** * ProcessExit: shutdown and exit of the process

    Which errors reach [main], what the exit status tells, and what the
    shutdown closes. *)

From Stdlib Require Import ZArith Lia.
From stdpp Require Import strings.
From S2P Require Import Prelude GoLib GoTime GoDuration Domain Database Effects OutboxRepo OutboxService AuthRepo.
From S2P Require Import AuthService ClientRepo FriendRepo RoomRepo ClientService RoomService Push Config Dsn Rpc.
From S2P Require Import Handler Runtime Process ProcessSpec.

Local Open Scope Z_scope.

Section exits.
Variable cfg : AppConfiguration.

(** ** Failures *)

(** What fails at an event; a background loop that stops because its
    context is cancelled has not failed. *)
Definition fails (e : event) (p : Process) : list error :=
  match e with
  | ERun (RListens (Some err)) => [err]
  | EAccept _ (LReturns err) => if Is err net_ErrClosed then [] else [err]
  | EServe _ (LReturns err) => if Is err http_ErrServerClosed then [] else [err]
  | EWorker _ (WReturns err) => if pr_cancelled p then [] else [err]
  | _ => []
  end.
Fixpoint failures (es : list event) (p : Process) : list error :=
  match es with
  | [] => []
  | e :: es => fails e p ++ match step cfg e p with Some p' => failures es p' | None => [] end
  end.

(** What [Shutdown] could not close. *)
Definition not_closed (e : event) : list error :=
  match e with
  | EMain (MCloses err) => join_err net_ErrClosed err []
  | EMain (MReturns err) => join_err http_ErrServerClosed err []
  | _ => []
  end.

(** A failure as it is passed on. *)
Definition passed_on (err0 err : error) : Prop := err = err0 ∨ ∃ prefix, err = EWrap prefix err0.

(** The errors on their way to [main]. *)
Definition loop_error (l : listener) : list error := match ln_loop l with Failing err => [err] | _ => [] end.
Definition worker_error (cancelled : bool) (wk : worker_at) : list error :=
  match wk with Failed err => if cancelled then [] else [err] | Sending err => [err] | _ => [] end.

Inductive held (p : Process) (err : error) : Prop :=
  | held_sent : pr_errs p = Some err → held p err
  | held_reported : rt_errCh (pr_runtime p) = Some err → held p err
  | held_returned : rt_run (pr_runtime p) = RunReturns (Some err) → held p err
  | held_loop l : l ∈ all_listeners (pr_runtime p) → ln_loop l = Failing err → held p err
  | held_worker wk : wk ∈ pr_workers p → err ∈ worker_error (pr_cancelled p) wk → held p err
  | held_received : pr_main p = Stopping err → held p err.

(** Every error that is passed on is one of [acc], and only a failure or a
    signal makes [main] leave its [select]. *)
Record accounted (signalled : Prop) (acc : list error) (p : Process) : Prop := {
  acc_held : ∀ err, held p err → ∃ err0, err0 ∈ acc ∧ passed_on err0 err;
  acc_left : pr_cancelled p = true ∨ pr_main p ≠ Selecting → signalled ∨ acc ≠ [] }.

(** A step under which no error appears but those in [acc]. *)
Lemma accounted_step (sg sg' : Prop) acc acc' p p' :
  accounted sg acc p → (sg → sg') → (∀ err, err ∈ acc → err ∈ acc') →
  (∀ err, held p' err → held p err ∨ ∃ err0, err0 ∈ acc' ∧ passed_on err0 err) →
  (pr_cancelled p' = true ∨ pr_main p' ≠ Selecting →
     pr_cancelled p = true ∨ pr_main p ≠ Selecting ∨ sg' ∨ ∃ err, held p err) →
  accounted sg' acc' p'.
Proof.
  intros [Hh Hl] Hsg Hacc Hheld Hleft.
  assert (acc ≠ [] → acc' ≠ []) as Hne.
  { intros Hn ->. destruct acc as [|err acc]; [done|]. apply (not_elem_of_nil err), Hacc. by left. }
  constructor.
  - intros err Herr. destruct (Hheld err Herr) as [Hp|?]; [|done]. destruct (Hh err Hp) as (err0 & ? & ?). exists err0. auto.
  - intros H. destruct (Hleft H) as [Hp|[Hp|[?|[err Hp]]]]; [| |by left|].
    + destruct Hl as [?|?]; auto.
    + destruct Hl as [?|?]; auto.
    + destruct (Hh err Hp) as (err0 & Hin & _). right. apply Hne. intros ->. by apply not_elem_of_nil in Hin.
Qed.
Definition fails_with (expected : error) (a : loop_action) : list error :=
  match a with LReturns err => if Is err expected then [] else [err] | _ => [] end.

Definition returns_traced (expected : error) (returns : error → listener → option listener) : Prop :=
  ∀ err l l' err', returns err l = Some l' → ln_loop l' = Failing err' → Is err expected = false ∧ passed_on err err'.

Lemma accept_returns_traced : returns_traced net_ErrClosed accept_returns.
Proof.
  intros err l l' err'. unfold accept_returns. destruct (ln_loop l); try done. case_bool_decide; [|done].
  intros [= <-]. destruct (Is err net_ErrClosed); cbn; [done|]. intros [= <-]. split; [done|]. right. by eexists.
Qed.

Lemma serve_returns_traced : returns_traced http_ErrServerClosed serve_returns.
Proof.
  intros err l l' err'. unfold serve_returns. destruct (ln_loop l); try done.
  - destruct (Is err http_ErrServerClosed); destruct (ln_closed l); cbn; try done; intros [= <-]; cbn; try done;
      intros [= <-]; (split; [done|]; right; by eexists).
  - case_bool_decide; [|done]. destruct (Is err http_ErrServerClosed); cbn; intros [= <-]; cbn; [done|].
    intros [= <-]. split; [done|]. right. by eexists.
Qed.

Lemma reportError_ch err r err' : rt_errCh (reportError err r) = Some err' → err' = err ∨ rt_errCh r = Some err'.
Proof. unfold reportError. destruct (rt_errCh r) eqn:E; cbn; [rewrite E; by right|]. intros [= <-]. by left. Qed.

Lemma loop_step_held expected http returns i a p r' err :
  returns_traced expected returns →
  loop_step returns (list_of http (pr_runtime p)) (set_list http) i a (pr_runtime p) = Some r' →
  held (on_runtime r' p) err → held p err ∨ ∃ err0, err0 ∈ fails_with expected a ∧ passed_on err0 err.
Proof.
  intros Htr Hs. unfold loop_step in Hs. set (r := pr_runtime p) in *.
  destruct (list_of http r !! i) as [l|] eqn:El; [|done]. cbn in Hs.
  assert (l ∈ all_listeners r) as Hl by (eapply list_of_all, list_elem_of_lookup_2, El).
  assert (∃ l', (∀ x, x ∈ all_listeners r' → x = l' ∨ x ∈ all_listeners r) ∧ rt_run r' = rt_run r
    ∧ (rt_errCh r' = Some err → rt_errCh r = Some err ∨ ln_loop l = Failing err)
    ∧ (ln_loop l' = Failing err → ∃ err0, err0 ∈ fails_with expected a ∧ passed_on err0 err)) as (l' & Hin & Hr & Hch & Hf).
  { assert (∀ l' x, x ∈ all_listeners (set_list http (<[i := l']> (list_of http r)) r) → x = l' ∨ x ∈ all_listeners r) as Hput.
    { intros l' x [Hx|Hx]%all_set_list; [|by right]. apply elem_of_insert in Hx as [->|Hx]; [by left|].
      right. by eapply list_of_all. }
    destruct a as [|err1|].
    - destruct (ln_loop l) eqn:Elp; try done. destruct (ln_closed l); [done|]. injection Hs as <-.
      exists (ln_at l Serving). split_and!; [apply Hput|by destruct http| |done]. destruct http; cbn; auto.
    - destruct (returns err1 l) as [l'|] eqn:Er; [|done]. injection Hs as <-. exists l'.
      split_and!; [apply Hput|by destruct http|destruct http; cbn; auto|]. intros Hfl.
      destruct (Htr _ _ _ _ Er Hfl) as [Hi Hp]. exists err1. cbn. rewrite Hi. split; [by left|done].
    - destruct (ln_loop l) as [| |err1|] eqn:Elp; try done. injection Hs as <-. exists (ln_at l Returned).
      set (r1 := set_list _ _ _) in *.
      assert (all_listeners (reportError err1 r1) = all_listeners r1) as Eall by (unfold reportError; by destruct (rt_errCh r1)).
      split_and!; [rewrite Eall; apply Hput|unfold reportError; destruct (rt_errCh r1), http; done| |done].
      intros [->|Hc]%reportError_ch; [by right|]. left. unfold r1 in Hc. by destruct http. }
  intros [H|H|H|x Hx H|wk Hw H|H]; cbn in H.
  - left. by apply held_sent.
  - left. destruct (Hch H); [by apply held_reported|by eapply held_loop].
  - left. apply held_returned. unfold r in Hr. congruence.
  - destruct (Hin x Hx) as [->|?]; [right; by apply Hf|left; by eapply held_loop].
  - left. by eapply held_worker.
  - left. by apply held_received.
Qed.

Lemma run_step_held a p p' err :
  run_step cfg a p = Some p' → held p' err → held p err ∨ ∃ err0, err0 ∈ fails (ERun a) p ∧ passed_on err0 err.
Proof.
  intros Hs. assert (held p err → held p err ∨ ∃ err0, err0 ∈ fails (ERun a) p ∧ passed_on err0 err) as Hl by by left.
  unfold run_step in Hs. destruct p as [c errs [tcp http ch at_] ws m]. cbn in Hs.
  destruct at_ as [|addr|[|port rest]| |[err1|]|], a as [oe| | | | |]; cbn in Hs; try done.
  - injection Hs as <-. unfold listens. destruct oe as [err1|]; intros [H|H|H|x Hx H|wk Hw H|H]; cbn in H;
      try (apply Hl; by econstructor).
    injection H as <-. right. exists err1. split; [by left|]. right. by eexists.
  - injection Hs as <-. intros [H|H|H|x Hx H|wk Hw H|H]; cbn in H; try (apply Hl; by econstructor).
    revert Hx. unfold all_listeners. cbn. rewrite <- app_assoc, elem_of_app. cbn. rewrite elem_of_cons.
    intros [Hx|[->|Hx]]; [|done|]; apply Hl; (eapply held_loop; [|exact H]); unfold all_listeners; cbn; rewrite elem_of_app; auto.
  - injection Hs as <-. intros [H|H|H|x Hx H|wk Hw H|H]; cbn in H; try (apply Hl; by econstructor).
    + by destruct rest.
    + revert Hx. unfold all_listeners. cbn. rewrite app_assoc, elem_of_app, list_elem_of_singleton.
      intros [Hx| ->]; [|done]. apply Hl. by eapply held_loop.
  - destruct c; [|done]. injection Hs as <-. intros [H|H|H|x Hx H|wk Hw H|H]; cbn in H; try (apply Hl; by econstructor).
  - destruct ch as [err1|]; [|done]. injection Hs as <-.
    intros [H|H|H|x Hx H|wk Hw H|H]; cbn in H; try (apply Hl; by econstructor).
    injection H as <-. apply Hl. by apply held_reported.
  - apply send_err_spec in Hs as [He ->]. intros [H|H|H|x Hx H|wk Hw H|H]; cbn in H; try (apply Hl; by econstructor).
    injection H as <-. apply Hl. by apply held_returned.
  - injection Hs as <-. intros [H|H|H|x Hx H|wk Hw H|H]; cbn in H; try (apply Hl; by econstructor).
Qed.

Lemma worker_step_held k a p p' err :
  worker_step k a p = Some p' → held p' err → held p err ∨ ∃ err0, err0 ∈ fails (EWorker k a) p ∧ passed_on err0 err.
Proof.
  intros Hs. unfold worker_step in Hs. destruct (pr_workers p !! k) as [wk|] eqn:Ek; [|done]. cbn in Hs.
  assert (wk ∈ pr_workers p) as Hwk by by eapply list_elem_of_lookup_2.
  assert (∃ wk', keeps_alarm p p' ∧ pr_runtime p' = pr_runtime p ∧ pr_workers p' = <[k := wk']> (pr_workers p)
    ∧ (pr_errs p' = Some err → held p err)
    ∧ (err ∈ worker_error (pr_cancelled p) wk' → held p err ∨ ∃ err0, err0 ∈ fails (EWorker k a) p ∧ passed_on err0 err))
    as (wk' & (Ec & Em & _) & Er & Ew & He & Hf).
  { destruct wk as [|err1|err1|], a as [err2| |]; try done.
    - exists (Failed err2). assert (p' = on_worker k (Failed err2) p) as -> by (destruct (pr_cancelled p); by case_decide; simplify_eq).
      split_and!; [done..|intros; by apply held_sent|]. cbn. intros H. right. exists err2.
      destruct (pr_cancelled p); [by apply not_elem_of_nil in H|]. apply list_elem_of_singleton in H as ->. split; [by left|by left].
    - injection Hs as <-. eexists. split_and!; [done..|reflexivity|intros; by apply held_sent|]. intros H. left.
      eapply held_worker; [exact Hwk|]. cbn. by destruct (pr_cancelled p).
    - apply send_err_spec in Hs as [Hn ->]. exists Stopped. split_and!; [done..| |].
      + intros [= <-]. eapply held_worker; [exact Hwk|]. by left.
      + by intros ?%not_elem_of_nil. }
  intros [H|H|H|x Hx H|wk1 Hw H|H]; rewrite ?Er, ?Ec, ?Em in *.
  - left. by apply He.
  - left. by apply held_reported.
  - left. by apply held_returned.
  - left. by eapply held_loop.
  - rewrite Ew in Hw. apply elem_of_insert in Hw as [->|Hw]; [by apply Hf|]. left. by eapply held_worker.
  - left. by apply held_received.
Qed.
Lemma close_held http i p m err :
  (∀ err, m ≠ Stopping err) →
  held (on_main m (on_runtime (set_list http (alter ln_close i (list_of http (pr_runtime p))) (pr_runtime p)) p)) err → held p err.
Proof.
  intros Hm [H|H|H|x Hx H|wk Hw H|H]; cbn in H.
  - by apply held_sent.
  - apply held_reported. by destruct http.
  - apply held_returned. by destruct http.
  - apply all_set_list in Hx as [Hx|Hx]; [|by eapply held_loop].
    apply elem_of_alter in Hx as (l & Hl & Hx). eapply held_loop; [by eapply list_of_all|]. by destruct Hx as [->| ->].
  - by eapply held_worker.
  - by destruct (Hm err).
Qed.

Lemma cancel_held p err : held (cancel p) err → held p err.
Proof.
  intros [H|H|H|x Hx H|wk Hw H|H]; cbn in H; [by apply held_sent|by apply held_reported|by apply held_returned|by eapply held_loop| |by apply held_received].
  eapply held_worker; [exact Hw|]. destruct wk; try done. by apply not_elem_of_nil in H.
Qed.

(** Leaving the [select] passes nothing on but what was received. *)
Lemma on_main_held m p err : (∀ err, m ≠ Stopping err) → held (on_main m p) err → held p err.
Proof.
  intros Hm [H|H|H|x Hx H|wk Hw H|H]; cbn in H;
    [by apply held_sent|by apply held_reported|by apply held_returned|by eapply held_loop|by eapply held_worker|by destruct (Hm err)].
Qed.

Lemma main_step_held a p p' err : main_step a p = Some p' → held p' err → held p err.
Proof.
  intros Hs. unfold main_step, select_step, shutdown_step in Hs. destruct (pr_main p) as [|err1| |[|i tcp] [|j http] se|http se|st] eqn:Em, a; cbn in Hs; try done.
  - destruct (pr_errs p) as [err1|] eqn:Ee; [|done]. injection Hs as <-.
    intros [H|H|H|x Hx H|wk Hw H|H]; cbn in H;
      [done|by apply held_reported|by apply held_returned|by eapply held_loop|by eapply held_worker|].
    injection H as <-. by apply held_sent.
  - destruct (pr_cancelled p); [|done]. injection Hs as <-. by apply on_main_held.
  - injection Hs as <-. intros H%on_main_held; [|done]. by apply cancel_held.
  - injection Hs as <-. by apply on_main_held.
  - injection Hs as <-. by apply on_main_held.
  - injection Hs as <-. by apply (close_held true).
  - injection Hs as <-. by apply (close_held false).
  - injection Hs as <-. by apply (close_held false).
  - injection Hs as <-. by apply on_main_held.
Qed.

(** What a step of [main], and of the others, does to what [main] reacts to. *)
Lemma main_step_left a p p' :
  main_step a p = Some p' → pr_cancelled p = true ∨ pr_main p ≠ Selecting ∨ ∃ err, held p err.
Proof.
  unfold main_step, select_step, shutdown_step. destruct (pr_main p) eqn:Em; [|by right; left..]. destruct a; try done.
  - destruct (pr_errs p) as [err|] eqn:Ee; [|done]. intros _. right. right. exists err. by apply held_sent.
  - destruct (pr_cancelled p); [|done]. by left.
Qed.

Lemma run_step_keeps a p p' : run_step cfg a p = Some p' → pr_cancelled p' = pr_cancelled p ∧ pr_main p' = pr_main p.
Proof.
  unfold run_step. destruct p as [c errs [tcp http ch at_] ws m]. cbn.
  destruct at_ as [|addr|[|port rest]| |[err1|]|], a; cbn; try done; try (by intros [= <-]).
  - destruct c; [|done]. by intros [= <-].
  - destruct ch; [|done]. by intros [= <-].
  - intros [_ ->]%send_err_spec. done.
Qed.

Lemma worker_step_keeps k a p p' : worker_step k a p = Some p' → pr_cancelled p' = pr_cancelled p ∧ pr_main p' = pr_main p.
Proof.
  unfold worker_step. destruct (pr_workers p !! k) as [[|err|err|]|], a; cbn; try done.
  - destruct (pr_cancelled p) eqn:Ec; case_decide; try done; intros [= <-]; cbn; auto.
  - by intros [= <-].
  - intros [_ ->]%send_err_spec. done.
Qed.

Lemma step_accounted sg acc e p p' :
  step cfg e p = Some p' → accounted sg acc p → accounted (sg ∨ e = ESignal) (acc ++ fails e p) p'.
Proof.
  intros Hs Hacc.
  assert (∀ err, held p' err → held p err ∨ ∃ err0, err0 ∈ fails e p ∧ passed_on err0 err) as Hheld.
  { intros err. unfold step in Hs. destruct (exited p); [done|]. destruct e as [|a|i a|i a|k a|a].
    - destruct (pr_cancelled p); [done|]. injection Hs as <-. intros H. left. by apply cancel_held.
    - by apply run_step_held.
    - destruct (loop_step _ _ _ _ _ _) as [r'|] eqn:Es; [|done]. injection Hs as <-.
      exact (loop_step_held _ false _ _ _ _ _ _ accept_returns_traced Es).
    - destruct (loop_step _ _ _ _ _ _) as [r'|] eqn:Es; [|done]. injection Hs as <-.
      exact (loop_step_held _ true _ _ _ _ _ _ serve_returns_traced Es).
    - by apply worker_step_held.
    - intros H. left. by eapply main_step_held. }
  eapply accounted_step; [exact Hacc|by left|intros err H; apply elem_of_app; by left| |].
  - intros err [H|(err0 & H & ?)]%Hheld; [by left|]. right. exists err0. split; [apply elem_of_app; by right|done].
  - unfold step in Hs. destruct (exited p); [done|]. destruct e as [|a|i a|i a|k a|a].
    + intros _. right. right. left. by right.
    + apply run_step_keeps in Hs as [-> ->]. tauto.
    + destruct (loop_step _ _ _ _ _ _) as [r'|]; [|done]. injection Hs as <-. cbn. tauto.
    + destruct (loop_step _ _ _ _ _ _) as [r'|]; [|done]. injection Hs as <-. cbn. tauto.
    + apply worker_step_keeps in Hs as [-> ->]. tauto.
    + intros _. apply main_step_left in Hs. tauto.
Qed.

Lemma run_accounted es : ∀ sg acc p p', run cfg es p = Some p' → accounted sg acc p →
  accounted (sg ∨ ESignal ∈ es) (acc ++ failures es p) p'.
Proof.
  induction es as [|e es IH]; intros sg acc p p'; cbn.
  - intros [= <-] [H1 H2]. constructor; [by rewrite app_nil_r|]. rewrite app_nil_r. tauto.
  - destruct (step cfg e p) as [p1|] eqn:Es; [|done]. cbn. intros Hr Hacc.
    destruct (IH _ _ _ _ Hr (step_accounted _ _ _ _ _ Es Hacc)) as [H1 H2].
    constructor; rewrite app_assoc; [exact H1|]. rewrite elem_of_cons. intros [[[?|<-]|?]|?]%H2; auto.
Qed.

(** ** The exit status *)

(** The errors of [Shutdown] so far decide about the status. *)
Definition shutdown_errors (acc : list error) (p : Process) : Prop :=
  match pr_main p with
  | Closing _ _ se | Draining _ se => se = acc
  | Exited status => status = match acc with [] => 0 | _ => 1 end
  | _ => acc = []
  end.

Lemma join_err_app expected err se : join_err expected err se = se ++ join_err expected err [].
Proof. unfold join_err. destruct err as [e|]; [|by rewrite app_nil_r]. destruct (Is e expected); [by rewrite app_nil_r|done]. Qed.

Lemma step_shutdown_errors acc e p p' :
  step cfg e p = Some p' → shutdown_errors acc p → shutdown_errors (acc ++ not_closed e) p'.
Proof.
  unfold step. destruct (exited p); [done|].
  assert (∀ q, pr_main q = pr_main p → shutdown_errors acc p → shutdown_errors (acc ++ []) q) as Hkeep.
  { intros q Em. unfold shutdown_errors. by rewrite Em, app_nil_r. }
  destruct e as [|a|i a|i a|k a|a]; cbn [not_closed].
  - destruct (pr_cancelled p); [done|]. intros [= <-]. by apply Hkeep.
  - intros [_ Em]%run_step_keeps. by apply Hkeep.
  - destruct (loop_step _ _ _ _ _ _); [|done]. intros [= <-]. by apply Hkeep.
  - destruct (loop_step _ _ _ _ _ _); [|done]. intros [= <-]. by apply Hkeep.
  - intros [_ Em]%worker_step_keeps. by apply Hkeep.
  - clear Hkeep. unfold main_step, select_step, shutdown_step, shutdown_errors.
    destruct (pr_main p) as [|err1| |[|i tcp] [|j http] se|http se|st] eqn:Em, a; cbn; try done.
    + destruct (pr_errs p); [|done]. intros [= <-]. cbn. by intros ->.
    + destruct (pr_cancelled p); [|done]. intros [= <-]. cbn. by intros ->.
    + intros [= <-]. cbn. by intros ->.
    + intros [= <-]. cbn. by intros ->.
    + intros [= <-]. cbn. intros ->. by rewrite app_nil_r.
    + intros [= <-]. cbn. intros ->. by rewrite app_nil_r.
    + intros [= <-]. cbn. intros ->. apply join_err_app.
    + intros [= <-]. cbn. intros ->. apply join_err_app.
    + intros [= <-]. cbn. intros ->. apply join_err_app.
Qed.

Lemma run_shutdown_errors es : ∀ acc p p', run cfg es p = Some p' → shutdown_errors acc p →
  shutdown_errors (acc ++ (es ≫= not_closed)) p'.
Proof.
  induction es as [|e es IH]; intros acc p p'; cbn.
  - intros [= <-]. by rewrite app_nil_r.
  - destruct (step cfg e p) as [p1|] eqn:Es; [|done]. cbn. intros Hr Ha. rewrite app_assoc.
    by eapply IH, step_shutdown_errors.
Qed.

(** ** What is closed *)

Definition closed_at (ls : list listener) (i : nat) : Prop := ∃ l, ls !! i = Some l ∧ ln_closed l = true.
(** Listeners stay where they are, and stay closed. *)
Definition grows (r r' : Runtime) : Prop := ∀ http,
  (ln_addr <$> list_of http r) `prefix_of` (ln_addr <$> list_of http r')
  ∧ ∀ i, closed_at (list_of http r) i → closed_at (list_of http r') i.

Lemma grows_same r r' : (∀ http, list_of http r' = list_of http r) → grows r r'.
Proof. intros H http. by rewrite (H http). Qed.

Lemma closed_at_app ls ks i : closed_at ls i → closed_at (ls ++ ks) i.
Proof. intros (l & Hl & Hc). exists l. split; [by apply lookup_app_l_Some|done]. Qed.

Lemma closed_at_insert ls i l l' j :
  ls !! i = Some l → ln_closed l' = ln_closed l → closed_at ls j → closed_at (<[i := l']> ls) j.
Proof.
  intros Hi Hc (x & Hx & Hxc). destruct (decide (i = j)) as [<-|Hne].
  - exists l'. rewrite list_lookup_insert_eq by by eapply lookup_lt_Some. split; [done|]. congruence.
  - exists x. by rewrite list_lookup_insert_ne.
Qed.

Lemma closed_at_alter ls i j : (j < length ls)%nat → j = i ∨ closed_at ls j → closed_at (alter ln_close i ls) j.
Proof.
  intros Hj [->|(l & Hl & Hc)].
  - destruct (lookup_lt_is_Some_2 ls i Hj) as [l Hl]. exists (ln_close l). rewrite list_lookup_alter, decide_True, Hl by done. done.
  - unfold closed_at. rewrite list_lookup_alter. case_decide as Hd; [|by exists l].
    exists (ln_close l). subst i. by rewrite Hl.
Qed.

Lemma grows_set http ls r :
  ln_addr <$> ls = ln_addr <$> list_of http r → (∀ i, closed_at (list_of http r) i → closed_at ls i) →
  grows r (set_list http ls r).
Proof. intros Ha Hc http'. destruct http, http'; cbn in *; rewrite ?Ha; done. Qed.

Lemma loop_step_grows http returns i a r r' :
  returns_ok returns → loop_step returns (list_of http r) (set_list http) i a r = Some r' → grows r r'.
Proof.
  intros Hok. unfold loop_step. destruct (list_of http r !! i) as [l|] eqn:El; [|done]. cbn.
  assert (∀ l', ln_addr l' = ln_addr l → ln_closed l' = ln_closed l → grows r (set_list http (<[i := l']> (list_of http r)) r)) as Hg.
  { intros l' Ha Hc. apply grows_set; [by apply (fmap_insert_same _ _ _ l)|]. intros j. by apply (closed_at_insert _ _ l). }
  destruct a as [|err|].
  - destruct (ln_loop l); try done. destruct (ln_closed l) eqn:Ec; [done|]. intros [= <-]. by apply Hg.
  - destruct (returns err l) as [l'|] eqn:Er; [|done]. intros [= <-]. destruct (Hok _ _ _ Er) as (Ha & Hc & _). by apply Hg.
  - destruct (ln_loop l) as [| |err|]; try done. intros [= <-]. specialize (Hg (ln_at l Returned) eq_refl eq_refl).
    unfold reportError. destruct (rt_errCh _); [exact Hg|]. intros h. specialize (Hg h). by destruct h.
Qed.

Lemma run_step_grows a p p' : run_step cfg a p = Some p' → grows (pr_runtime p) (pr_runtime p').
Proof.
  unfold run_step. destruct p as [c errs [tcp http ch at_] ws m]. cbn.
  destruct at_ as [|addr|[|port rest]| |[err1|]|], a as [oe| | | | |]; cbn; try done.
  - intros [= <-]. apply grows_same. destruct oe; by intros [].
  - intros [= <-] [|]; cbn; (split; [|intros i; try done; apply closed_at_app]); [done|].
    rewrite fmap_app. by apply prefix_app_r.
  - intros [= <-] [|]; cbn; (split; [|intros i; try done; apply closed_at_app]); [|done].
    rewrite fmap_app. by apply prefix_app_r.
  - destruct c; [|done]. intros [= <-]. apply grows_same. by intros [].
  - destruct ch; [|done]. intros [= <-]. apply grows_same. by intros [].
  - intros [_ ->]%send_err_spec. apply grows_same. by intros [].
  - intros [= <-]. apply grows_same. by intros [].
Qed.

Lemma worker_step_runtime k a p p' : worker_step k a p = Some p' → pr_runtime p' = pr_runtime p.
Proof.
  unfold worker_step. destruct (pr_workers p !! k) as [[|err|err|]|], a; cbn; try done.
  - destruct (pr_cancelled p); case_decide; try done; by intros [= <-].
  - by intros [= <-].
  - intros [_ ->]%send_err_spec. done.
Qed.

(** How far the shutdown of the first [n] TCP listeners and the first [k]
    HTTP servers has come. *)
Definition closing (n k : nat) (p : Process) : Prop :=
  let closed http m := ∀ i, (i < m)%nat → closed_at (list_of http (pr_runtime p)) i in
  let covered http m rest := ∀ i, (i < m)%nat → i ∈ rest ∨ closed_at (list_of http (pr_runtime p)) i in
  match pr_main p with
  | Selecting | Stopping _ => False
  | Locking => True
  | Closing tcp http _ => covered false n tcp ∧ covered true k http
  | Draining http _ => closed false n ∧ covered true k http
  | Exited _ => closed false n ∧ closed true k
  end.

Record shutting (tcp http : list string) (p : Process) : Prop := {
  sh_tcp : tcp `prefix_of` (ln_addr <$> rt_tcpListeners (pr_runtime p));
  sh_http : http `prefix_of` (ln_addr <$> rt_httpServers (pr_runtime p));
  sh_main : closing (length tcp) (length http) p }.

Lemma shutting_grows tcp http p p' :
  shutting tcp http p → grows (pr_runtime p) (pr_runtime p') → pr_main p' = pr_main p → shutting tcp http p'.
Proof.
  intros [H1 H2 H3] Hg Em. destruct (Hg false) as [Ht Htc], (Hg true) as [Hh Hhc].
  constructor; [by etrans; [|exact Ht]|by etrans; [|exact Hh]|].
  assert (∀ h i, closed_at (list_of h (pr_runtime p)) i → closed_at (list_of h (pr_runtime p')) i) as Hc by (by intros []).
  unfold closing in *. rewrite Em. destruct (pr_main p) as [|err1| |tl hl se|hl se|st]; try done; destruct H3 as [H3 H4]; split;
    intros i Hi; first [by apply Hc, H3|by apply Hc, H4|destruct (H3 i Hi); [by left|right; by apply Hc]|destruct (H4 i Hi); [by left|right; by apply Hc]].
Qed.

Lemma shutting_length tcp http p : shutting tcp http p →
  (length tcp ≤ length (rt_tcpListeners (pr_runtime p)) ∧ length http ≤ length (rt_httpServers (pr_runtime p)))%nat.
Proof. intros [H1%prefix_length H2%prefix_length _]. by rewrite !length_fmap in H1, H2. Qed.

Lemma main_step_shutting tcp http a p p' :
  main_step a p = Some p' → shutting tcp http p → shutting tcp http p'.
Proof.
  intros Hs Hsh. pose proof (shutting_length _ _ _ Hsh) as [Hlt Hlh]. destruct Hsh as [H1 H2 H3].
  unfold main_step, select_step, shutdown_step in Hs. unfold closing in H3.
  destruct (pr_main p) as [|err1| |[|i tl] [|j hl] se|hl se|st] eqn:Em, a; cbn in Hs; try done; injection Hs as <-; constructor; cbn; try done.
  - split; intros i Hi; left; apply elem_of_seq; cbn in *; lia.
  - destruct H3 as [H3 H4]. split; intros i Hi; [destruct (H3 i Hi) as [?%not_elem_of_nil|?]|destruct (H4 i Hi) as [?%not_elem_of_nil|?]]; done.
  - by rewrite fmap_alter_same.
  - destruct H3 as [H3 H4]. split; intros i Hi; [by destruct (H3 i Hi) as [?%not_elem_of_nil|?]|].
    destruct (H4 i Hi) as [[->|?]%elem_of_cons|?]; [right; apply closed_at_alter; [lia|by left]|by left|].
    right. apply closed_at_alter; [lia|by right].
  - by rewrite fmap_alter_same.
  - destruct H3 as [H3 H4]. split; [|done]. intros j Hj.
    destruct (H3 j Hj) as [[->|?]%elem_of_cons|?]; [right; apply closed_at_alter; [lia|by left]|by left|].
    right. apply closed_at_alter; [lia|by right].
  - by rewrite fmap_alter_same.
  - destruct H3 as [H3 H4]. split; [|done]. intros k Hk.
    destruct (H3 k Hk) as [[->|?]%elem_of_cons|?]; [right; apply closed_at_alter; [lia|by left]|by left|].
    right. apply closed_at_alter; [lia|by right].
  - destruct H3 as [H3 H4]. split; [|done]. intros i Hi. right. by apply H3.
Qed.

Lemma step_shutting tcp http e p p' : step cfg e p = Some p' → shutting tcp http p → shutting tcp http p'.
Proof.
  unfold step. destruct (exited p); [done|]. destruct e as [|a|i a|i a|k a|a].
  - destruct (pr_cancelled p); [done|]. intros [= <-] H. eapply shutting_grows; [exact H|by apply grows_same|done].
  - intros Hs H. eapply shutting_grows; [exact H|by eapply run_step_grows|by apply run_step_keeps in Hs as [_ ?]].
  - destruct (loop_step _ _ _ _ _ _) as [r'|] eqn:Es; [|done]. intros [= <-] H.
    eapply shutting_grows; [exact H| |done]. exact (loop_step_grows false _ _ _ _ _ accept_returns_ok Es).
  - destruct (loop_step _ _ _ _ _ _) as [r'|] eqn:Es; [|done]. intros [= <-] H.
    eapply shutting_grows; [exact H| |done]. exact (loop_step_grows true _ _ _ _ _ serve_returns_ok Es).
  - intros Hs H. eapply shutting_grows; [exact H| |by apply worker_step_keeps in Hs as [_ ?]].
    apply grows_same. by rewrite (worker_step_runtime _ _ _ _ Hs).
  - apply main_step_shutting.
Qed.

Lemma run_shutting tcp http es : ∀ p p', run cfg es p = Some p' → shutting tcp http p → shutting tcp http p'.
Proof.
  induction es as [|e es IH]; intros p p'; cbn; [by intros [= <-]|].
  destruct (step cfg e p) as [p1|] eqn:Es; [|done]. cbn. intros Hr H. by eapply IH, step_shutting.
Qed.

(** A graceful shutdown leaves nothing open that it has found.  When
    [main] enters [Shutdown], every TCP listener and every HTTP server that
    the runtime has started by then is closed before the process exits,
    whatever the other goroutines do meanwhile and whichever of them could
    not be closed without an error. *)
Lemma shutdown_closes_listeners es p p' :
  pr_main p = Locking → run cfg es p = Some p' → exited p' = true →
  ∀ http i l, list_of http (pr_runtime p) !! i = Some l →
    ∃ l', list_of http (pr_runtime p') !! i = Some l' ∧ ln_addr l' = ln_addr l ∧ ln_closed l' = true.
Proof.
  intros Em Hr Hex.
  assert (shutting (ln_addr <$> rt_tcpListeners (pr_runtime p)) (ln_addr <$> rt_httpServers (pr_runtime p)) p) as H0.
  { constructor; [done..|]. unfold closing. by rewrite Em. }
  apply (run_shutting _ _ _ _ _ Hr) in H0 as [Ht Hh Hc]. unfold closing, exited in *. destruct (pr_main p'); try done.
  destruct Hc as [Hct Hch]. rewrite !length_fmap in Hct. rewrite !length_fmap in Hch.
  assert (∀ (ls ls' : list listener) i l, ln_addr <$> ls `prefix_of` ln_addr <$> ls' →
    (∀ i, (i < length ls)%nat → closed_at ls' i) → ls !! i = Some l →
    ∃ l', ls' !! i = Some l' ∧ ln_addr l' = ln_addr l ∧ ln_closed l' = true) as Hall.
  { intros ls ls' i l Hp Hcl Hi. destruct (Hcl i) as (l' & Hl' & Hc'); [by eapply lookup_lt_Some|].
    exists l'. split_and!; [done| |done].
    assert ((ln_addr <$> ls') !! i = Some (ln_addr l)) as Ha.
    { eapply prefix_lookup_Some; [|exact Hp]. by rewrite list_lookup_fmap, Hi. }
    rewrite list_lookup_fmap, Hl' in Ha. by injection Ha. }
  intros [] i l Hi; [by eapply Hall|by eapply Hall].
Qed.
(** ** The exit *)

Lemma run_app es1 : ∀ es2 p, run cfg (es1 ++ es2) p = (p1 ← run cfg es1 p; run cfg es2 p1).
Proof. induction es1 as [|e es1 IH]; intros es2 p; [done|]. cbn. destruct (step cfg e p); [apply IH|done]. Qed.

Lemma started_accounted : accounted False [] started.
Proof.
  constructor; [|by intros [?|?]]. intros err [H|H|H|x Hx H|wk Hw H|H]; try done; [by apply not_elem_of_nil in Hx|].
  exfalso. revert H. apply list_elem_of_In in Hw. by destruct Hw as [<-|[<-|[<-|[]]]]; intros ?%not_elem_of_nil.
Qed.

(** C38: What the process does and tells when it ends.  An error that [main]
    receives is a failure of a listener or of a loop, as it was passed on:
    closing the listeners and cancelling the loops is never reported as a
    failure.  The process ends only after a failure or a signal, and every
    listener and server that the runtime has started when [main] enters
    [Shutdown] is closed by then.  The exit status is about the shutdown
    alone: it is 1 exactly when a listener could not be closed or a server
    not shut down, and 0 otherwise, also when the process ends because a
    listener or the dispatcher has failed. *)
Theorem exit_tells_of_shutdown es p :
  run cfg es started = Some p →
  (∀ err, pr_main p = Stopping err → ∃ err0, err0 ∈ failures es started ∧ passed_on err0 err)
  ∧ (exited p = true → ESignal ∈ es ∨ failures es started ≠ [])
  ∧ (∀ es1 es2 p1, es = es1 ++ es2 → run cfg es1 started = Some p1 → pr_main p1 = Locking → exited p = true →
       ∀ http i l, list_of http (pr_runtime p1) !! i = Some l →
         ∃ l', list_of http (pr_runtime p) !! i = Some l' ∧ ln_addr l' = ln_addr l ∧ ln_closed l' = true)
  ∧ ∀ status, pr_main p = Exited status → status = match es ≫= not_closed with [] => 0 | _ => 1 end.
Proof.
  intros Hr. pose proof (run_accounted _ _ _ _ _ Hr started_accounted) as [Hh Hl]. split_and!.
  - intros err Em. apply Hh. by apply held_received.
  - intros Hex. destruct Hl as [[[]|?]|?]; [|by left|by right]. right. intros Em. unfold exited in Hex. by rewrite Em in Hex.
  - intros es1 es2 p1 -> H1 Em. rewrite run_app, H1 in Hr. by apply (shutdown_closes_listeners es2).
  - intros status Em. pose proof (run_shutdown_errors _ [] _ _ Hr eq_refl) as Hse. unfold shutdown_errors in Hse. by rewrite Em in Hse.
Qed.
End exits.
