(* ===== verification/JsonSpec.v ===== *)
(** * JsonSpec: what [json.Marshal] writes is one line that can be read back *)

From Stdlib Require Import ZArith Lia.
From stdpp Require Import strings.
From S2P Require Import Prelude GoLib GoTime Domain Database Json.

Local Open Scope Z_scope.

(** ** Strings *)

Definition piece_ok (p : piece) : Prop :=
  match p with
  | Ascii c => byte_val c < 128
  | Multi bs => Forall (λ c, 128 ≤ byte_val c) bs
  | Invalid _ => True
  end.

Lemma within_spec lo hi c : within lo hi c = true → lo ≤ byte_val c ≤ hi.
Proof. unfold within. intros [H1 H2]%andb_true_iff. apply Z.leb_le in H1, H2. lia. Qed.

Lemma continuation_high c : continuation c = true → 128 ≤ byte_val c.
Proof. intros H%within_spec. lia. Qed.

Lemma starts2_high c d : starts2 c d = true → 128 ≤ byte_val d.
Proof. unfold starts2. intros [_ H]%andb_true_iff. by apply continuation_high. Qed.

Lemma starts3_high c d : starts3 c d = true → 128 ≤ byte_val d.
Proof.
  unfold starts3, continuation. rewrite !orb_true_iff, !andb_true_iff.
  intros [[[[_ H]|[_ H]]|[_ H]]|[_ H]]; apply within_spec in H; lia.
Qed.

Lemma starts4_high c d : starts4 c d = true → 128 ≤ byte_val d.
Proof.
  unfold starts4, continuation. rewrite !orb_true_iff, !andb_true_iff.
  intros [[[_ H]|[_ H]]|[_ H]]; apply within_spec in H; lia.
Qed.

Lemma pieces_ok_len n : ∀ s, (length s ≤ n)%nat → Forall piece_ok (pieces s).
Proof.
  induction n as [|n IH]; intros s Hn; (destruct s as [|c s1]; [by constructor|]); [simpl in Hn; lia|].
  simpl in Hn. assert (Forall piece_ok (pieces s1)) as H1 by (apply IH; lia).
  cbn [pieces]. destruct (Z.ltb_spec (byte_val c) 128) as [Hc|Hc]; [by constructor|].
  destruct s1 as [|d s2]; [by constructor|]. simpl in Hn.
  destruct (starts2 c d) eqn:E2.
  { apply starts2_high in E2. constructor; [by repeat constructor|]. apply IH. lia. }
  destruct s2 as [|e s3]; [by constructor|]. simpl in Hn.
  destruct (starts3 c d && continuation e) eqn:E3.
  { apply andb_true_iff in E3 as [E3%starts3_high Ee%continuation_high].
    constructor; [by repeat constructor|]. apply IH. lia. }
  destruct s3 as [|f s4]; [by constructor|]. simpl in Hn.
  destruct (starts4 c d && continuation e && continuation f) eqn:E4; [|by constructor].
  apply andb_true_iff in E4 as [[E4%starts4_high Ee%continuation_high]%andb_true_iff Ef%continuation_high].
  constructor; [by repeat constructor|]. apply IH. lia.
Qed.

Lemma pieces_ok s : Forall piece_ok (pieces s).
Proof. by apply (pieces_ok_len (length s)). Qed.

(** What is left of a piece: bytes that are no UTF-8 become U+FFFD. *)
Definition raw_piece (p : piece) : Bytes :=
  match p with Ascii c => [c] | Multi bs => bs | Invalid _ => [xef; xbf; xbd] end.
Definition sanitize (s : Bytes) : Bytes := pieces s ≫= raw_piece.

(** [sanitize] changes nothing that is UTF-8. *)
Definition valid_utf8 (s : Bytes) : bool := forallb (λ p, match p with Invalid _ => false | _ => true end) (pieces s).

Lemma sanitize_valid_len n : ∀ s, (length s ≤ n)%nat → valid_utf8 s = true → sanitize s = s.
Proof.
  unfold valid_utf8, sanitize.
  induction n as [|n IH]; intros s Hn; (destruct s as [|c s1]; [done|]); [simpl in Hn; lia|]. simpl in Hn.
  cbn [pieces]. destruct (byte_val c <? 128).
  { rewrite bind_cons. cbn. intros H. by rewrite IH by (done || lia). }
  destruct s1 as [|d s2]; [done|]. simpl in Hn. destruct (starts2 c d).
  { rewrite bind_cons. cbn. intros H. by rewrite IH by (done || lia). }
  destruct s2 as [|e s3]; [done|]. simpl in Hn. destruct (starts3 c d && continuation e).
  { rewrite bind_cons. cbn. intros H. by rewrite IH by (done || lia). }
  destruct s3 as [|f s4]; [done|]. simpl in Hn. destruct (starts4 c d && continuation e && continuation f); [|done].
  rewrite bind_cons. cbn. intros H. by rewrite IH by (done || lia).
Qed.

Lemma sanitize_valid s : valid_utf8 s = true → sanitize s = s.
Proof. by apply (sanitize_valid_len (length s)). Qed.

(** Reading one piece after the other. *)
Definition prepend (s : Bytes) (o : option (Bytes * Bytes)) : option (Bytes * Bytes) := '(t, r) ← o; Some (s ++ t, r).

Lemma prepend_app s t o : prepend s (prepend t o) = prepend (s ++ t) o.
Proof. destruct o as [[u r]|]; [|done]. cbn. by rewrite app_assoc. Qed.

Lemma unquote_high c r : 128 ≤ byte_val c → unquote (c :: r) = prepend [c] (unquote r).
Proof. intros Hc. destruct c; try reflexivity; by destruct Hc. Qed.

Lemma unquote_highs bs r : Forall (λ c, 128 ≤ byte_val c) bs → unquote (bs ++ r) = prepend bs (unquote r).
Proof.
  induction 1 as [|c bs Hc _ IH]; cbn [app]; [by destruct (unquote r) as [[]|]|].
  by rewrite unquote_high, IH, prepend_app.
Qed.

Lemma unquote_ascii c r : byte_val c < 128 → unquote (escape_ascii c ++ r) = prepend [c] (unquote r).
Proof. intros Hc. destruct c; try reflexivity; by vm_compute in Hc. Qed.

Lemma unquote_piece p r : piece_ok p → unquote (escape_piece p ++ r) = prepend (raw_piece p) (unquote r).
Proof.
  destruct p as [c|bs|c]; cbn [escape_piece raw_piece piece_ok]; intros Hp.
  - by apply unquote_ascii.
  - destruct (decide (bs = line_separator)) as [->|_]; [reflexivity|].
    destruct (decide (bs = paragraph_separator)) as [->|_]; [reflexivity|]. by apply unquote_highs.
  - reflexivity.
Qed.

Lemma unquote_quote s r : unquote ((pieces s ≫= escape_piece) ++ x22 :: r) = Some (sanitize s, r).
Proof.
  unfold sanitize. pose proof (pieces_ok s) as Hok. induction Hok as [|p ps Hp _ IH]; [done|].
  rewrite !bind_cons, <- app_assoc, unquote_piece, IH by done. done.
Qed.

(** No control characters, and so no line break. *)
Definition printable (b : Bytes) : Prop := Forall (λ c, 32 ≤ byte_val c) b.

Lemma printable_line b : printable b → x0a ∉ b.
Proof. unfold printable. rewrite Forall_forall. intros H Hin. by specialize (H _ Hin). Qed.

Lemma printable_ascii c : byte_val c < 128 → printable (escape_ascii c).
Proof. intros Hc. unfold printable. destruct c; try (repeat constructor; by vm_compute); by vm_compute in Hc. Qed.

Lemma printable_quote s : printable (quote s).
Proof.
  unfold quote. pose proof (pieces_ok s) as Hok. constructor; [by vm_compute|].
  apply Forall_app. split; [|repeat constructor; by vm_compute].
  induction Hok as [|p ps Hp _ IH]; [constructor|]. rewrite bind_cons. apply Forall_app. split; [|done].
  destruct p as [c|bs|c]; cbn [escape_piece piece_ok] in *.
  - by apply printable_ascii.
  - destruct (decide _); [repeat constructor; by vm_compute|]. destruct (decide _); [repeat constructor; by vm_compute|].
    eapply Forall_impl; [exact Hp|]. intros x Hx. simpl in Hx. lia.
  - repeat constructor; by vm_compute.
Qed.

(** ** Sorting *)

(** Sorting commutes with a map that keeps the order. *)
Section sorting.
Context {A B : Type} (f : A → B) (R : relation A) (S : relation B).
Context `{!∀ x y, Decision (R x y)} `{!∀ x y, Decision (S x y)} (Hf : ∀ x y, R x y ↔ S (f x) (f y)).

Lemma list_merge_fmap l k : list_merge S (f <$> l) (f <$> k) = f <$> list_merge R l k.
Proof using Hf.
  revert k. induction l as [|x l IHl]; intros k; [by destruct k|]. induction k as [|y k IHk]; [done|].
  cbn. destruct (decide (R x y)) as [Hxy|Hxy].
  - rewrite decide_True by by apply Hf. cbn. f_equal. apply (IHl (y :: k)).
  - rewrite decide_False by by rewrite <- Hf. cbn. f_equal. exact IHk.
Qed.

Definition stack_map : list (option (list A)) → list (option (list B)) := map (option_map (map f)).

Lemma merge_list_to_stack_fmap st : ∀ l : list A,
  merge_list_to_stack S (stack_map st) (f <$> l) = stack_map (merge_list_to_stack R st l).
Proof using Hf.
  induction st as [|[k|] st IH]; intros l; cbn; [done| |done]. f_equal. change (map f k) with (f <$> k). rewrite (list_merge_fmap k l). apply IH.
Qed.

Lemma merge_stack_fmap st : merge_stack S (stack_map st) = f <$> merge_stack R st.
Proof using Hf.
  induction st as [|[k|] st IH]; cbn; [done| |done]. fold stack_map. rewrite IH. apply (list_merge_fmap k).
Qed.

Lemma merge_sort_fmap l : merge_sort S (f <$> l) = f <$> merge_sort R l.
Proof using Hf.
  unfold merge_sort. change (@nil (option (list B))) with (stack_map []).
  generalize (@nil (option (list A))). induction l as [|x l IH]; intros st; cbn; [apply merge_stack_fmap|].
  rewrite <- IH. f_equal. apply (merge_list_to_stack_fmap st [x]).
Qed.
End sorting.

(** ** Values *)

Lemma itoa_number z : itoa_bytes z ≠ [] ∧ Forall (λ c, number_char c = true) (itoa_bytes z).
Proof.
  assert (∀ n z acc, Forall (λ c, number_char c = true) acc → Forall (λ c, number_char c = true) (digits_fuel n z acc)) as Hd.
  { induction n as [|n IH]; intros y acc Hacc; cbn; [done|].
    assert (number_char (GoLib.digit_of (y `mod` 10)) = true) as Hc.
    { assert (0 ≤ y `mod` 10 < 10) as Hm by (apply Z.mod_pos_bound; lia). generalize dependent (y `mod` 10). intros d Hm.
      assert (d = 0 ∨ d = 1 ∨ d = 2 ∨ d = 3 ∨ d = 4 ∨ d = 5 ∨ d = 6 ∨ d = 7 ∨ d = 8 ∨ d = 9) as Hcase by lia.
      by repeat destruct Hcase as [->|Hcase]; subst. }
    destruct (y / 10 =? 0); [by constructor|]. apply IH. by constructor. }
  unfold itoa_bytes. destruct (z <? 0).
  - split; [done|]. constructor; [done|]. by apply Hd.
  - split; [|by apply Hd]. destruct (digits_fuel_head 20 z) as (d & rest & _ & ->); [lia|done].
Qed.

(** A text that no number goes on with. *)
Definition ends (rest : Bytes) : Prop := match rest with [] => True | c :: _ => number_char c = false end.

Lemma span_number_all b rest : Forall (λ c, number_char c = true) b → ends rest → span_number (b ++ rest) = (b, rest).
Proof.
  intros Hb Hr. induction Hb as [|c b Hc _ IH]; cbn [app span_number]; [destruct rest as [|c r]; cbn in *; [done|by rewrite Hr]|].
  by rewrite Hc, IH.
Qed.

Lemma read_number fuel b rest : (0 < fuel)%nat → b ≠ [] → Forall (λ c, number_char c = true) b → ends rest →
  read_value fuel (b ++ rest) = Some (TNumber b, rest).
Proof.
  intros Hfuel Hne Hb Hr. destruct fuel as [|fuel]; [lia|]. pose proof (span_number_all b rest Hb Hr) as Hs.
  destruct b as [|c b]; [done|]. rewrite <- app_comm_cons in *. set (r := b ++ rest) in *.
  inversion_clear Hb as [|? ? Hc _].
  assert (read_value (S fuel) (c :: r)
    = match span_number (c :: r) with ([], _) => None | (n, r) => Some (TNumber n, r) end) as -> by (destruct c; done).
  by rewrite Hs.
Qed.

Section json.
Context `{MarshalerLaws}.

Section json_induction.
Variable P : json → Prop.
Hypothesis HNull : P JNull.
Hypothesis HString : ∀ s, P (JString s).
Hypothesis HBool : ∀ b, P (JBool b).
Hypothesis HInt : ∀ z, P (JInt z).
Hypothesis HFloat : ∀ f, P (JFloat f).
Hypothesis HValue : ∀ v, P (JValue v).
Hypothesis HMap : ∀ m, Forall (λ kv : string * json, P kv.2) m → P (JMap m).

Fixpoint json_ind_fields (v : json) : P v :=
  match v with
  | JNull => HNull
  | JString s => HString s
  | JBool b => HBool b
  | JInt z => HInt z
  | JFloat f => HFloat f
  | JValue v => HValue v
  | JMap m =>
      HMap m ((fix go (m : list (string * json)) : Forall (λ kv : string * json, P kv.2) m :=
        match m with [] => Forall_nil_2 _ | kv :: m => Forall_cons_2 _ _ _ (json_ind_fields kv.2) (go m) end) m)
  end.
End json_induction.

(** What a reader sees of a value: values without a model are not shown. *)
Definition all_shown (fields : list (string * option text)) : option (list (Bytes * text)) :=
  mapM (λ kv : string * option text, t ← kv.2; Some (sanitize (to_bytes kv.1), t)) fields.

Fixpoint shown (v : json) : option text :=
  match v with
  | JNull => Some TNull
  | JString s => Some (TString (sanitize (to_bytes s)))
  | JBool b => Some (TBool b)
  | JInt z => Some (TNumber (itoa_bytes z))
  | JFloat f => match float_text f with inr b => Some (TNumber b) | inl _ => None end
  | JValue _ => None
  | JMap m => TObject <$> all_shown (order_by key_leb (prod_map id shown <$> m))
  end.

Lemma order_by_fields {A} (f : json → A) m :
  order_by key_leb (prod_map id f <$> m) = prod_map id f <$> order_by key_leb m.
Proof. unfold order_by. apply merge_sort_fmap. intros [k x] [l y]. done. Qed.

Lemma field_head kv rest : ∃ b, field_text kv ++ rest = x22 :: (pieces (to_bytes kv.1) ≫= escape_piece) ++ x22 :: x3a :: b
  ∧ b = kv.2 ++ rest.
Proof. eexists. split; [|reflexivity]. unfold field_text, quote. cbn. by rewrite <- !app_assoc. Qed.

(** Reading a field and what follows it. *)
Lemma read_field fuel kv t rest :
  (0 < fuel)%nat → (∀ r, ends r → read_value (pred fuel) (kv.2 ++ r) = Some (t, r)) →
  read_fields fuel (field_text kv ++ x7d :: rest) = Some ([(sanitize (to_bytes kv.1), t)], rest)
  ∧ read_fields fuel (field_text kv ++ x2c :: rest)
    = ('(fields, r) ← read_fields (pred fuel) rest; Some ((sanitize (to_bytes kv.1), t) :: fields, r)).
Proof.
  intros Hf Hv. destruct fuel as [|fuel]; [lia|]. cbn [pred] in *.
  destruct (field_head kv (x7d :: rest)) as (b1 & -> & ->). destruct (field_head kv (x2c :: rest)) as (b2 & -> & ->).
  cbn [read_fields]. rewrite !unquote_quote. cbn. by rewrite !Hv by done.
Qed.

Definition reads_back (v : json) : Prop := ∀ b t fuel rest,
  Marshal v = inr b → shown v = Some t → (length b ≤ fuel)%nat → ends rest → read_value fuel (b ++ rest) = Some (t, rest).

Lemma read_all_fields m : Forall (λ kv : string * json, reads_back kv.2) m → ∀ kv fs ts fuel rest,
  all_fields (prod_map id Marshal <$> m) = inr (kv :: fs) → all_shown (prod_map id shown <$> m) = Some ts →
  (length (field_text kv ++ (fs ≫= λ kv, x2c :: field_text kv)) ≤ fuel)%nat →
  read_fields fuel (field_text kv ++ (fs ≫= λ kv, x2c :: field_text kv) ++ x7d :: rest) = Some (ts, rest).
Proof.
  induction 1 as [|[k v] m Hv _ IH]; intros kv fs ts fuel rest Hfs Hts Hlen; [done|]. cbn in Hv, Hfs, Hts.
  destruct (Marshal v) as [|b] eqn:Eb; [done|]. destruct (all_fields _) as [|fs'] eqn:Efs; [done|]. injection Hfs as <- <-.
  destruct (shown v) as [t|] eqn:Et; [|done]. cbn in Hts. apply bind_Some in Hts as (ts' & Ets & [= <-]).
  set (kv := (k, b)) in *. rewrite length_app in Hlen.
  assert ((length b < length (field_text kv))%nat) as Hb by (unfold field_text; cbn; rewrite !length_app; cbn; lia).
  assert (∀ r, ends r → read_value (pred fuel) (kv.2 ++ r) = Some (t, r)) as Hval.
  { intros r Hr. apply Hv; [done|done|simpl; lia|done]. }
  destruct fs' as [|kv' fs'].
  - destruct m as [|[k' v'] m]; [|cbn in Efs; destruct (Marshal v'); [done|]; by destruct (all_fields _)].
    injection Ets as <-. exact (proj1 (read_field fuel kv t rest ltac:(lia) Hval)).
  - assert (((kv' :: fs') ≫= λ kv, x2c :: field_text kv) ++ x7d :: rest
            = x2c :: field_text kv' ++ (fs' ≫= λ kv, x2c :: field_text kv) ++ x7d :: rest) as ->
      by (rewrite bind_cons; cbn [app]; by rewrite <- !app_assoc).
    rewrite (proj2 (read_field fuel kv t _ ltac:(lia) Hval)).
    rewrite (IH kv' fs' ts'); [done|done|done|]. rewrite bind_cons, length_app in Hlen. cbn [length] in Hlen. rewrite length_app. lia.
Qed.

Lemma marshal_reads_back v : reads_back v.
Proof.
  induction v as [|s|b|z|f|v|m IH] using json_ind_fields; intros b' t fuel rest.
  - intros [= <-] [= <-] Hlen _. by destruct fuel as [|fuel]; [simpl in Hlen; lia|].
  - intros [= <-] [= <-] Hlen _. destruct fuel as [|fuel]; [simpl in Hlen; lia|].
    unfold quote. cbn. rewrite <- app_assoc. cbn. by rewrite unquote_quote.
  - intros [= <-] [= <-] Hlen _. destruct fuel as [|fuel]; [destruct b; simpl in Hlen; lia|]. by destruct b.
  - intros [= <-] [= <-] Hlen Hr. destruct (itoa_number z) as [Hne Hn]. apply read_number; [|done|done|done].
    destruct (itoa_bytes z); [done|simpl in Hlen; lia].
  - cbn. destruct (float_text f) as [|b1] eqn:Ef; [done|]. intros [= <-] [= <-] Hlen Hr.
    destruct (float_text_number f b1 Ef) as [Hne Hn]. apply read_number; [|done|done|done].
    destruct b1; [done|simpl in Hlen; lia].
  - done.
  - cbn. rewrite !order_by_fields.
    assert (Forall (λ kv : string * json, reads_back kv.2) (order_by key_leb m)) as Hm.
    { rewrite Forall_forall in *. intros kv Hkv%elem_of_order_by. by apply IH. }
    destruct (all_fields _) as [|fs] eqn:Efs; [done|]. intros [= <-] (ts & Ets & ->)%fmap_Some Hlen Hr.
    destruct fuel as [|fuel]; [simpl in Hlen; lia|]. destruct fs as [|kv fs].
    + destruct (order_by key_leb m) as [|[k v] m']; [injection Ets as <-; done|]. cbn in Efs.
      destruct (Marshal v); [done|]. by destruct (all_fields _).
    + assert (read_fields fuel (field_text kv ++ (fs ≫= λ kv, x2c :: field_text kv) ++ x7d :: rest) = Some (ts, rest)) as Hread.
      { apply (read_all_fields _ Hm); [done|done|]. unfold object_text in Hlen. cbn [length] in Hlen. rewrite length_app in Hlen. cbn [length] in Hlen. lia. }
      unfold object_text. rewrite <- app_comm_cons, <- !app_assoc. cbn [app].
      destruct (field_head kv ((fs ≫= λ kv, x2c :: field_text kv) ++ x7d :: rest)) as (b1 & Eq & _).
      rewrite Eq in *. cbn [read_value]. by rewrite Hread.
Qed.
Lemma all_fields_Forall (Q : Bytes → Prop) (m : list (string * (error + Bytes))) : ∀ fs,
  all_fields m = inr fs → Forall (λ kv : string * (error + Bytes), ∀ b, kv.2 = inr b → Q b) m → Forall (λ kv, Q kv.2) fs.
Proof.
  induction m as [|[k [err|b]] m IH]; intros fs; cbn; [intros [= <-]; constructor|done|].
  destruct (all_fields m) as [|rest]; [done|]. intros [= <-] [Hb Hm]%Forall_cons. constructor; [by apply Hb|by apply IH].
Qed.

Lemma field_text_line kv : x0a ∉ kv.2 → x0a ∉ field_text kv.
Proof.
  intros Hb. unfold field_text. rewrite not_elem_of_app, not_elem_of_cons. split_and!; [|done|done].
  apply printable_line, printable_quote.
Qed.

(** No text contains a line break. *)
Lemma marshal_line v : ∀ b, Marshal v = inr b → x0a ∉ b.
Proof.
  induction v as [|s|c|z|f|v|m IH] using json_ind_fields; intros b; cbn.
  - intros [= <-]. by apply printable_line; repeat constructor.
  - intros [= <-]. apply printable_line, printable_quote.
  - intros [= <-]. by destruct c; apply printable_line; repeat constructor.
  - intros [= <-] Hin. destruct (itoa_number z) as [_ Hn]. rewrite Forall_forall in Hn. by specialize (Hn _ Hin).
  - intros Hf Hin. destruct (float_text_number f b Hf) as [_ Hn]. rewrite Forall_forall in Hn. by specialize (Hn _ Hin).
  - apply value_text_line.
  - rewrite order_by_fields. destruct (all_fields _) as [|fs] eqn:Efs; [done|]. intros [= <-].
    apply (all_fields_Forall (λ b, x0a ∉ b)) in Efs.
    2: { apply Forall_fmap, Forall_forall. intros [k v] Hkv%elem_of_order_by. rewrite Forall_forall in IH. exact (IH _ Hkv). }
    unfold object_text. rewrite not_elem_of_cons, not_elem_of_app. split_and!; [done| |by intros ?%list_elem_of_singleton].
    destruct Efs as [|kv fs Hkv Hfs]; [apply not_elem_of_nil|]. rewrite not_elem_of_app. split; [by apply field_text_line|].
    intros (kv' & Hin & Hkv')%list_elem_of_bind. rewrite Forall_forall in Hfs.
    apply elem_of_cons in Hin as [?|Hin]; [done|]. by apply (field_text_line kv'); [apply Hfs|].
Qed.

Lemma marshal_reads_text v b t : Marshal v = inr b → shown v = Some t → read_text b = Some t.
Proof.
  intros Hb Ht. unfold read_text. pose proof (marshal_reads_back v b t (length b) [] Hb Ht (le_n _) I) as Hr.
  rewrite app_nil_r in Hr. by rewrite Hr.
Qed.
End json.
