(* ===== verification/LoggingSpec.v ===== *)
(** * LoggingSpec: a record is one line, and the line tells the record *)

From Stdlib Require Import ZArith Lia.
From stdpp Require Import strings.
From S2P Require Import Prelude GoLib GoTime GoDuration Domain Database Effects OutboxRepo OutboxService AuthRepo.
From S2P Require Import AuthService ClientRepo FriendRepo RoomRepo ClientService RoomService Push Config Rpc Handler.
From S2P Require Import Runtime Json JsonSpec Logging.

Local Open Scope Z_scope.

Section logging.
Context `{MarshalerLaws}.

(** ** Maps as association lists *)

Lemma map_at_set (m : list (string * json)) key v k :
  map_at (map_set m key v) k = if decide (k = key) then Some v else map_at m k.
Proof.
  induction m as [|[k' u] m IH]; cbn [map_set map_at].
  - destruct (decide (key = k)) as [->|Hn]; [by rewrite decide_True|by rewrite decide_False].
  - destruct (decide (k' = key)) as [->|Hn]; cbn [map_at].
    + destruct (decide (key = k)) as [->|Hn']; [by rewrite decide_True|by rewrite decide_False].
    + rewrite IH. destruct (decide (k' = k)) as [->|Hn'], (decide (k = key)); congruence || done.
Qed.

Lemma map_set_in (m : list (string * json)) key v k : k ∈ (map_set m key v).*1 → k = key ∨ k ∈ m.*1.
Proof.
  induction m as [|[k' u] m IH]; cbn; [intros [->|?%not_elem_of_nil]%elem_of_cons; [by left|done]|].
  destruct (decide (k' = key)) as [->|Hn]; cbn; [rewrite elem_of_cons; tauto|].
  rewrite !elem_of_cons. intros [->|Hk%IH]; tauto.
Qed.

Lemma map_set_keys (m : list (string * json)) key v : NoDup (m.*1) → NoDup ((map_set m key v).*1).
Proof.
  induction m as [|[k' u] m IH]; cbn; [intros _; apply NoDup_singleton|].
  destruct (decide (k' = key)) as [->|Hn]; cbn; [done|]. intros [Hk Hm]%NoDup_cons. apply NoDup_cons.
  split; [|by apply IH]. intros [?|?]%map_set_in; congruence || done.
Qed.

Lemma map_at_Some (m : list (string * json)) k v : NoDup (m.*1) → map_at m k = Some v ↔ (k, v) ∈ m.
Proof.
  induction m as [|[k' u] m IH]; cbn; [intros _; split; [done|intros ?%not_elem_of_nil; done]|].
  intros [Hk Hm]%NoDup_cons. rewrite elem_of_cons. destruct (decide (k' = k)) as [->|Hn].
  - split; [intros [= ->]; by left|]. intros [[= ->]|Hin]; [done|]. destruct Hk. apply list_elem_of_fmap. by exists (k, v).
  - rewrite IH by done. split; [by right|]. intros [[= -> ->]|?]; done.
Qed.

(** ** The fields of a record *)

(** The fields that one attribute adds: none for an empty attribute, and
    the exception besides the field of an error. *)
Definition attr_fields (groups : list string) (attr : Attr) : list (string * json) :=
  let v := Resolve attr.2 in
  let key := qualified groups attr.1 in
  match v with
  | VNil => if decide (attr.1 = ""%string ∨ key = ""%string) then [] else [(key, JNull)]
  | VError err =>
      if decide (key = ""%string) then [] else
      (if decide (key = "error"%string) then [(fieldException, JString (Error err))] else []) ++ [(key, JString (Error err))]
  | _ => if decide (key = ""%string) then [] else [(key, value v)]
  end.

(** All of them, in the order in which they are given: the fields of every
    record, those of the logger and those of the record. *)
Definition record_fields (h : SerilogHandler) (now : Time) (record : LogRecord) : list (string * json) :=
  let level := serilogLevel (rec_Level record) in
  [(fieldTimestamp, JString (FormatRFC3339Nano (default now (rec_Time record))));
   (fieldMessage, JString (rec_Message record)); (fieldEventID, JString (eventID (rec_Message record)));
   (fieldSourceContext, JString (sourceContext record))]
  ++ (if decide (level = ""%string) then [] else [(fieldLevel, JString level)])
  ++ ((sh_attrs h ++ rec_Attrs record) ≫= attr_fields (sh_groups h)).

(** The value a key is given last. *)
Definition last_value (fields : list (string * json)) (key : string) : option json :=
  snd <$> last (filter (λ kv, kv.1 = key) fields).

Definition set_all (event fields : list (string * json)) : list (string * json) :=
  foldl (λ event kv, map_set event kv.1 kv.2) event fields.

Lemma appendAttr_fields groups event attr : appendAttr groups event attr = set_all event (attr_fields groups attr).
Proof.
  unfold appendAttr, attr_fields, set_all. set (key := qualified groups attr.1). clearbody key.
  destruct (Resolve attr.2) as [|err|v|b|d|f|z|s|t|z|attrs|v]; try (by destruct (decide (key = ""%string))).
  - case_bool_decide as He; [by rewrite decide_True by auto|].
    destruct (decide (key = ""%string)) as [Hk|Hk]; [by rewrite decide_True by auto|]. by rewrite decide_False by tauto.
  - destruct (decide (key = ""%string)); [done|]. by destruct (decide (key = "error"%string)).
Qed.

Lemma set_all_app event l k : set_all event (l ++ k) = set_all (set_all event l) k.
Proof. apply foldl_app. Qed.

Lemma foldl_appendAttr groups attrs : ∀ event,
  foldl (appendAttr groups) event attrs = set_all event (attrs ≫= attr_fields groups).
Proof.
  induction attrs as [|attr attrs IH]; intros event; [done|]. cbn [foldl]. rewrite bind_cons, set_all_app, IH.
  by rewrite appendAttr_fields.
Qed.

Lemma set_all_keys fields : ∀ event, NoDup (event.*1) → NoDup ((set_all event fields).*1).
Proof. induction fields as [|kv fields IH]; intros event Hn; [done|]. cbn. by apply IH, map_set_keys. Qed.

Lemma map_at_set_all fields key : ∀ event,
  map_at (set_all event fields) key
  = match last_value fields key with Some v => Some v | None => map_at event key end.
Proof.
  unfold last_value. induction fields as [|[k v] fields IH] using rev_ind; intros event; [done|].
  rewrite set_all_app. cbn. rewrite map_at_set, filter_app, IH. rewrite filter_cons. cbn.
  destruct (decide (k = key)) as [->|Hn].
  - rewrite decide_True by done. by rewrite last_snoc.
  - rewrite decide_False by congruence. by rewrite app_nil_r.
Qed.

Lemma log_event_fields h now record : log_event h now record = set_all [] (record_fields h now record).
Proof.
  unfold log_event. rewrite !foldl_appendAttr, <- set_all_app, <- bind_app.
  set (l := (sh_attrs h ++ rec_Attrs record) ≫= attr_fields (sh_groups h)).
  set (event := if decide (serilogLevel (rec_Level record) ≠ ""%string) then _ else _).
  assert (set_all event l = set_all [] (record_fields h now record)) as Hev.
  { unfold record_fields. fold l. rewrite !set_all_app. f_equal. unfold event. clear event l.
    generalize (serilogLevel (rec_Level record)). intros level.
    generalize (JString (FormatRFC3339Nano (default now (rec_Time record)))), (JString (rec_Message record)),
      (JString (eventID (rec_Message record))), (JString (sourceContext record)). intros v1 v2 v3 v4.
    destruct (decide (level = ""%string)) as [->|Hne]; [reflexivity|].
    rewrite decide_True by exact Hne. reflexivity. }
  rewrite Hev. set (e := set_all [] _).
  assert (∀ key v, (key, v) ∈ record_fields h now record → is_Some (map_at e key)) as Hsome.
  { intros key v Hin. unfold e. rewrite map_at_set_all. unfold last_value.
    destruct (last (filter _ _)) as [kv|] eqn:El; [by eexists|]. exfalso.
    apply last_None in El. apply (not_elem_of_nil (key, v)). rewrite <- El. by apply list_elem_of_filter. }
  unfold set_missing. destruct (Hsome fieldSourceContext (JString (sourceContext record))) as [v1 Hv1].
  { apply elem_of_app. left. do 3 apply list_elem_of_further. apply list_elem_of_here. }
  rewrite Hv1. destruct (Hsome fieldEventID (JString (eventID (rec_Message record)))) as [v2 Hv2].
  { apply elem_of_app. left. do 2 apply list_elem_of_further. apply list_elem_of_here. }
  by rewrite Hv2.
Qed.

Lemma log_event_at h now record key : map_at (log_event h now record) key = last_value (record_fields h now record) key.
Proof. rewrite log_event_fields, map_at_set_all. by destruct (last_value _ _). Qed.

Lemma last_value_in fields key v : last_value fields key = Some v → (key, v) ∈ fields.
Proof.
  unfold last_value. intros ([k u] & Hl & ->)%fmap_Some. apply last_Some_elem_of, list_elem_of_filter in Hl as [Hk Hl].
  cbn in Hk. by subst.
Qed.

(** ** The line *)

Lemma all_shown_spec (m : list (string * json)) fs :
  all_shown (prod_map id shown <$> m) = Some fs →
  ∀ k t, (k, t) ∈ fs ↔ ∃ key v, (key, v) ∈ m ∧ shown v = Some t ∧ k = sanitize (to_bytes key).
Proof.
  unfold all_shown. revert fs. induction m as [|[key v] m IH]; intros fs; cbn.
  - intros [= <-] k t. split; [by intros ?%not_elem_of_nil|by intros (? & ? & ?%not_elem_of_nil & _)].
  - destruct (shown v) as [t0|] eqn:Et; [|done]. cbn. intros (fs' & Hfs & [= <-])%bind_Some k t. cbn in *.
    rewrite elem_of_cons, (IH fs' Hfs). split.
    + intros [[= -> ->]|(key' & v' & Hin & Hv & ->)]; [exists key, v|exists key', v']; (split_and!; [rewrite elem_of_cons; auto|done|done]).
    + intros (key' & v' & [[= -> ->]|Hin]%elem_of_cons & Hv & ->); [left; rewrite Et in Hv; by injection Hv as ->|]. right. by exists key', v'.
Qed.

Lemma all_shown_Some (m : list (string * json)) :
  (∀ key v, (key, v) ∈ m → is_Some (shown v)) → is_Some (all_shown (prod_map id shown <$> m)).
Proof.
  intros Hm. apply mapM_is_Some, Forall_fmap, Forall_forall. intros [k v] Hin. cbn.
  destruct (Hm k v Hin) as [t ->]. by eexists.
Qed.

(** ** What can be encoded *)

(** A value that [json.Marshal] takes: no float without a text, and no other
    value that refuses. *)
Fixpoint encodable (v : json) : bool :=
  match v with
  | JFloat f => match float_text f with inr _ => true | inl _ => false end
  | JValue v => match value_text v with inr _ => true | inl _ => false end
  | JMap m => forallb (λ kv, encodable kv.2) m
  | _ => true
  end.

(** A value without a part that only [reflect] knows. *)
Fixpoint plain (v : json) : bool :=
  match v with
  | JValue _ => false
  | JMap m => forallb (λ kv, plain kv.2) m
  | _ => true
  end.

Lemma all_fields_ok (m : list (string * (error + Bytes))) :
  (∃ fs, all_fields m = inr fs) ↔ Forall (λ kv, ∃ b, kv.2 = inr b) m.
Proof.
  induction m as [|[k [err|b]] m IH]; cbn.
  - split; [constructor|by eexists].
  - split; [by intros [? ?]|]. by intros [[? ?] _]%Forall_cons.
  - rewrite Forall_cons, <- IH. destruct (all_fields m) as [err|fs].
    + split; [by intros [? ?]|]. by intros (_ & ? & ?).
    + split; [intros _; split; by eexists|by eexists].
Qed.

Lemma refused_field {A} (f : A → bool) l : forallb f l = false → ∃ x, x ∈ l ∧ f x = false.
Proof.
  induction l as [|x l IH]; [done|]. cbn. destruct (f x) eqn:Ef; cbn.
  - intros (y & Hy & Hf)%IH. exists y. split; [by right|done].
  - intros _. exists x. split; [left|done].
Qed.

(** A result, or none. *)
Ltac by_cases := split; first [by intros [? ?]|done|intros _; by eexists].

Lemma marshal_encodable v : (∃ b, Marshal v = inr b) ↔ encodable v = true.
Proof.
  induction v as [|s|b|z|f|v|m IH] using json_ind_fields; cbn; try (split; [done|by eexists]).
  - destruct (float_text f); by_cases.
  - destruct (value_text v); by_cases.
  - rewrite order_by_fields.
    assert ((∃ b, (match all_fields (prod_map id Marshal <$> order_by key_leb m) with
              | inl err => inl err | inr fields => inr (object_text fields) end) = inr b)
            ↔ ∃ fs, all_fields (prod_map id Marshal <$> order_by key_leb m) = inr fs) as ->.
    { destruct (all_fields _) as [err|fs]; by_cases. }
    rewrite all_fields_ok, Forall_fmap, forallb_forall. rewrite Forall_forall in IH |- *. cbn.
    split; intros Hm kv Hkv.
    + rewrite <- list_elem_of_In in Hkv. by apply IH, Hm, elem_of_order_by.
    + apply elem_of_order_by in Hkv. apply IH; [done|]. apply Hm. by apply list_elem_of_In.
Qed.

Lemma plain_shown v : encodable v = true → plain v = true → is_Some (shown v).
Proof.
  induction v as [|s|b|z|f|v|m IH] using json_ind_fields; cbn [encodable plain shown].
  - intros _ _. by exists TNull.
  - intros _ _. by eexists.
  - intros _ _. by eexists.
  - intros _ _. by eexists.
  - destruct (float_text f) as [|b]; [done|]. intros _ _. by exists (TNumber b).
  - done.
  - intros He Hp. rewrite forallb_forall in He, Hp. rewrite Forall_forall in IH. rewrite order_by_fields.
    apply fmap_is_Some, all_shown_Some. intros key v Hkv%elem_of_order_by.
    apply (IH _ Hkv); [apply He|apply Hp]; by apply list_elem_of_In.
Qed.

(** C35: A log record is one line, and the line tells the record.  A record
    with a field that JSON cannot encode is refused with an error and
    nothing is written.  Any other record, line breaks and quotes included,
    is handed to the writer in one write of a single line that contains no
    other line break, and when the writer reports no error the whole line
    has been received.  If no field holds a value of a type of its own, then
    reading that line as JSON gives an object whose fields are exactly the
    keys of the record, of its logger and of their groups, each with the
    value it was given last: bytes that are no UTF-8 are replaced,
    everything else comes back as it was. *)
Theorem log_line_tells_record {W} `{WriterLaws W} h now record (out out' : W) err :
  (∀ payload (w : W) n w', Write payload w = (n, None, w') → n = Z.of_nat (length payload)) →
  Handle h now record out = (err, out') →
  let field key v := last_value (record_fields h now record) key = Some v in
  ((∃ key v, field key v ∧ encodable v = false) ∧ is_Some err ∧ out' = out)
  ∨ ((∀ key v, field key v → encodable v = true)
     ∧ ∃ line, (x0a ∉ line)
         ∧ (∃ n, Write (line ++ [x0a]) out = (n, err, out'))
         ∧ (err = None → received out' = received out ++ line ++ [x0a])
         ∧ ((∀ key v, field key v → plain v = true) → ∃ fs, read_text line = Some (TObject fs)
              ∧ ∀ k t, (k, t) ∈ fs ↔ ∃ key v, field key v ∧ shown v = Some t ∧ k = sanitize (to_bytes key))).
Proof.
  intros Hwhole Hh. cbv zeta. set (event := log_event h now record).
  assert (NoDup (event.*1)) as Hnd by (unfold event; rewrite log_event_fields; apply set_all_keys; constructor).
  assert (∀ key v, (key, v) ∈ event ↔ last_value (record_fields h now record) key = Some v) as Hin.
  { intros key v. unfold event. by rewrite <- map_at_Some, log_event_at. }
  pose proof (marshal_encodable (JMap event)) as Henc. unfold Handle, log_payload in Hh. fold event in Hh.
  destruct (Marshal (JMap event)) as [e|line] eqn:El.
  - left. injection Hh as <- <-. split_and!; [|by eexists|done].
    destruct (forallb (λ kv, encodable kv.2) event) eqn:Ef; [by destruct (proj2 Henc Ef)|].
    apply refused_field in Ef as ([key v] & Hkv & Hv). exists key, v. split; [by apply Hin|done].
  - right. destruct (Write _ out) as [[n err'] out1] eqn:Ew. injection Hh as <- <-.
    assert (∀ key v, last_value (record_fields h now record) key = Some v → encodable v = true) as He.
    { intros key v Hkv%Hin. pose proof (proj1 Henc ltac:(by eexists)) as Hall. cbn in Hall. rewrite forallb_forall in Hall.
      apply (Hall (key, v)). by apply list_elem_of_In. }
    split; [done|]. exists line. split; [by eapply marshal_line|]. split; [by exists n|]. split.
    + intros ->. destruct (Write_prefix _ _ _ _ _ Ew) as [_ ->]. by rewrite (Hwhole _ _ _ _ Ew), Nat2Z.id, firstn_all.
    + intros Hp. destruct (all_shown_Some (order_by key_leb event)) as [fs Hfs].
      { intros key v Hkv%elem_of_order_by%Hin. apply plain_shown; [by eapply He|by eapply Hp]. }
      exists fs. split; [eapply marshal_reads_text; [exact El|]; cbn; by rewrite order_by_fields, Hfs|].
      intros k t. rewrite (all_shown_spec _ _ Hfs). setoid_rewrite elem_of_order_by. by setoid_rewrite Hin.
Qed.
End logging.
