(* ===== verification/Witnesses.v ===== *)
(** * Witnesses: the theorems at work on concrete runs

    Each lemma runs the program in the world of [Concrete] and applies one
    theorem there, with its hypotheses evaluated. *)

From Stdlib Require Import ZArith.
From stdpp Require Import countable pretty.
From S2P Require Import Prelude GoLib GoTime Domain Database Effects Concrete Pagination OutboxRepo.
From S2P Require Import OutboxInv OutboxService OutboxSpec OutboxOrder OutboxReach OutboxRace OutboxLocks OutboxDeadlock.
From S2P Require Import AuthRepo AuthService AuthSpec ClientRepo FriendRepo RoomRepo ClientService RoomService FriendSpec.
From S2P Require Import FriendRace RoomSpec RoomInv RoomDirect RoomMembers.

Local Open Scope Z_scope.

(** Closed decidable facts, by evaluation. *)
Ltac decide_it := match goal with |- ?P => apply (bool_decide_unpack P); vm_compute; exact I end.

Definition state_of (db : DB) : World := set_db db initial_World.
Definition the_event_appender : EventAppender := AppendEvent.
#[export] Existing Instance the_event_appender.

(** ** The outbox *)

Definition phone_session : Session :=
  mkSession 77%N alice "" "phone" [] [] true None 0 0 0.
Definition room_event (id : UUID) (created : Time) : Event :=
  mkEvent id alice None "mlsMessageReceived" [("roomId"%string, AString "room-1")] created
    (created + 3600 * Second) None created.

Definition outbox0 : World := state_of (set_auth_sessions [phone_session] empty_DB).
Definition outbox1 : World := (appendOutbox Background (room_event 501%N 10) outbox0).2.
Definition outbox2 : World := (appendOutbox Background (room_event 502%N 20) outbox1).2.
Definition traced : OutboxService := mkOutboxService
  (mkOutboxConfig (300 * Millisecond) 32 (15 * Second) 5 (2 * Minute) 500 (24 * Hour) (24 * Hour)) (Some trace_notifier).
Definition outbox3 : World := (DispatchOnce traced Background outbox2).2.

Definition row_of (n : nat) (w : World) : OutboxRow :=
  nth n (outbox (events (w_db w))) (mkOutboxRow 0%N "" "" "" [] 0 0 None 0 0 0 None None None).

Lemma outboxEventID_inj id d d' : outboxEventID id d = outboxEventID id d' → d = d'.
Proof.
  unfold outboxEventID. simpl. intros [= Eq]. apply (inj encode) in Eq.
  apply (inj (String.append (pretty id))) in Eq. by apply (inj (String.append ":")) in Eq.
Qed.

(** Events 501 and 502 never share an outbox identifier. *)
Lemma fresh_502 d : outboxEventID 502%N d ≠ outboxEventID 501%N "phone".
Proof.
  unfold outboxEventID. simpl. by intros [= Eq].
Qed.

Lemma outbox1_ids :
  Forall (λ o, ob_event_id o = outboxEventID 501%N "phone") (outbox (events (w_db outbox1)))
  ∧ Forall (λ s, sg_head_event_id s = Some (outboxEventID 501%N "phone")) (outbox_segments (events (w_db outbox1))).
Proof. split; decide_it. Qed.

Lemma fresh_event_502 : event_fresh (room_event 502%N 20) (w_db outbox1).
Proof.
  destruct outbox1_ids as [H1 H2]. split; [intros d d'; apply outboxEventID_inj|]. intros d. split.
  - intros o Ho. rewrite Forall_forall in H1. rewrite (H1 o Ho). exact (not_eq_sym (fresh_502 d)).
  - intros s Hs. rewrite Forall_forall in H2. rewrite (H2 s Hs). intros Heq. exact (fresh_502 d (eq_sym (inj Some _ _ Heq))).
Qed.

Lemma fresh_event_501 : event_fresh (room_event 501%N 10) (w_db outbox0).
Proof. split; [intros d d'; apply outboxEventID_inj|]. intros d. split; intros ? ?%not_elem_of_nil; done. Qed.

Lemma reserved_of_fresh event db : event_fresh event db → event_reserved event db.
Proof.
  intros [Hinj Hf]. split; [done|]. intros d. destruct (Hf d) as [H1 H2]. split.
  - intros o Ho Eo. by destruct (H1 o Ho).
  - intros s Hs Es. by destruct (H2 s Hs).
Qed.

Lemma outbox_run : rtc (outbox_step traced) outbox0 outbox3.
Proof.
  apply (rtc_l _ _ outbox1).
  { exact (step_append traced Background (room_event 501%N 10) outbox0 (reserved_of_fresh _ _ fresh_event_501)). }
  apply (rtc_l _ _ outbox2).
  { exact (step_append traced Background (room_event 502%N 20) outbox1 (reserved_of_fresh _ _ fresh_event_502)). }
  exact (rtc_once _ _ (step_dispatch traced outbox2)).
Qed.

Lemma ordered_run : rtc (ordered_step traced) outbox0 outbox3.
Proof.
  apply (rtc_l _ _ outbox1).
  { apply (ostep_append traced Background (room_event 501%N 10) outbox0 outbox1); [apply fresh_event_501| |reflexivity].
    by intros o ?%not_elem_of_nil. }
  apply (rtc_l _ _ outbox2).
  { apply (ostep_append traced Background (room_event 502%N 20) outbox1 outbox2); [apply fresh_event_502| |vm_compute; reflexivity].
    intros o Ho _ _. assert (Forall (λ o, ob_created_at o ≤ 20) (outbox (events (w_db outbox1)))) as H by decide_it.
    rewrite Forall_forall in H. by apply H. }
  exact (rtc_once _ _ (ostep_dispatch traced outbox2)).
Qed.

Lemma outbox_single_flight_witness :
  ob_status (row_of 0 outbox3) = StatusInFlight ∧ is_Some (ob_inflight_until (row_of 0 outbox3)).
Proof.
  split; [vm_compute; reflexivity|].
  apply (outbox_single_flight traced trace_notifier_laws outbox0 outbox3 (row_of 0 outbox3) (row_of 0 outbox3));
    try reflexivity; [apply outbox_run|decide_it|decide_it|..]; vm_compute; reflexivity.
Defined.

(** The second event waits behind the first, which is in flight. *)
Lemma outbox_serves_oldest_witness :
  ∃ sg hd, sg ∈ outbox_segments (events (w_db outbox3)) ∧ sg_head_event_id sg = Some (ob_event_id hd)
    ∧ ob_created_at hd ≤ ob_created_at (row_of 1 outbox3).
Proof.
  destruct (outbox_serves_oldest traced trace_notifier_laws concrete_clock_monotone outbox0 outbox3 (row_of 1 outbox3))
    as (sg & hd & H1 & _ & _ & H2 & _ & _ & H3 & _);
    [reflexivity|reflexivity|apply ordered_run|decide_it|decide_it|decide_it|].
  exists sg, hd. exact (conj H1 (conj H2 H3)).
Defined.

Lemma outbox2_wf : db_wf (w_db outbox2).
Proof.
  assert (db_wf (w_db outbox0)) as H0 by (constructor; simpl; try constructor; set_solver).
  assert (db_wf (w_db outbox1)) as H1.
  { apply (outbox_step_wf traced trace_notifier_laws outbox0); [|done].
    apply (step_append traced Background (room_event 501%N 10)), reserved_of_fresh, fresh_event_501. }
  apply (outbox_step_wf traced trace_notifier_laws outbox1); [|done].
  apply (step_append traced Background (room_event 502%N 20)), reserved_of_fresh, fresh_event_502.
Qed.

Lemma DispatchOnce_leases_witness :
  (DispatchOnce traced Background outbox2).1 = Ok 1
  ∧ ∃ evs, w_trace (DispatchOnce traced Background outbox2).2 = w_trace outbox2 ++ announcements evs ∧ 1 = Z.of_nat (length evs).
Proof.
  split; [vm_compute; reflexivity|].
  pose proof (DispatchOnce_leases (os_cfg traced) outbox2 (Ok 1) (DispatchOnce traced Background outbox2).2 outbox2_wf) as H.
  destruct H as (evs & H1 & H2 & _); [vm_compute; reflexivity|]. exists evs. exact (conj H1 H2).
Defined.

(** The first event has been sent, its acknowledgement overlaps the append
    of the second. *)
Definition outbox_sent : World := (DispatchOnce traced Background outbox1).2.

Lemma outbox_sent_ids :
  Forall (λ o, ob_event_id o = outboxEventID 501%N "phone") (outbox (events (w_db outbox_sent)))
  ∧ Forall (λ s, sg_head_event_id s = Some (outboxEventID 501%N "phone")) (outbox_segments (events (w_db outbox_sent))).
Proof. split; decide_it. Qed.

Lemma outbox_sent_fresh : event_fresh (room_event 502%N 20) (w_db outbox_sent).
Proof.
  destruct outbox_sent_ids as [H1 H2]. rewrite Forall_forall in H1. rewrite Forall_forall in H2.
  split; [intros d d'; apply outboxEventID_inj|]. intros d. split.
  - intros o Ho. rewrite (H1 o Ho). exact (not_eq_sym (fresh_502 d)).
  - intros s Hs. rewrite (H2 s Hs). intros Heq. exact (fresh_502 d (eq_sym (inj Some _ _ Heq))).
Qed.

Definition segment_1 : string := outboxSegmentID (room_event 502%N 20).

Lemma outbox_sent_last : last_of_segment 30 (outboxEventID 501%N "phone") "phone" segment_1 (w_db outbox_sent).
Proof.
  constructor.
  - apply (outbox_step_wf traced trace_notifier_laws outbox1); [apply (step_dispatch traced outbox1)|].
    apply (outbox_step_wf traced trace_notifier_laws outbox0).
    + apply (step_append traced Background (room_event 501%N 10)), reserved_of_fresh, fresh_event_501.
    + constructor; simpl; try constructor; set_solver.
  - exists (row_of 0 outbox_sent). split_and!; [decide_it| | |]; vm_compute; repeat split; discriminate.
  - exists (nth 0 (outbox_segments (events (w_db outbox_sent))) (mkSegmentRow "" "" None None 0)).
    split_and!; [decide_it| |]; vm_compute; repeat split.
  - intros o Ho _ _ _. destruct outbox_sent_ids as [H1 _]. rewrite Forall_forall in H1. exact (H1 o Ho).
Qed.

Definition overlapped : World :=
  (append_during_ack 30 (outboxEventID 501%N "phone") "phone" "" (room_event 502%N 20) outbox_sent).2.

(** The dispatcher runs twice and the janitor once, to no avail. *)
Definition overlapped_later : World :=
  (DispatchOnce traced Background (janitor_run traced Background (DispatchOnce traced Background overlapped).2).2).2.

Lemma overlapped_run : rtc (other_step (room_event 502%N 20) "phone" traced) overlapped overlapped_later.
Proof.
  eapply rtc_l; [apply other_dispatch|]. eapply rtc_l; [apply other_janitor|]. apply rtc_once, other_dispatch.
Qed.

Lemma append_during_ack_strands_witness :
  queued (room_event 502%N 20) "phone" (w_db overlapped_later) ∧ ¬ served 40 (events (w_db overlapped_later)).
Proof.
  destruct (append_during_ack_strands traced 30 (outboxEventID 501%N "phone") "phone" "" (room_event 502%N 20) outbox_sent
    overlapped overlapped_later) as (H1 & _ & H2);
    [exact trace_notifier_laws|by left|apply outbox_sent_last|apply outbox_sent_fresh|decide_it|vm_compute; reflexivity|exact overlapped_run|].
  split; [exact H1|]. apply H2. reflexivity.
Defined.

(** The head of the queue is due, and the phone acknowledges it while the
    dispatcher claims it. *)
Definition due_event : candidate :=
  nth 0 (select_candidates 30 32 (w_db outbox2)) (mkCandidate "" "" 0%N 0 0 0 0).

Lemma due_event_first : select_candidates 30 32 (w_db outbox2) = [due_event].
Proof. vm_compute. reflexivity. Qed.

Lemma acknowledgement_deadlocks_dispatch_witness :
  cand_deviceID due_event = "phone"%string
  ∧ ∃ dispatch ack,
      rtc locks_step (pair_server (w_db outbox2) (begin (dispatch_tx 30 32 (15 * Second) 5))
        (begin (tx_AcknowledgeOutbox 30 (cand_eventID due_event) (cand_deviceID due_event) ""))) (pair_server (w_db outbox2) dispatch ack)
      ∧ waits_for (pair_server (w_db outbox2) dispatch ack) 0 1 ∧ waits_for (pair_server (w_db outbox2) dispatch ack) 1 0.
Proof.
  split; [vm_compute; reflexivity|].
  destruct (acknowledgement_deadlocks_dispatch 30 32 (15 * Second) 5 30 "" (w_db outbox2) due_event []) as (d & a & H1 & H2 & H3 & _);
    [reflexivity|apply outbox2_wf|apply due_event_first|left; vm_compute; reflexivity|by left|].
  exists d, a. exact (conj H1 (conj H2 H3)).
Defined.

(** ** Authentication *)

Definition auth_cfg : AuthConfig := mkAuthConfig (5 * Minute) (24 * Hour) 100 (5 * Second).
Definition login : RequestAuthChallengeInput := mkRequestAuthChallengeInput alice "10.0.0.1" "phone" ["001"%byte].
Definition auth1 : World := (RequestAuthChallenge auth_cfg Background login initial_World).2.
Definition login_signature : Bytes := alice ++ (to_bytes authenticationChallengeType ++ ["001"%byte]).
Definition auth2 : World := (SolveAuthChallenge auth_cfg Background 1%N login_signature auth1).2.

Definition no_session : Session := mkSession 0%N [] "" "" [] [] false None 0 0 0.
Definition logged_in : Session := nth 0 (auth_sessions (identity (w_db auth2))) no_session.

Lemma auth_run : rtc (auth_step auth_cfg) initial_World auth2.
Proof.
  apply (rtc_l _ _ auth1); [exact (step_request auth_cfg Background login initial_World)|].
  exact (rtc_once _ _ (step_solve auth_cfg Background 1%N login_signature auth1)).
Qed.

Lemma authenticated_sessions_are_proven_witness :
  ses_IsAuthenticated logged_in = true ∧ length (ses_UserPublicKey logged_in) = PublicKeySize ∧ proven logged_in.
Proof.
  split; [vm_compute; reflexivity|].
  apply (authenticated_sessions_are_proven auth_cfg initial_World auth2);
    [reflexivity|apply auth_run|decide_it|vm_compute; reflexivity].
Defined.

Lemma auth1_ok : sessions_ok (w_db auth1).
Proof.
  apply (auth_step_sessions auth_cfg initial_World); [exact (step_request auth_cfg Background login initial_World)|].
  constructor; simpl; [constructor|set_solver|set_solver].
Qed.

(** A wrong signature is refused and changes nothing. *)
Lemma SolveAuthChallenge_outcome_witness :
  (SolveAuthChallenge auth_cfg Background 1%N login_signature auth1).1
    = Ok (mkSolveAuthChallengeOutput true alice 1000000001)
  ∧ w_db (SolveAuthChallenge auth_cfg Background 1%N bob auth1).2 = w_db auth1.
Proof.
  split; [vm_compute; reflexivity|].
  apply (SolveAuthChallenge_outcome auth_cfg 1%N bob auth1 (Err ErrInvalidSignature) _ auth1_ok).
  vm_compute. reflexivity.
Defined.

Definition inbox : World := state_of (set_user_events [room_event 501%N 10; room_event 502%N 20] empty_DB).

Lemma PullEvents_delivers_witness :
  (PullEvents auth_cfg Background alice 1 inbox).1 = Ok [room_event 501%N 10]
  ∧ Z.of_nat (length [room_event 501%N 10]) ≤ EventBatchSize auth_cfg.
Proof.
  split; [vm_compute; reflexivity|].
  apply (PullEvents_delivers auth_cfg alice 1 inbox [room_event 501%N 10] (PullEvents auth_cfg Background alice 1 inbox).2);
    [decide_it|decide_it|vm_compute; reflexivity].
Defined.

(** ** Friends *)

Definition client_cfg : ClientConfig := mkClientConfig "secure-chat" "1.0" (5 * Minute) (24 * Hour) 100.
Definition friends1 : World := (run_friend_op client_cfg (OpSend alice bob) initial_World).2.
Definition friends2 : World := (run_friend_op client_cfg (OpAccept bob 1%N) friends1).2.

Lemma friend_run : rtc (friend_step client_cfg) initial_World friends2.
Proof.
  apply (rtc_l _ _ friends1); [exact (friend_step_op client_cfg (OpSend alice bob) initial_World)|].
  exact (rtc_once _ _ (friend_step_op client_cfg (OpAccept bob 1%N) friends1)).
Qed.

Lemma friendship_is_mutual_witness : are_friends alice bob (w_db friends2).
Proof.
  apply (friendship_is_mutual client_cfg initial_World friends2); [reflexivity|apply friend_run|decide_it].
Defined.

(** Alice cancels her request while Bob accepts it. *)
Lemma accept_during_cancel_disagrees_witness :
  let w' := (accept_during_cancel client_cfg alice bob 1%N friends1).2 in
  are_friends alice bob (w_db w') ∧ ∃ r, request_row 1%N (w_db w') = Some r ∧ freq_State r = FriendRequestCanceled.
Proof.
  destruct (accept_during_cancel_disagrees client_cfg alice bob 1%N friends1
    ([("canceledAt", AString "1970-01-01T00:16:40.000002Z")],
     [("friendId", AUUID 3%N); ("acceptedAt", AString "1970-01-01T00:16:40.000003Z")])%string
    (accept_during_cancel client_cfg alice bob 1%N friends1).2) as (r & r' & _ & _ & _ & H1 & H2 & _); [vm_compute; reflexivity|].
  split; [decide_it|]. exists r'. exact (conj H1 H2).
Defined.

Lemma friend_request_transitions_witness :
  length (friend_requests (social (w_db friends1))) = 1%nat
  ∧ NoDup (freq_RequestID <$> friend_requests (social (w_db (run_friend_op client_cfg (OpAccept bob 1%N) friends1).2))).
Proof.
  split; [vm_compute; reflexivity|].
  apply (friend_request_transitions client_cfg (OpAccept bob 1%N) friends1). decide_it.
Defined.

Lemma UpdateProfile_terminates_witness :
  ends (SvcUpdateProfile client_cfg Background alice "alice" "" "" "") friends2.
Proof. apply (UpdateProfile_terminates client_cfg). decide_it. Defined.

(** ** Rooms *)

Definition direct1 : World := (run_room_op client_cfg (RoomCreateDirect alice bob) friends2).2.
Definition no_direct : DirectRoomRecord := mkDirectRoom 0%N [] [] 0.
Definition direct_row (w : World) : DirectRoomRecord := nth 0 (direct_rooms (rooms (w_db w))) no_direct.
Definition direct_id : UUID := Eval vm_compute in dr_RoomID (direct_row direct1).

Lemma direct_run : rtc (room_step client_cfg) friends2 direct1.
Proof. exact (rtc_once _ _ (room_step_op client_cfg (RoomCreateDirect alice bob) friends2)). Qed.

Lemma one_direct_room_per_pair_witness :
  direct_row direct1 ∈ direct_rooms (rooms (w_db direct1))
  ∧ Forall (λ d', direct_between bob alice d' → direct_row direct1 = d') (direct_rooms (rooms (w_db direct1))).
Proof.
  assert (direct_row direct1 ∈ direct_rooms (rooms (w_db direct1))) as Hin by decide_it. split; [exact Hin|].
  destruct (one_direct_room_per_pair client_cfg friends2 direct1) as (_ & Hone & _); [vm_compute; reflexivity|apply direct_run|].
  apply Forall_forall. intros d' Hd Hb. apply (Hone _ _ bob alice); [exact Hin|exact Hd| |exact Hb].
  right. vm_compute. split; reflexivity.
Defined.

Lemma CreateDirectRoom_establishes_witness :
  (SvcCreateDirectRoom Background bob alice direct1).1 = Ok (existing_direct_room direct_id)
  ∧ w_db (SvcCreateDirectRoom Background bob alice direct1).2 = w_db direct1.
Proof.
  destruct (CreateDirectRoom_establishes alice bob friends2
    [("roomId", AUUID direct_id); ("alreadyExisted", ABool false); ("createdAt", AFormatted 1000000004)]%string direct1)
    as (_ & id & H1 & _ & H2); [vm_compute; reflexivity|].
  assert (id = direct_id) as -> by (apply (inj Some); rewrite <- H1; vm_compute; reflexivity).
  apply H2; [apply concrete_quiet|reflexivity|right; left].
Defined.

(** Alice deletes the room: the two never have a direct room again. *)
Definition direct2 : World := (run_room_op client_cfg (RoomGuarded alice (OpDeleteRoom direct_id)) direct1).2.

Lemma deleted_direct_room_blocks_witness :
  are_friends alice bob (w_db direct2) ∧ refused (SvcCreateDirectRoom Background alice bob) direct2.
Proof.
  split; [decide_it|]. apply (deleted_direct_room_blocks alice bob (direct_row direct2));
    [decide_it|vm_compute; reflexivity|vm_compute; reflexivity].
Defined.

Lemma guarded_ops_refuse_witness :
  refused (run_guarded_op client_cfg bob (OpDeleteRoom direct_id)) direct1.
Proof.
  apply (guarded_ops_refuse client_cfg bob (OpDeleteRoom direct_id)).
  assert (¬ owns_room bob direct_id (w_db direct1)) as H; [|exact H]. unfold owns_room. decide_it.
Defined.

Lemma SendMessage_authorised_witness :
  let run := SendMessage client_cfg Background alice direct_id 9%N [["104"%byte]] direct1 in
  may_send alice direct_id (w_db direct1)
  ∧ ∃ evs, user_events (events (w_db run.2)) = user_events (events (w_db direct1)) ++ evs
      ∧ ev_UserPublicKey <$> evs = [alice; bob].
Proof.
  intros run.
  destruct (SendMessage_authorised client_cfg alice direct_id 9%N [["104"%byte]] direct1 run.1 run.2) as [_ H]; [vm_compute; reflexivity|].
  destruct (H [("messageId", AUUID 7%N); ("createdAt", AFormatted 1000000005)]%string) as (H1 & _ & evs & mid & H2 & H3 & _);
    [vm_compute; reflexivity|].
  split; [exact H1|]. exists evs. split; [exact H2|]. etransitivity; [exact H3|]. vm_compute. reflexivity.
Defined.

(** A public room of Alice that Bob joins. *)
Definition group1 : World := (run_room_op client_cfg (RoomCreate alice "Chess" "" VisibilityPublic) friends2).2.
Definition group_id : UUID := Eval vm_compute in
  nth 0 (r_room_id <$> chat_rooms (rooms (w_db group1))) 0%N.
Definition group2 : World := (run_room_op client_cfg (RoomJoin bob group_id) group1).2.
Definition no_member : ChatMemberRecord := mkMember 0%N [] 0 0 0 None.
Definition member_row (n : nat) (w : World) : ChatMemberRecord := nth n (chat_members (rooms (w_db w))) no_member.

Lemma no_privilege_escalation_witness :
  elevated (member_row 0 group2) ∧ member_row 0 group2 ∈ chat_members (rooms (w_db group1)).
Proof.
  assert (elevated (member_row 0 group2)) as He by (unfold elevated; decide_it). split; [exact He|].
  destruct (no_privilege_escalation client_cfg (RoomJoin bob group_id) group1 (member_row 0 group2)) as [H|[]];
    [decide_it|exact He|exact H].
Defined.

Lemma group1_wf : rooms_db_wf (w_db group1).
Proof.
  apply (reachable_rooms_wf client_cfg friends2); [vm_compute; reflexivity|].
  exact (rtc_once _ _ (room_step_op client_cfg (RoomCreate alice "Chess" "" VisibilityPublic) friends2)).
Qed.

Lemma joining_a_room_witness :
  joined group_id bob (chat_members (rooms (w_db group1))) (chat_members (rooms (w_db group2))).
Proof.
  apply (joining_a_room client_cfg (RoomJoin bob group_id) group1 [("joinedAt"%string, AFormatted 1000000005)] group2 group1_wf).
  vm_compute. reflexivity.
Defined.

(** Alice invites Carol and Carol declines. *)
Definition invited : World :=
  (run_room_op client_cfg (RoomGuarded alice (OpInvite group_id carol None [] [])) group1).2.
Definition no_invitation : ChatInvitationRecord := mkInvitation 0%N 0%N [] [] None [] [] 0 0 0.
Definition invitation_row (w : World) : ChatInvitationRecord := nth 0 (chat_invitations (rooms (w_db w))) no_invitation.
Definition declined : World := (run_room_op client_cfg (RoomDecline carol (inv_InvitationID (invitation_row invited))) invited).2.

Lemma invitation_transitions_witness :
  inv_State (invitation_row declined) = InvitationDeclined
  ∧ invitation_origin (RoomDecline carol (inv_InvitationID (invitation_row invited))) (w_db invited) (invitation_row declined).
Proof.
  split; [vm_compute; reflexivity|].
  apply (invitation_transitions client_cfg (RoomDecline carol (inv_InvitationID (invitation_row invited))) invited); decide_it.
Defined.
