(* ===== verification/ClientWitnesses.v ===== *)
(** * ClientWitnesses: counters, key packages and outbox rows on concrete runs

    The theorems of [UsageSpec], [KeyPackageSpec], [OutboxLife] and
    [PushSpec] in the world of [Concrete]. *)

From Stdlib Require Import ZArith.
From S2P Require Import Prelude GoLib GoTime Domain Database Effects Concrete OutboxRepo OutboxInv OutboxService.
From S2P Require Import OutboxReach OutboxLife AuthRepo AuthService ClientRepo ClientService UsageSpec KeyPackageSpec.
From S2P Require Import Push PushSpec.
From S2P Require Import Witnesses.

Local Open Scope Z_scope.

Definition is_ok {A} (r : outcome A) : bool := match r with Ok _ => true | _ => false end.

(** ** The life of an event *)

Lemma outbox2_run : rtc (outbox_step traced) outbox0 outbox2.
Proof.
  apply (rtc_l _ _ outbox1).
  { exact (step_append traced Background (room_event 501%N 10) outbox0 (reserved_of_fresh _ _ fresh_event_501)). }
  exact (rtc_once _ _ (step_append traced Background (room_event 502%N 20) outbox1 (reserved_of_fresh _ _ fresh_event_502))).
Qed.

(** The dispatch sends the first event, once, and not the second. *)
Lemma outbox_life_cycle_witness :
  map ob_attempts (outbox (events (w_db outbox3))) = [1; 0]
  ∧ Forall (row_ok (os_cfg traced)) (outbox (events (w_db outbox3))).
Proof.
  split; [vm_compute; reflexivity|].
  apply (outbox_life_cycle traced trace_notifier_laws outbox0 outbox2 outbox3);
    [decide_it|reflexivity|reflexivity|apply outbox2_run|exact (step_dispatch traced outbox2)].
Defined.

(** ** Usage *)

Section two_calls.
Variable w : World.

Definition use1 := RecordUserUsage Background alice 3 100 200 w.
Definition use2 := RecordUserUsage Background alice 1 10 20 use1.2.
Definition use_ledger : list usage_entry :=
  recorded alice 1 10 20 use1.2 use2.1 ++ recorded alice 3 100 200 w use1.1 ++ [].

Lemma use_run : rtc usage_step ([], w) (use_ledger, use2.2).
Proof. eapply rtc_l; [apply (usage_record [] Background)|]. apply rtc_once, usage_record. Qed.
End two_calls.

Lemma usage_counters_keep_ledger_witness :
  ledger_sum (use_ledger auth2) alice "allTime" 0 = mkUsageStat 4 110 220
  ∧ (GetMyUsageStats Background alice (use2 auth2).2).1
    = Ok (stats_map (ledger_stats (use_ledger auth2) alice (clock_at (w_clock (use2 auth2).2)))).
Proof.
  split; [vm_compute; reflexivity|].
  pose proof (usage_counters_keep_ledger auth2 (use_ledger auth2) (use2 auth2).2 Background alice) as H.
  assert (is_ok (GetMyUsageStats Background alice (use2 auth2).2).1 = true) as Hok by (vm_compute; reflexivity).
  revert H Hok. destruct (GetMyUsageStats Background alice (use2 auth2).2) as [[r|e|m] w']; [|done|done].
  intros H _. cbn [fst]. f_equal.
  apply (H r w'); [vm_compute; reflexivity|apply use_run|reflexivity].
Defined.

(** ** Key packages *)

Definition package_item (b : byte) (expires : Time) (lastResort : bool) : GoMap :=
  [("keyPackageBytes", ABytes [b]); ("expiresAt", ATime expires); ("isLastResort", ABool lastResort)]%string.
Definition package_items : list GoMap :=
  [package_item "001"%byte (5000000000) true; package_item "002"%byte 5000000000 false; package_item "003"%byte 7 false].

Definition upload_packages (items : list GoMap) (w : World) := @UploadKeyPackages _ LookupSession Background 1%N alice items w.
Definition packages1 : World := (upload_packages package_items auth2).2.
Definition packages_of (w : World) : list Bytes := map kp_KeyPackageBytes (key_packages (identity (w_db w))).

Lemma upload_replaces_packages_witness :
  packages_of packages1 = [["001"]; ["002"]; ["003"]]%byte
  ∧ ∃ s new, ses_SessionID s = 1%N ∧ Forall2 (uploaded alice (ses_DeviceID s)) package_items new.
Proof.
  split; [vm_compute; reflexivity|].
  pose proof (upload_replaces_packages Background 1%N alice package_items auth2) as H.
  assert (is_ok (upload_packages package_items auth2).1 = true) as Hok by (vm_compute; reflexivity).
  revert H Hok. unfold upload_packages. destruct (UploadKeyPackages _ _ _ _ _) as [[r|e|m] w']; [|done|done].
  intros H _. destruct (H r w') as (s & new & _ & Hid & Hn & _); [done|reflexivity|].
  exists s, new. exact (conj Hid Hn).
Defined.

(** The ordinary package that has not expired is offered. *)
Lemma fetch_offers_the_best_witness :
  (SvcFetchKeyPackages Background [alice] packages1).1
    = Ok [("items"%string, AList [AMap [("userPublicKey", ABytes alice); ("deviceId", AString "phone");
                                        ("keyPackageBytes", ABytes ["002"%byte])]%string])]
  ∧ ∃ ks, best_of_each [alice] (clock_at (w_clock packages1)) (w_db packages1) ks.
Proof.
  split; [vm_compute; reflexivity|].
  pose proof (fetch_offers_the_best Background [alice] packages1) as H.
  assert (is_ok (SvcFetchKeyPackages Background [alice] packages1).1 = true) as Hok by (vm_compute; reflexivity).
  revert H Hok. destruct (SvcFetchKeyPackages Background [alice] packages1) as [[r|e|m] w']; [|done|done].
  intros H _. destruct (H r w' eq_refl) as (_ & ks & Hks & _). exists ks. exact Hks.
Defined.

(** An upload that fails midway, here on an empty package, has already
    deleted the packages of the device. *)
Lemma failed_upload_loses_packages :
  let again := upload_packages [package_item "004"%byte 9 false; [("keyPackageBytes", ABytes []); ("expiresAt", ATime 9)]%string] packages1 in
  (∃ e, again.1 = Err e) ∧ packages_of packages1 ≠ [] ∧ packages_of again.2 = [["004"]]%byte.
Proof.
  cbv zeta. split; [|split; [by vm_compute|vm_compute; reflexivity]].
  eexists. vm_compute. reflexivity.
Qed.

(** ** Pushes *)

(** A phone that accepts pushes, and a message for it. *)
Definition the_phone : DeviceRecord := mkDeviceRecord 7%N None alice "phone" 2 "token" true 0.
Definition phone_world : World :=
  mkWorld (set_device_push_tokens [the_phone] empty_DB) 0 0 0 0 [].
Definition message_event : OutboxEvent :=
  mkOutboxEvent 9%N "phone" "room" "mlsMessageReceived"
    [("roomId", AString "room"); ("messageId", AString "m"); ("body", AString "secret")]%string 5 50 None None 1.

Lemma process_pushes_witness :
  pushable message_event
  ∧ ∃ e w1, envelope_for message_event (w_db phone_world) e
      ∧ ∀ S : Sender, process Background message_event phone_world = ignore_error (Send "token"%string e) w1.
Proof.
  assert (pushable message_event) as Hp by (left; vm_compute; split_and!; done). split; [exact Hp|].
  destruct (process_pushes Background message_event phone_world) as [_ Hsend].
  destruct (Hsend "token"%string) as (e & w1 & _ & Henv & Hs).
  - exact concrete_quiet.
  - done.
  - exact Hp.
  - split.
    + exists the_phone. split_and!; [left|done|done|done|done|done|]. by intros d' ->%list_elem_of_singleton.
    + by intros d d' ->%list_elem_of_singleton ->%list_elem_of_singleton.
  - exists e, w1. exact (conj Henv Hs).
Defined.
