(* ===== verification/HandlerWitnesses.v ===== *)
(** * HandlerWitnesses: the RPC handler on concrete packets

    A small codec, connections and packets, and the theorems of
    [HandlerSpec] and [HandlerPull] applied to them. *)

From Stdlib Require Import ZArith.
From stdpp Require Import gmap countable pretty.
From S2P Require Import Prelude GoLib GoTime Domain Database Effects Concrete Pagination OutboxRepo OutboxInv.
From S2P Require Import OutboxService OutboxSpec AuthRepo AuthService ClientRepo FriendRepo RoomRepo ClientService.
From S2P Require Import RoomService EventBus Rpc Handler RoomSpec HandlerSpec PanicSpec HandlerPull Witnesses.

Local Open Scope Z_scope.

(** The first byte of a payload is its call, the rest are the parameters. *)
Definition toy_call (b : byte) : string :=
  match byte_val b with
  | 1 => "requestAuthChallenge" | 2 => "solveAuthChallenge" | 3 => "acknowledgeEvent"
  | 4 => "listDevices" | 5 => "updateProfile" | _ => "unknown"
  end%string.

Definition toy_payload (b : Bytes) : string + RequestPayload :=
  match b with
  | call :: parameters => inr (mkRequestPayload 7%N (toy_call call) 0 1 parameters)
  | [] => inl "EOF"%string
  end.

(** A key, closed by a zero byte, and a device. *)
Fixpoint toy_split (b : Bytes) : Bytes * Bytes :=
  match b with
  | [] => ([], [])
  | x :: b => if decide (byte_val x = 0) then ([], b) else prod_map (cons x) id (toy_split b)
  end.

#[export] Instance concrete_codec : Codec := {|
  cbor_packets _ := inl "not an array"%string;
  cbor_packet b := match b with [] => inl "EOF"%string | _ => inr (mkRequestPacket b (drop 32 b)) end;
  DecodePayload := toy_payload;
  cbor_requestAuth b := let '(key, device) := toy_split b in
    inr (mkRequestAuthChallengeParams key "" (of_bytes device) ["001"%byte]);
  cbor_solveAuth b := inr (mkSolveAuthChallengeParams 1%N b);
  cbor_subscribe _ := inr (mkSubscribeToEventsParams 0);
  cbor_unsubscribe _ := inr (mkUnsubscribeFromEventsParams 1%N 0);
  cbor_acknowledge _ := inr (mkAcknowledgeEventParams (AUUID 1%N) "" "");
  cbor_map _ := inr None;
  cbor_responses rs := Some (replicate (length rs) "000"%byte);
  uuid_Parse _ := (uuid_Nil, false);
  uuid_FromBytes _ := (uuid_Nil, false) |}.

Definition the_handler : Handler := mkHandler auth_cfg (Some client_cfg) (Some traced).

(** A packet with a call and its parameters, signed by a key. *)
Definition signed_by (key : Bytes) (call : byte) (parameters : Bytes) : RequestPacket :=
  mkRequestPacket (key ++ call :: parameters) (call :: parameters).

Definition challenge_parameters (key : Bytes) (device : string) : Bytes := key ++ "000"%byte :: to_bytes device.

Definition bob_connected : sessionState := mkSessionState 9%N bob "tablet" true true [].

Lemma bob_connected_ok : state_ok bob_connected.
Proof. by intros _. Qed.

(** ** Signatures and gates *)

(** Carol cannot act on the connection of bob. *)
Definition forged : RequestPacket := signed_by carol "003"%byte [].

Lemma forged_unsigned db : ¬ signed_packet forged bob_connected db.
Proof.
  intros (payload & key & Hd & Hk & _ & Hv). unfold signer_key in Hk. simpl in Hk. subst key.
  revert Hv. vm_compute. done.
Qed.

Lemma unsigned_packet_rejected_witness :
  rejected bob_connected (w_db outbox2) (handlePacket the_handler Background forged bob_connected outbox2).
Proof. apply unsigned_packet_rejected; [apply bob_connected_ok|apply forged_unsigned]. Defined.

Lemma calls_are_gated_witness :
  refused (handle_call the_handler Background (mkRequestPayload 7%N "listDevices" 0 1 []) no_state) outbox2.
Proof. apply calls_are_gated. left. split; [decide_it|left; reflexivity]. Defined.

(** A key of five bytes panics the handler; one of the right size does not. *)
Definition five_bytes : RequestPacket := signed_by [] "001"%byte (challenge_parameters (replicate 5 "097"%byte) "phone").

Definition panics {A} (r : outcome A * World) : Prop := ∃ msg, r.1 = Panic msg.

Lemma traced_ok s : h_outboxService the_handler = Some s → notifier_ok s.
Proof. intros [= <-]. exact trace_notifier_laws. Qed.

Lemma batches_ok cfg : h_clientService the_handler = Some cfg → 0 < cfg_EventBatchSize cfg.
Proof. by intros [= <-]. Qed.

Lemma only_malformed_keys_panic_witness :
  panics (handlePacket the_handler Background five_bytes no_state auth1)
  ∧ ∀ msg, (handlePacket the_handler Background forged no_state auth1).1 = Panic msg → foreign the_handler msg.
Proof.
  split.
  - eexists. apply (only_malformed_keys_panic the_handler append_frame batches_ok Background five_bytes no_state auth1 auth1_ok no_state_ok).
    split; [done|]. eexists _, _. split_and!; [reflexivity|done|reflexivity|done|done].
  - intros msg Hp.
    apply (only_malformed_keys_panic the_handler append_frame batches_ok Background forged no_state auth1 auth1_ok no_state_ok) in Hp
      as [(_ & payload & p & [= <-] & Hc & _)|Hp]; [done|exact Hp].
Defined.

(** ** Signing in, and taking over *)

Definition sign_in : RequestPacket := signed_by alice "001"%byte (challenge_parameters alice "phone").
Definition challenged : outcome (ResponsePacket * sessionState * option error) * World :=
  handlePacket the_handler Background sign_in no_state initial_World.
Definition state_after (r : outcome (ResponsePacket * sessionState * option error) * World) : sessionState :=
  match r.1 with Ok (_, next, _) => next | _ => no_state end.
Definition response_of (r : outcome (ResponsePacket * sessionState * option error) * World) : ResponsePacket :=
  match r.1 with Ok (response, _, _) => response | _ => mkResponsePacket 0%N None "" [] end.

Definition prove_key : RequestPacket := signed_by alice "002"%byte login_signature.
Definition signed_in : outcome (ResponsePacket * sessionState * option error) * World :=
  handlePacket the_handler Background prove_key (state_after challenged) challenged.2.

Lemma connection_transitions_witness :
  st_Authenticated (state_after challenged) = false ∧ st_Authenticated (state_after signed_in) = true
  ∧ state_ok (state_after signed_in).
Proof.
  split; [vm_compute; reflexivity|]. split; [vm_compute; reflexivity|].
  destruct (connection_transitions the_handler Background prove_key (state_after challenged) challenged.2
    (response_of signed_in) (state_after signed_in) None signed_in.2) as (payload & _ & _ & _ & [Hb|[_ Hok]]);
    [vm_compute; reflexivity|vm_compute; reflexivity|vm_compute in Hb; discriminate Hb|exact Hok].
Defined.

(** Bob asks for a challenge in the name of alice and her phone. *)
Definition takeover : RequestPacket := signed_by bob "001"%byte (challenge_parameters alice "phone").
Definition taken_over : outcome (ResponsePacket * sessionState * option error) * World :=
  handlePacket the_handler Background takeover bob_connected outbox2.

(** The event on its way to alice's phone rides along with the response. *)
Lemma challenge_rebinds_connection_witness :
  st_Authenticated (state_after taken_over) = true
  ∧ st_DeviceID (state_after taken_over) = "phone"%string
  ∧ match (handlePackets the_handler Background [takeover] bob_connected ∅ outbox2).1 with
    | Ok (responses, _, _, _) =>
        rs_EventType <$> responses = ["rpcCallResponse"; "mlsMessageReceived"]%string
    | _ => False
    end.
Proof.
  split; [|split; vm_compute; reflexivity].
  apply (challenge_rebinds_connection the_handler Background takeover bob_connected outbox2
    (response_of taken_over) (state_after taken_over) taken_over.2
    (mkRequestPayload 7%N "requestAuthChallenge" 0 1 (challenge_parameters alice "phone")));
    vm_compute; reflexivity.
Defined.

(** ** Deliveries *)

Definition pull_once : outcome ((error + list ResponsePacket) * sentEvents) * World :=
  pullOutboxPackets the_handler Background "phone" ∅ outbox2.
Definition pulled_of (r : outcome ((error + list ResponsePacket) * sentEvents) * World) : (error + list ResponsePacket) * sentEvents :=
  match r.1 with Ok r => r | _ => (inr [], ∅) end.
Definition pull_twice := pullOutboxPackets the_handler Background "phone" (pulled_of pull_once).2 pull_once.2.

(** The event is sent once, although it is still in flight. *)
Lemma events_ride_once_witness :
  (∃ packets, (pulled_of pull_once).1 = inr packets ∧ length packets = 1%nat ∧ NoDup (rs_RequestID <$> packets))
  ∧ (pulled_of pull_twice).1 = inr [].
Proof.
  split; [|vm_compute; reflexivity].
  destruct (events_ride_once the_handler concrete_clock_monotone traced trace_notifier_laws eq_refl Background "phone" ∅
    outbox2 (pulled_of pull_once).1 (pulled_of pull_once).2 pull_once.2) as [_ Hp];
    [done|vm_compute; reflexivity|].
  destruct (pulled_of pull_once).1 as [e|packets] eqn:Ep; [vm_compute in Ep; discriminate Ep|].
  exists packets. split; [reflexivity|]. split; [|apply (Hp packets eq_refl)].
  vm_compute in Ep. injection Ep as <-. reflexivity.
Defined.

Lemma http_connections_isolated_witness :
  let r := handleHTTP the_handler Background (Some "conn-1"%string) (pk_Signature sign_in) ∅ initial_World in
  ∃ status payload s', r.1 = Ok (status, payload, s') ∧ status = 200 ∧ scopes_ok s'.
Proof.
  cbv zeta. eexists _, _, _. split; [vm_compute; reflexivity|]. split; [reflexivity|].
  eapply (http_connections_isolated the_handler Background (Some "conn-1"%string) (pk_Signature sign_in) ∅ initial_World);
    [apply map_Forall_empty|vm_compute; reflexivity].
Defined.

(** ** The event bus *)

Definition phone_bus : Bus := (SubscribeKey "phone" new_bus).2.
Definition woken_bus : Bus := set_chan 0 (mkChannel true false) phone_bus.

Lemma phone_copy : copy_chans "phone" phone_bus = [0%nat].
Proof. vm_compute. reflexivity. Qed.

Lemma phone_bus_run : bus_run [LSubscribe "phone"] initial (Running phone_bus ∅).
Proof. apply (run_cons _ _ _ (Running phone_bus ∅)); [apply step_subscribe|apply run_nil]. Qed.

Lemma phone_notify_run :
  bus_run [LCopy "phone" 0; LSend 0 0; LReturn 0] (Running phone_bus ∅) (Running woken_bus (delete 0%nat (<[0%nat := []]> {[0%nat := [0%nat]]}))).
Proof.
  apply (run_cons _ _ _ (Running phone_bus {[0%nat := [0%nat]]})).
  { apply step_copy; [reflexivity|]. rewrite phone_copy. reflexivity. }
  apply (run_cons _ _ _ (Running woken_bus (<[0%nat := []]> {[0%nat := [0%nat]]}))).
  { exact (step_send 0 0 [] phone_bus {[0%nat := [0%nat]]} eq_refl). }
  eapply run_cons; [apply step_return; reflexivity|apply run_nil].
Qed.

Lemma no_lost_wakeup_witness : ∃ c, chans woken_bus !! 0%nat = Some c ∧ ch_full c = true.
Proof.
  apply (no_lost_wakeup [LSubscribe "phone"] [LSend 0 0; LReturn 0] phone_bus ∅ woken_bus _ "phone" 0 0 phone_bus_run phone_notify_run);
    [vm_compute; reflexivity|rewrite phone_copy; left|vm_compute; reflexivity|].
  rewrite !not_elem_of_cons. split_and!; [discriminate|discriminate|apply not_elem_of_nil].
Defined.

Lemma crash_is_a_race_witness :
  ∃ ls, bus_run ls initial (Crashed "send on closed channel")
    ∧ ∃ l1 l2 l3 thread ch key key' id, ls = l1 ++ LCopy key thread :: l2 ++ LUnsubscribe key' id :: l3 ++ [LSend thread ch].
Proof.
  set (ls := [LSubscribe "phone"; LCopy "phone" 0; LUnsubscribe "phone" 1%N; LSend 0 0]).
  assert (bus_run ls initial (Crashed "send on closed channel")) as Hrun.
  { eapply run_cons; [apply step_subscribe|]. fold phone_bus.
    apply (run_cons _ _ _ (Running phone_bus {[0%nat := [0%nat]]})).
    { apply step_copy; [reflexivity|]. rewrite phone_copy. reflexivity. }
    eapply run_cons; [apply step_unsubscribe|]. vm_compute (Unsubscribe _ _ _). cbn [resume].
    eapply run_cons; [|apply run_nil].
    exact (step_send 0 0 [] (mkBus ∅ 1 [mkChannel false true]) {[0%nat := [0%nat]]} eq_refl). }
  exists ls. split; [exact Hrun|]. apply (crash_is_a_race ls "send on closed channel" Hrun). vm_compute. reflexivity.
Defined.
