(* ===== verification/DeliveryWitness.v ===== *)
(** * DeliveryWitness: deliveries in the concrete world

    Alice and bob share a direct room, bob's tablet is idle, and alice sends
    a message to the room; alice's phone drains the two events that wait for
    it. *)

From Stdlib Require Import ZArith Ascii.
From stdpp Require Import gmap countable pretty.
From S2P Require Import Prelude GoLib GoTime Domain Database Effects Concrete Pagination OutboxRepo OutboxInv.
From S2P Require Import OutboxService OutboxSpec OutboxRace AuthRepo AuthService ClientRepo FriendRepo RoomRepo ClientService.
From S2P Require Import RoomService Rpc Handler RoomSpec HandlerPull Witnesses HandlerWitnesses OutboxOrder OutboxReach Delivery DeliverySpec DeliveryBacklog.

Local Open Scope Z_scope.

(** ** Outbox identifiers of the concrete world do not collide

    The name of a row is the decimal identifier of the event, a colon, and
    the device; no decimal number has a colon. *)

Fixpoint colon_free (s : string) : Prop :=
  match s with EmptyString => True | String c s => c ≠ ":"%char ∧ colon_free s end.

Lemma pretty_go_colon_free x s : colon_free s → colon_free (pretty_N_go x s).
Proof.
  revert s. induction (N.lt_wf_0 x) as [x _ IH]. intros s Hs.
  destruct (decide (x = 0)%N) as [->|Hx]; [by rewrite pretty_N_go_0|].
  rewrite pretty_N_go_step by lia. apply IH; [apply N.div_lt; lia|]. split; [|done].
  unfold pretty_N_char. by repeat case_match.
Qed.

Lemma pretty_colon_free (n : N) : colon_free (pretty n).
Proof. unfold pretty, pretty_N. case_decide; [by split|]. by apply pretty_go_colon_free. Qed.

Lemma colon_split a b x y :
  colon_free a → colon_free b → (a ++ ":" ++ x = b ++ ":" ++ y)%string → a = b ∧ x = y.
Proof.
  revert b. induction a as [|c a IH]; intros [|d b] Ha Hb E; injection E.
  - done.
  - intros _ <-. by destruct Hb.
  - intros _ ->. by destruct Ha.
  - intros E' ->. destruct (IH b) as [-> ->]; [apply Ha|apply Hb|exact E'|done].
Qed.

Lemma concrete_distinct : distinct_ids.
Proof.
  intros i j d d'. unfold outboxEventID. cbn [uuid_NewSHA1_OID uuid_String uuid_at concrete_env]. intros [= Eq].
  apply (inj encode) in Eq. rewrite <-?(assoc_L String.append) in Eq.
  apply colon_split in Eq as [E ->]; [|apply pretty_colon_free..]. apply (inj pretty) in E. split; [lia|done].
Qed.

(** ** The run *)

Definition tablet_session : Session := mkSession 78%N bob "" "tablet" [] [] true None 0 0 0.
Definition before_sending : World := set_db (set_auth_sessions [tablet_session] (w_db direct1)) direct1.
Definition sending_run := SendMessage client_cfg Background alice direct_id 9%N [["104"%byte]] before_sending.
Definition answer_of (r : outcome GoMap * World) : GoMap := match r.1 with Ok a => a | _ => [] end.

Definition sent_world : World := sending_run.2.
Definition pull_run := pullOutboxPackets the_handler Background "tablet" ∅ sent_world.
Definition the_row : OutboxRow := row_of 0 sent_world.
Definition the_segment : SegmentRow := nth 0 (outbox_segments (events (w_db sent_world))) (mkSegmentRow "" "" None None 0).

Lemma sent_queue :
  outbox (events (w_db sent_world)) = [the_row] ∧ outbox_segments (events (w_db sent_world)) = [the_segment].
Proof. split; vm_compute; reflexivity. Qed.

Lemma the_row_waits : ob_status the_row = StatusPending ∧ StatusPending ≠ StatusInFlight.
Proof. split; [vm_compute; reflexivity|done]. Qed.

Lemma the_row_in_segment : sg_in (ob_device_id the_row) (ob_segment_id the_row) the_segment.
Proof. split; vm_compute; reflexivity. Qed.

Lemma sent_wf : db_wf (w_db sent_world).
Proof.
  destruct sent_queue as [E1 E2]. destruct the_row_waits as [Hw Hne]. constructor; rewrite ?E1, ?E2.
  - apply NoDup_singleton.
  - apply NoDup_singleton.
  - intros s h o ->%list_elem_of_singleton _ ->%list_elem_of_singleton _. destruct the_row_in_segment; by split.
  - intros o ->%list_elem_of_singleton Hst. congruence.
  - intros o ->%list_elem_of_singleton Hst. congruence.
Qed.

Lemma tablet_idle : lightly_loaded traced "tablet" sent_world.
Proof.
  destruct sent_queue as [E1 _]. destruct the_row_waits as [Hw Hne]. split.
  - apply sent_wf.
  - vm_compute. discriminate.
  - vm_compute. discriminate.
  - rewrite E1. intros o ->%list_elem_of_singleton (_ & Hf & _). congruence.
Qed.

Lemma message_answered :
  SendMessage client_cfg Background alice direct_id 9%N [["104"%byte]] before_sending = (Ok (answer_of sending_run), sent_world).
Proof. vm_compute. reflexivity. Qed.

Definition packets_of (r : outcome ((error + list ResponsePacket) * sentEvents) * World) : list ResponsePacket :=
  match (pulled_of r).1 with inr packets => packets | inl _ => [] end.

Lemma message_pulled :
  pullOutboxPackets the_handler Background "tablet" ∅ sent_world
  = (Ok (inr (packets_of pull_run), (pulled_of pull_run).2), pull_run.2).
Proof. vm_compute. reflexivity. Qed.

Lemma nothing_queued : outbox (events (w_db before_sending)) = [] ∧ outbox_segments (events (w_db before_sending)) = [].
Proof. split; vm_compute; reflexivity. Qed.

Lemma nothing_ahead : ids_ahead before_sending.
Proof. intros o k d. rewrite (proj1 nothing_queued). by intros ?%not_elem_of_nil. Qed.
Lemma nothing_waits : headless "tablet" (uuid_String direct_id) (w_db before_sending).
Proof. intros s. rewrite (proj2 nothing_queued). by intros ?%not_elem_of_nil. Qed.
Lemma bob_is_member : bob ∈ member_keys direct_id (w_db before_sending) ∧ "tablet"%string ∈ select_devices bob (w_db before_sending).
Proof. split; decide_it. Qed.
Lemma traced_cfg : cfg_ok (os_cfg traced).
Proof. by split_and!. Qed.
Lemma no_time_passes :
  clock_at (w_clock pull_run.2) < clock_at (w_clock before_sending) + cfg_EventRetention client_cfg
  ∧ clock_at (w_clock pull_run.2) < clock_at (w_clock sent_world) + AckTimeout (os_cfg traced)
  ∧ TrimSpace (uuid_String direct_id) ≠ ""%string.
Proof. split_and!; vm_compute; done. Qed.

(** Bob's tablet pulls the message that alice has sent to the room. *)
Lemma message_arrives_witness :
  ∃ mid p bytes, answer_of sending_run !! 0%nat = Some ("messageId"%string, AUUID mid) ∧ p ∈ packets_of pull_run
    ∧ rs_EventType p = "mlsMessageReceived"%string
    ∧ cbor_Marshal_map (message_payload direct_id mid 9%N alice [["104"%byte]]) = Some bytes
    ∧ cbor_Unmarshal_map bytes = Some (rs_Parameters p).
Proof.
  destruct no_time_passes as (H1 & H2 & H3). destruct bob_is_member as [H4 H5].
  apply (message_arrives the_handler concrete_clock_monotone traced trace_notifier_laws eq_refl traced_cfg client_cfg
    "tablet" alice direct_id 9%N [["104"%byte]] bob (answer_of sending_run) ∅ (packets_of pull_run) (pulled_of pull_run).2
    before_sending sent_world sent_world pull_run.2 concrete_distinct nothing_ahead H3 message_answered H4 eq_refl H5
    nothing_waits eq_refl (le_n _) tablet_idle); [intros; apply lookup_empty|exact message_pulled|exact H1|exact H2].
Defined.

(** ** Two events in the queue of alice's phone *)

Definition pull1 := pullOutboxPackets the_handler Background "phone" ∅ outbox2.
Definition acked1 := acknowledge_all traced "phone" (packets_of pull1) pull1.2.
Definition pull2 := pullOutboxPackets the_handler Background "phone" (pulled_of pull1).2 acked1.2.
Definition acked2 := acknowledge_all traced "phone" (packets_of pull2) pull2.2.
Definition drained : World := acked2.2.

Lemma pull1_ok : pullOutboxPackets the_handler Background "phone" ∅ outbox2 = (Ok (inr (packets_of pull1), (pulled_of pull1).2), pull1.2).
Proof. vm_compute. reflexivity. Qed.
Lemma acked1_ok : acknowledge_all traced "phone" (packets_of pull1) pull1.2 = (Ok tt, acked1.2).
Proof. vm_compute. reflexivity. Qed.
Lemma pull2_ok :
  pullOutboxPackets the_handler Background "phone" (pulled_of pull1).2 acked1.2
  = (Ok (inr (packets_of pull2), (pulled_of pull2).2), pull2.2).
Proof. vm_compute. reflexivity. Qed.
Lemma acked2_ok : acknowledge_all traced "phone" (packets_of pull2) pull2.2 = (Ok tt, drained).
Proof. vm_compute. reflexivity. Qed.

Lemma phone_drains :
  drains the_handler traced "phone" ∅ outbox2 [packets_of pull1; packets_of pull2] (pulled_of pull2).2 drained.
Proof.
  eapply drains_round; [exact pull1_ok|vm_compute; reflexivity|exact acked1_ok|].
  eapply drains_round; [exact pull2_ok|vm_compute; reflexivity|exact acked2_ok|]. apply drains_done.
Qed.

Lemma outbox2_in_order : in_order outbox2.
Proof.
  assert (in_order outbox0) as H0.
  { assert (db_wf (w_db outbox0)) as Hwf by (constructor; simpl; try constructor; set_solver). split; [exact Hwf|].
    split; [by intros s h ?%not_elem_of_nil|by intros o ?%not_elem_of_nil]. }
  assert (in_order outbox1) as H1.
  { apply (ordered_step_in_order traced trace_notifier_laws concrete_clock_monotone outbox0); [|done].
    apply (ostep_append traced Background (room_event 501%N 10) outbox0 outbox1); [apply fresh_event_501| |reflexivity].
    by intros o ?%not_elem_of_nil. }
  apply (ordered_step_in_order traced trace_notifier_laws concrete_clock_monotone outbox1); [|done].
  apply (ostep_append traced Background (room_event 502%N 20) outbox1 outbox2); [apply fresh_event_502| |vm_compute; reflexivity].
  intros o Ho _ _. assert (Forall (λ o, ob_created_at o ≤ 20) (outbox (events (w_db outbox1)))) as H by decide_it.
  rewrite Forall_forall in H. by apply H.
Qed.

Lemma phone_queue : outbox (events (w_db outbox2)) = [row_of 0 outbox2; row_of 1 outbox2].
Proof. vm_compute. reflexivity. Qed.

Definition waits_until (T : Time) (w : World) (o : OutboxRow) : Prop :=
  ob_status o = StatusPending ∧ ob_attempts o = 0 ∧ ob_send_after o ≤ clock_at (w_clock w) ∧ T < ob_expires_at o.
#[local] Instance waits_until_dec T w o : Decision (waits_until T w o).
Proof. unfold waits_until. apply _. Defined.

Lemma phone_queue_rows :
  Forall (λ o, ob_in "phone" "room-1" o ∧ ob_live o ∧ ob_status o ≠ StatusInFlight ∧ waits_until (clock_at (w_clock drained)) outbox2 o)
    [row_of 0 outbox2; row_of 1 outbox2].
Proof. decide_it. Qed.

Lemma phone_waits :
  queue traced "phone" "room-1" (clock_at (w_clock drained)) [row_of 0 outbox2; row_of 1 outbox2] ∅ outbox2.
Proof.
  pose proof phone_queue_rows as Hall. pose proof Hall as Hall'. rewrite Forall_forall in Hall'. split; rewrite ?phone_queue.
  - apply outbox2_in_order.
  - vm_compute. discriminate.
  - intros o (_ & _ & Hne & _)%Hall' _. exact Hne.
  - intros o. split; [by intros [? _]|]. intros Ho. destruct (Hall' o Ho) as (? & ? & _). by split.
  - eapply Forall_impl; [exact Hall|]. by intros o (_ & _ & _ & ?).
  - by repeat constructor.
  - intros o _ _ _. apply lookup_empty.
Qed.

(** The phone gets the older event with its first pull, the younger one with
    the second, and nothing is left. *)
Lemma backlog_drains_witness :
  (∃ p, p ∈ packets_of pull1 ∧ rs_RequestID p = ob_event_id (row_of 0 outbox2))
  ∧ (∃ p, p ∈ packets_of pull2 ∧ rs_RequestID p = ob_event_id (row_of 1 outbox2))
  ∧ ∀ o, o ∈ outbox (events (w_db drained)) → ob_in "phone" "room-1" o → ¬ ob_live o.
Proof.
  destruct (backlog_drains the_handler concrete_clock_monotone traced trace_notifier_laws eq_refl traced_cfg "phone" "room-1"
    ltac:(discriminate) [row_of 0 outbox2; row_of 1 outbox2] ∅ outbox2 [packets_of pull1; packets_of pull2]
    (pulled_of pull2).2 drained phone_waits phone_drains) as [H1 H2].
  destruct (H1 0%nat (row_of 0 outbox2) (packets_of pull1) eq_refl eq_refl) as (p1 & P1 & Q1 & _).
  destruct (H1 1%nat (row_of 1 outbox2) (packets_of pull2) eq_refl eq_refl) as (p2 & P2 & Q2 & _).
  split; [exists p1; exact (conj P1 Q1)|]. split; [exists p2; exact (conj P2 Q2)|].
  intros o Ho Hin Hl. apply (not_elem_of_nil o). exact (proj1 (H2 o) (conj Ho (conj Hin Hl))).
Defined.
