(* ===== verification/StartWitnesses.v ===== *)
(** * StartWitnesses: a concrete configuration and a concrete push

    The configuration of [example.config.yaml], an environment that
    overrides it, and two messages that a push cannot tell apart, with the
    theorems of [PushSpec] and [ConfigSpec] applied to them. *)

From Stdlib Require Import ZArith.
From stdpp Require Import strings countable pretty.
From S2P Require Import Prelude GoLib GoTime GoDuration Domain Database Effects Concrete OutboxRepo OutboxService.
From S2P Require Import AuthRepo AuthService ClientRepo FriendRepo RoomRepo ClientService Push Config PushSpec ConfigSpec.
From S2P Require Import Runtime Process ProcessSpec ProcessExit Json JsonSpec Logging LoggingSpec.

Local Open Scope Z_scope.

Ltac by_decision := match goal with |- ?P => apply (bool_decide_unpack P); vm_compute; exact I end.

(** ** Starting *)

Definition seconds (n : Z) : Z := n * 1000000000.

Definition example_app : AppConfiguration :=
  mkApp "server-v2" "0.0.0.0" (mkPorts 9000 0 8080 0 8080 0) (mkPorts 834 9443 80 443 80 443)
    (seconds 300) (seconds 86400) 100 (seconds 5) 0 0 0 0 0 0 0 (mkTLS "" "").

(** The retention is changed by hand, and two variables are malformed. *)
Definition example_env (name : string) : string :=
  if decide (name = "APP_EVENT_RETENTION"%string) then of_bytes (itoa_bytes 36 ++ to_bytes "h") else
  if decide (name = "APP_EVENT_BATCH_SIZE"%string) then "many" else
  if decide (name = "APP_OUTBOX_POLL_INTERVAL"%string) then " -" else
  if decide (name = "APP_OUTBOX_MAX_ATTEMPTS"%string) then Itoa 9 else "".



Lemma overrides_bounded_witness :
  let b := override_app example_env example_app in
  Forall in_int64 (app_numbers b) ∧ app_EventRetention b = 36 * 3600000000000
  ∧ app_OutboxMaxAttempts b = 9 ∧ app_OutboxPollInterval b = 0 ∧ app_EventBatchSize b = 100.
Proof.
  destruct (overrides_bounded example_env example_app) as (Hb & Hd & Hi & _).
  { unfold in_int64. by_decision. }
  split; [exact Hb|]. split; [|split; [|split]].
  - apply (Hd "APP_EVENT_RETENTION"%string app_EventRetention) with (u := to_bytes "h"); [right; left| |done|done|reflexivity].
    by_decision.
  - apply (Hi "APP_OUTBOX_MAX_ATTEMPTS"%string app_OutboxMaxAttempts); [do 2 right; left|done|reflexivity].
  - exact (proj1 (Hd "APP_OUTBOX_POLL_INTERVAL"%string app_OutboxPollInterval ltac:(do 3 right; left))).
  - exact (proj1 (Hi "APP_EVENT_BATCH_SIZE"%string app_EventBatchSize ltac:(left))).
Defined.

(** ** Pushing *)

(** A message, and one with another text and number in the same room. *)
Definition message (id text : string) : OutboxEvent :=
  mkOutboxEvent 9%N "phone" "room-1" "mlsMessageReceived"
    [("roomId", AString "room-1"); ("messageId", AString id); ("senderPublicKey", ABytes alice);
     ("ciphertext", ABytes (to_bytes text))]%string 10 20 None None 1.

(** A sender that is down. *)
Definition failing_sender : Sender := λ _ _, raise ErrDisabled.

Lemma push_hides_content_witness :
  @process _ failing_sender Background (message "1" "hello") initial_World
  = @process _ failing_sender Background (message "2" "goodbye") initial_World.
Proof. apply push_hides_content. unfold same_to_push. split_and!; try reflexivity; split; intros H; vm_compute in H; discriminate H. Defined.

(** ** The process *)

(** The process starts, and the dispatcher fails. *)
Definition start_events : list event :=
  [ERun (RListens None); ERun RKeeps; ERun RStartsHTTP; EServe 0 LListens].
Definition no_database : error := EDatabase "connection refused".
Definition failure_events : list event :=
  [EWorker 0 (WReturns no_database); EWorker 0 WChecks; EWorker 0 WSends; EMain MReceives; EMain MStops].
(** [Shutdown], while the goroutine of the TCP listener and the janitor
    notice; the HTTP server is not idle in time. *)
Definition too_late : error := EText "context deadline exceeded".
Definition shutdown_events (drained : option error) : list event :=
  [EMain MCopies; EMain (MCloses None); EAccept 0 (LReturns (EWrap "accept" net_ErrClosed));
   EWorker 1 (WReturns context_canceled); EMain MBegins; EServe 0 (LReturns http_ErrServerClosed);
   EMain (MReturns drained); EWorker 1 WChecks; EMain MExits].

Definition after (es : list event) : Process := default started (run example_app es started).
Definition a_listener : listener := mkListener "" false Starting.

Lemma supervision_settles_witness :
  serving example_app (after start_events) ∧ goes_on example_app (after (start_events ++ failure_events))
  ∧ (length (start_events ++ failure_events) ≤ 33)%nat.
Proof.
  split; [vm_compute; reflexivity|].
  destruct (supervision_settles example_app (start_events ++ failure_events) (after (start_events ++ failure_events)))
    as [Hlen [Hx|[Hx|Hx]]]; [vm_compute; reflexivity| | |].
  - exfalso. revert Hx. vm_compute. discriminate.
  - exfalso. revert Hx. vm_compute. discriminate.
  - exact (conj Hx Hlen).
Defined.

(** The process of the failed dispatcher exits with status 0, its HTTP
    server closed. *)
Lemma exit_tells_of_shutdown_witness :
  pr_main (after (start_events ++ failure_events ++ shutdown_events None)) = Exited 0
  ∧ failures example_app (start_events ++ failure_events ++ shutdown_events None) started = [no_database]
  ∧ pr_main (after (start_events ++ failure_events ++ shutdown_events (Some too_late))) = Exited 1
  ∧ (∃ err0, err0 ∈ failures example_app (start_events ++ take 4 failure_events) started ∧ passed_on err0 no_database)
  ∧ ∃ l', rt_httpServers (pr_runtime (after (start_events ++ failure_events ++ shutdown_events None))) !! 0%nat = Some l'
    ∧ ln_addr l' = "0.0.0.0:8080"%string ∧ ln_closed l' = true.
Proof.
  split; [vm_compute; reflexivity|]. split; [vm_compute; reflexivity|]. split; [vm_compute; reflexivity|]. split.
  - apply (exit_tells_of_shutdown example_app (start_events ++ take 4 failure_events)
      (after (start_events ++ take 4 failure_events))); vm_compute; reflexivity.
  - destruct (exit_tells_of_shutdown example_app ((start_events ++ failure_events) ++ shutdown_events None)
      (after (start_events ++ failure_events ++ shutdown_events None))) as (_ & _ & Hclosed & _); [vm_compute; reflexivity|].
    destruct (Hclosed (start_events ++ failure_events) (shutdown_events None) (after (start_events ++ failure_events))
      eq_refl) with (http := true) (i := 0%nat)
      (l := nth 0 (rt_httpServers (pr_runtime (after (start_events ++ failure_events)))) a_listener)
      as (l' & H1 & H2 & H3); [vm_compute; reflexivity..|].
    exists l'. split; [exact H1|]. split; [|exact H3]. rewrite H2. vm_compute. reflexivity.
Defined.

(** ** Logging *)

(** A program that logs no floats and no values without a model. *)
Definition plain_marshaler : Marshaler :=
  {| gofloat := Empty_set; float_text := λ f, match f with end; govalue := Empty_set; value_text := λ v, match v with end |}.
#[local] Existing Instance plain_marshaler.

Lemma plain_marshaler_laws : MarshalerLaws.
Proof. split; intros []. Qed.

(** A log file that takes every write. *)
#[local] Instance log_file : Writer Bytes :=
  {| Write := λ payload w, (Z.of_nat (length payload), None, w ++ payload); received := λ w, w |}.

Lemma log_file_laws : WriterLaws Bytes.
Proof.
  constructor. intros payload w n err w' [= <- <- <-]. split; [lia|]. by rewrite Nat2Z.id, firstn_all.
Qed.

(** A message with a line break and a quotation mark, about a failure. *)
Definition newline : string := of_bytes [x0a].
Definition hostile_message : string := "forged" +:+ newline +:+ of_bytes [x22] +:+ ":<admin>".
Definition server_logger : SerilogHandler := WithSource "server_v2/cmd/server" (NewSerilogHandler None).
Definition a_record : LogRecord :=
  mkLogRecord (Some 0) hostile_message LevelError None [("error"%string, VError no_database); ("attempt"%string, VInt64 3)].
Definition a_payload : Bytes := match log_payload server_logger 0 a_record with inr b => b | inl _ => [] end.

Lemma log_file_whole payload w n w' : log_file.(Write) payload w = (n, None, w') → n = Z.of_nat (length payload).
Proof. by intros [= <- _]. Qed.

Lemma record_encodable key v : last_value (record_fields server_logger 0 a_record) key = Some v → encodable v = true ∧ plain v = true.
Proof.
  intros Hv%last_value_in.
  assert (Forall (λ kv, encodable kv.2 = true ∧ plain kv.2 = true) (record_fields server_logger 0 a_record)) as Hall by by_decision.
  rewrite Forall_forall in Hall. exact (Hall _ Hv).
Qed.

Lemma log_line_tells_record_witness :
  ∃ line fs, received a_payload = line ++ [x0a] ∧ (x0a ∉ line) ∧ read_text line = Some (TObject fs)
    ∧ (to_bytes "@m", TString (to_bytes hostile_message)) ∈ fs
    ∧ (to_bytes "@x", TString (to_bytes "connection refused")) ∈ fs.
Proof.
  destruct (@log_line_tells_record plain_marshaler plain_marshaler_laws Bytes log_file log_file_laws server_logger 0 a_record
    [] a_payload None log_file_whole) as [((key & v & Hv & He) & _)|(_ & line & Hline & _ & Hrec & Hread)].
  - vm_compute. reflexivity.
  - exfalso. destruct (record_encodable key v Hv) as [He' _]. rewrite He in He'. discriminate.
  - destruct Hread as (fs & Hfs & Hin); [intros key v Hv; exact (proj2 (record_encodable key v Hv))|].
    exists line, fs. split; [exact (Hrec eq_refl)|]. split; [exact Hline|]. split; [exact Hfs|]. split.
    + apply Hin. exists "@m"%string, (JString hostile_message). vm_compute. split; [reflexivity|split; reflexivity].
    + apply Hin. exists "@x"%string, (JString "connection refused"). vm_compute. split; [reflexivity|split; reflexivity].
Defined.
