(* ===== verification/StreamWitnesses.v ===== *)
(** * StreamWitnesses: open connections on concrete worlds

    Alice signs in over a WebSocket and hangs up; her phone is sent an
    event twice, after its lease; a TCP client reads its greeting, and an
    HTTP connection is closed. *)

From Stdlib Require Import ZArith.
From stdpp Require Import gmap countable pretty relations.
From S2P Require Import Prelude GoLib GoTime Domain Database Effects Concrete Pagination OutboxRepo OutboxInv.
From S2P Require Import OutboxService OutboxSpec AuthRepo AuthService ClientRepo FriendRepo RoomRepo ClientService.
From S2P Require Import RoomService EventBus Rpc Handler Stream ClockSpec HandlerSpec HandlerPull StreamSpec StreamBus.
From S2P Require Import GoDuration Push Config Runtime RuntimeSpec Http Witnesses HandlerWitnesses.

Local Open Scope Z_scope.

Definition conn_of (s : system) : Conn := match s with Live cn _ _ => cn | Dead _ => new_conn end.
Definition bus_of (s : system) : Bus := match s with Live _ b _ => b | Dead _ => new_bus end.
Definition world_of (s : system) : World := match s with Live _ _ w => w | Dead _ => initial_World end.
Definition push_of (s : system) : Push :=
  match cx_push (conn_of s) with Some p => p | None => mkPush "" [] 0 0%N true Stopped end.

(** ** Sent again after the lease *)

(** A service with leases of three readings of the clock. *)
Definition quick : OutboxService := mkOutboxService
  (mkOutboxConfig (300 * Millisecond) 32 3 5 (2 * Minute) 500 (24 * Hour) (24 * Hour)) (Some trace_notifier).
Definition quick_handler : Handler := mkHandler auth_cfg (Some client_cfg) (Some quick).

Definition phone_push (phase : push_phase) : Push := mkPush "phone" alice 0 1%N false phase.
Definition alice_conn : Conn := cx_set_push (Some (phone_push Locking)) new_conn.

Definition writing_of (s : system) : list ResponsePacket :=
  match pu_phase (push_of s) with Writing packets => packets | _ => [] end.
Definition first_of (s : system) : ResponsePacket := nth 0 (writing_of s) (mkResponsePacket 0%N None "" []).

Definition sent_once : system := push_pull quick_handler (phone_push Locking) alice_conn phone_bus outbox2.
Definition written : system :=
  push_write quick_handler (push_of sent_once) (writing_of sent_once) true (conn_of sent_once) (bus_of sent_once) (world_of sent_once).
Definition wait (w : World) : World :=
  mkWorld (w_db w) (w_clock w + 9) (w_uuid w) (w_random w) (w_stmt w) (w_trace w).
Definition later : World := wait (world_of written).

Lemma wait_rely b w : rely b b w (wait w).
Proof. split_and!; [done|done|done|by left|]. simpl. lia. Qed.
Definition checked : system := push_check (push_of written) (conn_of written) (bus_of written) later.
Definition sent_twice : system := push_pull quick_handler (push_of checked) (conn_of checked) (bus_of checked) (world_of checked).

Lemma live_again s : match s with Live _ _ _ => true | Dead _ => false end = true →
  s = Live (conn_of s) (bus_of s) (world_of s).
Proof. by destruct s. Qed.

Lemma checked_from_sent :
  rtc (any_step quick_handler WebSocket true) (Live (conn_of sent_once) (bus_of sent_once) (world_of sent_once)) checked.
Proof.
  apply (rtc_l _ _ written).
  { exists (LPushWrite true). apply step_push_write; vm_compute; reflexivity. }
  rewrite (live_again written) by (vm_compute; reflexivity).
  apply (rtc_l _ _ (Live (conn_of written) (bus_of written) later)).
  { exists LEnvironment. apply step_environment.
    - exact (wait_rely (bus_of written) (world_of written)).
    - by intros key id ch. }
  apply rtc_once. exists LPushCheck. apply step_push_check; vm_compute; reflexivity.
Qed.

Lemma leased_events_sent_once_witness :
  rs_RequestID (first_of sent_once) = rs_RequestID (first_of sent_twice)
  ∧ ∃ until, cx_sent (conn_of sent_once) !! rs_RequestID (first_of sent_once) = Some until
      ∧ until ≤ now_of (world_of sent_twice).
Proof.
  split; [vm_compute; reflexivity|].
  apply (leased_events_sent_once quick_handler WebSocket true concrete_clock_monotone quick trace_notifier_laws eq_refl
    LPushPull LPushPull (Live alice_conn phone_bus outbox2) (conn_of sent_once) (bus_of sent_once) (world_of sent_once)
    (Live (conn_of checked) (bus_of checked) (world_of checked))
    (conn_of sent_twice) (bus_of sent_twice) (world_of sent_twice) (first_of sent_once) (first_of sent_twice)).
  - rewrite <- (live_again sent_once) by (vm_compute; reflexivity). apply step_push_pull; reflexivity.
  - exists (push_of sent_once), (writing_of sent_once). split; [vm_compute; reflexivity|]. split; [vm_compute; reflexivity|].
    apply (list_elem_of_lookup_2 _ 0). vm_compute. reflexivity.
  - rewrite <- (live_again checked) by (vm_compute; reflexivity). exact checked_from_sent.
  - rewrite <- (live_again sent_twice) by (vm_compute; reflexivity). apply step_push_pull; vm_compute; reflexivity.
  - exists (push_of sent_twice), (writing_of sent_twice). split; [vm_compute; reflexivity|]. split; [vm_compute; reflexivity|].
    apply (list_elem_of_lookup_2 _ 0). vm_compute. reflexivity.
  - vm_compute. reflexivity.
Defined.

(** ** Signing in over a WebSocket, and hanging up *)

#[local] Abbreviation websocket_run := (rtc (any_step the_handler WebSocket true)).

Definition read_from (raw : Bytes) (s : system) : system :=
  read_batch the_handler WebSocket true raw (conn_of s) (bus_of s) (world_of s).
Definition write_from (s : system) : system :=
  match cx_reader (conn_of s) with
  | Responding responses requests bytesIn =>
      write_batch the_handler WebSocket responses requests bytesIn true (conn_of s) (bus_of s) (world_of s)
  | _ => s
  end.

Definition opened : system := Live new_conn new_bus initial_World.
Definition asked : system := write_from (read_from (pk_Signature sign_in) opened).
Definition welcomed : system := write_from (read_from (pk_Signature prove_key) asked).
Definition hung_up : system := reader_returns None (conn_of welcomed) (bus_of welcomed) (world_of welcomed).
Definition ended : system := push_check (push_of hung_up) (conn_of hung_up) (bus_of hung_up) (world_of hung_up).

Ltac evaluate := vm_compute; reflexivity.

(** One batch that is answered. *)
Lemma batch_run raw s : match s with Live _ _ _ => true | Dead _ => false end = true →
  cx_reader (conn_of s) = Reading → cx_sent_locked (conn_of s) = false →
  match read_from raw s with Live cn _ _ => match cx_reader cn with Responding _ _ _ => true | _ => false end | Dead _ => false end = true →
  websocket_run s (write_from (read_from raw s)).
Proof.
  destruct s as [cn b w|]; [|done]. intros _ Hr Hl Hn. unfold write_from.
  apply (rtc_l _ _ (read_from raw (Live cn b w))); [exists (LRead raw); by apply step_read|].
  destruct (read_from raw (Live cn b w)) as [cn1 b1 w1|]; [|done]. simpl in *.
  destruct (cx_reader cn1) as [|responses requests bytesIn|] eqn:Er; [done| |done].
  apply rtc_once. exists (LWrite true). by apply step_write.
Qed.

Lemma asked_run : websocket_run opened asked.
Proof. apply batch_run; [done|done|done|evaluate]. Qed.

Lemma welcomed_run : websocket_run opened welcomed.
Proof. etrans; [apply asked_run|]. apply batch_run; evaluate. Qed.

Lemma hung_up_run : websocket_run welcomed hung_up.
Proof.
  apply rtc_once. exists (LHangup None). rewrite (live_again welcomed) at 1 by evaluate. apply step_hangup. evaluate.
Qed.

Lemma subscription_follows_push_witness :
  ∃ p, cx_push (conn_of hung_up) = Some p ∧ pu_device p = "phone"%string
    ∧ ∀ key ch, listeners key (bus_of hung_up) !! pu_id p ≠ Some ch.
Proof.
  pose proof (subscription_follows_push the_handler WebSocket true traced new_bus initial_World
    (conn_of welcomed) (bus_of welcomed) (world_of welcomed) concrete_clock_monotone trace_notifier_laws eq_refl) as Hpush.
  assert (cx_push (conn_of welcomed) = Some (push_of welcomed)) as Ep by evaluate. rewrite Ep in Hpush.
  destruct Hpush as (_ & Hstill & _).
  - exact bus_ok_new.
  - rewrite <- (live_again welcomed) by evaluate. exact welcomed_run.
  - evaluate.
  - destruct (Hstill (conn_of hung_up) (bus_of hung_up) (world_of hung_up)) as (p & Ep' & Edev & _ & _ & _ & Hlist & _).
    + rewrite <- (live_again welcomed), <- (live_again hung_up) by evaluate. exact hung_up_run.
    + evaluate.
    + exists p. split; [exact Ep'|]. split; [rewrite Edev; evaluate|].
      intros key ch [Hst _]%Hlist. revert Hst. vm_compute in Ep'. injection Ep' as <-. vm_compute. discriminate.
Defined.

Lemma ended_run : nsteps (push_step the_handler WebSocket true) 1 hung_up ended.
Proof.
  apply nsteps_once. apply (push_step_of _ _ _ LPushCheck); [|done]. rewrite (live_again hung_up) at 1 by evaluate.
  apply step_push_check; evaluate.
Qed.

Lemma ended_rests : ¬ ∃ s', push_step the_handler WebSocket true ended s'.
Proof.
  rewrite (live_again ended) by evaluate. apply (returned_push_rests _ _ _ _ _ _ (push_of ended)); evaluate.
Qed.

Lemma stuck_is_locking s : stuck_on_lock s → pu_phase (push_of s) = Locking.
Proof. intros (cn & b & w & p & -> & Ep & Eph & _). unfold push_of. simpl. by rewrite Ep. Qed.

Lemma dead_is_not_live msg s : match s with Live _ _ _ => true | Dead _ => false end = true → s ≠ Dead msg.
Proof. by destruct s. Qed.

Lemma ended_live : match ended with Live _ _ _ => true | Dead _ => false end = true.
Proof. evaluate. Qed.

Lemma ended_stopped : pu_phase (push_of ended) = Stopped.
Proof. evaluate. Qed.

Lemma ended_pushes : is_Some (cx_push (conn_of ended)).
Proof. eexists. evaluate. Qed.

Lemma push_gone s key cn b w : s = Live cn b w → is_Some (cx_push (conn_of s)) →
  (∀ p, cx_push cn = Some p → pu_phase p = Stopped ∧ ∀ key, listeners key b !! pu_id p = None) →
  pu_phase (push_of s) = Stopped ∧ listeners key (bus_of s) !! pu_id (push_of s) = None.
Proof. intros -> [p Hp] Hall. unfold push_of. simpl in *. rewrite Hp. by destruct (Hall p Hp). Qed.

Lemma push_goroutine_ends_witness :
  pu_phase (push_of ended) = Stopped ∧ listeners "phone" (bus_of ended) !! pu_id (push_of ended) = None.
Proof.
  destruct (push_goroutine_ends the_handler WebSocket true new_bus initial_World
    (conn_of hung_up) (bus_of hung_up) (world_of hung_up) 1 ended) as [_ Hend].
  - exact bus_ok_new.
  - rewrite <- (live_again hung_up) by evaluate. etrans; [exact welcomed_run|exact hung_up_run].
  - evaluate.
  - evaluate.
  - rewrite <- (live_again hung_up) by evaluate. exact ended_run.
  - destruct (Hend ended_rests) as [(msg & Hd)|[Hlock|(cn & b & w & Es & Hall)]].
    + exfalso. exact (dead_is_not_live msg ended ended_live Hd).
    + apply stuck_is_locking in Hlock. rewrite ended_stopped in Hlock. discriminate Hlock.
    + exact (push_gone ended "phone" cn b w Es ended_pushes Hall).
Defined.

(** ** A greeting in small pieces *)

(** A connection that takes at most seven bytes at a time. *)
#[local] Instance slow_writer : Writer Bytes := {|
  Write payload w := (Z.of_nat (length (take 7 payload)), None, w ++ take 7 payload);
  received w := w |}.

#[local] Instance slow_writer_laws : WriterLaws Bytes.
Proof.
  constructor. intros payload w n err w' [= <- <- <-]. rewrite Nat2Z.id, length_take. split; [lia|].
  change (w ++ take 7 payload = w ++ take (Nat.min 7 (length payload)) payload). f_equal.
  destruct (Nat.le_ge_cases 7 (length payload)) as [Hl|Hl].
  - by rewrite Nat.min_l.
  - rewrite Nat.min_r by done. by rewrite !take_ge.
Qed.

Definition public_ports : AppPortsConfiguration := mkPorts 834 9443 80 443 80 (-1).

Lemma discovery_banner_delivered_witness :
  ∃ w, greet true public_ports [] = Some (WEnd None, w) ∧ w = tcpDiscoveryBanner public_ports
    ∧ read_banner w = Some ([true; true; true; true; true; false], mkPorts 834 9443 80 443 80 4294967295).
Proof.
  destruct (discovery_banner_delivered public_ports ([] : Bytes)) as (err & w & k & Hg & _ & Hall & _ & Hread & _).
  assert (err = None) as -> by (vm_compute in Hg; injection Hg as <- _; reflexivity).
  exists w. split; [exact Hg|]. pose proof (Hall eq_refl) as Ew. simpl in Ew. split; [exact Ew|].
  rewrite Ew, Hread. vm_compute. reflexivity.
Defined.

(** ** An HTTP connection *)

Definition accepted : HTTPServer :=
  match ConnContext 5%N ∅ initial_World with
  | (Ok (_, ids), w) => mkHTTPServer ids ∅ w
  | (_, w) => mkHTTPServer ∅ ∅ w
  end.
Definition http_id : string := default ""%string (hs_ids accepted !! 5%N).
Definition served_by (s : HTTPServer) : HTTPServer :=
  match handleHTTP the_handler Background (Some http_id) (pk_Signature sign_in) (hs_scopes s) (hs_world s) with
  | (Ok (_, _, s'), w) => mkHTTPServer (hs_ids s) s' w
  | _ => s
  end.
Definition served : HTTPServer := served_by accepted.
Definition disconnected : HTTPServer :=
  mkHTTPServer (delete 5%N (hs_ids served)) (OnHTTPConnectionClosed http_id (hs_scopes served)) (hs_world served).

Lemma served_run : http_run the_handler (mkHTTPServer ∅ ∅ initial_World) served.
Proof.
  apply (rtc_l _ _ accepted).
  { exists (HAccept 5%N). apply (http_accept _ _ http_id); [reflexivity|vm_compute; reflexivity|vm_compute; discriminate|].
    intros other. unfold connIDs. by rewrite lookup_empty. }
  apply rtc_once. unfold served, served_by.
  destruct (handleHTTP _ _ _ _ (hs_scopes accepted) (hs_world accepted)) as [[[[st pl] s']|e|msg] w'] eqn:Eh;
    [|vm_compute in Eh; discriminate Eh|vm_compute in Eh; discriminate Eh].
  exists (HRequest 5%N (pk_Signature sign_in) st pl).
  assert (accepted = mkHTTPServer (hs_ids accepted) (hs_scopes accepted) (hs_world accepted)) as Ea by (by destruct accepted).
  rewrite Ea at 1. apply (http_request _ _ http_id); [vm_compute; reflexivity|].
  assert (HTTPConnectionIDFromContext (Some http_id) = Some http_id) as -> by (vm_compute; reflexivity). exact Eh.
Qed.

Lemma http_sessions_follow_connections_witness :
  is_Some (hs_scopes served !! http_id) ∧ hs_scopes disconnected !! http_id = None.
Proof.
  split; [eexists; vm_compute; reflexivity|].
  destruct (http_sessions_follow_connections the_handler initial_World served (HState 5%N StateClosed) disconnected) as (_ & _ & Hc).
  - exact served_run.
  - exact (http_state the_handler 5%N StateClosed (hs_ids served) (hs_scopes served) (hs_world served)).
  - exact (proj1 (Hc http_id eq_refl)).
Defined.

(** ** The access log *)

(** A connection that takes everything: the status and the body it has sent. *)
#[local] Instance wire : ResponseWriter (option Z * Bytes) := {|
  WriteHeader := λ code w, (Some (default code w.1), w.2);
  WriteBody := λ payload w, (Z.of_nat (length payload), None, (Some (default 200 w.1), w.2 ++ payload));
  sent_status := fst; taken_body := snd; answers_HEAD := λ _, false |}.

#[local] Instance wire_laws : ResponseWriterLaws (option Z * Bytes).
Proof.
  constructor; [done|done|]. intros payload w n err w' [= <- <- <-]. split_and!; [lia|lia|done| |done].
  cbn. by rewrite Nat2Z.id, firstn_all.
Qed.

Definition post : HTTPRequest := mkHTTPRequest "POST" client_route false (inr (pk_Signature sign_in)) "10.0.0.1:5000" "curl".
Definition page_not_found (rq : HTTPRequest) : list response_op := reply (http_Error "404 page not found" 404).
(** A client that is no browser is told why it cannot have a WebSocket. *)
Definition no_upgrade (rq : HTTPRequest) : upgrade_result := Refused StatusBadRequest "Bad Request".

Lemma polite_server : polite no_upgrade page_not_found.
Proof. split; [intros rq; by apply reply_orderly|]. intros rq code text [= <- _]. done. Qed.

Abbreviation answered :=
  (serve_mux the_handler no_upgrade (λ _, None) page_not_found public_ports (Some http_id) post ∅ (hs_world accepted)) (only parsing).
Definition answer : list response_op := match answered with (Ok (ops, _), _) => ops | _ => [] end.

Definition returned {A} (r : outcome A * World) : bool := match r.1 with Ok _ => true | _ => false end.
Lemma answered_returns : returned answered = true.
Proof. vm_compute. reflexivity. Qed.
Lemma answer_is_sent : (accessLog answer (None, [])).1.2 = 200 ∧ (accessLog answer (None, [])).2 ≠ 0.
Proof. vm_compute. split; [reflexivity|discriminate]. Qed.

Lemma answered_with : ∃ ops s' w1, answered = (Ok (ops, s'), w1) ∧ answer = ops.
Proof.
  pose proof answered_returns as Hret. unfold answer.
  destruct answered as [[[ops s']|e|msg] w1]; [by exists ops, s', w1|discriminate Hret|discriminate Hret].
Qed.

Lemma access_log_tells_response_witness :
  let '(conn, status, bytes) := accessLog answer (None, []) in
  status = 200 ∧ bytes ≠ 0 ∧ status = default StatusOK (sent_status conn) ∧ bytes = int64 (Z.of_nat (length (sent_body conn))).
Proof.
  pose proof answer_is_sent as [H200 Hne]. destruct answered_with as (ops & s' & w1 & Ea & Eo). rewrite Eo in *.
  destruct (accessLog ops (None, [])) as [[conn status] bytes] eqn:El.
  destruct (access_log_tells_response the_handler no_upgrade (λ _, None) page_not_found public_ports (Some http_id) post ∅ (hs_world accepted)
    ops s' w1 (None, []) conn status bytes) as (Hs & Hb & _ & _);
    [exact polite_server|exact Ea|reflexivity|reflexivity|exact El|].
  exact (conj H200 (conj Hne (conj Hs (Hb eq_refl)))).
Defined.
